(* ===== verification/_CoqProject ===== *)
-Q . S2P
Prelude.v
Types.v
Samples.v
Digest.v
Cursor.v
Wire.v
WireMsg.v
Binary64.v
Observation.v
Stdio.v
Journal.v
Ipc.v
JournalDaemon.v
Gate.v
GateDaemon.v
GateServe.v
Threads.v
GateThreads.v
Dgt.v
Estimator.v
BrokerQueue.v
BrokerThreads.v
Broker.v
Pipeline.v
Failover.v
Json.v
JsonPtr.v
Procutil.v
RuntimeFiles.v
Manifest.v
ManifestParse.v
Supervisor.v
PipelineConfig.v
CSim.v
Worker.v
Launch.v
Cli.v
CliRun.v
Osal.v
Sockets.v
Windows.v
