(* ===== verification/Prelude.v ===== *)
(** * Obicall: a verification library for the sensor-fusion runtime

    Obicall is a set of processes on one machine.  Provider workers send sensor
    observations to a journal daemon; the journal validates and admits them,
    numbers them as windows, appends them to a segment file and streams them to
    two brokers; each broker runs the same Kalman estimator, choosing by a decision
    table which sensors feed it, and publishes one result per window to the gate;
    the gate accepts the results of the broker that owns the current epoch, once
    per window, and persists its state before it acknowledges.  The processes talk
    over framed loopback connections.  This library models the C code of that path
    as executable definitions and proves what the parts promise one another.

    ** Files and the code they model

    - [Prelude]: machine integers as [Z] with their wrap-around, little-endian
      bytes, the [result] type, the tactics and hint databases.
    - [Types]: status codes, enumerations and structs of include/obicall, [sizeof]
      computed from the members, C string functions.  [Samples]: one concrete
      value of each struct.
    - [Digest]: core/digest.c, CRC-32 with its table and streaming SHA-256.
    - [Cursor], [Wire], [WireMsg]: core/wire_cursor.h and core/wire.c.  [WireRead]
      and [Codec] are the interfaces the codecs are proved against and the other
      components use.
    - [Binary64]: C [double] on the Standard Library's [SpecFloat], and its order.
    - [Observation]: core/observation.c.  [Dgt]: core/dgt.c.  [Estimator]:
      core/estimator.c, over the class [Num] of arithmetic operations with an
      instance at binary64 (the program) and one at the reals (its specification).
    - [Stdio]: [FILE*] streams.  [Journal]: core/journal.c.  [JournalDaemon]:
      journal/journal_main.c as a step relation of threads over the shared state.
    - [Ipc]: osal/osal_ipc.c and the handshake of common/procutil.c, over scripts
      of what the socket calls will do.  [Sockets]: opening those connections.
    - [Gate]: core/gate.c.  [GateDaemon]: gate/gate_main.c, one step per message,
      with crashes and restarts.  [GateServe]: its connection threads over the shared
      context.  [GateThreads]: its locked blocks a statement at a time.
    - [BrokerQueue], [Broker]: broker/broker_main.c, the queue between its threads
      and the window loop.  [BrokerThreads]: the queue a statement at a time.
    - [Threads]: osal/osal_thread.c, starting threads, and the mutex as a machine of
      threads that run their locked blocks statement by statement.
    - [Pipeline], [Failover]: no code of their own; the connections from the journal
      through a broker to the gate put together, and the two brokers as replicas.
    - [Json]: core/json_min.c on the suffixes of a text; [JsonPtr]: the same functions as
      written, on positions in a buffer with every access checked.
    - [Manifest], [ManifestParse]: core/manifest.c, parsing, loading a directory,
      dependency resolution and ranking.
    - [Procutil]: the rest of common/procutil.c, with the number formats of the
      standard library that cross process boundaries.  [RuntimeFiles]: the port, pid and
      token files it writes, call by call, with a reader polling in between.
    - [Supervisor]: the monitor and the control functions of supervisor/supervisor.c.
      [PipelineConfig]: supervisor/pipeline_config.c.
    - [CSim]: providers/c_sim/provider_c_sim.c.  [Worker]: worker/worker_main.c with
      the plugin interface of plugin.h; [Worker.SensorSource] is what the worker's
      promise asks of a provider, and [CSim] implements it.
    - [Launch]: [supervisor_start] and the option parsing of the daemons' mains.
    - [Cli], [CliRun]: cli/main.c, with core/status.c and the ABI version of
      core/runtime.c; [Cli] has the commands that read (doctor, validate, status,
      replay), [CliRun] those that run the processes (run, demo) and the dispatch.
    - [Osal]: the parts of osal/osal_process.c, osal_file.c, osal_clock.c and
      osal_thread.c that keep state or compute.
    - [Windows]: the Windows branches of the first three, where they compute: the command
      line of a child against the rules by which it is split again.

    ** What the theorems show

    - Exactly once ([GateDaemon], [Gate]): over any interleaving of messages, failed
      file operations and restarts the gate acknowledges each window of a pipeline
      at most once, in order, under one broker per epoch; a restart after any such run
      succeeds and recovers all it acknowledged; ownership moves only to a ready broker,
      and does move when the owner falls silent.  [Gate] states it against the abstract map from
      pipelines to their last committed window ([Gate.committed]); [GateServe] carries
      it over to any interleaving of connections, each of which is sent the answers to
      its own messages, and [GateThreads] to any interleaving of statements, with a crash
      between any two of them: no window is acknowledged twice and what was acknowledged
      survives.
    - Mutual exclusion ([Threads], [GateThreads], [BrokerThreads]): under the mutex the
      blocks of all threads are as if run one after the other, in the order they ended;
      the broker's queue is linearizable to the bounded queue it refines.
    - Finding each other ([RuntimeFiles]): a runtime file is replaced in one step, and a
      reader that polls for a port never takes another for it, provided all of the text
      reaches the file.
    - The whole path ([Pipeline]): every window the journal sends a broker from the
      first on becomes one result for the observation recorded under that number, and
      the gate accepts all results of the owner that reach it in time, as long as the
      queues between them do not overflow.
    - Failover ([Failover]): brokers that processed the same windows with the decision
      table off agree to the last bit; when the owner falls silent the shadow's
      heartbeat makes it the owner, nothing of the old epoch is accepted any more, and its
      results are committed from its next window on, the ones the old owner would have
      computed.
    - Journal ([Journal], [JournalDaemon]): each subscriber is sent consecutive
      windows, each one the journal decided, as long as it is within the ring;
      admitted sequence numbers of a sensor increase while its boot id stays the same;
      replaying the segment
      returns the decisions that were written, up to the first torn record.
    - Broker ([BrokerQueue], [Broker]): its queue refines a bounded queue, holds the
      journal's windows in order, every result is the function of configuration,
      window and filter it should be, only selected and fresh sensors are fused, and
      a result of the owner the gate has not seen is committed.
    - Command line ([Cli], [CliRun]): validate says ok exactly when the configuration
      can be used, as JSON that reads back; status takes the gate to its reply
      and prints it;
      replaying a segment ends in the filter state of the brokers; run and demo close
      every process they start, and the demo's probe tells whether the epoch moved on.
    - From the sensor to the segment ([CSim], [Worker]): a plugin runs only after
      every check; whatever it does, only valid observations leave the worker; what a
      well-behaved source produces is admitted by the journal, all of it and in order.
    - Processes ([PipelineConfig], [Launch], [Supervisor]): the daemons run with the
      configuration that was loaded, one token and one digest, and each worker with its
      provider's manifest; restarts are rate limited.
    - Selection, estimation and validation ([Dgt], [Estimator], [Observation]):
      minimax with hysteresis chooses an eligible action of least worst case; the
      filter's update is the textbook Kalman update over the reals, entry by entry;
      validation accepts exactly the observations that meet every condition, the last of
      which, a triangular factor, is weaker than what observation.h announces.
    - Providers ([Json], [Manifest], [ManifestParse]): the reader finds what a
      well-formed text holds, and on any text shorter than 2^31 bytes it ends and touches
      nothing outside its buffers; a load order is found exactly when there is one, if
      no manifest lists a dependency twice.
    - Operating system layer ([Osal], [Windows], [Threads]): a child is reaped once, its
      exit code kept and, once waited for, nothing of it left; making a path makes all of
      it; a child on Windows is given the arguments that were meant exactly when none of
      them ends in a backslash; what starting a thread allocates is freed once.
    - Transport and codecs ([Ipc], [Sockets], [Wire], [WireMsg], [Digest]): frames
      arrive as sent whatever the chunking of the stream; opening a connection loses no
      descriptor and leaves this machine on no path; every decoder inverts its encoder
      and accepts nothing else.
    - Limits, in every file: behaviours of the code that fall short of what it means
      to do, as theorems and examples about the same definitions.

    ** Conventions

    - A pointer argument is a valid object: [NULL] checks have no counterpart.  An
      encoder returns the bytes it leaves in its output, a fallible function a
      [result] with the C status.
    - A [double] in a record that crosses the wire is its 64 bits; computation is
      IEEE 754 binary64, round to nearest even, without excess precision or
      contraction.  The bits of a NaN the processor makes, the contents of
      uninitialised buffers and what a failing decoder leaves in its output are
      parameters.
    - Clock readings, outcomes of file operations and the events of a socket are
      inputs, so the theorems hold for every sequence of them.  A mutex makes the
      block it guards one step, as [Threads] shows; [GateThreads] and [BrokerThreads] do
      without this.  The shutdown flags are never set.
    - Loops whose recursion is not structural carry fuel.  SHA-256 and the journal
      replay pass the length of their input, the receive and send loops consume one
      event of their script per turn, the digest of a file by blocks passes the length
      of the file, the loops of [JsonPtr] pass the length of the buffer and one more
      turn, printing a 64-bit number takes twenty digits and the integer part of
      a double 310, the manifest loops pass the number of manifests, waiting for a
      process passes its timeout in steps of ten milliseconds; each of them comes with
      the lemma that this is enough ([sha256_update_loop_done], [close_needed_ok],
      [kahn_loop], [replay_records_ends], [wait_loop_spec]) or has running out as a
      visible outcome (a connection that blocks; the loops of run and demo, which end
      with the list of their turns).
    - [GateDaemon.gate_restart] takes the state file to be readable if it exists.
      [GateDaemon.broker_at] returns a default for an id that is not a broker's,
      where the C code would read outside its array.
    - What a plugin, libm ([log], [cos]) and [sscanf] compute are parameters; the
      theorems hold for every choice of them.
    - Signed arithmetic that overflows, which C leaves undefined, wraps around, except
      where a definition says what it does instead.

    ** Not modelled

    Single calls into the operating system (osal/: signals, joining threads, looking up
    symbols, closing sockets): they keep no state of their own, and what they answer
    enters the models as inputs.  The rest of the Windows branches, and
    the worker's test hooks, which are compiled only into test builds.  Lines printed to
    standard error by the daemons, and the moments of their starts at which they write the
    port and pid files modelled in [RuntimeFiles].
    [obicall_global_init] and [obicall_global_shutdown] set a flag that nothing reads;
    the version string is a constant of the build.
    Nothing else of the C code is left out. *)

From Stdlib Require Export ZArith Lia ZifyBool ZifyNat.
From stdpp Require Export base option numbers list list_numbers.

#[global] Open Scope Z_scope.

Create HintDb obicall discriminated.
Create Rewrite HintDb obicall.

(** ** Machine integers

    A w-bit unsigned C integer is the Z it denotes; the conversions below are
    the wrap-around C prescribes for unsigned types and the two's complement
    reinterpretation every supported compiler gives for signed ones. *)

Definition u8 (v : Z) : Z := v mod 256.
Definition u16 (v : Z) : Z := v mod 65536.
Definition u32 (v : Z) : Z := v mod 4294967296.
Definition u64 (v : Z) : Z := v mod 18446744073709551616.

Definition i32 (v : Z) : Z :=
  let w := u32 v in if w <? 2147483648 then w else w - 4294967296.
Definition i64 (v : Z) : Z :=
  let w := u64 v in if w <? 9223372036854775808 then w else w - 18446744073709551616.

Definition is_u8 (v : Z) : Prop := 0 <= v < 256.
Definition is_u16 (v : Z) : Prop := 0 <= v < 65536.
Definition is_u32 (v : Z) : Prop := 0 <= v < 4294967296.
Definition is_u64 (v : Z) : Prop := 0 <= v < 18446744073709551616.
Definition is_i32 (v : Z) : Prop := -2147483648 <= v < 2147483648.
Definition is_i64 (v : Z) : Prop := -9223372036854775808 <= v < 9223372036854775808.

Definition INT64_MIN : Z := -9223372036854775808.
Definition INT64_MAX : Z := 9223372036854775807.

#[export] Hint Unfold u8 u16 u32 u64 i32 i64 : obicall.
#[export] Hint Unfold is_u8 is_u16 is_u32 is_u64 is_i32 is_i64 : obicall.

(** Unfolds every machine-integer notion and calls [lia]. *)
Ltac mlia :=
  unfold i32, i64, u8, u16, u32, u64, is_u8, is_u16, is_u32, is_u64, is_i32, is_i64,
    INT64_MIN, INT64_MAX in *; cbv zeta in *;
  repeat match goal with
  | H : context [if ?b then _ else _] |- _ => destruct b eqn:?
  | |- context [if ?b then _ else _] => destruct b eqn:?
  end;
  Z.div_mod_to_equations; lia.

(** [lia] with division and modulo, on [nat] and [Z]. *)
Ltac dlia := zify; Z.to_euclidean_division_equations; lia.

Lemma u8_range v : is_u8 (u8 v).
Proof. mlia. Qed.
Lemma u16_range v : is_u16 (u16 v).
Proof. mlia. Qed.
Lemma u32_range v : is_u32 (u32 v).
Proof. mlia. Qed.
Lemma u64_range v : is_u64 (u64 v).
Proof. mlia. Qed.
Lemma i64_range v : is_i64 (i64 v).
Proof. mlia. Qed.
Lemma u8_id v : is_u8 v -> u8 v = v.
Proof. intros; apply Z.mod_small; auto. Qed.
Lemma u16_id v : is_u16 v -> u16 v = v.
Proof. intros; apply Z.mod_small; auto. Qed.
Lemma u32_id v : is_u32 v -> u32 v = v.
Proof. intros; apply Z.mod_small; auto. Qed.
Lemma u64_id v : is_u64 v -> u64 v = v.
Proof. intros; apply Z.mod_small; auto. Qed.
Lemma i64_id v : is_i64 v -> i64 v = v.
Proof. mlia. Qed.
Lemma i64_u64 v : is_i64 v -> i64 (u64 v) = v.
Proof. mlia. Qed.
Lemma i32_u32 v : is_i32 v -> i32 (u32 v) = v.
Proof. mlia. Qed.

#[export] Hint Resolve u8_range u16_range u32_range u64_range i64_range : obicall.
#[export] Hint Rewrite u8_id u16_id u32_id u64_id i64_id i64_u64 i32_u32
  using solve [eauto with obicall] : obicall.

(** ** Bitwise operations stay inside their width *)

Lemma lxor_bound n a b : 0 <= n -> 0 <= a < 2 ^ n -> 0 <= b < 2 ^ n -> 0 <= Z.lxor a b < 2 ^ n.
Proof.
  intros Hn [Ha Ha'] [Hb Hb']. assert (0 <= Z.lxor a b) by (apply Z.lxor_nonneg; tauto).
  split; [done|]. rewrite Z.bounded_iff_bits_nonneg in Ha', Hb' |- * by done.
  intros l Hl. rewrite Z.lxor_spec, Ha', Hb' by done. done.
Qed.

Lemma lor_bound n a b : 0 <= n -> 0 <= a < 2 ^ n -> 0 <= b < 2 ^ n -> 0 <= Z.lor a b < 2 ^ n.
Proof.
  intros Hn [Ha Ha'] [Hb Hb']. assert (0 <= Z.lor a b) by (apply Z.lor_nonneg; tauto).
  split; [done|]. rewrite Z.bounded_iff_bits_nonneg in Ha', Hb' |- * by done.
  intros l Hl. rewrite Z.lor_spec, Ha', Hb' by done. done.
Qed.

Lemma land_255_range a : is_u8 (Z.land a 255).
Proof. change 255 with (Z.ones 8). rewrite Z.land_ones by lia. apply Z.mod_pos_bound. lia. Qed.

Lemma lxor_cancel_l a b c : Z.lxor a b = Z.lxor a c -> b = c.
Proof.
  intros H. rewrite <- (Z.lxor_0_l b), <- (Z.lxor_nilpotent a), Z.lxor_assoc, H.
  by rewrite <- Z.lxor_assoc, Z.lxor_nilpotent, Z.lxor_0_l.
Qed.

#[export] Hint Resolve land_255_range : obicall.

(** ** Little-endian byte strings *)

(** The [n] low bytes of [v], least significant first. *)
Fixpoint le_bytes (n : nat) (v : Z) : list Z :=
  match n with
  | O => []
  | S n => u8 v :: le_bytes n (Z.shiftr v 8)
  end.

(** The number a little-endian byte string denotes. *)
Fixpoint le_value (bs : list Z) : Z :=
  match bs with
  | [] => 0
  | b :: bs => Z.lor b (Z.shiftl (le_value bs) 8)
  end.

Abbreviation bytes := (Forall is_u8).

Lemma lor_shiftl_add b x : is_u8 b -> Z.lor b (Z.shiftl x 8) = b + 256 * x.
Proof.
  intros Hb. rewrite Z.shiftl_mul_pow2 by lia. change (2 ^ 8) with 256.
  rewrite <- Z.lxor_lor, <- Z.add_nocarry_lxor; [lia| |].
  all: rewrite <- (Z.mod_small b 256) by exact Hb;
    change 256 with (2 ^ 8) at 1; rewrite <- Z.land_ones by lia;
    rewrite <- Z.land_assoc, (Z.land_comm (Z.ones 8)), Z.land_ones by lia;
    change (2 ^ 8) with 256; rewrite Z_mod_mult; apply Z.land_0_r.
Qed.

(** A byte is put together again from its halves. *)
Lemma nibbles b : is_u8 b ->
  0 <= Z.shiftr b 4 < 16 /\ 0 <= Z.land b 15 < 16 /\
  u8 (Z.lor (Z.shiftl (Z.shiftr b 4) 4) (Z.land b 15)) = b.
Proof.
  intros Hb.
  assert (Z.lor (Z.shiftl (Z.shiftr b 4) 4) (Z.land b 15) = b) as E.
  { change 15 with (Z.ones 4). rewrite <- Z.ldiff_ones_r by lia. apply Z.bits_inj'. intros n Hn.
    rewrite Z.lor_spec, Z.ldiff_spec, Z.land_spec. by destruct (Z.testbit b n), (Z.testbit (Z.ones 4) n). }
  rewrite E, (u8_id b) by done. rewrite Z.shiftr_div_pow2 by lia. change 15 with (Z.ones 4).
  rewrite Z.land_ones by lia. change (2 ^ 4) with 16. unfold is_u8 in *. split_and!; [mlia..|done].
Qed.

Lemma length_le_bytes n v : length (le_bytes n v) = n.
Proof. revert v; induction n; simpl; auto. Qed.

Lemma le_bytes_bytes n v : bytes (le_bytes n v).
Proof. revert v; induction n; simpl; auto using u8_range. Qed.

Lemma le_value_bytes n v : le_value (le_bytes n v) = v mod 256 ^ Z.of_nat n.
Proof.
  revert v; induction n as [|n IH]; intros v; [by rewrite Z.mod_1_r|].
  cbn [le_bytes le_value]. rewrite IH, lor_shiftl_add by apply u8_range.
  rewrite Nat2Z.inj_succ, Z.pow_succ_r by lia.
  rewrite Z.rem_mul_r by lia. rewrite Z.shiftr_div_pow2 by lia. reflexivity.
Qed.

Lemma le_value_range bs : bytes bs -> 0 <= le_value bs < 256 ^ Z.of_nat (length bs).
Proof.
  induction 1 as [|b bs Hb _ IH]; [simpl; lia|].
  cbn [le_value length]. rewrite lor_shiftl_add by done.
  rewrite Nat2Z.inj_succ, Z.pow_succ_r by lia.
  generalize dependent (256 ^ Z.of_nat (length bs)). intros. mlia.
Qed.

Lemma le_bytes_value bs : bytes bs -> le_bytes (length bs) (le_value bs) = bs.
Proof.
  induction 1 as [|b bs Hb Hbs IH]; [done|].
  cbn [le_value length le_bytes]. rewrite lor_shiftl_add by done.
  rewrite Z.shiftr_div_pow2 by lia. f_equal.
  - mlia.
  - etransitivity; [|exact IH]. f_equal. change (2 ^ 8) with 256. mlia.
Qed.

#[export] Hint Resolve le_bytes_bytes : obicall.

(** ** Results

    A fallible C function returning [obicall_status_t] with out parameters is a
    value of [result E A]: [Ok] carries the out parameters, [Err] the status. *)

Inductive result (E A : Type) : Type :=
| Ok (a : A)
| Err (e : E).
Arguments Ok {E A} a.
Arguments Err {E A} e.

#[global] Instance result_eq_dec {E A} `{EqDecision E, EqDecision A} : EqDecision (result E A).
Proof. solve_decision. Defined.

Definition rbind {E A B} (m : result E A) (f : A -> result E B) : result E B :=
  match m with Ok a => f a | Err e => Err e end.

Declare Scope obicall_scope.
Delimit Scope obicall_scope with obicall.
Notation "'let!' x := m 'in' k" := (rbind m (fun x => k))
  (at level 10, x pattern, m at level 100, k at level 200) : obicall_scope.
#[global] Open Scope obicall_scope.

(** ** Fixed-size C arrays

    A C array is the list of all its elements; [pad n d l] is what a [memset]
    array of [n] elements holds after its first elements were assigned [l]. *)

Definition pad {A} (n : nat) (d : A) (l : list A) : list A := l ++ replicate (n - length l) d.

Lemma length_pad {A} n (d : A) l : (length l <= n)%nat -> length (pad n d l) = n.
Proof. intros. unfold pad. rewrite length_app, length_replicate. lia. Qed.

Lemma take_pad {A} n (d : A) l : take (length l) (pad n d l) = l.
Proof. unfold pad. by rewrite take_app_length. Qed.

Lemma take_pad_length {A} n k (d : A) l : length l = k -> take k (pad n d l) = l.
Proof. intros <-. apply take_pad. Qed.

Lemma Forall_pad {A} (P : A -> Prop) n d l : P d -> Forall P l -> Forall P (pad n d l).
Proof. intros. apply Forall_app; split; [done|by apply Forall_replicate]. Qed.

Lemma pad_full {A} n (d : A) l : length l = n -> pad n d l = l.
Proof. intros <-. unfold pad. by rewrite Nat.sub_diag, app_nil_r. Qed.

Lemma pad_used_take {B} (P : B -> Prop) n x l cnt :
  P x -> Forall P l -> length l = n -> cnt <= Z.of_nat n ->
  length (pad n x (take (Z.to_nat cnt) l)) = n /\ Forall P (pad n x (take (Z.to_nat cnt) l)).
Proof.
  intros Hx Hl Hn Hcnt. split; [|by apply Forall_pad; [|apply Forall_take]].
  apply length_pad. rewrite length_take. lia.
Qed.

#[global] Arguments pad : simpl never.

(** ** Automation *)

(** Case analysis on every [if] and [match] scrutinee of the goal or context. *)
Ltac split_ifs :=
  repeat (case_match; simplify_eq/=; try done).

Lemma length_concat_le_bytes n l : length (concat (le_bytes n <$> l)) = (n * length l)%nat.
Proof.
  induction l as [|x l IH]; [simpl; lia|].
  rewrite fmap_cons. cbn [concat length]. rewrite length_app, length_le_bytes, IH. lia.
Qed.
