(* ===== verification/Types.v ===== *)
(** * Types: the public ABI data model

    The enumerations and structs of include/obicall/{status,types,observation,
    result,checkpoint,event}.h with src/core/status.c and src/core/runtime.c.
    A [double] field of a struct that crosses the wire is kept as its 64-bit
    pattern (a Z below 2^64), exactly what the codecs move; the arithmetic
    components read it through [Binary64.f64_of_bits].  A [char[N]] field is
    the list of its N bytes, terminator and padding included. *)

From S2P Require Import Prelude.
From Stdlib Require Strings.String Strings.Ascii.

(** ** Status codes (status.h, status.c) *)

Inductive status : Type :=
| OBICALL_OK
| OBICALL_ERR_INVALID_ARGUMENT | OBICALL_ERR_NULL_POINTER | OBICALL_ERR_OUT_OF_RANGE
| OBICALL_ERR_BUFFER_TOO_SMALL | OBICALL_ERR_NOT_FOUND | OBICALL_ERR_ALREADY_EXISTS
| OBICALL_ERR_UNSUPPORTED
| OBICALL_ERR_ABI_VERSION_MISMATCH | OBICALL_ERR_ABI_STRUCT_SIZE_MISMATCH
| OBICALL_ERR_SYMBOL_NOT_FOUND | OBICALL_ERR_ARCHITECTURE_MISMATCH
| OBICALL_ERR_ARTIFACT_INTEGRITY | OBICALL_ERR_DEPENDENCY_CYCLE
| OBICALL_ERR_DEPENDENCY_MISSING | OBICALL_ERR_CONFORMANCE_FAILED | OBICALL_ERR_LOAD_FAILED
| OBICALL_ERR_VALIDATION_NON_FINITE | OBICALL_ERR_VALIDATION_DIMENSION
| OBICALL_ERR_VALIDATION_COVARIANCE | OBICALL_ERR_VALIDATION_SEQUENCE
| OBICALL_ERR_VALIDATION_TIMING | OBICALL_ERR_ADMISSION_DUPLICATE
| OBICALL_ERR_ADMISSION_LATE | OBICALL_ERR_ADMISSION_OVERFLOW
| OBICALL_ERR_WIRE_MALFORMED | OBICALL_ERR_WIRE_TOO_LARGE
| OBICALL_ERR_WIRE_VERSION_UNSUPPORTED | OBICALL_ERR_WIRE_CHECKSUM | OBICALL_ERR_IO
| OBICALL_ERR_TIMEOUT | OBICALL_ERR_AUTH | OBICALL_ERR_CONNECTION_CLOSED
| OBICALL_ERR_GATE_NOT_OWNER | OBICALL_ERR_GATE_STALE_EPOCH
| OBICALL_ERR_GATE_DUPLICATE_WINDOW | OBICALL_ERR_GATE_EXPIRED
| OBICALL_ERR_GATE_INCOMPATIBLE | OBICALL_ERR_GATE_NOT_READY | OBICALL_ERR_GATE_PERSISTENCE
| OBICALL_ERR_PROCESS_SPAWN | OBICALL_ERR_PROCESS_NOT_RUNNING | OBICALL_ERR_ALREADY_RUNNING
| OBICALL_ERR_DGT_NO_ELIGIBLE_ACTION | OBICALL_ERR_DGT_INVALID_SCORE
| OBICALL_ERR_INTERNAL.

#[global] Instance status_eq_dec : EqDecision status.
Proof. solve_decision. Defined.

Definition status_code (s : status) : Z :=
  match s with
  | OBICALL_OK => 0
  | OBICALL_ERR_INVALID_ARGUMENT => 1 | OBICALL_ERR_NULL_POINTER => 2
  | OBICALL_ERR_OUT_OF_RANGE => 3 | OBICALL_ERR_BUFFER_TOO_SMALL => 4
  | OBICALL_ERR_NOT_FOUND => 5 | OBICALL_ERR_ALREADY_EXISTS => 6
  | OBICALL_ERR_UNSUPPORTED => 7
  | OBICALL_ERR_ABI_VERSION_MISMATCH => 20 | OBICALL_ERR_ABI_STRUCT_SIZE_MISMATCH => 21
  | OBICALL_ERR_SYMBOL_NOT_FOUND => 22 | OBICALL_ERR_ARCHITECTURE_MISMATCH => 23
  | OBICALL_ERR_ARTIFACT_INTEGRITY => 24 | OBICALL_ERR_DEPENDENCY_CYCLE => 25
  | OBICALL_ERR_DEPENDENCY_MISSING => 26 | OBICALL_ERR_CONFORMANCE_FAILED => 27
  | OBICALL_ERR_LOAD_FAILED => 28
  | OBICALL_ERR_VALIDATION_NON_FINITE => 40 | OBICALL_ERR_VALIDATION_DIMENSION => 41
  | OBICALL_ERR_VALIDATION_COVARIANCE => 42 | OBICALL_ERR_VALIDATION_SEQUENCE => 43
  | OBICALL_ERR_VALIDATION_TIMING => 44 | OBICALL_ERR_ADMISSION_DUPLICATE => 45
  | OBICALL_ERR_ADMISSION_LATE => 46 | OBICALL_ERR_ADMISSION_OVERFLOW => 47
  | OBICALL_ERR_WIRE_MALFORMED => 60 | OBICALL_ERR_WIRE_TOO_LARGE => 61
  | OBICALL_ERR_WIRE_VERSION_UNSUPPORTED => 62 | OBICALL_ERR_WIRE_CHECKSUM => 63
  | OBICALL_ERR_IO => 64 | OBICALL_ERR_TIMEOUT => 65 | OBICALL_ERR_AUTH => 66
  | OBICALL_ERR_CONNECTION_CLOSED => 67
  | OBICALL_ERR_GATE_NOT_OWNER => 80 | OBICALL_ERR_GATE_STALE_EPOCH => 81
  | OBICALL_ERR_GATE_DUPLICATE_WINDOW => 82 | OBICALL_ERR_GATE_EXPIRED => 83
  | OBICALL_ERR_GATE_INCOMPATIBLE => 84 | OBICALL_ERR_GATE_NOT_READY => 85
  | OBICALL_ERR_GATE_PERSISTENCE => 86
  | OBICALL_ERR_PROCESS_SPAWN => 100 | OBICALL_ERR_PROCESS_NOT_RUNNING => 101
  | OBICALL_ERR_ALREADY_RUNNING => 102
  | OBICALL_ERR_DGT_NO_ELIGIBLE_ACTION => 120 | OBICALL_ERR_DGT_INVALID_SCORE => 121
  | OBICALL_ERR_INTERNAL => 255
  end.

Lemma status_code_inj s1 s2 : status_code s1 = status_code s2 -> s1 = s2.
Proof. destruct s1, s2; simpl; congruence. Qed.

Lemma status_code_ok s : status_code s = 0 <-> s = OBICALL_OK.
Proof. destruct s; simpl; split; congruence. Qed.

(** ** Bounds and enumerations (types.h and the per-struct headers) *)

Definition OBICALL_MAX_PAYLOAD_DOUBLES : Z := 6.
Definition OBICALL_MAX_COV_DOUBLES : Z := 36.
Definition OBICALL_MAX_SOURCES : Z := 8.
Definition OBICALL_SENSOR_ID_LEN : nat := 32.
Definition OBICALL_PIPELINE_ID_LEN : nat := 32.
Definition OBICALL_DIGEST_LEN : nat := 32.

Definition OBICALL_FRAME_UNSPECIFIED : Z := 0.
Definition OBICALL_FRAME_LOCAL_ENU : Z := 1.
Definition OBICALL_UNITS_UNSPECIFIED : Z := 0.
Definition OBICALL_UNITS_METERS : Z := 1.
Definition OBICALL_CLOCK_DOMAIN_LOCAL_MONOTONIC : Z := 1.

Definition OBICALL_SHAPE_POSITION_1D : Z := 1.
Definition OBICALL_SHAPE_POSITION_2D : Z := 2.
Definition OBICALL_SHAPE_POSITION_2D_VELOCITY : Z := 3.
Definition OBICALL_SHAPE_RANGE_1D : Z := 4.

Definition OBICALL_RESULT_INVALID : Z := 0.
Definition OBICALL_RESULT_DEGRADED : Z := 1.
Definition OBICALL_RESULT_VALID : Z := 2.

Definition OBICALL_BROKER_NONE : Z := 0.
Definition OBICALL_BROKER_A : Z := 1.
Definition OBICALL_BROKER_B : Z := 2.
Definition OBICALL_EPOCH_NONE : Z := 0.

Definition OBICALL_OBSERVATION_SCHEMA_VERSION : Z := 1.
Definition OBICALL_RESULT_SCHEMA_VERSION : Z := 1.
Definition OBICALL_CHECKPOINT_SCHEMA_VERSION : Z := 1.
Definition OBICALL_EVENT_SCHEMA_VERSION : Z := 1.
Definition OBICALL_MAX_TRACKED_SOURCES : Z := 16.
Definition OBICALL_MAX_STATE_DIM : Z := 6.

(** ** Struct layout

    [sizeof] values enter the wire format ([struct_size] is a field), so they
    are computed from the member list by the natural-alignment rule shared by
    the LP64 and Win64 x86-64 ABIs (docs/ABI.md, "Struct layouts"). *)

Record c_member := CMember { cm_size : Z; cm_align : Z }.

Definition align_up (off al : Z) : Z := (off + al - 1) / al * al.

Fixpoint layout_end (ms : list c_member) (off : Z) : Z :=
  match ms with
  | [] => off
  | m :: ms => layout_end ms (align_up off (cm_align m) + cm_size m)
  end.

Definition c_sizeof (ms : list c_member) : Z :=
  align_up (layout_end ms 0) (foldr (fun m a => Z.max (cm_align m) a) 1 ms).

Definition m_u32 := CMember 4 4.
Definition m_u64 := CMember 8 8.
Definition m_f64 := CMember 8 8.
Definition m_ptr := CMember 8 8.
Definition m_bytes (n : Z) := CMember n 1.
Definition m_array (n : Z) (m : c_member) := CMember (n * cm_size m) (cm_align m).
Definition m_struct (ms : list c_member) :=
  CMember (c_sizeof ms) (foldr (fun m a => Z.max (cm_align m) a) 1 ms).

(** A C array of [n] bytes ([char] or [uint8_t]). *)
Definition is_chars (n : nat) (l : list Z) : Prop := length l = n /\ bytes l.

(** ** Observation (observation.h) *)

Record obicall_observation := Observation {
  obs_struct_size : Z;
  obs_schema_version : Z;
  obs_sensor_id : list Z;             (* char[32] *)
  obs_source_boot_id : Z;
  obs_sequence : Z;
  obs_sample_time_ns : Z;
  obs_arrival_time_ns : Z;
  obs_clock_domain : Z;
  obs_time_uncertainty_s : Z;         (* bits of a double *)
  obs_coordinate_frame : Z;
  obs_units : Z;
  obs_calibration_version : Z;
  obs_payload_shape : Z;
  obs_payload_count : Z;
  obs_payload : list Z;               (* double[6], bits *)
  obs_covariance_count : Z;
  obs_covariance : list Z             (* double[36], bits *)
}.

Definition observation_members : list c_member :=
  [m_u32; m_u32; m_bytes 32; m_u64; m_u64; m_u64; m_u64; m_u32; m_f64; m_u32; m_u32;
   m_u32; m_u32; m_u32; m_array 6 m_f64; m_u32; m_array 36 m_f64].
Definition sizeof_observation : Z := Eval vm_compute in c_sizeof observation_members.

(** What the C types of the fields guarantee of any observation value. *)
Record wf_observation (o : obicall_observation) : Prop := {
  wfo_struct_size : is_u32 (obs_struct_size o);
  wfo_schema_version : is_u32 (obs_schema_version o);
  wfo_sensor_id : is_chars OBICALL_SENSOR_ID_LEN (obs_sensor_id o);
  wfo_source_boot_id : is_u64 (obs_source_boot_id o);
  wfo_sequence : is_u64 (obs_sequence o);
  wfo_sample_time : is_i64 (obs_sample_time_ns o);
  wfo_arrival_time : is_i64 (obs_arrival_time_ns o);
  wfo_clock_domain : is_u32 (obs_clock_domain o);
  wfo_time_uncertainty : is_u64 (obs_time_uncertainty_s o);
  wfo_frame : is_u32 (obs_coordinate_frame o);
  wfo_units : is_u32 (obs_units o);
  wfo_calibration : is_u32 (obs_calibration_version o);
  wfo_shape : is_u32 (obs_payload_shape o);
  wfo_payload_count : is_u32 (obs_payload_count o);
  wfo_payload : length (obs_payload o) = 6%nat;
  wfo_payload_bits : Forall is_u64 (obs_payload o);
  wfo_covariance_count : is_u32 (obs_covariance_count o);
  wfo_covariance : length (obs_covariance o) = 36%nat;
  wfo_covariance_bits : Forall is_u64 (obs_covariance o)
}.

(** ** Result (result.h) *)

Record obicall_result := Result {
  res_struct_size : Z;
  res_schema_version : Z;
  res_pipeline_id : list Z;           (* char[32] *)
  res_window_seq : Z;
  res_broker_id : Z;
  res_epoch : Z;
  res_status : Z;
  res_payload_shape : Z;
  res_payload_count : Z;
  res_payload : list Z;               (* double[6], bits *)
  res_covariance_count : Z;
  res_covariance : list Z;            (* double[36], bits *)
  res_input_digest : list Z;          (* uint8_t[32] *)
  res_config_digest : list Z;         (* uint8_t[32] *)
  res_timestamp_ns : Z;
  res_valid_until_ns : Z;
  res_source_count : Z;
  res_sources : list (list Z);        (* char[8][32] *)
  res_dgt_action_id : Z
}.

Definition result_members : list c_member :=
  [m_u32; m_u32; m_bytes 32; m_u64; m_u32; m_u64; m_u32; m_u32; m_u32; m_array 6 m_f64;
   m_u32; m_array 36 m_f64; m_bytes 32; m_bytes 32; m_u64; m_u64; m_u32;
   m_array 8 (m_bytes 32); m_u32].
Definition sizeof_result : Z := Eval vm_compute in c_sizeof result_members.

Record wf_result (r : obicall_result) : Prop := {
  wfr_struct_size : is_u32 (res_struct_size r);
  wfr_schema_version : is_u32 (res_schema_version r);
  wfr_pipeline_id : is_chars OBICALL_PIPELINE_ID_LEN (res_pipeline_id r);
  wfr_window_seq : is_u64 (res_window_seq r);
  wfr_broker_id : is_u32 (res_broker_id r);
  wfr_epoch : is_u64 (res_epoch r);
  wfr_status : is_u32 (res_status r);
  wfr_shape : is_u32 (res_payload_shape r);
  wfr_payload_count : is_u32 (res_payload_count r);
  wfr_payload : length (res_payload r) = 6%nat;
  wfr_payload_bits : Forall is_u64 (res_payload r);
  wfr_covariance_count : is_u32 (res_covariance_count r);
  wfr_covariance : length (res_covariance r) = 36%nat;
  wfr_covariance_bits : Forall is_u64 (res_covariance r);
  wfr_input_digest : is_chars OBICALL_DIGEST_LEN (res_input_digest r);
  wfr_config_digest : is_chars OBICALL_DIGEST_LEN (res_config_digest r);
  wfr_timestamp : is_i64 (res_timestamp_ns r);
  wfr_valid_until : is_i64 (res_valid_until_ns r);
  wfr_source_count : is_u32 (res_source_count r);
  wfr_sources : length (res_sources r) = 8%nat;
  wfr_sources_len : Forall (is_chars OBICALL_SENSOR_ID_LEN) (res_sources r);
  wfr_action : is_u32 (res_dgt_action_id r)
}.

(** ** Checkpoint (checkpoint.h) *)

Record obicall_source_position := SourcePosition {
  sp_sensor_id : list Z;              (* char[32] *)
  sp_source_boot_id : Z;
  sp_last_sequence : Z
}.

Record obicall_checkpoint := Checkpoint {
  ck_struct_size : Z;
  ck_schema_version : Z;
  ck_pipeline_id : list Z;            (* char[32] *)
  ck_window_seq : Z;
  ck_estimator_mode : Z;
  ck_state_dim : Z;
  ck_state_mean : list Z;             (* double[6], bits *)
  ck_state_covariance : list Z;       (* double[36], bits *)
  ck_calibration_version : Z;
  ck_policy_version : Z;
  ck_dgt_action_id : Z;
  ck_source_count : Z;
  ck_sources : list obicall_source_position; (* [16] *)
  ck_created_at_ns : Z
}.

Definition source_position_members : list c_member := [m_bytes 32; m_u64; m_u64].
Definition checkpoint_members : list c_member :=
  [m_u32; m_u32; m_bytes 32; m_u64; m_u32; m_u32; m_array 6 m_f64; m_array 36 m_f64;
   m_u32; m_u32; m_u32; m_u32; m_array 16 (m_struct source_position_members); m_u64].
Definition sizeof_checkpoint : Z := Eval vm_compute in c_sizeof checkpoint_members.

Record wf_source_position (p : obicall_source_position) : Prop := {
  wfp_sensor_id : is_chars OBICALL_SENSOR_ID_LEN (sp_sensor_id p);
  wfp_boot : is_u64 (sp_source_boot_id p);
  wfp_last : is_u64 (sp_last_sequence p)
}.

Record wf_checkpoint (k : obicall_checkpoint) : Prop := {
  wfk_struct_size : is_u32 (ck_struct_size k);
  wfk_schema_version : is_u32 (ck_schema_version k);
  wfk_pipeline_id : is_chars OBICALL_PIPELINE_ID_LEN (ck_pipeline_id k);
  wfk_window_seq : is_u64 (ck_window_seq k);
  wfk_mode : is_u32 (ck_estimator_mode k);
  wfk_dim : is_u32 (ck_state_dim k);
  wfk_mean : length (ck_state_mean k) = 6%nat;
  wfk_mean_bits : Forall is_u64 (ck_state_mean k);
  wfk_covariance : length (ck_state_covariance k) = 36%nat;
  wfk_covariance_bits : Forall is_u64 (ck_state_covariance k);
  wfk_calibration : is_u32 (ck_calibration_version k);
  wfk_policy : is_u32 (ck_policy_version k);
  wfk_action : is_u32 (ck_dgt_action_id k);
  wfk_source_count : is_u32 (ck_source_count k);
  wfk_sources : length (ck_sources k) = 16%nat;
  wfk_sources_wf : Forall wf_source_position (ck_sources k);
  wfk_created : is_i64 (ck_created_at_ns k)
}.

(** ** Event (event.h): [payload] is the borrowed buffer's contents *)

Record obicall_event := Event {
  ev_struct_size : Z;
  ev_schema_version : Z;
  ev_event_type : Z;
  ev_reserved : Z;
  ev_timestamp_ns : Z;
  ev_payload : list Z
}.

Definition event_members : list c_member :=
  [m_u32; m_u32; m_u32; m_u32; m_u64; m_struct [m_ptr; m_u32]].
Definition sizeof_event : Z := Eval vm_compute in c_sizeof event_members.

Record wf_event (e : obicall_event) : Prop := {
  wfe_struct_size : is_u32 (ev_struct_size e);
  wfe_schema_version : is_u32 (ev_schema_version e);
  wfe_event_type : is_u32 (ev_event_type e);
  wfe_reserved : is_u32 (ev_reserved e);
  wfe_timestamp : is_i64 (ev_timestamp_ns e);
  wfe_payload : bytes (ev_payload e);
  wfe_payload_len : is_u32 (Z.of_nat (length (ev_payload e)))
}.

(** The layout computation agrees with a recorded journal (struct_size 456 in
    recordings/demo.obr) and with the other sizes of the ABI. *)
Example sizeof_abi :
  (sizeof_observation, sizeof_result, sizeof_checkpoint, sizeof_event) = (456, 768, 1184, 40).
Proof. reflexivity. Qed.

(** ** C strings in fixed arrays *)

(** The bytes of a [char] array before its first NUL ([strlen]-bounded view). *)
Fixpoint c_str (s : list Z) : list Z :=
  match s with
  | [] => []
  | b :: s => if b =? 0 then [] else b :: c_str s
  end.

(** [strncpy(dst, src, n - 1)] into a zeroed [char[n]]: at most [n-1] bytes of
    the string, NUL padded. *)
Definition strncpy_zeroed (n : nat) (src : list Z) : list Z :=
  pad n 0 (take (n - 1) (c_str src)).

(** [strncmp(a, b, n) == 0]. *)
Fixpoint strncmp_eq (n : nat) (a b : list Z) : bool :=
  match n with
  | O => true
  | S n =>
      let x := default 0 (head a) in
      let y := default 0 (head b) in
      (x =? y) && ((x =? 0) || strncmp_eq n (tail a) (tail b))
  end.

(** Bytes of an ASCII literal of the source. *)
Fixpoint ascii_bytes (s : String.string) : list Z :=
  match s with
  | String.EmptyString => []
  | String.String c s => Z.of_nat (Ascii.nat_of_ascii c) :: ascii_bytes s
  end.

(** [strtok] with one separator: the non-empty pieces, in order. *)
Fixpoint strtok (sep : Z) (acc s : list Z) : list (list Z) :=
  match s with
  | [] => match acc with [] => [] | _ => [acc] end
  | c :: s =>
      if c =? sep then match acc with [] => strtok sep [] s | _ => acc :: strtok sep [] s end
      else strtok sep (acc ++ [c]) s
  end.

(** ** Lemmas on C strings *)

Lemma c_str_length s : (length (c_str s) <= length s)%nat.
Proof. induction s as [|b s IH]; simpl; [done|]. destruct (b =? 0); simpl; lia. Qed.

Lemma c_str_unterminated s : existsb (fun b => b =? 0) s = false -> c_str s = s.
Proof.
  induction s as [|b s IH]; simpl; [done|]. intros [-> H]%orb_false_iff. by rewrite IH.
Qed.

Lemma c_str_terminated s : existsb (fun b => b =? 0) s = true -> (length (c_str s) < length s)%nat.
Proof.
  induction s as [|b s IH]; simpl; [done|]. destruct (b =? 0) eqn:E; simpl; [lia|].
  intros H. specialize (IH H). lia.
Qed.

Lemma c_str_app_zero l k : Forall (fun b => b <> 0) l -> c_str (l ++ 0 :: k) = l.
Proof.
  induction 1 as [|b l Hb _ IH]; [done|]. simpl. destruct (Z.eqb_spec b 0); [done|]. by rewrite IH.
Qed.

Lemma c_str_nonzero s : Forall (fun b => b <> 0) (c_str s).
Proof.
  induction s as [|b s IH]; simpl; [constructor|]. destruct (Z.eqb_spec b 0); by constructor.
Qed.

(** [strncpy] keeps the text of an id that is terminated. *)
Lemma strncpy_zeroed_spec n s :
  (0 < n)%nat -> length (strncpy_zeroed n s) = n /\
  c_str (strncpy_zeroed n s) = take (n - 1) (c_str s) /\
  existsb (fun b => b =? 0) (strncpy_zeroed n s) = true.
Proof.
  intros Hn. unfold strncpy_zeroed. set (t := take (n - 1) (c_str s)).
  assert (length t <= n - 1)%nat by (unfold t; rewrite length_take; lia).
  split; [apply length_pad; lia|]. unfold pad.
  replace (n - length t)%nat with (S (n - length t - 1)) by lia. cbn [replicate]. split.
  - apply c_str_app_zero. apply Forall_take, c_str_nonzero.
  - rewrite existsb_app. cbn [existsb]. by rewrite Z.eqb_refl, orb_true_r.
Qed.

Lemma c_str_bytes s : bytes s -> bytes (c_str s).
Proof. induction 1 as [|b s Hb _ IH]; cbn [c_str]; [done|]. destruct (b =? 0); by constructor. Qed.

Lemma strncpy_zeroed_chars n s : (0 < n)%nat -> bytes s -> is_chars n (strncpy_zeroed n s).
Proof.
  intros Hn Hs. split; [by apply strncpy_zeroed_spec|]. unfold strncpy_zeroed.
  apply Forall_pad; [done|]. by apply Forall_take, c_str_bytes.
Qed.
