(* ===== verification/Samples.v ===== *)
(** * Samples: concrete inputs

    One small, realistic value per wire struct.  The witnesses evaluate the
    theorems on them. *)

From Stdlib Require Import (notations) Strings.String.
From S2P Require Import Prelude Types.
#[local] Delimit Scope string_scope with string.

(** A [char[n]] holding an ASCII literal. *)
Definition chars (n : nat) (s : String.string) : list Z := pad n 0 (ascii_bytes s).

Lemma forallb_bytes l : forallb (fun b => (0 <=? b) && (b <? 256)) l = true -> bytes l.
Proof.
  induction l as [|b l IH]; [constructor|]. cbn [forallb]. rewrite andb_true_iff. intros [Hb Hl].
  constructor; [unfold is_u8; lia|by apply IH].
Qed.

Lemma is_chars_eval n l :
  (length l =? n)%nat && forallb (fun b => (0 <=? b) && (b <? 256)) l = true -> is_chars n l.
Proof.
  rewrite andb_true_iff. intros [Hl Hb]. split; [by apply Nat.eqb_eq|by apply forallb_bytes].
Qed.

(** 1.0 and 4.0 as bits. *)
Definition f1 : Z := 4607182418800017408.
Definition f4 : Z := 4616189618054758400.

Definition sample_observation : obicall_observation :=
  Observation sizeof_observation 1 (chars 32 "gnss"%string) 77 5 1000000000 1000000500 1
    0 OBICALL_FRAME_LOCAL_ENU OBICALL_UNITS_METERS 1 OBICALL_SHAPE_POSITION_2D 2
    (pad 6 0 [f1; f4]) 4 (pad 36 0 [f4; 0; 0; f4]).

Lemma sample_observation_wf : wf_observation sample_observation.
Proof.
  split; cbn; try (unfold is_u32, is_u64, is_i64; lia); try done.
  - by apply is_chars_eval.
  - unfold pad, is_u64, f1, f4. repeat constructor; lia.
  - unfold pad, is_u64, f1, f4. repeat constructor; lia.
Qed.

Definition sample_result : obicall_result :=
  Result sizeof_result 1 (chars 32 "nav"%string) 7 OBICALL_BROKER_A 1 OBICALL_RESULT_VALID
    OBICALL_SHAPE_POSITION_2D 2 (pad 6 0 [f1; f4]) 4 (pad 36 0 [f4; 0; 0; f4])
    (replicate 32 1) (replicate 32 2) 5000 900000 1
    (pad 8 (replicate 32 0) [chars 32 "gnss"%string]) 3.

Lemma sample_result_wf : wf_result sample_result.
Proof.
  split; cbn; try (unfold is_u32, is_u64, is_i64; lia); try done; try (by apply is_chars_eval).
  - unfold pad, is_u64, f1, f4. repeat constructor; lia.
  - unfold pad, is_u64, f1, f4. repeat constructor; lia.
  - apply Forall_pad; [by apply is_chars_eval|]. apply Forall_singleton. by apply is_chars_eval.
Qed.

Definition sample_checkpoint : obicall_checkpoint :=
  Checkpoint sizeof_checkpoint 1 (chars 32 "nav"%string) 7 1 2 (pad 6 0 [f1; f4])
    (pad 36 0 [f4; 0; 0; f4]) 1 1 3 1
    (pad 16 (SourcePosition (replicate 32 0) 0 0) [SourcePosition (chars 32 "gnss"%string) 77 5]) 12345.

Lemma sample_checkpoint_wf : wf_checkpoint sample_checkpoint.
Proof.
  split; cbn; try (unfold is_u32, is_u64, is_i64; lia); try done; try (by apply is_chars_eval).
  - unfold pad, is_u64, f1, f4. repeat constructor; lia.
  - unfold pad, is_u64, f1, f4. repeat constructor; lia.
  - apply Forall_pad; [|apply Forall_singleton];
      (split; cbn; [by apply is_chars_eval|unfold is_u64; lia..]).
Qed.

Definition sample_event : obicall_event := Event sizeof_event 1 2 0 999 [1; 2; 3].

Lemma sample_event_wf : wf_event sample_event.
Proof.
  split; try (unfold is_u32, is_i64; done). by apply forallb_bytes.
Qed.
