(* ===== verification/Digest.v ===== *)
(** * Digest: CRC-32 and SHA-256 (src/core/digest.c)

    Both algorithms as the C code computes them, on lists of bytes.  The
    streaming SHA-256 keeps the 64-byte buffer array and its fill count; its
    loops carry fuel and return what they did not consume, so that running out
    of fuel would be visible, and [sha256_update_loop_done] proves that the
    fuel the callers pass is always enough. *)

From S2P Require Import Prelude Types.

(** ** CRC-32 *)

Definition crc32_entry_step (c : Z) : Z :=
  if Z.land c 1 =? 0 then Z.shiftr c 1 else Z.lxor 0xEDB88320 (Z.shiftr c 1).

Definition crc32_table_entry (i : Z) : Z := Nat.iter 8 crc32_entry_step i.

Definition crc32_step (crc byte : Z) : Z :=
  Z.lxor (crc32_table_entry (Z.land (Z.lxor crc byte) 0xFF)) (Z.shiftr crc 8).

Definition obicall_crc32 (data : list Z) : Z :=
  Z.lxor (fold_left crc32_step data 0xFFFFFFFF) 0xFFFFFFFF.

(** ** SHA-256 *)

Definition k_sha256_k : list Z :=
  [1116352408; 1899447441; 3049323471; 3921009573; 961987163; 1508970993; 2453635748; 2870763221;
   3624381080; 310598401; 607225278; 1426881987; 1925078388; 2162078206; 2614888103; 3248222580;
   3835390401; 4022224774; 264347078; 604807628; 770255983; 1249150122; 1555081692; 1996064986;
   2554220882; 2821834349; 2952996808; 3210313671; 3336571891; 3584528711; 113926993; 338241895;
   666307205; 773529912; 1294757372; 1396182291; 1695183700; 1986661051; 2177026350; 2456956037;
   2730485921; 2820302411; 3259730800; 3345764771; 3516065817; 3600352804; 4094571909; 275423344;
   430227734; 506948616; 659060556; 883997877; 958139571; 1322822218; 1537002063; 1747873779;
   1955562222; 2024104815; 2227730452; 2361852424; 2428436474; 2756734187; 3204031479; 3329325298].

Definition rotr32 (x n : Z) : Z := Z.lor (Z.shiftr x n) (u32 (Z.shiftl x (32 - n))).

(** Message schedule: [w[0..15]] big-endian words, then 48 derived ones. *)
Definition sha256_block_word (block : list Z) (i : nat) : Z :=
  Z.lor (Z.lor (Z.lor (Z.shiftl (block !!! (i * 4)%nat) 24) (Z.shiftl (block !!! (i * 4 + 1)%nat) 16))
               (Z.shiftl (block !!! (i * 4 + 2)%nat) 8))
        (block !!! (i * 4 + 3)%nat).

Definition sha256_schedule_step (w : list Z) (i : nat) : list Z :=
  let s0 := Z.lxor (Z.lxor (rotr32 (w !!! (i - 15)%nat) 7) (rotr32 (w !!! (i - 15)%nat) 18))
                   (Z.shiftr (w !!! (i - 15)%nat) 3) in
  let s1 := Z.lxor (Z.lxor (rotr32 (w !!! (i - 2)%nat) 17) (rotr32 (w !!! (i - 2)%nat) 19))
                   (Z.shiftr (w !!! (i - 2)%nat) 10) in
  w ++ [u32 (w !!! (i - 16)%nat + s0 + w !!! (i - 7)%nat + s1)].

Definition sha256_schedule (block : list Z) : list Z :=
  fold_left sha256_schedule_step (seq 16 48) (sha256_block_word block <$> seq 0 16).

Record sha_vars := ShaVars { va : Z; vb : Z; vc : Z; vd : Z; ve : Z; vf : Z; vg : Z; vh : Z }.

Definition sha256_round (w : list Z) (v : sha_vars) (i : nat) : sha_vars :=
  let s1 := Z.lxor (Z.lxor (rotr32 (ve v) 6) (rotr32 (ve v) 11)) (rotr32 (ve v) 25) in
  let ch := Z.lxor (Z.land (ve v) (vf v)) (Z.land (Z.lxor (ve v) 0xFFFFFFFF) (vg v)) in
  let temp1 := u32 (vh v + s1 + ch + k_sha256_k !!! i + w !!! i) in
  let s0 := Z.lxor (Z.lxor (rotr32 (va v) 2) (rotr32 (va v) 13)) (rotr32 (va v) 22) in
  let maj := Z.lxor (Z.lxor (Z.land (va v) (vb v)) (Z.land (va v) (vc v))) (Z.land (vb v) (vc v)) in
  let temp2 := u32 (s0 + maj) in
  ShaVars (u32 (temp1 + temp2)) (va v) (vb v) (vc v) (u32 (vd v + temp1)) (ve v) (vf v) (vg v).

Definition sha256_compress (st : sha_vars) (block : list Z) : sha_vars :=
  let w := sha256_schedule block in
  let v := fold_left (sha256_round w) (seq 0 64) st in
  ShaVars (u32 (va st + va v)) (u32 (vb st + vb v)) (u32 (vc st + vc v)) (u32 (vd st + vd v))
          (u32 (ve st + ve v)) (u32 (vf st + vf v)) (u32 (vg st + vg v)) (u32 (vh st + vh v)).

(** [obicall_sha256_ctx_t]. *)
Record sha256_ctx := ShaCtx {
  sha_state : sha_vars;
  sha_total_len : Z;
  sha_buffer : list Z;      (* uint8_t[64] *)
  sha_buffer_len : nat
}.

Definition sha256_iv : sha_vars :=
  ShaVars 0x6a09e667 0xbb67ae85 0x3c6ef372 0xa54ff53a 0x510e527f 0x9b05688c 0x1f83d9ab 0x5be0cd19.

(** [init] leaves the buffer bytes indeterminate: [junk] is whatever they are. *)
Definition obicall_sha256_init (junk : list Z) : sha256_ctx := ShaCtx sha256_iv 0 junk 0.

(** [memcpy(arr + off, data, length data)]. *)
Definition memcpy_at (arr : list Z) (off : nat) (data : list Z) : list Z :=
  take off arr ++ data ++ drop (off + length data) arr.

Fixpoint sha256_update_loop (fuel : nat) (ctx : sha256_ctx) (data : list Z) : sha256_ctx * list Z :=
  match fuel with
  | O => (ctx, data)
  | S fuel =>
      match data with
      | [] => (ctx, [])
      | _ =>
          let n := Nat.min (64 - sha_buffer_len ctx) (length data) in
          let buf := memcpy_at (sha_buffer ctx) (sha_buffer_len ctx) (take n data) in
          let len := (sha_buffer_len ctx + n)%nat in
          let ctx' :=
            if (len =? 64)%nat
            then ShaCtx (sha256_compress (sha_state ctx) buf) (sha_total_len ctx) buf 0
            else ShaCtx (sha_state ctx) (sha_total_len ctx) buf len in
          sha256_update_loop fuel ctx' (drop n data)
      end
  end.

Definition obicall_sha256_update (ctx : sha256_ctx) (data : list Z) : sha256_ctx :=
  let ctx := ShaCtx (sha_state ctx) (u64 (sha_total_len ctx + Z.of_nat (length data)))
                    (sha_buffer ctx) (sha_buffer_len ctx) in
  fst (sha256_update_loop (length data) ctx data).

(** [while (ctx->buffer_len != 56) update(ctx, &zero, 1)]. *)
Fixpoint sha256_pad_loop (fuel : nat) (ctx : sha256_ctx) : sha256_ctx :=
  match fuel with
  | O => ctx
  | S fuel =>
      if (sha_buffer_len ctx =? 56)%nat then ctx
      else sha256_pad_loop fuel (obicall_sha256_update ctx [0])
  end.

Definition be_bytes8 (v : Z) : list Z := (fun i : nat => u8 (Z.shiftr v (56 - 8 * Z.of_nat i))) <$> seq 0 8.
Definition be_bytes4 (v : Z) : list Z := [u8 (Z.shiftr v 24); u8 (Z.shiftr v 16); u8 (Z.shiftr v 8); u8 v].

Definition sha256_output (st : sha_vars) : list Z :=
  be_bytes4 (va st) ++ be_bytes4 (vb st) ++ be_bytes4 (vc st) ++ be_bytes4 (vd st) ++
  be_bytes4 (ve st) ++ be_bytes4 (vf st) ++ be_bytes4 (vg st) ++ be_bytes4 (vh st).

Definition obicall_sha256_final (ctx : sha256_ctx) : list Z :=
  let bit_len := u64 (sha_total_len ctx * 8) in
  let ctx := obicall_sha256_update ctx [0x80] in
  let ctx := sha256_pad_loop 64 ctx in
  let buf := memcpy_at (sha_buffer ctx) (sha_buffer_len ctx) (be_bytes8 bit_len) in
  sha256_output (sha256_compress (sha_state ctx) buf).

(** [junk] is the indeterminate stack buffer of the local context. *)
Definition obicall_sha256 (junk : list Z) (data : list Z) : list Z :=
  obicall_sha256_final (obicall_sha256_update (obicall_sha256_init junk) data).

(** * Proofs *)

(** ** CRC-32 *)

Lemma crc32_entry_step_range c : is_u32 c -> is_u32 (crc32_entry_step c).
Proof.
  intros H. unfold crc32_entry_step.
  assert (Hs : 0 <= Z.shiftr c 1 < 2 ^ 32)
    by (rewrite Z.shiftr_div_pow2 by lia; change (2 ^ 1) with 2; mlia).
  case_match; [exact Hs|]. apply (lxor_bound 32); [lia| |exact Hs]. lia.
Qed.

Lemma crc32_table_entry_range i : is_u8 i -> is_u32 (crc32_table_entry i).
Proof.
  intros H. unfold crc32_table_entry. do 8 (rewrite Nat.iter_succ; apply crc32_entry_step_range).
  simpl. mlia.
Qed.

Lemma crc32_step_range crc b : is_u32 crc -> is_u32 (crc32_step crc b).
Proof.
  intros H. apply (lxor_bound 32); [lia| |].
  - apply crc32_table_entry_range, land_255_range.
  - rewrite Z.shiftr_div_pow2 by lia. change (2 ^ 8) with 256. mlia.
Qed.

Lemma crc32_fold_range data crc : is_u32 crc -> is_u32 (fold_left crc32_step data crc).
Proof. revert crc. induction data; simpl; auto using crc32_step_range. Qed.

Lemma obicall_crc32_range data : is_u32 (obicall_crc32 data).
Proof. apply (lxor_bound 32); [lia|apply crc32_fold_range|]; unfold is_u32; lia. Qed.

#[export] Hint Resolve obicall_crc32_range : obicall.

(** The top bytes of the 256 table entries are pairwise distinct, so the top
    byte of a CRC register determines the last table index used. *)
Definition crc32_top_bytes : list Z :=
  (fun i : nat => Z.shiftr (crc32_table_entry (Z.of_nat i)) 24) <$> seq 0 256.

Lemma crc32_top_bytes_nodup : NoDup crc32_top_bytes.
Proof. vm_compute. apply (bool_decide_unpack _). vm_compute. exact I. Qed.

Lemma crc32_top_byte_inj i j :
  is_u8 i -> is_u8 j ->
  Z.shiftr (crc32_table_entry i) 24 = Z.shiftr (crc32_table_entry j) 24 -> i = j.
Proof.
  intros Hi Hj H.
  assert (Hn : Z.to_nat i = Z.to_nat j); [|mlia].
  apply (NoDup_lookup crc32_top_bytes _ _ (Z.shiftr (crc32_table_entry i) 24) crc32_top_bytes_nodup);
    unfold crc32_top_bytes; rewrite list_lookup_fmap, lookup_seq_lt by mlia; simpl;
    rewrite Z2Nat.id by mlia; congruence.
Qed.

Lemma crc32_step_back k c b c' b' :
  is_u32 c -> is_u32 c' -> 0 <= k <= 24 ->
  Z.shiftr (crc32_step c b) k = Z.shiftr (crc32_step c' b') k ->
  Z.land (Z.lxor c b) 255 = Z.land (Z.lxor c' b') 255 /\
  Z.shiftr c (k + 8) = Z.shiftr c' (k + 8).
Proof.
  intros Hc Hc' Hk H.
  assert (Hidx : Z.land (Z.lxor c b) 255 = Z.land (Z.lxor c' b') 255).
  { apply crc32_top_byte_inj; [apply land_255_range..|].
    apply (f_equal (fun x => Z.shiftr x (24 - k))) in H.
    rewrite !Z.shiftr_shiftr in H by lia. replace (k + (24 - k)) with 24 in H by lia.
    unfold crc32_step in H. rewrite !Z.shiftr_lxor, !Z.shiftr_shiftr in H by lia.
    assert (Hz : forall x, is_u32 x -> Z.shiftr x (8 + 24) = 0)
      by (intros x Hx; rewrite Z.shiftr_div_pow2 by lia; apply Z.div_small; exact Hx).
    by rewrite !Hz, !Z.lxor_0_r in H. }
  split; [done|].
  unfold crc32_step in H. rewrite !Z.shiftr_lxor, Hidx, !Z.shiftr_shiftr in H by lia.
  apply lxor_cancel_l in H. by rewrite (Z.add_comm k).
Qed.

Lemma lxor_land_255_inj c b b' :
  is_u8 b -> is_u8 b' -> Z.land (Z.lxor c b) 255 = Z.land (Z.lxor c b') 255 -> b = b'.
Proof.
  intros Hb Hb' H. change 255 with (Z.ones 8) in H.
  rewrite <- (Z.mod_small b (2 ^ 8)), <- (Z.mod_small b' (2 ^ 8)) by exact Hb || exact Hb'.
  rewrite <- !Z.land_ones by lia. apply Z.bits_inj'. intros n Hn.
  apply (f_equal (fun x => Z.testbit x n)) in H. rewrite !Z.land_spec, !Z.lxor_spec in H.
  rewrite !Z.land_spec. destruct (Z.testbit (Z.ones 8) n); [|by rewrite !andb_false_r].
  rewrite !andb_true_r in *. by destruct (Z.testbit c n), (Z.testbit b n), (Z.testbit b' n).
Qed.

(** From one start register, bytes are determined by the top bits they leave. *)
Lemma crc32_fold_inj w1 w2 c k :
  is_u32 c -> bytes w1 -> bytes w2 -> length w1 = length w2 -> 0 <= k ->
  8 * Z.of_nat (length w1) + k <= 32 ->
  Z.shiftr (fold_left crc32_step w1 c) k = Z.shiftr (fold_left crc32_step w2 c) k ->
  w1 = w2.
Proof.
  intros Hc. revert w2 k. induction w1 as [|b1 w1 IH] using rev_ind; intros w2 k Hb1 Hb2 Hl Hk Hn H.
  { destruct w2; [done|discriminate]. }
  destruct w2 as [|b2 w2 _] using rev_ind; [rewrite length_app in Hl; simpl in Hl; lia|].
  apply Forall_app in Hb1 as [Hb1 Hx1]. apply Forall_app in Hb2 as [Hb2 Hx2].
  rewrite !length_app in Hl. rewrite length_app in Hn. cbn [length] in Hl, Hn. rewrite !fold_left_app in H. cbn [fold_left] in H.
  apply crc32_step_back in H as [Hidx Htop]; [|auto using crc32_fold_range..|lia].
  apply IH in Htop as ->; [|try done; lia..].
  apply lxor_land_255_inj in Hidx; [by subst| |].
  - by inversion Hx1.
  - by inversion Hx2.
Qed.

Lemma crc32_fold_cancel post c c' :
  is_u32 c -> is_u32 c' ->
  fold_left crc32_step post c = fold_left crc32_step post c' -> c = c'.
Proof.
  revert c c'. induction post as [|b post IH]; intros c c' Hc Hc' H; [done|]. simpl in H.
  apply IH in H; [|auto using crc32_step_range..].
  apply (f_equal (fun x => Z.shiftr x 0)) in H.
  destruct (crc32_step_back 0 c b c' b) as [Hidx Htop]; [done..|lia|done|].
  rewrite !Z.lxor_comm with (b := b) in Hidx. change (0 + 8) with 8 in Htop.
  assert (Hlow : forall x, is_u32 x -> x = 256 * Z.shiftr x 8 + x mod 256)
    by (intros x _; rewrite Z.shiftr_div_pow2 by lia; change (2 ^ 8) with 256; mlia).
  assert (Heq : c mod 256 = c' mod 256).
  { apply (lxor_land_255_inj b); [mlia..|].
    change 255 with (Z.ones 8) in *. rewrite !Z.land_ones in * by lia. change 256 with (2 ^ 8).
    rewrite <- !Z.land_ones in * by lia. apply Z.bits_inj'. intros n Hn.
    apply (f_equal (fun x => Z.testbit x n)) in Hidx.
    rewrite !Z.land_spec, !Z.lxor_spec, ?Z.land_spec in *.
    by destruct (Z.testbit (Z.ones 8) n), (Z.testbit b n), (Z.testbit c n), (Z.testbit c' n). }
  rewrite (Hlow c), (Hlow c'), Htop, Heq by done. done.
Qed.

(** A burst confined to at most four consecutive bytes changes the CRC. *)
Lemma crc32_detects_burst pre w1 w2 post :
  bytes w1 -> bytes w2 -> length w1 = length w2 -> (length w1 <= 4)%nat -> w1 <> w2 ->
  obicall_crc32 (pre ++ w1 ++ post) <> obicall_crc32 (pre ++ w2 ++ post).
Proof.
  intros Hb1 Hb2 Hl Hn Hne H. apply Hne. unfold obicall_crc32 in H.
  rewrite (Z.lxor_comm _ 0xFFFFFFFF), (Z.lxor_comm (fold_left _ _ _) 0xFFFFFFFF) in H.
  apply lxor_cancel_l in H. rewrite !fold_left_app in H.
  set (c0 := fold_left crc32_step pre 0xFFFFFFFF) in *.
  assert (Hc0 : is_u32 c0) by (apply crc32_fold_range; mlia).
  apply crc32_fold_cancel in H; [|by apply crc32_fold_range..].
  apply (crc32_fold_inj w1 w2 c0 0); try done; lia.
Qed.

(** ** SHA-256: the streaming context refines padding followed by compression *)

Fixpoint sha256_blocks (n : nat) (st : sha_vars) (l : list Z) : sha_vars :=
  match n with
  | O => st
  | S n => sha256_blocks n (sha256_compress st (take 64 l)) (drop 64 l)
  end.

(** FIPS 180-4 padding of a message (the length field wraps at 2^64 bits). *)
Definition sha256_padded (msg : list Z) : list Z :=
  msg ++ [0x80] ++ replicate ((119 - length msg mod 64) mod 64) 0 ++
  be_bytes8 (u64 (8 * Z.of_nat (length msg))).

Definition sha256_spec (msg : list Z) : list Z :=
  let l := sha256_padded msg in sha256_output (sha256_blocks (length l / 64) sha256_iv l).

(** [ctx] has absorbed exactly the bytes [l]. *)
Definition sha_repr (ctx : sha256_ctx) (l : list Z) : Prop :=
  exists q, length l = (64 * q + sha_buffer_len ctx)%nat /\ (sha_buffer_len ctx < 64)%nat /\
    length (sha_buffer ctx) = 64%nat /\
    sha_state ctx = sha256_blocks q sha256_iv l /\
    take (sha_buffer_len ctx) (sha_buffer ctx) = drop (64 * q) l.

Lemma sha256_blocks_app q st l x :
  (64 * q <= length l)%nat -> sha256_blocks q st (l ++ x) = sha256_blocks q st l.
Proof.
  revert st l. induction q as [|q IH]; intros st l H; [done|]. simpl.
  rewrite take_app_le, drop_app_le by lia. apply IH. rewrite length_drop. lia.
Qed.

Lemma sha256_blocks_snoc q st l :
  sha256_blocks (S q) st l = sha256_compress (sha256_blocks q st l) (take 64 (drop (64 * q) l)).
Proof.
  revert st l. induction q as [|q IH]; intros st l; [done|].
  change (sha256_blocks (S (S q)) st l)
    with (sha256_blocks (S q) (sha256_compress st (take 64 l)) (drop 64 l)).
  rewrite IH, drop_drop. cbn [sha256_blocks]. repeat f_equal. lia.
Qed.

Lemma length_memcpy_at arr off data :
  (off + length data <= length arr)%nat -> length (memcpy_at arr off data) = length arr.
Proof. intros. unfold memcpy_at. rewrite !length_app, length_take, length_drop. lia. Qed.

Lemma take_memcpy_at arr off data :
  (off + length data <= length arr)%nat ->
  take (off + length data) (memcpy_at arr off data) = take off arr ++ data.
Proof.
  intros. unfold memcpy_at. rewrite app_assoc, take_app_le.
  - rewrite take_ge; [done|]. rewrite length_app, length_take. lia.
  - rewrite length_app, length_take. lia.
Qed.

(** One iteration of the update loop absorbs its chunk. *)
Lemma sha_repr_chunk ctx l x tot :
  sha_repr ctx l -> (0 < length x)%nat -> (sha_buffer_len ctx + length x <= 64)%nat ->
  let buf := memcpy_at (sha_buffer ctx) (sha_buffer_len ctx) x in
  let len := (sha_buffer_len ctx + length x)%nat in
  sha_repr (if (len =? 64)%nat then ShaCtx (sha256_compress (sha_state ctx) buf) tot buf 0
            else ShaCtx (sha_state ctx) tot buf len) (l ++ x).
Proof.
  intros (q & Hl & Hlt & Hb & Hst & Hp) Hx Hle buf len.
  assert (Hlb : length buf = 64%nat) by (unfold buf; rewrite length_memcpy_at; lia).
  assert (Htk : take len buf = drop (64 * q) (l ++ x))
    by (unfold buf, len; rewrite take_memcpy_at, Hp, drop_app_le by lia; done).
  destruct (Nat.eqb_spec len 64) as [He|Hne]; unfold len in *.
  - exists (S q). cbn [sha_state sha_total_len sha_buffer sha_buffer_len].
    rewrite !length_app. repeat split; try (assumption || lia).
    + rewrite sha256_blocks_snoc, sha256_blocks_app, <- Hst, <- Htk by lia.
      by rewrite He, take_take, Nat.min_id, take_ge by lia.
    + simpl. rewrite drop_ge; [done|]. rewrite length_app. lia.
  - exists q. cbn [sha_state sha_total_len sha_buffer sha_buffer_len].
    rewrite !length_app. repeat split; try (assumption || lia).
    + by rewrite sha256_blocks_app by lia.
Qed.

Lemma sha256_update_loop_total fuel ctx data :
  sha_total_len (fst (sha256_update_loop fuel ctx data)) = sha_total_len ctx.
Proof.
  revert ctx data. induction fuel as [|fuel IH]; intros ctx data; [done|]. simpl.
  destruct data as [|b data]; [done|]. rewrite IH. by case_match.
Qed.

(** Fuel [length data] is enough: the loop consumes all its input. *)
Lemma sha256_update_loop_done fuel ctx l data :
  sha_repr ctx l -> (length data <= fuel)%nat ->
  sha_repr (fst (sha256_update_loop fuel ctx data)) (l ++ data) /\
  snd (sha256_update_loop fuel ctx data) = [].
Proof.
  revert ctx l data. induction fuel as [|fuel IH]; intros ctx l data Hr Hf.
  { destruct data; [by rewrite app_nil_r|simpl in Hf; lia]. }
  cbn [sha256_update_loop]. destruct data as [|b data]; [by rewrite app_nil_r|].
  set (d := b :: data) in *. assert (Hd : (0 < length d)%nat) by (simpl; lia).
  assert (Hlt : (sha_buffer_len ctx < 64)%nat) by (destruct Hr as (? & ? & ? & _); lia).
  set (n := Nat.min (64 - sha_buffer_len ctx) (length d)).
  assert (Hn : length (take n d) = n) by (rewrite length_take; lia).
  pose proof (sha_repr_chunk ctx l (take n d) (sha_total_len ctx) Hr) as Hstep.
  rewrite Hn in Hstep. cbv zeta in Hstep |- *.
  specialize (IH _ _ (drop n d) (Hstep ltac:(lia) ltac:(lia))).
  rewrite <- app_assoc, take_drop in IH. apply IH. rewrite length_drop. lia.
Qed.

Lemma sha_repr_update ctx l data :
  sha_repr ctx l -> sha_repr (obicall_sha256_update ctx data) (l ++ data).
Proof. intros H. unfold obicall_sha256_update. by apply sha256_update_loop_done. Qed.

Lemma sha_total_update ctx data :
  sha_total_len (obicall_sha256_update ctx data) =
  u64 (sha_total_len ctx + Z.of_nat (length data)).
Proof. unfold obicall_sha256_update. by rewrite sha256_update_loop_total. Qed.

Lemma sha_repr_init junk : length junk = 64%nat -> sha_repr (obicall_sha256_init junk) [].
Proof. exists 0%nat. simpl. auto with lia. Qed.

(** The padding loop stops with 56 buffered bytes after [k < 64] zero bytes. *)
Lemma sha256_pad_loop_done k fuel ctx l :
  sha_repr ctx l -> (k < 64)%nat -> (k <= fuel)%nat ->
  ((sha_buffer_len ctx + k) mod 64 = 56)%nat ->
  sha_repr (sha256_pad_loop fuel ctx) (l ++ replicate k 0) /\
  sha_buffer_len (sha256_pad_loop fuel ctx) = 56%nat.
Proof.
  revert fuel ctx l. induction k as [|k IH]; intros fuel ctx l Hr Hk Hf Hm.
  - assert (Hlt : (sha_buffer_len ctx < 64)%nat) by (destruct Hr as (? & ? & ? & _); lia).
    rewrite Nat.add_0_r, Nat.mod_small in Hm by lia. simpl replicate. rewrite app_nil_r.
    destruct fuel; simpl; [done|]. by rewrite Hm.
  - destruct fuel as [|fuel]; [lia|]. cbn [sha256_pad_loop].
    assert (Hlt : (sha_buffer_len ctx < 64)%nat) by (destruct Hr as (? & ? & ? & _); lia).
    destruct (Nat.eqb_spec (sha_buffer_len ctx) 56) as [He|Hne].
    { rewrite He in Hm. dlia. }
    pose proof (sha_repr_update ctx l [0] Hr) as Hr'.
    assert (Hbl : sha_buffer_len (obicall_sha256_update ctx [0]) =
                  ((sha_buffer_len ctx + 1) mod 64)%nat).
    { destruct Hr as (q & Hl & _), Hr' as (q' & Hl' & Hlt' & _).
      rewrite length_app in Hl'. simpl in Hl'. dlia. }
    destruct (IH fuel _ _ Hr') as [H1 H2]; [lia|lia| |].
    { rewrite Hbl. dlia. }
    rewrite <- app_assoc in H1. done.
Qed.

Lemma length_be_bytes8 v : length (be_bytes8 v) = 8%nat.
Proof. done. Qed.

Lemma sha256_pad_count n : (((n + 1) mod 64 + (119 - n mod 64) mod 64) mod 64 = 56)%nat.
Proof. dlia. Qed.

Lemma sha256_final_correct ctx l :
  sha_repr ctx l -> sha_total_len ctx = u64 (Z.of_nat (length l)) ->
  obicall_sha256_final ctx = sha256_spec l.
Proof.
  intros Hr Htot. unfold obicall_sha256_final, sha256_spec, sha256_padded.
  set (k := ((119 - length l mod 64) mod 64)%nat).
  pose proof (sha_repr_update _ _ [0x80] Hr) as Hr1.
  set (ctx1 := obicall_sha256_update ctx [0x80]) in *.
  assert (Hbl : sha_buffer_len ctx1 = ((length l + 1) mod 64)%nat).
  { destruct Hr1 as (q & Hl & Hlt & _). rewrite length_app in Hl. simpl in Hl. dlia. }
  destruct (sha256_pad_loop_done k 64 ctx1 _ Hr1) as [Hr2 H56]; [unfold k; dlia..| |].
  { rewrite Hbl. apply sha256_pad_count. }
  destruct Hr2 as (q & Hl2 & _ & Hb2 & Hst2 & Hp2). rewrite H56 in *.
  set (ctx2 := sha256_pad_loop 64 ctx1) in *.
  set (lb := be_bytes8 (u64 (8 * Z.of_nat (length l)))).
  replace (be_bytes8 (u64 (sha_total_len ctx * 8))) with lb
    by (unfold lb; f_equal; rewrite Htot; mlia).
  assert (Hlen : length lb = 8%nat) by done.
  rewrite <- !app_assoc in *.
  assert (Hsplit : l ++ [0x80] ++ replicate k 0 ++ lb = (l ++ [0x80] ++ replicate k 0) ++ lb)
    by (by rewrite <- !app_assoc).
  assert (Hdiv : Nat.div (length (l ++ [0x80] ++ replicate k 0 ++ lb)) 64 = S q).
  { rewrite Hsplit, length_app, Hl2, Hlen. dlia. }
  rewrite Hdiv. f_equal. rewrite sha256_blocks_snoc.
  rewrite Hsplit, sha256_blocks_app, <- Hst2 by lia. f_equal.
  rewrite drop_app_le, <- Hp2 by lia. unfold memcpy_at.
  rewrite (drop_ge (sha_buffer ctx2)), app_nil_r by lia.
  rewrite (take_ge (_ ++ _)); [done|]. rewrite length_app, length_take. lia.
Qed.

Lemma sha_updates_correct chunks ctx l :
  sha_repr ctx l -> sha_total_len ctx = u64 (Z.of_nat (length l)) ->
  sha_repr (fold_left obicall_sha256_update chunks ctx) (l ++ concat chunks) /\
  sha_total_len (fold_left obicall_sha256_update chunks ctx) =
    u64 (Z.of_nat (length (l ++ concat chunks))).
Proof.
  revert ctx l. induction chunks as [|c chunks IH]; intros ctx l Hr Ht.
  { simpl. by rewrite app_nil_r. }
  simpl. rewrite app_assoc. apply IH; [by apply sha_repr_update|].
  rewrite sha_total_update, Ht, length_app. mlia.
Qed.

(** Streaming: however a message is split into updates, and whatever the
    uninitialised buffer held, the digest is that of the padded message. *)
Theorem sha256_streaming junk chunks :
  length junk = 64%nat ->
  obicall_sha256_final (fold_left obicall_sha256_update chunks (obicall_sha256_init junk)) =
  sha256_spec (concat chunks).
Proof.
  intros Hj. destruct (sha_updates_correct chunks (obicall_sha256_init junk) []) as [Hr Ht].
  - by apply sha_repr_init.
  - done.
  - by apply sha256_final_correct.
Qed.
