(* ===== verification/Cursor.v ===== *)
(** * Cursor: the bounded write and read cursors (src/core/wire_cursor.h)

    A write cursor is what it has written so far (its offset is the length of
    that), its capacity and its sticky [ok] flag; [wc_off_le_cap] is the
    invariant that makes the C subtraction [cap - off] exact.  A read cursor is
    the unread input and its [ok] flag.  Writers are related up to [wc_equiv]:
    two cursors are the same when both failed or both are equal, because a
    failed encoder returns only its status.  [WireRead] is the interface the
    payload codecs are proved against: a reader inverts a writer on every
    input, and accepts nothing else. *)

From S2P Require Import Prelude Types.

(** ** Writing *)

Record wcursor := WC { wc_out : list Z; wc_cap : Z; wc_ok : bool }.

Definition wc_init (cap : Z) : wcursor := WC [] cap true.

Definition wc_bytes (src : list Z) (c : wcursor) : wcursor :=
  if negb (wc_ok c) then c
  else if Z.of_nat (length src) >? wc_cap c - Z.of_nat (length (wc_out c))
  then WC (wc_out c) (wc_cap c) false
  else WC (wc_out c ++ src) (wc_cap c) true.

Definition wc_u8 (v : Z) : wcursor -> wcursor := wc_bytes [u8 v].
Definition wc_u16 (v : Z) : wcursor -> wcursor := wc_bytes [u8 v; u8 (Z.shiftr v 8)].
Definition wc_u32 (v : Z) : wcursor -> wcursor :=
  wc_bytes [u8 v; u8 (Z.shiftr v 8); u8 (Z.shiftr v 16); u8 (Z.shiftr v 24)].
Definition wc_u64 (v : Z) : wcursor -> wcursor :=
  wc_bytes ((fun i : nat => u8 (Z.shiftr v (8 * Z.of_nat i))) <$> seq 0 8).
Definition wc_i64 (v : Z) : wcursor -> wcursor := wc_u64 (u64 v).
Definition wc_i32 (v : Z) : wcursor -> wcursor := wc_u32 (u32 v).
(** A [double] is written through the 64 bits [memcpy] takes from it. *)
Definition wc_f64 (bits : Z) : wcursor -> wcursor := wc_u64 bits.
Definition wc_fixed (s : list Z) : wcursor -> wcursor := wc_bytes s.

(** [for (i = 0; i < n; ++i) w(arr[i])]. *)
Fixpoint wc_array {A} (w : A -> wcursor -> wcursor) (n : nat) (arr : list A) (c : wcursor) : wcursor :=
  match n, arr with
  | S n, a :: arr => wc_array w n arr (w a c)
  | _, _ => c
  end.

(** The last lines of an encoder: [if (!ok) return e; *out_len = c.off]. *)
Definition wc_finish (e : status) (c : wcursor) : result status (list Z) :=
  if wc_ok c then Ok (wc_out c) else Err e.

(** ** Reading *)

Record rcursor := RC { rc_rest : list Z; rc_ok : bool }.

Definition rc_init (input : list Z) : rcursor := RC input true.

Definition rc_bytes (n : nat) (dst : list Z) (c : rcursor) : list Z * rcursor :=
  if negb (rc_ok c) then (dst, c)
  else if Z.of_nat n >? Z.of_nat (length (rc_rest c)) then (dst, RC (rc_rest c) false)
  else (take n (rc_rest c), RC (drop n (rc_rest c)) true).

Definition rc_u8 (c : rcursor) : Z * rcursor :=
  let '(b, c) := rc_bytes 1 [0] c in (b !!! 0%nat, c).
Definition rc_u16 (c : rcursor) : Z * rcursor :=
  let '(b, c) := rc_bytes 2 [0; 0] c in (u16 (Z.lor (b !!! 0%nat) (Z.shiftl (b !!! 1%nat) 8)), c).
Definition rc_u32 (c : rcursor) : Z * rcursor :=
  let '(b, c) := rc_bytes 4 [0; 0; 0; 0] c in
  (Z.lor (Z.lor (Z.lor (b !!! 0%nat) (Z.shiftl (b !!! 1%nat) 8)) (Z.shiftl (b !!! 2%nat) 16))
         (Z.shiftl (b !!! 3%nat) 24), c).
Definition rc_u64 (c : rcursor) : Z * rcursor :=
  let '(b, c) := rc_bytes 8 (replicate 8 0) c in
  (fold_left (fun v (i : nat) => Z.lor v (Z.shiftl (b !!! i) (8 * Z.of_nat i))) (seq 0 8) 0, c).
Definition rc_i64 (c : rcursor) : Z * rcursor := let '(v, c) := rc_u64 c in (i64 v, c).
Definition rc_i32 (c : rcursor) : Z * rcursor := let '(v, c) := rc_u32 c in (i32 v, c).
Definition rc_f64 (c : rcursor) : Z * rcursor := rc_u64 c.
(** Into a zeroed array of [n] bytes. *)
Definition rc_fixed (n : nat) (c : rcursor) : list Z * rcursor := rc_bytes n (replicate n 0) c.

(** [for (i = 0; i < n; ++i) arr[i] = r()], the elements read in order. *)
Fixpoint rc_array {A} (r : rcursor -> A * rcursor) (n : nat) (c : rcursor) : list A * rcursor :=
  match n with
  | O => ([], c)
  | S n => let '(a, c) := r c in let '(l, c) := rc_array r n c in (a :: l, c)
  end.

(** * Laws *)

(** ** Writers *)

Definition wc_equiv (c1 c2 : wcursor) : Prop :=
  wc_ok c1 = wc_ok c2 /\ (wc_ok c1 = true -> c1 = c2).
Infix "≡w" := wc_equiv (at level 70, no associativity).

#[global] Instance wc_equiv_equivalence : Equivalence wc_equiv.
Proof.
  split.
  - by intros c.
  - intros c1 c2 [H1 H2]. split; [done|]. intros. symmetry. apply H2. congruence.
  - intros c1 c2 c3 [H1 H2] [H3 H4]. split; [congruence|].
    intros. rewrite H2 by done. apply H4. congruence.
Qed.

#[global] Instance wc_bytes_proper src : Proper (wc_equiv ==> wc_equiv) (wc_bytes src).
Proof.
  intros c1 c2 [H1 H2]. destruct (wc_ok c1) eqn:E; [by rewrite H2|].
  unfold wc_bytes. rewrite E, <- H1. simpl. split; [congruence|]. rewrite E. done.
Qed.

#[global] Instance wc_finish_proper e : Proper (wc_equiv ==> eq) (wc_finish e).
Proof. intros c1 c2 [H1 H2]. unfold wc_finish. rewrite <- H1. by case_match; rewrite ?H2. Qed.

(** The offset never exceeds the capacity, so [cap - off] does not wrap. *)
Definition wc_off_le_cap (c : wcursor) : Prop := Z.of_nat (length (wc_out c)) <= wc_cap c.

Lemma wc_bytes_off_le_cap src c : wc_off_le_cap c -> wc_off_le_cap (wc_bytes src c).
Proof.
  unfold wc_off_le_cap, wc_bytes. intros H. do 2 (case_match; [done|]). simpl.
  rewrite length_app. lia.
Qed.

Lemma wc_bytes_app b1 b2 c : wc_bytes b2 (wc_bytes b1 c) ≡w wc_bytes (b1 ++ b2) c.
Proof.
  unfold wc_bytes. destruct (wc_ok c) eqn:E; simpl; [|rewrite E; simpl; done].
  rewrite length_app.
  destruct (Z.of_nat (length b1) >? _) eqn:E1; simpl.
  - destruct (Z.of_nat (length b1 + length b2) >? _) eqn:E2; [done|]. lia.
  - rewrite length_app.
    destruct (Z.of_nat (length b2) >? _) eqn:E2, (Z.of_nat (length b1 + length b2) >? _) eqn:E3;
      try lia; [done|]. by rewrite app_assoc.
Qed.

Lemma wc_finish_bytes e bs cap :
  wc_finish e (wc_bytes bs (wc_init cap)) = if Z.of_nat (length bs) <=? cap then Ok bs else Err e.
Proof. unfold wc_finish, wc_bytes. simpl. split_ifs; lia. Qed.

Lemma le_bytes_nth n v :
  le_bytes n v = (fun i : nat => u8 (Z.shiftr v (8 * Z.of_nat i))) <$> seq 0 n.
Proof.
  revert v. induction n as [|n IH]; intros v; [done|].
  cbn [le_bytes seq fmap list_fmap]. rewrite IH, <- fmap_S_seq, <- list_fmap_compose.
  f_equal. apply list_fmap_ext. intros i x _. unfold compose.
  rewrite Z.shiftr_shiftr by lia. do 2 f_equal. lia.
Qed.

Lemma wc_u32_bytes v : wc_u32 v = wc_bytes (le_bytes 4 v).
Proof. by rewrite le_bytes_nth. Qed.

Lemma wc_u16_bytes v : wc_u16 v = wc_bytes (le_bytes 2 v).
Proof. done. Qed.

Lemma wc_u64_bytes v : wc_u64 v = wc_bytes (le_bytes 8 v).
Proof. by rewrite le_bytes_nth. Qed.

Lemma wc_bytes_nil c : wc_off_le_cap c -> wc_bytes [] c = c.
Proof.
  unfold wc_bytes, wc_off_le_cap. destruct c as [o k []]; simpl; [|done].
  intros. rewrite app_nil_r. case_match; [lia|done].
Qed.

(** Every writer appends a fixed byte string. *)
Class Emits (w : wcursor -> wcursor) (bs : list Z) :=
  emits c c' : c ≡w c' -> wc_off_le_cap c' -> w c ≡w wc_bytes bs c'.
#[export] Hint Mode Emits ! - : typeclass_instances.

#[export] Instance emits_bytes bs : Emits (wc_bytes bs) bs.
Proof. by intros c c' -> _. Qed.
#[export] Instance emits_fixed bs : Emits (wc_fixed bs) bs := emits_bytes bs.
#[export] Instance emits_u8 v : Emits (wc_u8 v) (le_bytes 1 v).
Proof. exact (emits_bytes (le_bytes 1 v)). Qed.
#[export] Instance emits_u16 v : Emits (wc_u16 v) (le_bytes 2 v).
Proof. exact (emits_bytes (le_bytes 2 v)). Qed.
#[export] Instance emits_u32 v : Emits (wc_u32 v) (le_bytes 4 v).
Proof. rewrite wc_u32_bytes. exact (emits_bytes (le_bytes 4 v)). Qed.
#[export] Instance emits_u64 v : Emits (wc_u64 v) (le_bytes 8 v).
Proof. rewrite wc_u64_bytes. exact (emits_bytes (le_bytes 8 v)). Qed.
#[export] Instance emits_i64 v : Emits (wc_i64 v) (le_bytes 8 (u64 v)).
Proof. exact (emits_u64 (u64 v)). Qed.
#[export] Instance emits_i32 v : Emits (wc_i32 v) (le_bytes 4 (u32 v)).
Proof. exact (emits_u32 (u32 v)). Qed.
#[export] Instance emits_f64 v : Emits (wc_f64 v) (le_bytes 8 v).
Proof. exact (emits_u64 v). Qed.
#[global] Typeclasses Opaque wc_bytes wc_fixed wc_u8 wc_u16 wc_u32 wc_u64 wc_i64 wc_i32 wc_f64.
#[global] Typeclasses Opaque rc_bytes rc_fixed rc_u8 rc_u16 rc_u32 rc_u64 rc_i64 rc_i32 rc_f64.

(** Two writers in sequence. *)
Lemma emits_seq w1 w2 b1 b2 :
  Emits w1 b1 -> Emits w2 b2 -> Emits (fun c => w2 (w1 c)) (b1 ++ b2).
Proof.
  intros H1 H2 c c' Hc Hcap. rewrite (H2 _ _ (H1 _ _ Hc Hcap)) by (by apply wc_bytes_off_le_cap).
  apply wc_bytes_app.
Qed.

#[export] Instance emits_array {A} (w : A -> wcursor -> wcursor) (f : A -> list Z) n arr :
  (forall a, Emits (w a) (f a)) -> Emits (wc_array w n arr) (concat (f <$> take n arr)).
Proof.
  intros Hw. revert arr. induction n as [|n IH]; intros [|a arr] c c' Hc Hcap; simpl;
    try by rewrite wc_bytes_nil.
  etransitivity; [|apply wc_bytes_app].
  apply IH; [by apply Hw|by apply wc_bytes_off_le_cap].
Qed.

(** The encoders: each writer of a chain adds its bytes, and the chain succeeds
    when all of them fit. *)
Lemma emits_init cap : 0 <= cap -> wc_init cap ≡w wc_bytes [] (wc_init cap).
Proof. intros. by rewrite wc_bytes_nil. Qed.

Lemma emits_step w b b' c cap :
  Emits w b' -> 0 <= cap -> c ≡w wc_bytes b (wc_init cap) ->
  w c ≡w wc_bytes (b ++ b') (wc_init cap).
Proof.
  intros Hw Hcap Hc. rewrite (Hw _ _ Hc) by (by apply wc_bytes_off_le_cap).
  apply wc_bytes_app.
Qed.

Lemma emits_finish e c b wire cap :
  c ≡w wc_bytes b (wc_init cap) -> b = wire ->
  wc_finish e c = if Z.of_nat (length wire) <=? cap then Ok wire else Err e.
Proof. intros Hc <-. by rewrite Hc, wc_finish_bytes. Qed.

(** Proves that an encoder's chain of writers produces a wire string. *)
Ltac solve_encode :=
  cbv zeta; eapply emits_finish;
  [ repeat (eapply emits_step; [apply _|assumption|]); apply emits_init; assumption
  | cbn [app]; rewrite <- ?app_assoc; reflexivity ].

(** ** Readers *)

(** The interface between the cursor and the payload codecs: [rd] reads back
    what writing [wr a] produced and leaves the rest, and if it succeeds the
    input it consumed is exactly [wr a] of the value it returns. *)
Class WireRead {A} (rd : rcursor -> A * rcursor) (wr : A -> list Z) (ok : A -> Prop) := {
  rd_write : forall a rest, ok a -> rd (RC (wr a ++ rest) true) = (a, RC rest true);
  rd_inv : forall c a c', rd c = (a, c') -> bytes (rc_rest c) ->
    bytes (rc_rest c') /\
    (rc_ok c' = true -> rc_ok c = true /\ rc_rest c = wr a ++ rc_rest c' /\ ok a)
}.
#[export] Hint Mode WireRead - ! - - : typeclass_instances.

Lemma rc_bytes_write n dst l rest :
  length l = n -> rc_bytes n dst (RC (l ++ rest) true) = (l, RC rest true).
Proof.
  intros <-. unfold rc_bytes. simpl. case_match eqn:E; [rewrite length_app in E; lia|].
  by rewrite take_app_length, drop_app_length.
Qed.

Lemma rc_bytes_inv n dst c l c' :
  rc_bytes n dst c = (l, c') -> bytes (rc_rest c) ->
  bytes (rc_rest c') /\
  (rc_ok c' = true -> rc_ok c = true /\ rc_rest c = l ++ rc_rest c' /\ length l = n /\ bytes l).
Proof.
  unfold rc_bytes. intros H Hb. destruct c as [r [|]]; simpl in *; [|by simplify_eq/=].
  case_match eqn:E; simplify_eq/=; [done|]. split; [by apply Forall_drop|].
  intros _. rewrite take_drop, length_take. split_and!; try done; [lia|by apply Forall_take].
Qed.

#[export] Instance read_fixed n :
  WireRead (rc_fixed n) (fun l => l) (is_chars n).
Proof.
  split.
  - intros l rest [Hl _]. by apply rc_bytes_write.
  - intros c l c' H Hb. destruct (rc_bytes_inv _ _ _ _ _ H Hb) as [? Hi]. split; [done|].
    intros Hok. destruct (Hi Hok) as (?&?&?&?). unfold is_chars. auto.
Qed.

(** A reader that assembles [n] bytes into a number. *)
Lemma read_le n dst (f : list Z -> Z) :
  (forall l, length l = n -> bytes l -> f l = le_value l) ->
  WireRead (fun c => let '(b, c) := rc_bytes n dst c in (f b, c)) (le_bytes n)
           (fun v => 0 <= v < 256 ^ Z.of_nat n).
Proof.
  intros Hf. split.
  - intros v rest Hv. rewrite rc_bytes_write by apply length_le_bytes.
    rewrite Hf by auto using length_le_bytes, le_bytes_bytes.
    by rewrite le_value_bytes, Z.mod_small.
  - intros c v c' H Hb. destruct (rc_bytes n dst c) as [l c1] eqn:E. simplify_eq.
    destruct (rc_bytes_inv _ _ _ _ _ E Hb) as [? Hi]. split; [done|].
    intros Hok. destruct (Hi Hok) as (?&?&<-&?). rewrite Hf by done.
    rewrite le_bytes_value by done. split_and!; try done; by apply le_value_range.
Qed.

(** Bytes read into a list of known length, one variable each. *)
Ltac bytes_cases l :=
  repeat (destruct l as [|? l]; [done|]); destruct l; [|done].

#[export] Instance read_u8 : WireRead rc_u8 (le_bytes 1) is_u8.
Proof.
  apply (read_le 1 [0] (fun b => b !!! 0%nat)). intros l Hl Hb.
  destruct l as [|b0 [|]]; try done. cbn. by rewrite Z.lor_0_r.
Qed.

#[export] Instance read_u16 : WireRead rc_u16 (le_bytes 2) is_u16.
Proof.
  apply (read_le 2 [0; 0] (fun b => u16 (Z.lor (b !!! 0%nat) (Z.shiftl (b !!! 1%nat) 8)))).
  intros l Hl Hb. destruct l as [|b0 [|b1 [|]]]; try done.
  cbn. rewrite Z.lor_0_r. apply Z.mod_small.
  decompose_Forall_hyps. rewrite lor_shiftl_add by done. mlia.
Qed.

#[export] Instance read_u32 : WireRead rc_u32 (le_bytes 4) is_u32.
Proof.
  apply (read_le 4 [0; 0; 0; 0] (fun b => Z.lor (Z.lor (Z.lor (b !!! 0%nat) (Z.shiftl (b !!! 1%nat) 8))
     (Z.shiftl (b !!! 2%nat) 16)) (Z.shiftl (b !!! 3%nat) 24))).
  intros l Hl Hb. destruct l as [|b0 [|b1 [|b2 [|b3 [|]]]]]; try done.
  cbn. by rewrite Z.lor_0_r, !Z.shiftl_lor, !Z.shiftl_shiftl, !Z.lor_assoc by lia.
Qed.

#[export] Instance read_u64 : WireRead rc_u64 (le_bytes 8) is_u64.
Proof.
  apply (read_le 8 (replicate 8 0) (fun b => fold_left (fun v (i : nat) =>
    Z.lor v (Z.shiftl (b !!! i) (8 * Z.of_nat i))) (seq 0 8) 0)).
  intros l Hl Hb. destruct l as [|b0 [|b1 [|b2 [|b3 [|b4 [|b5 [|b6 [|b7 [|]]]]]]]]]; try done.
  cbn. by rewrite Z.lor_0_r, !Z.shiftl_lor, !Z.shiftl_shiftl, !Z.lor_assoc by lia.
Qed.
#[export] Instance read_f64 : WireRead rc_f64 (le_bytes 8) is_u64 := read_u64.

(** A reader followed by a bijection on its values. *)
Lemma read_map {A B} rd wr ok (f : A -> B) (g : B -> A) (okb : B -> Prop) :
  WireRead rd wr ok -> (forall b, okb b -> ok (g b) /\ f (g b) = b) ->
  (forall a, ok a -> okb (f a) /\ g (f a) = a) ->
  WireRead (fun c => let '(a, c) := rd c in (f a, c)) (fun b => wr (g b)) okb.
Proof.
  intros R Hg Hf. split.
  - intros b rest Hb. destruct (Hg b Hb) as [? E]. by rewrite rd_write, E.
  - intros c b c' H Hc. destruct (rd c) as [a c1] eqn:E. simplify_eq.
    destruct (rd_inv _ _ _ E Hc) as [? Hi]. split; [done|]. intros Hok.
    destruct (Hi Hok) as (?&?&Ha). destruct (Hf a Ha) as [? ->]. auto.
Qed.

#[export] Instance read_i64 : WireRead rc_i64 (fun v => le_bytes 8 (u64 v)) is_i64.
Proof. apply (read_map rc_u64 _ is_u64); [apply _| |]; intros; split; mlia. Qed.
#[export] Instance read_i32 : WireRead rc_i32 (fun v => le_bytes 4 (u32 v)) is_i32.
Proof. apply (read_map rc_u32 _ is_u32); [apply _| |]; intros; split; mlia. Qed.

#[export] Instance read_array {A} (rd : rcursor -> A * rcursor) wr ok n `{!WireRead rd wr ok} :
  WireRead (rc_array rd n) (fun l => concat (wr <$> l)) (fun l => length l = n /\ Forall ok l).
Proof.
  split.
  - induction n as [|n IH]; intros l rest [Hn Hl]; destruct l as [|a l]; try done.
    simpl in *. inv Hl. rewrite <- app_assoc, rd_write by done.
    by rewrite IH by (split; [lia|done]).
  - induction n as [|n IH]; intros c l c' H Hb; simpl in H; [by simplify_eq|].
    destruct (rd c) as [a c1] eqn:E1. destruct (rc_array rd n c1) as [l1 c2] eqn:E2.
    simplify_eq. destruct (rd_inv _ _ _ E1 Hb) as [Hb1 Hi1].
    destruct (IH _ _ _ E2 Hb1) as [Hb2 Hi2]. split; [done|]. intros Hok.
    destruct (Hi2 Hok) as (Hok1&E3&?&?). destruct (Hi1 Hok1) as (Hok0&E4&?).
    rewrite E4, E3. simpl. rewrite <- app_assoc. split_and!; auto.
Qed.

(** An array of [n] elements of which [cnt] are used. *)
Lemma array_used {A} (P : A -> Prop) n cnt l :
  length l = n -> Forall P l -> 0 <= cnt <= Z.of_nat n ->
  length (take (Z.to_nat cnt) l) = Z.to_nat cnt /\ Forall P (take (Z.to_nat cnt) l).
Proof. intros. rewrite length_take. split; [lia|by apply Forall_take]. Qed.

Ltac blia :=
  unfold OBICALL_MAX_PAYLOAD_DOUBLES, OBICALL_MAX_COV_DOUBLES, OBICALL_MAX_SOURCES,
    OBICALL_MAX_TRACKED_SOURCES, OBICALL_MAX_STATE_DIM in *; lia.

(** The C type guarantee behind one field of a read. *)
Ltac field_side :=
  first [ solve [eauto with obicall]
        | eapply array_used; [eassumption|eassumption|
            repeat match goal with H : is_u32 _ |- _ => destruct H end; blia] ].

Lemma length_pad_used {A} n cnt (d : A) l :
  length l = Z.to_nat cnt -> cnt <= Z.of_nat n -> length (pad n d l) = n.
Proof. intros. apply length_pad. lia. Qed.

Lemma is_chars_zero n : is_chars n (replicate n 0).
Proof. split; [apply length_replicate|apply Forall_replicate; unfold is_u8; lia]. Qed.
Lemma is_u64_zero : is_u64 0.
Proof. unfold is_u64. lia. Qed.
#[export] Hint Resolve is_chars_zero is_u64_zero : obicall.

(** The well-formedness of a decoded record, field by field. *)
Ltac decoded_side :=
  first [ assumption
        | eapply length_pad_used; [eassumption|blia]
        | apply Forall_pad; [solve [eauto with obicall]|assumption]
        | blia ].

(** Reads what a chain of writers wrote, one [rd_write] per field; the side
    conditions come from the C types of the fields. *)
Ltac read_step :=
  match goal with
  | |- context [?rd (RC (?x ++ ?rest) true)] =>
      let E := fresh in
      pose proof (rd_write (rd := rd)) as E; cbv beta in E; rewrite E by field_side;
      clear E; cbv beta iota
  end.

(** Runs a decoder that returned [Ok]: one equation per read, and for every
    guard the branch not taken. *)
Ltac read_cases H :=
  repeat (match type of H with
          | (match ?x with _ => _ end) = _ =>
              let E := fresh "E" in destruct x eqn:E
          end; try discriminate H);
  injection H as <-.

(** From a chain of reads that ended with [rc_ok], the input each consumed. *)
Ltac read_inv input :=
  lazymatch goal with Hb : Forall is_u8 input |- _ =>
    change (Forall is_u8 (rc_rest (rc_init input))) in Hb
  end;
  change input with (rc_rest (rc_init input));
  repeat match goal with
  | H : _ || _ = false |- _ => apply orb_false_iff in H as [? ?]
  | H : negb _ = false |- _ => apply negb_false_iff in H
  end;
  repeat match goal with
  | E : ?rd ?c = (_, ?c'), Hb : Forall is_u8 (rc_rest ?c) |- _ =>
      let Hi := fresh "Hi" in let Hb' := fresh "Hb" in
      pose proof (rd_inv (rd := rd) _ _ _ E Hb) as [Hb' Hi]; clear E
  end;
  repeat match goal with
  | Hok : rc_ok ?c = true, Hi : rc_ok ?c = true -> _ |- _ =>
      let E := fresh "Ein" in destruct (Hi Hok) as (?&E&?); clear Hi; cbv beta in E
  end;
  repeat match goal with
  | H : length _ = _ /\ _ |- _ => destruct H
  end;
  repeat match goal with
  | E : rc_rest ?c = _ ++ rc_rest ?c' |- _ => rewrite E; clear E
  end;
  rewrite <- ?app_assoc;
  repeat match goal with
  | H : Forall is_u8 (rc_rest _) |- _ => clear H
  | H : rc_ok _ = true |- _ => clear H
  end.

#[global] Arguments le_bytes : simpl never.
#[global] Arguments le_value : simpl never.
