(* ===== verification/Wire.v ===== *)
(** * Wire: the payload codecs of src/core/wire.c

    One encoder and one decoder per struct, field by field as the C functions
    write and read them.  An encoder returns the bytes it left in [out] (its
    [*out_len] is their number); a decoder takes the [in_len] bytes of [in].
    The [NULL] checks of the C signatures have no counterpart: a model argument
    is always a valid object.  [Codec] is the contract every codec meets, and
    the one the journal and the gate are proved against. *)

From S2P Require Import Prelude Types Samples Cursor.

(** ** The contract

    [wire a] is the encoding of a valid value; [canon a] is what decoding it
    gives back (the decoders normalise [struct_size] and the unused tails of
    the fixed arrays). *)
Class Codec {A} (enc : A -> Z -> result status (list Z)) (dec : list Z -> result status A)
    (wire : A -> list Z) (valid : A -> Prop) (canon : A -> A) := {
  enc_spec : forall a cap, valid a -> 0 <= cap ->
    enc a cap = if Z.of_nat (length (wire a)) <=? cap then Ok (wire a)
                else Err OBICALL_ERR_BUFFER_TOO_SMALL;
  dec_wire : forall a extra, valid a -> dec (wire a ++ extra) = Ok (canon a);
  dec_sound : forall input a', bytes input -> dec input = Ok a' ->
    exists a extra, valid a /\ input = wire a ++ extra /\ a' = canon a
}.

Section codec.
Context {A} {enc : A -> Z -> result status (list Z)} {dec : list Z -> result status A}
  {wire : A -> list Z} {valid : A -> Prop} {canon : A -> A}
  `{!Codec enc dec wire valid canon}.

Lemma codec_roundtrip a cap bs extra :
  valid a -> 0 <= cap -> enc a cap = Ok bs -> dec (bs ++ extra) = Ok (canon a).
Proof.
  intros Hv Hc. rewrite (enc_spec a cap) by done. case_match; intros; simplify_eq.
  by apply dec_wire.
Qed.

Lemma codec_accepts input a' :
  bytes input ->
  dec input = Ok a' <-> exists a extra, valid a /\ input = wire a ++ extra /\ a' = canon a.
Proof.
  intros Hb. split; [by apply dec_sound|].
  intros (a & extra & Hv & -> & ->). by apply dec_wire.
Qed.

(** No encoding is a proper prefix of another value's encoding. *)
Lemma codec_prefix_free a1 a2 e1 e2 :
  valid a1 -> valid a2 -> wire a1 ++ e1 = wire a2 ++ e2 -> canon a1 = canon a2.
Proof.
  intros H1 H2 E. apply (f_equal dec) in E. rewrite !dec_wire in E by done. congruence.
Qed.
End codec.

(** ** Constants (wire.h) *)

Definition OBICALL_WIRE_MAGIC0 : Z := 79.
Definition OBICALL_WIRE_MAGIC1 : Z := 66.
Definition OBICALL_WIRE_MAGIC2 : Z := 87.
Definition OBICALL_WIRE_MAGIC3 : Z := 70.
Definition OBICALL_WIRE_VERSION : Z := 1.
Definition OBICALL_WIRE_HEADER_LEN : Z := 16.
Definition OBICALL_WIRE_MAX_PAYLOAD : Z := 1048576.

(** ** Frame header *)

Record obicall_wire_header := WireHeader {
  wh_wire_version : Z;
  wh_msg_type : Z;
  wh_flags : Z;
  wh_payload_len : Z;
  wh_crc32 : Z
}.

Record wf_header (h : obicall_wire_header) : Prop := {
  wfh_version : is_u8 (wh_wire_version h);
  wfh_type : is_u8 (wh_msg_type h);
  wfh_flags : is_u16 (wh_flags h);
  wfh_len : is_u32 (wh_payload_len h);
  wfh_crc : is_u32 (wh_crc32 h)
}.

Definition obicall_wire_encode_header (header : obicall_wire_header) : result status (list Z) :=
  let c := wc_init OBICALL_WIRE_HEADER_LEN in
  let c := wc_u8 OBICALL_WIRE_MAGIC0 c in
  let c := wc_u8 OBICALL_WIRE_MAGIC1 c in
  let c := wc_u8 OBICALL_WIRE_MAGIC2 c in
  let c := wc_u8 OBICALL_WIRE_MAGIC3 c in
  let c := wc_u8 (wh_wire_version header) c in
  let c := wc_u8 (wh_msg_type header) c in
  let c := wc_u16 (wh_flags header) c in
  let c := wc_u32 (wh_payload_len header) c in
  let c := wc_u32 (wh_crc32 header) c in
  wc_finish OBICALL_ERR_WIRE_MALFORMED c.

Definition obicall_wire_decode_header (input : list Z) : result status obicall_wire_header :=
  let c := rc_init (take 16 input) in
  let '(m0, c) := rc_u8 c in
  let '(m1, c) := rc_u8 c in
  let '(m2, c) := rc_u8 c in
  let '(m3, c) := rc_u8 c in
  if negb (rc_ok c) || negb (m0 =? OBICALL_WIRE_MAGIC0) || negb (m1 =? OBICALL_WIRE_MAGIC1)
     || negb (m2 =? OBICALL_WIRE_MAGIC2) || negb (m3 =? OBICALL_WIRE_MAGIC3)
  then Err OBICALL_ERR_WIRE_MALFORMED
  else
  let '(version, c) := rc_u8 c in
  let '(msg_type, c) := rc_u8 c in
  let '(flags, c) := rc_u16 c in
  let '(payload_len, c) := rc_u32 c in
  let '(crc32, c) := rc_u32 c in
  if negb (rc_ok c) then Err OBICALL_ERR_WIRE_MALFORMED
  else if negb (version =? OBICALL_WIRE_VERSION) then Err OBICALL_ERR_WIRE_VERSION_UNSUPPORTED
  else if payload_len >? OBICALL_WIRE_MAX_PAYLOAD then Err OBICALL_ERR_WIRE_TOO_LARGE
  else Ok (WireHeader version msg_type flags payload_len crc32).

Definition header_wire (h : obicall_wire_header) : list Z :=
  le_bytes 1 OBICALL_WIRE_MAGIC0 ++ le_bytes 1 OBICALL_WIRE_MAGIC1 ++
  le_bytes 1 OBICALL_WIRE_MAGIC2 ++ le_bytes 1 OBICALL_WIRE_MAGIC3 ++
  le_bytes 1 (wh_wire_version h) ++ le_bytes 1 (wh_msg_type h) ++
  le_bytes 2 (wh_flags h) ++ le_bytes 4 (wh_payload_len h) ++ le_bytes 4 (wh_crc32 h).

(** ** Observation *)

Definition obicall_wire_encode_observation (obs : obicall_observation) (out_cap : Z)
    : result status (list Z) :=
  if (obs_payload_count obs >? OBICALL_MAX_PAYLOAD_DOUBLES)
     || (obs_covariance_count obs >? OBICALL_MAX_COV_DOUBLES)
  then Err OBICALL_ERR_WIRE_MALFORMED
  else
  let c := wc_init out_cap in
  let c := wc_u32 (obs_struct_size obs) c in
  let c := wc_u32 (obs_schema_version obs) c in
  let c := wc_fixed (obs_sensor_id obs) c in
  let c := wc_u64 (obs_source_boot_id obs) c in
  let c := wc_u64 (obs_sequence obs) c in
  let c := wc_i64 (obs_sample_time_ns obs) c in
  let c := wc_i64 (obs_arrival_time_ns obs) c in
  let c := wc_u32 (obs_clock_domain obs) c in
  let c := wc_f64 (obs_time_uncertainty_s obs) c in
  let c := wc_u32 (obs_coordinate_frame obs) c in
  let c := wc_u32 (obs_units obs) c in
  let c := wc_u32 (obs_calibration_version obs) c in
  let c := wc_u32 (obs_payload_shape obs) c in
  let c := wc_u32 (obs_payload_count obs) c in
  let c := wc_array wc_f64 (Z.to_nat (obs_payload_count obs)) (obs_payload obs) c in
  let c := wc_u32 (obs_covariance_count obs) c in
  let c := wc_array wc_f64 (Z.to_nat (obs_covariance_count obs)) (obs_covariance obs) c in
  wc_finish OBICALL_ERR_BUFFER_TOO_SMALL c.

Definition obicall_wire_decode_observation (input : list Z) : result status obicall_observation :=
  let c := rc_init input in
  let '(_, c) := rc_u32 c in
  let '(schema_version, c) := rc_u32 c in
  let '(sensor_id, c) := rc_fixed OBICALL_SENSOR_ID_LEN c in
  let '(source_boot_id, c) := rc_u64 c in
  let '(sequence, c) := rc_u64 c in
  let '(sample_time_ns, c) := rc_i64 c in
  let '(arrival_time_ns, c) := rc_i64 c in
  let '(clock_domain, c) := rc_u32 c in
  let '(time_uncertainty_s, c) := rc_f64 c in
  let '(coordinate_frame, c) := rc_u32 c in
  let '(units, c) := rc_u32 c in
  let '(calibration_version, c) := rc_u32 c in
  let '(payload_shape, c) := rc_u32 c in
  let '(payload_count, c) := rc_u32 c in
  if negb (rc_ok c) || (payload_count >? OBICALL_MAX_PAYLOAD_DOUBLES)
  then Err OBICALL_ERR_WIRE_MALFORMED
  else
  let '(payload, c) := rc_array rc_f64 (Z.to_nat payload_count) c in
  let '(covariance_count, c) := rc_u32 c in
  if negb (rc_ok c) || (covariance_count >? OBICALL_MAX_COV_DOUBLES)
  then Err OBICALL_ERR_WIRE_MALFORMED
  else
  let '(covariance, c) := rc_array rc_f64 (Z.to_nat covariance_count) c in
  if negb (rc_ok c) then Err OBICALL_ERR_WIRE_MALFORMED
  else Ok (Observation sizeof_observation schema_version sensor_id source_boot_id sequence
             sample_time_ns arrival_time_ns clock_domain time_uncertainty_s coordinate_frame
             units calibration_version payload_shape payload_count (pad 6 0 payload)
             covariance_count (pad 36 0 covariance)).

Definition observation_wire (o : obicall_observation) : list Z :=
  le_bytes 4 (obs_struct_size o) ++ le_bytes 4 (obs_schema_version o) ++ obs_sensor_id o ++
  le_bytes 8 (obs_source_boot_id o) ++ le_bytes 8 (obs_sequence o) ++
  le_bytes 8 (u64 (obs_sample_time_ns o)) ++ le_bytes 8 (u64 (obs_arrival_time_ns o)) ++
  le_bytes 4 (obs_clock_domain o) ++ le_bytes 8 (obs_time_uncertainty_s o) ++
  le_bytes 4 (obs_coordinate_frame o) ++ le_bytes 4 (obs_units o) ++
  le_bytes 4 (obs_calibration_version o) ++ le_bytes 4 (obs_payload_shape o) ++
  le_bytes 4 (obs_payload_count o) ++
  concat (le_bytes 8 <$> take (Z.to_nat (obs_payload_count o)) (obs_payload o)) ++
  le_bytes 4 (obs_covariance_count o) ++
  concat (le_bytes 8 <$> take (Z.to_nat (obs_covariance_count o)) (obs_covariance o)).

Record valid_observation (o : obicall_observation) : Prop := {
  vo_wf : wf_observation o;
  vo_payload_count : obs_payload_count o <= OBICALL_MAX_PAYLOAD_DOUBLES;
  vo_covariance_count : obs_covariance_count o <= OBICALL_MAX_COV_DOUBLES
}.

(** The canonical image: this build's [struct_size], zeroed array tails. *)
Definition canon_observation (o : obicall_observation) : obicall_observation :=
  Observation sizeof_observation (obs_schema_version o) (obs_sensor_id o) (obs_source_boot_id o)
    (obs_sequence o) (obs_sample_time_ns o) (obs_arrival_time_ns o) (obs_clock_domain o)
    (obs_time_uncertainty_s o) (obs_coordinate_frame o) (obs_units o) (obs_calibration_version o)
    (obs_payload_shape o) (obs_payload_count o)
    (pad 6 0 (take (Z.to_nat (obs_payload_count o)) (obs_payload o)))
    (obs_covariance_count o)
    (pad 36 0 (take (Z.to_nat (obs_covariance_count o)) (obs_covariance o))).

(** ** Result *)

Definition obicall_wire_encode_result (r : obicall_result) (out_cap : Z) : result status (list Z) :=
  if (res_payload_count r >? OBICALL_MAX_PAYLOAD_DOUBLES)
     || (res_covariance_count r >? OBICALL_MAX_COV_DOUBLES)
     || (res_source_count r >? OBICALL_MAX_SOURCES)
  then Err OBICALL_ERR_WIRE_MALFORMED
  else
  let c := wc_init out_cap in
  let c := wc_u32 (res_struct_size r) c in
  let c := wc_u32 (res_schema_version r) c in
  let c := wc_fixed (res_pipeline_id r) c in
  let c := wc_u64 (res_window_seq r) c in
  let c := wc_u32 (res_broker_id r) c in
  let c := wc_u64 (res_epoch r) c in
  let c := wc_u32 (res_status r) c in
  let c := wc_u32 (res_payload_shape r) c in
  let c := wc_u32 (res_payload_count r) c in
  let c := wc_array wc_f64 (Z.to_nat (res_payload_count r)) (res_payload r) c in
  let c := wc_u32 (res_covariance_count r) c in
  let c := wc_array wc_f64 (Z.to_nat (res_covariance_count r)) (res_covariance r) c in
  let c := wc_bytes (res_input_digest r) c in
  let c := wc_bytes (res_config_digest r) c in
  let c := wc_i64 (res_timestamp_ns r) c in
  let c := wc_i64 (res_valid_until_ns r) c in
  let c := wc_u32 (res_source_count r) c in
  let c := wc_array wc_fixed (Z.to_nat (res_source_count r)) (res_sources r) c in
  let c := wc_u32 (res_dgt_action_id r) c in
  wc_finish OBICALL_ERR_BUFFER_TOO_SMALL c.

Definition obicall_wire_decode_result (input : list Z) : result status obicall_result :=
  let c := rc_init input in
  let '(_, c) := rc_u32 c in
  let '(schema_version, c) := rc_u32 c in
  let '(pipeline_id, c) := rc_fixed OBICALL_PIPELINE_ID_LEN c in
  let '(window_seq, c) := rc_u64 c in
  let '(broker_id, c) := rc_u32 c in
  let '(epoch, c) := rc_u64 c in
  let '(status, c) := rc_u32 c in
  let '(payload_shape, c) := rc_u32 c in
  let '(payload_count, c) := rc_u32 c in
  if negb (rc_ok c) || (payload_count >? OBICALL_MAX_PAYLOAD_DOUBLES)
  then Err OBICALL_ERR_WIRE_MALFORMED
  else
  let '(payload, c) := rc_array rc_f64 (Z.to_nat payload_count) c in
  let '(covariance_count, c) := rc_u32 c in
  if negb (rc_ok c) || (covariance_count >? OBICALL_MAX_COV_DOUBLES)
  then Err OBICALL_ERR_WIRE_MALFORMED
  else
  let '(covariance, c) := rc_array rc_f64 (Z.to_nat covariance_count) c in
  let '(input_digest, c) := rc_fixed OBICALL_DIGEST_LEN c in
  let '(config_digest, c) := rc_fixed OBICALL_DIGEST_LEN c in
  let '(timestamp_ns, c) := rc_i64 c in
  let '(valid_until_ns, c) := rc_i64 c in
  let '(source_count, c) := rc_u32 c in
  if negb (rc_ok c) || (source_count >? OBICALL_MAX_SOURCES)
  then Err OBICALL_ERR_WIRE_MALFORMED
  else
  let '(sources, c) := rc_array (rc_fixed OBICALL_SENSOR_ID_LEN) (Z.to_nat source_count) c in
  let '(dgt_action_id, c) := rc_u32 c in
  if negb (rc_ok c) then Err OBICALL_ERR_WIRE_MALFORMED
  else Ok (Result sizeof_result schema_version pipeline_id window_seq broker_id epoch status
             payload_shape payload_count (pad 6 0 payload) covariance_count (pad 36 0 covariance)
             input_digest config_digest timestamp_ns valid_until_ns source_count
             (pad 8 (replicate 32 0) sources) dgt_action_id).

Definition result_wire (r : obicall_result) : list Z :=
  le_bytes 4 (res_struct_size r) ++ le_bytes 4 (res_schema_version r) ++ res_pipeline_id r ++
  le_bytes 8 (res_window_seq r) ++ le_bytes 4 (res_broker_id r) ++ le_bytes 8 (res_epoch r) ++
  le_bytes 4 (res_status r) ++ le_bytes 4 (res_payload_shape r) ++
  le_bytes 4 (res_payload_count r) ++
  concat (le_bytes 8 <$> take (Z.to_nat (res_payload_count r)) (res_payload r)) ++
  le_bytes 4 (res_covariance_count r) ++
  concat (le_bytes 8 <$> take (Z.to_nat (res_covariance_count r)) (res_covariance r)) ++
  res_input_digest r ++ res_config_digest r ++
  le_bytes 8 (u64 (res_timestamp_ns r)) ++ le_bytes 8 (u64 (res_valid_until_ns r)) ++
  le_bytes 4 (res_source_count r) ++
  concat ((fun s => s) <$> take (Z.to_nat (res_source_count r)) (res_sources r)) ++
  le_bytes 4 (res_dgt_action_id r).

Record valid_result (r : obicall_result) : Prop := {
  vr_wf : wf_result r;
  vr_payload_count : res_payload_count r <= OBICALL_MAX_PAYLOAD_DOUBLES;
  vr_covariance_count : res_covariance_count r <= OBICALL_MAX_COV_DOUBLES;
  vr_source_count : res_source_count r <= OBICALL_MAX_SOURCES
}.

Definition canon_result (r : obicall_result) : obicall_result :=
  Result sizeof_result (res_schema_version r) (res_pipeline_id r) (res_window_seq r)
    (res_broker_id r) (res_epoch r) (res_status r) (res_payload_shape r) (res_payload_count r)
    (pad 6 0 (take (Z.to_nat (res_payload_count r)) (res_payload r)))
    (res_covariance_count r)
    (pad 36 0 (take (Z.to_nat (res_covariance_count r)) (res_covariance r)))
    (res_input_digest r) (res_config_digest r) (res_timestamp_ns r) (res_valid_until_ns r)
    (res_source_count r)
    (pad 8 (replicate 32 0) (take (Z.to_nat (res_source_count r)) (res_sources r)))
    (res_dgt_action_id r).

(** ** Checkpoint *)

Definition wc_source_position (p : obicall_source_position) (c : wcursor) : wcursor :=
  let c := wc_fixed (sp_sensor_id p) c in
  let c := wc_u64 (sp_source_boot_id p) c in
  wc_u64 (sp_last_sequence p) c.

Definition rc_source_position (c : rcursor) : obicall_source_position * rcursor :=
  let '(sensor_id, c) := rc_fixed OBICALL_SENSOR_ID_LEN c in
  let '(source_boot_id, c) := rc_u64 c in
  let '(last_sequence, c) := rc_u64 c in
  (SourcePosition sensor_id source_boot_id last_sequence, c).

Definition zero_source_position : obicall_source_position :=
  SourcePosition (replicate 32 0) 0 0.

Definition obicall_wire_encode_checkpoint (k : obicall_checkpoint) (out_cap : Z)
    : result status (list Z) :=
  if (ck_state_dim k >? OBICALL_MAX_STATE_DIM) || (ck_source_count k >? OBICALL_MAX_TRACKED_SOURCES)
  then Err OBICALL_ERR_WIRE_MALFORMED
  else
  let c := wc_init out_cap in
  let c := wc_u32 (ck_struct_size k) c in
  let c := wc_u32 (ck_schema_version k) c in
  let c := wc_fixed (ck_pipeline_id k) c in
  let c := wc_u64 (ck_window_seq k) c in
  let c := wc_u32 (ck_estimator_mode k) c in
  let c := wc_u32 (ck_state_dim k) c in
  let c := wc_array wc_f64 (Z.to_nat (ck_state_dim k)) (ck_state_mean k) c in
  let c := wc_array wc_f64 (Z.to_nat (u32 (ck_state_dim k * ck_state_dim k))) (ck_state_covariance k) c in
  let c := wc_u32 (ck_calibration_version k) c in
  let c := wc_u32 (ck_policy_version k) c in
  let c := wc_u32 (ck_dgt_action_id k) c in
  let c := wc_u32 (ck_source_count k) c in
  let c := wc_array wc_source_position (Z.to_nat (ck_source_count k)) (ck_sources k) c in
  let c := wc_i64 (ck_created_at_ns k) c in
  wc_finish OBICALL_ERR_BUFFER_TOO_SMALL c.

Definition obicall_wire_decode_checkpoint (input : list Z) : result status obicall_checkpoint :=
  let c := rc_init input in
  let '(_, c) := rc_u32 c in
  let '(schema_version, c) := rc_u32 c in
  let '(pipeline_id, c) := rc_fixed OBICALL_PIPELINE_ID_LEN c in
  let '(window_seq, c) := rc_u64 c in
  let '(estimator_mode, c) := rc_u32 c in
  let '(state_dim, c) := rc_u32 c in
  if negb (rc_ok c) || (state_dim >? OBICALL_MAX_STATE_DIM)
  then Err OBICALL_ERR_WIRE_MALFORMED
  else
  let '(state_mean, c) := rc_array rc_f64 (Z.to_nat state_dim) c in
  let '(state_covariance, c) := rc_array rc_f64 (Z.to_nat (u32 (state_dim * state_dim))) c in
  let '(calibration_version, c) := rc_u32 c in
  let '(policy_version, c) := rc_u32 c in
  let '(dgt_action_id, c) := rc_u32 c in
  let '(source_count, c) := rc_u32 c in
  if negb (rc_ok c) || (source_count >? OBICALL_MAX_TRACKED_SOURCES)
  then Err OBICALL_ERR_WIRE_MALFORMED
  else
  let '(sources, c) := rc_array rc_source_position (Z.to_nat source_count) c in
  let '(created_at_ns, c) := rc_i64 c in
  if negb (rc_ok c) then Err OBICALL_ERR_WIRE_MALFORMED
  else Ok (Checkpoint sizeof_checkpoint schema_version pipeline_id window_seq estimator_mode
             state_dim (pad 6 0 state_mean) (pad 36 0 state_covariance) calibration_version
             policy_version dgt_action_id source_count (pad 16 zero_source_position sources)
             created_at_ns).

Definition source_position_wire (p : obicall_source_position) : list Z :=
  sp_sensor_id p ++ le_bytes 8 (sp_source_boot_id p) ++ le_bytes 8 (sp_last_sequence p).

Definition checkpoint_wire (k : obicall_checkpoint) : list Z :=
  le_bytes 4 (ck_struct_size k) ++ le_bytes 4 (ck_schema_version k) ++ ck_pipeline_id k ++
  le_bytes 8 (ck_window_seq k) ++ le_bytes 4 (ck_estimator_mode k) ++
  le_bytes 4 (ck_state_dim k) ++
  concat (le_bytes 8 <$> take (Z.to_nat (ck_state_dim k)) (ck_state_mean k)) ++
  concat (le_bytes 8 <$> take (Z.to_nat (u32 (ck_state_dim k * ck_state_dim k))) (ck_state_covariance k)) ++
  le_bytes 4 (ck_calibration_version k) ++ le_bytes 4 (ck_policy_version k) ++
  le_bytes 4 (ck_dgt_action_id k) ++ le_bytes 4 (ck_source_count k) ++
  concat (source_position_wire <$> take (Z.to_nat (ck_source_count k)) (ck_sources k)) ++
  le_bytes 8 (u64 (ck_created_at_ns k)).

Record valid_checkpoint (k : obicall_checkpoint) : Prop := {
  vk_wf : wf_checkpoint k;
  vk_dim : ck_state_dim k <= OBICALL_MAX_STATE_DIM;
  vk_source_count : ck_source_count k <= OBICALL_MAX_TRACKED_SOURCES
}.

Definition canon_checkpoint (k : obicall_checkpoint) : obicall_checkpoint :=
  Checkpoint sizeof_checkpoint (ck_schema_version k) (ck_pipeline_id k) (ck_window_seq k)
    (ck_estimator_mode k) (ck_state_dim k)
    (pad 6 0 (take (Z.to_nat (ck_state_dim k)) (ck_state_mean k)))
    (pad 36 0 (take (Z.to_nat (u32 (ck_state_dim k * ck_state_dim k))) (ck_state_covariance k)))
    (ck_calibration_version k) (ck_policy_version k) (ck_dgt_action_id k) (ck_source_count k)
    (pad 16 zero_source_position (take (Z.to_nat (ck_source_count k)) (ck_sources k)))
    (ck_created_at_ns k).

(** ** Event *)

Definition ev_payload_len (e : obicall_event) : Z := Z.of_nat (length (ev_payload e)).

Definition obicall_wire_encode_event (e : obicall_event) (out_cap : Z) : result status (list Z) :=
  if ev_payload_len e >? OBICALL_WIRE_MAX_PAYLOAD then Err OBICALL_ERR_WIRE_TOO_LARGE
  else
  let c := wc_init out_cap in
  let c := wc_u32 (ev_struct_size e) c in
  let c := wc_u32 (ev_schema_version e) c in
  let c := wc_u32 (ev_event_type e) c in
  let c := wc_u32 (ev_reserved e) c in
  let c := wc_i64 (ev_timestamp_ns e) c in
  let c := wc_u32 (ev_payload_len e) c in
  let c := if ev_payload_len e >? 0 then wc_bytes (ev_payload e) c else c in
  wc_finish OBICALL_ERR_BUFFER_TOO_SMALL c.

(** [storage_cap] is [None] for a null [payload_storage]. *)
Definition obicall_wire_decode_event (input : list Z) (storage_cap : option Z)
    : result status obicall_event :=
  let c := rc_init input in
  let '(_, c) := rc_u32 c in
  let '(schema_version, c) := rc_u32 c in
  let '(event_type, c) := rc_u32 c in
  let '(reserved, c) := rc_u32 c in
  let '(timestamp_ns, c) := rc_i64 c in
  let '(payload_len, c) := rc_u32 c in
  if negb (rc_ok c) || (payload_len >? OBICALL_WIRE_MAX_PAYLOAD)
  then Err OBICALL_ERR_WIRE_MALFORMED
  else if (payload_len >? 0) && match storage_cap with
                                | None => true
                                | Some storage_cap => storage_cap <? payload_len
                                end
  then Err OBICALL_ERR_BUFFER_TOO_SMALL
  else
  let '(payload, c) := if payload_len >? 0 then rc_fixed (Z.to_nat payload_len) c else ([], c) in
  if negb (rc_ok c) then Err OBICALL_ERR_WIRE_MALFORMED
  else Ok (Event sizeof_event schema_version event_type reserved timestamp_ns payload).

Definition event_wire (e : obicall_event) : list Z :=
  le_bytes 4 (ev_struct_size e) ++ le_bytes 4 (ev_schema_version e) ++
  le_bytes 4 (ev_event_type e) ++ le_bytes 4 (ev_reserved e) ++
  le_bytes 8 (u64 (ev_timestamp_ns e)) ++ le_bytes 4 (ev_payload_len e) ++ ev_payload e.

(** An event that fits the caller's payload storage. *)
Record valid_event (storage_cap : Z) (e : obicall_event) : Prop := {
  ve_wf : wf_event e;
  ve_len : ev_payload_len e <= OBICALL_WIRE_MAX_PAYLOAD;
  ve_storage : ev_payload_len e <= storage_cap
}.

Definition canon_event (e : obicall_event) : obicall_event :=
  Event sizeof_event (ev_schema_version e) (ev_event_type e) (ev_reserved e) (ev_timestamp_ns e)
    (ev_payload e).

(** * Every codec meets its contract *)

(** Undoes the range check of an encoder or a decoder on valid input. *)
Ltac if_false :=
  match goal with
  | |- context [if ?b then Err _ else _] =>
      let E := fresh in assert (b = false) as E by (cbn [rc_ok negb orb]; blia); rewrite E; clear E
  end.

(** Decoding a valid encoding. *)
Ltac solve_decode :=
  unfold rc_init; rewrite <- ?app_assoc; repeat (repeat read_step; try if_false); reflexivity.

(** The value a successful decoder read, its encoding and its canonical form. *)
Ltac solve_sound :=
  cbn; rewrite ?take_pad_length by done; rewrite <- ?app_assoc; split_and!; try done;
  split; [constructor|..]; cbn; decoded_side.

#[export] Instance observation_codec_instance :
  Codec obicall_wire_encode_observation obicall_wire_decode_observation observation_wire
        valid_observation canon_observation.
Proof.
  split.
  - intros o cap [Hwf Hp Hc] Hcap. unfold obicall_wire_encode_observation. if_false.
    solve_encode.
  - intros o extra [[] Hp Hc]. unfold obicall_wire_decode_observation, observation_wire.
    solve_decode.
  - intros input o' Hb H. unfold obicall_wire_decode_observation in H. read_cases H.
    read_inv input.
    exists (Observation z z0 l z1 z2 z3 z4 z5 z6 z7 z8 z9 z10 z11 (pad 6 0 l0) z12 (pad 36 0 l1)). eexists.
    unfold observation_wire, canon_observation. solve_sound.
Qed.

#[export] Instance result_codec_instance :
  Codec obicall_wire_encode_result obicall_wire_decode_result result_wire valid_result canon_result.
Proof.
  split.
  - intros r cap [Hwf Hp Hc Hs] Hcap. unfold obicall_wire_encode_result. if_false.
    solve_encode.
  - intros r extra [[] Hp Hc Hs]. unfold obicall_wire_decode_result, result_wire.
    solve_decode.
  - intros input r' Hb H. unfold obicall_wire_decode_result in H. read_cases H.
    read_inv input.
    exists (Result z z0 l z1 z2 z3 z4 z5 z6 (pad 6 0 l0) z7 (pad 36 0 l1) l2 l3 z8 z9 z10
              (pad 8 (replicate 32 0) l4) z11). eexists.
    unfold result_wire, canon_result. solve_sound.
Qed.

#[export] Instance emits_source_position p : Emits (wc_source_position p) (source_position_wire p).
Proof.
  unfold source_position_wire. rewrite app_assoc.
  apply (emits_seq (fun c => wc_u64 _ (wc_fixed _ c))); [apply emits_seq|]; apply _.
Qed.

#[export] Instance read_source_position :
  WireRead rc_source_position source_position_wire wf_source_position.
Proof.
  split.
  - intros p rest []. unfold rc_source_position, source_position_wire. rewrite <- !app_assoc.
    repeat read_step. by destruct p.
  - intros c p c' H Hb. unfold rc_source_position in H.
    destruct (rc_fixed _ c) as [l c1] eqn:E1, (rc_u64 c1) as [z c2] eqn:E2,
      (rc_u64 c2) as [z0 c3] eqn:E3. simplify_eq.
    destruct (rd_inv _ _ _ E1 Hb) as [Hb1 H1], (rd_inv _ _ _ E2 Hb1) as [Hb2 H2],
      (rd_inv _ _ _ E3 Hb2) as [Hb3 H3]. split; [done|]. intros Hok.
    destruct (H3 Hok) as (Hok2&E&?), (H2 Hok2) as (Hok1&Er2&?), (H1 Hok1) as (?&Er1&?).
    rewrite Er1, Er2, E. unfold source_position_wire. simpl. rewrite <- !app_assoc. by split_and!.
Qed.
#[global] Typeclasses Opaque wc_source_position rc_source_position.

Lemma zero_source_position_wf : wf_source_position zero_source_position.
Proof. split; simpl; auto using is_chars_zero, is_u64_zero. Qed.
#[export] Hint Resolve zero_source_position_wf : obicall.

(** [state_dim * state_dim] does not wrap, and fits the covariance array. *)
Lemma state_dim_squared d : is_u32 d -> d <= OBICALL_MAX_STATE_DIM ->
  0 <= u32 (d * d) <= Z.of_nat 36.
Proof. unfold OBICALL_MAX_STATE_DIM, is_u32. intros. rewrite u32_id; unfold is_u32; nia. Qed.

#[export] Instance checkpoint_codec_instance :
  Codec obicall_wire_encode_checkpoint obicall_wire_decode_checkpoint checkpoint_wire
        valid_checkpoint canon_checkpoint.
Proof.
  split.
  - intros k cap [Hwf Hd Hs] Hcap. unfold obicall_wire_encode_checkpoint. if_false.
    solve_encode.
  - intros k extra [[] Hd Hs]. unfold obicall_wire_decode_checkpoint, checkpoint_wire.
    pose proof (state_dim_squared (ck_state_dim k) ltac:(assumption) Hd). solve_decode.
  - intros input k' Hb H. unfold obicall_wire_decode_checkpoint in H. read_cases H.
    read_inv input.
    exists (Checkpoint z z0 l z1 z2 z3 (pad 6 0 l0) (pad 36 0 l1) z4 z5 z6 z7
              (pad 16 zero_source_position l2) z8). eexists.
    pose proof (state_dim_squared z3 ltac:(assumption) ltac:(lia)).
    unfold checkpoint_wire, canon_checkpoint. solve_sound.
Qed.

(** The length test before reading the payload changes nothing. *)
Lemma rc_fixed_guard z c :
  rc_ok c = true ->
  (if z >? 0 then rc_fixed (Z.to_nat z) c else ([], c)) = rc_fixed (Z.to_nat z) c.
Proof.
  intros Hok. case_match; [done|]. replace (Z.to_nat z) with 0%nat by lia.
  unfold rc_fixed, rc_bytes. rewrite Hok. destruct c; simpl in *. subst.
  case_match; [lia|done].
Qed.

#[export] Instance event_codec_instance storage_cap :
  0 <= storage_cap ->
  Codec obicall_wire_encode_event (fun input => obicall_wire_decode_event input (Some storage_cap))
        event_wire (valid_event storage_cap) canon_event.
Proof.
  intros Hst. split.
  - intros e cap [Hwf Hl Hs] Hcap. unfold obicall_wire_encode_event. if_false.
    unfold event_wire, ev_payload_len. destruct (ev_payload e) as [|b p] eqn:E.
    + rewrite !app_nil_r. solve_encode.
    + replace (_ >? 0) with true by (cbn [length]; lia). solve_encode.
  - intros e extra [[] Hl Hs]. unfold obicall_wire_decode_event, event_wire, ev_payload_len in *.
    unfold OBICALL_WIRE_MAX_PAYLOAD in *.
    unfold rc_init. rewrite <- !app_assoc. repeat (repeat read_step; try if_false).
    assert (is_chars (length (ev_payload e)) (ev_payload e)) by done.
    unfold canon_event. destruct (ev_payload e) as [|b p]; [done|].
    replace (_ >? 0) with true by (cbn [length]; lia). rewrite Nat2Z.id. by read_step.
  - intros input e' Hb H. unfold obicall_wire_decode_event in H.
    read_cases H.
    rewrite rc_fixed_guard in E7 by (by destruct (rc_ok r4)). read_inv input.
    exists (Event z z0 z1 z2 z3 l). eexists.
    assert (0 <= z4) by (match goal with H : is_u32 z4 |- _ => destruct H end; lia).
    match goal with H : is_chars (Z.to_nat z4) l |- _ => destruct H end.
    assert (ev_payload_len (Event z z0 z1 z2 z3 l) = z4) as Hlen by (unfold ev_payload_len; cbn; lia).
    unfold event_wire, canon_event. rewrite Hlen. cbn. rewrite <- !app_assoc.
    split_and!; [|reflexivity|reflexivity].
    split; [constructor|rewrite Hlen..]; cbn; first [assumption|lia|idtac].
    unfold ev_payload_len in Hlen. cbn in Hlen. by rewrite Hlen.
Qed.

(** The header codec: sixteen bytes, and the first error in the order the
    checks are written. *)
Record valid_header (h : obicall_wire_header) : Prop := {
  vh_wf : wf_header h;
  vh_version : wh_wire_version h = OBICALL_WIRE_VERSION;
  vh_len : wh_payload_len h <= OBICALL_WIRE_MAX_PAYLOAD
}.

Lemma header_wire_length h : length (header_wire h) = 16%nat.
Proof. unfold header_wire. rewrite !length_app, !length_le_bytes. done. Qed.

Lemma header_encode_wire h : obicall_wire_encode_header h = Ok (header_wire h).
Proof.
  assert (0 <= OBICALL_WIRE_HEADER_LEN) by done.
  trans (if Z.of_nat (length (header_wire h)) <=? OBICALL_WIRE_HEADER_LEN then Ok (header_wire h)
         else Err OBICALL_ERR_WIRE_MALFORMED).
  - unfold obicall_wire_encode_header. solve_encode.
  - by rewrite header_wire_length.
Qed.

Lemma magic_range :
  (is_u8 OBICALL_WIRE_MAGIC0 /\ is_u8 OBICALL_WIRE_MAGIC1) /\
  (is_u8 OBICALL_WIRE_MAGIC2 /\ is_u8 OBICALL_WIRE_MAGIC3).
Proof. unfold is_u8. done. Qed.

(** On a frame with the right magic, the version is checked before the length. *)
Lemma header_decode_wire h extra :
  wf_header h ->
  obicall_wire_decode_header (header_wire h ++ extra) =
  if negb (wh_wire_version h =? OBICALL_WIRE_VERSION) then Err OBICALL_ERR_WIRE_VERSION_UNSUPPORTED
  else if wh_payload_len h >? OBICALL_WIRE_MAX_PAYLOAD then Err OBICALL_ERR_WIRE_TOO_LARGE
  else Ok h.
Proof.
  intros []. destruct magic_range as [[??][??]]. unfold obicall_wire_decode_header.
  rewrite take_app_length' by (by rewrite header_wire_length). unfold header_wire, rc_init.
  rewrite <- (app_nil_r (le_bytes 4 (wh_crc32 h))). rewrite <- ?app_assoc.
  repeat read_step. if_false. repeat read_step. if_false. by destruct h.
Qed.

Lemma header_decode_sound input h :
  bytes input -> obicall_wire_decode_header input = Ok h ->
  valid_header h /\ input = header_wire h ++ drop 16 input.
Proof.
  intros Hb H. cut (valid_header h /\ exists extra, take 16 input = header_wire h ++ extra).
  { intros [Hv [extra E]]. split; [done|]. rewrite <- (take_drop 16 input) at 1. f_equal.
    pose proof (f_equal length E) as El. rewrite length_app, header_wire_length, length_take in El.
    destruct extra; [by rewrite app_nil_r in E|cbn [length] in El; lia]. }
  apply (Forall_take _ 16) in Hb. revert Hb H. unfold obicall_wire_decode_header.
  generalize (take 16 input). intros inp Hb H. read_cases H. read_inv inp.
  rewrite !Z.eqb_eq in *. subst. split; [split; [constructor|..]; cbn; by first [assumption|lia]|].
  eexists. unfold header_wire. cbn. by rewrite <- !app_assoc.
Qed.

(** * The claims *)

(** C40: the observation codec: encoding fails only on counts beyond the struct's arrays or a
    buffer that is too small, and decoding accepts exactly the encodings of valid
    observations followed by ignored bytes, returning the canonical image. *)
Theorem observation_codec_correct (o : obicall_observation) cap input o' :
  wf_observation o -> 0 <= cap -> bytes input ->
  obicall_wire_encode_observation o cap =
    (if (obs_payload_count o >? OBICALL_MAX_PAYLOAD_DOUBLES)
        || (obs_covariance_count o >? OBICALL_MAX_COV_DOUBLES) then Err OBICALL_ERR_WIRE_MALFORMED
     else if Z.of_nat (length (observation_wire o)) <=? cap then Ok (observation_wire o)
     else Err OBICALL_ERR_BUFFER_TOO_SMALL) /\
  (obicall_wire_decode_observation input = Ok o' <->
     exists o0 extra, valid_observation o0 /\ input = observation_wire o0 ++ extra /\ o' = canon_observation o0).
Proof.
  intros Hwf Hcap Hb. split; [|by apply codec_accepts].
  destruct ((obs_payload_count o >? OBICALL_MAX_PAYLOAD_DOUBLES)
        || (obs_covariance_count o >? OBICALL_MAX_COV_DOUBLES)) eqn:E.
  - unfold obicall_wire_encode_observation. by rewrite E.
  - apply enc_spec; [split; [done|blia..]|done].
Qed.

Lemma observation_codec_witness :
  wf_observation sample_observation /\
  obicall_wire_decode_observation (observation_wire sample_observation ++ [9; 9]) = Ok (canon_observation sample_observation).
Proof.
  split; [exact sample_observation_wf|].
  apply (observation_codec_correct sample_observation 4096).
  - exact sample_observation_wf.
  - done.
  - by apply forallb_bytes.
  - exists sample_observation, [9; 9]. split; [|done]. split; [exact sample_observation_wf|done..].
Defined.

(** the result codec, in the same sense. *)
Theorem result_codec_correct (r : obicall_result) cap input r' :
  wf_result r -> 0 <= cap -> bytes input ->
  obicall_wire_encode_result r cap =
    (if (res_payload_count r >? OBICALL_MAX_PAYLOAD_DOUBLES)
        || (res_covariance_count r >? OBICALL_MAX_COV_DOUBLES)
        || (res_source_count r >? OBICALL_MAX_SOURCES) then Err OBICALL_ERR_WIRE_MALFORMED
     else if Z.of_nat (length (result_wire r)) <=? cap then Ok (result_wire r)
     else Err OBICALL_ERR_BUFFER_TOO_SMALL) /\
  (obicall_wire_decode_result input = Ok r' <->
     exists r0 extra, valid_result r0 /\ input = result_wire r0 ++ extra /\ r' = canon_result r0).
Proof.
  intros Hwf Hcap Hb. split; [|by apply codec_accepts].
  destruct ((res_payload_count r >? OBICALL_MAX_PAYLOAD_DOUBLES)
        || (res_covariance_count r >? OBICALL_MAX_COV_DOUBLES)
        || (res_source_count r >? OBICALL_MAX_SOURCES)) eqn:E.
  - unfold obicall_wire_encode_result. by rewrite E.
  - apply enc_spec; [split; [done|blia..]|done].
Qed.

Lemma result_codec_witness :
  wf_result sample_result /\
  obicall_wire_decode_result (result_wire sample_result ++ [9; 9]) = Ok (canon_result sample_result).
Proof.
  split; [exact sample_result_wf|].
  apply (result_codec_correct sample_result 4096).
  - exact sample_result_wf.
  - done.
  - by apply forallb_bytes.
  - exists sample_result, [9; 9]. split; [|done]. split; [exact sample_result_wf|done..].
Defined.

(** the checkpoint codec, in the same sense; the matrix has [state_dim * state_dim]
    entries and the product does not wrap. *)
Theorem checkpoint_codec_correct (k : obicall_checkpoint) cap input k' :
  wf_checkpoint k -> 0 <= cap -> bytes input ->
  obicall_wire_encode_checkpoint k cap =
    (if (ck_state_dim k >? OBICALL_MAX_STATE_DIM)
        || (ck_source_count k >? OBICALL_MAX_TRACKED_SOURCES) then Err OBICALL_ERR_WIRE_MALFORMED
     else if Z.of_nat (length (checkpoint_wire k)) <=? cap then Ok (checkpoint_wire k)
     else Err OBICALL_ERR_BUFFER_TOO_SMALL) /\
  (obicall_wire_decode_checkpoint input = Ok k' <->
     exists k0 extra, valid_checkpoint k0 /\ input = checkpoint_wire k0 ++ extra /\ k' = canon_checkpoint k0).
Proof.
  intros Hwf Hcap Hb. split; [|by apply codec_accepts].
  destruct ((ck_state_dim k >? OBICALL_MAX_STATE_DIM)
        || (ck_source_count k >? OBICALL_MAX_TRACKED_SOURCES)) eqn:E.
  - unfold obicall_wire_encode_checkpoint. by rewrite E.
  - apply enc_spec; [split; [done|blia..]|done].
Qed.

Lemma checkpoint_codec_witness :
  wf_checkpoint sample_checkpoint /\
  obicall_wire_decode_checkpoint (checkpoint_wire sample_checkpoint ++ [9; 9]) = Ok (canon_checkpoint sample_checkpoint).
Proof.
  split; [exact sample_checkpoint_wf|].
  apply (checkpoint_codec_correct sample_checkpoint 4096).
  - exact sample_checkpoint_wf.
  - done.
  - by apply forallb_bytes.
  - exists sample_checkpoint, [9; 9]. split; [|done]. split; [exact sample_checkpoint_wf|done..].
Defined.

(** the event codec: an event within the payload limit round trips when the
    caller's storage holds its payload; the decoder never writes more than the
    storage holds. *)
Theorem event_codec_correct e cap storage_cap input e' :
  wf_event e -> 0 <= cap -> 0 <= storage_cap -> bytes input ->
  obicall_wire_encode_event e cap =
    (if ev_payload_len e >? OBICALL_WIRE_MAX_PAYLOAD then Err OBICALL_ERR_WIRE_TOO_LARGE
     else if Z.of_nat (length (event_wire e)) <=? cap then Ok (event_wire e)
     else Err OBICALL_ERR_BUFFER_TOO_SMALL) /\
  (obicall_wire_decode_event input (Some storage_cap) = Ok e' <->
     exists e0 extra, valid_event storage_cap e0 /\ input = event_wire e0 ++ extra /\ e' = canon_event e0).
Proof.
  intros Hwf Hcap Hst Hb. split; [|by apply (codec_accepts (Codec0 := event_codec_instance _ Hst))].
  destruct (ev_payload_len e >? _) eqn:E; [by unfold obicall_wire_encode_event; rewrite E|].
  apply (enc_spec (Codec := event_codec_instance (ev_payload_len e) ltac:(unfold ev_payload_len; lia)));
    [split; [done|lia|lia]|done].
Qed.

Lemma event_codec_witness :
  wf_event sample_event /\
  obicall_wire_decode_event (event_wire sample_event) (Some 16) = Ok (canon_event sample_event).
Proof.
  split; [exact sample_event_wf|].
  apply (event_codec_correct sample_event 4096 16).
  - exact sample_event_wf.
  - done.
  - done.
  - by apply forallb_bytes.
  - exists sample_event, []. split; [|by rewrite app_nil_r]. split; [exact sample_event_wf|done..].
Defined.

(** the frame header: it always encodes to sixteen bytes; a header that decodes
    has the magic, the supported version and a payload length within the limit,
    and is the encoding of the value returned; of a well-formed header the
    version is rejected before the length. *)
Theorem header_codec_correct h input h' extra :
  wf_header h -> bytes input ->
  obicall_wire_encode_header h = Ok (header_wire h) /\
  obicall_wire_decode_header (header_wire h ++ extra) =
    (if negb (wh_wire_version h =? OBICALL_WIRE_VERSION) then Err OBICALL_ERR_WIRE_VERSION_UNSUPPORTED
     else if wh_payload_len h >? OBICALL_WIRE_MAX_PAYLOAD then Err OBICALL_ERR_WIRE_TOO_LARGE
     else Ok h) /\
  (obicall_wire_decode_header input = Ok h' ->
     valid_header h' /\ input = header_wire h' ++ drop 16 input).
Proof.
  intros Hwf Hb. split; [apply header_encode_wire|]. split; [by apply header_decode_wire|].
  by apply header_decode_sound.
Qed.

Definition sample_header : obicall_wire_header := WireHeader 1 3 0 20 4660.

Lemma header_codec_witness :
  wf_header sample_header /\
  obicall_wire_decode_header (header_wire sample_header ++ [1]) = Ok sample_header.
Proof.
  assert (wf_header sample_header) as Hwf by (split; done).
  split; [exact Hwf|].
  apply (header_codec_correct sample_header [] sample_header [1] Hwf). constructor.
Defined.
