(* ===== verification/WireMsg.v ===== *)
(** * WireMsg: the control-message codecs of src/core/wire.c

    The nine fixed-shape messages the processes exchange (wire.h), each with its
    record, its encoder, its decoder and the instance of [Codec] that says the
    two are inverse and that a decoder accepts nothing else than encodings
    followed by ignored bytes.  No field is normalised: [canon] is the
    identity. *)

From S2P Require Import Prelude Types Cursor Wire.

Definition OBICALL_RUN_TOKEN_LEN : nat := 32.

(** ** [obicall_msg_auth_hello_t] *)

Record obicall_msg_auth_hello := AuthHello {
  ah_protocol_version : Z;
  ah_role : Z;
  ah_run_token : list Z
}.

Record wf_auth_hello (m : obicall_msg_auth_hello) : Prop := {
  wf_ah_protocol_version : is_u32 (ah_protocol_version m);
  wf_ah_role : is_u32 (ah_role m);
  wf_ah_run_token : is_chars OBICALL_RUN_TOKEN_LEN (ah_run_token m)
}.

Definition obicall_wire_encode_auth_hello (m : obicall_msg_auth_hello) (out_cap : Z)
    : result status (list Z) :=
  let c := wc_init out_cap in
  let c := wc_u32 (ah_protocol_version m) c in
  let c := wc_u32 (ah_role m) c in
  let c := wc_bytes (ah_run_token m) c in
  wc_finish OBICALL_ERR_BUFFER_TOO_SMALL c.

Definition obicall_wire_decode_auth_hello (input : list Z) : result status obicall_msg_auth_hello :=
  let c := rc_init input in
  let '(protocol_version, c) := rc_u32 c in
  let '(role, c) := rc_u32 c in
  let '(run_token, c) := rc_fixed OBICALL_RUN_TOKEN_LEN c in
  if rc_ok c then Ok (AuthHello protocol_version role run_token)
  else Err OBICALL_ERR_WIRE_MALFORMED.

Definition auth_hello_wire (m : obicall_msg_auth_hello) : list Z :=
  le_bytes 4 (ah_protocol_version m) ++ le_bytes 4 (ah_role m) ++ ah_run_token m.

(** ** [obicall_msg_heartbeat_t] *)

Record obicall_msg_heartbeat := Heartbeat {
  hb_broker_id : Z;
  hb_epoch : Z;
  hb_last_window_seq : Z;
  hb_config_digest : list Z;
  hb_checkpoint_schema_version : Z;
  hb_healthy : Z;
  hb_sent_at_ns : Z
}.

Record wf_heartbeat (m : obicall_msg_heartbeat) : Prop := {
  wf_hb_broker_id : is_u32 (hb_broker_id m);
  wf_hb_epoch : is_u64 (hb_epoch m);
  wf_hb_last_window_seq : is_u64 (hb_last_window_seq m);
  wf_hb_config_digest : is_chars OBICALL_DIGEST_LEN (hb_config_digest m);
  wf_hb_checkpoint_schema_version : is_u32 (hb_checkpoint_schema_version m);
  wf_hb_healthy : is_u32 (hb_healthy m);
  wf_hb_sent_at_ns : is_i64 (hb_sent_at_ns m)
}.

Definition obicall_wire_encode_heartbeat (m : obicall_msg_heartbeat) (out_cap : Z)
    : result status (list Z) :=
  let c := wc_init out_cap in
  let c := wc_u32 (hb_broker_id m) c in
  let c := wc_u64 (hb_epoch m) c in
  let c := wc_u64 (hb_last_window_seq m) c in
  let c := wc_bytes (hb_config_digest m) c in
  let c := wc_u32 (hb_checkpoint_schema_version m) c in
  let c := wc_u32 (hb_healthy m) c in
  let c := wc_i64 (hb_sent_at_ns m) c in
  wc_finish OBICALL_ERR_BUFFER_TOO_SMALL c.

Definition obicall_wire_decode_heartbeat (input : list Z) : result status obicall_msg_heartbeat :=
  let c := rc_init input in
  let '(broker_id, c) := rc_u32 c in
  let '(epoch, c) := rc_u64 c in
  let '(last_window_seq, c) := rc_u64 c in
  let '(config_digest, c) := rc_fixed OBICALL_DIGEST_LEN c in
  let '(checkpoint_schema_version, c) := rc_u32 c in
  let '(healthy, c) := rc_u32 c in
  let '(sent_at_ns, c) := rc_i64 c in
  if rc_ok c then Ok (Heartbeat broker_id epoch last_window_seq config_digest
            checkpoint_schema_version healthy sent_at_ns)
  else Err OBICALL_ERR_WIRE_MALFORMED.

Definition heartbeat_wire (m : obicall_msg_heartbeat) : list Z :=
  le_bytes 4 (hb_broker_id m) ++ le_bytes 8 (hb_epoch m) ++
  le_bytes 8 (hb_last_window_seq m) ++ hb_config_digest m ++
  le_bytes 4 (hb_checkpoint_schema_version m) ++ le_bytes 4 (hb_healthy m) ++
  le_bytes 8 (u64 (hb_sent_at_ns m)).

(** ** [obicall_msg_epoch_grant_t] *)

Record obicall_msg_epoch_grant := EpochGrant {
  eg_new_epoch : Z;
  eg_granted_to_broker_id : Z;
  eg_granted_at_ns : Z
}.

Record wf_epoch_grant (m : obicall_msg_epoch_grant) : Prop := {
  wf_eg_new_epoch : is_u64 (eg_new_epoch m);
  wf_eg_granted_to_broker_id : is_u32 (eg_granted_to_broker_id m);
  wf_eg_granted_at_ns : is_i64 (eg_granted_at_ns m)
}.

Definition obicall_wire_encode_epoch_grant (m : obicall_msg_epoch_grant) (out_cap : Z)
    : result status (list Z) :=
  let c := wc_init out_cap in
  let c := wc_u64 (eg_new_epoch m) c in
  let c := wc_u32 (eg_granted_to_broker_id m) c in
  let c := wc_i64 (eg_granted_at_ns m) c in
  wc_finish OBICALL_ERR_BUFFER_TOO_SMALL c.

Definition obicall_wire_decode_epoch_grant (input : list Z) : result status obicall_msg_epoch_grant :=
  let c := rc_init input in
  let '(new_epoch, c) := rc_u64 c in
  let '(granted_to_broker_id, c) := rc_u32 c in
  let '(granted_at_ns, c) := rc_i64 c in
  if rc_ok c then Ok (EpochGrant new_epoch granted_to_broker_id granted_at_ns)
  else Err OBICALL_ERR_WIRE_MALFORMED.

Definition epoch_grant_wire (m : obicall_msg_epoch_grant) : list Z :=
  le_bytes 8 (eg_new_epoch m) ++ le_bytes 4 (eg_granted_to_broker_id m) ++
  le_bytes 8 (u64 (eg_granted_at_ns m)).

(** ** [obicall_msg_epoch_revoke_t] *)

Record obicall_msg_epoch_revoke := EpochRevoke {
  er_revoked_epoch : Z;
  er_revoked_broker_id : Z;
  er_revoked_at_ns : Z;
  er_reason_code : Z
}.

Record wf_epoch_revoke (m : obicall_msg_epoch_revoke) : Prop := {
  wf_er_revoked_epoch : is_u64 (er_revoked_epoch m);
  wf_er_revoked_broker_id : is_u32 (er_revoked_broker_id m);
  wf_er_revoked_at_ns : is_i64 (er_revoked_at_ns m);
  wf_er_reason_code : is_u32 (er_reason_code m)
}.

Definition obicall_wire_encode_epoch_revoke (m : obicall_msg_epoch_revoke) (out_cap : Z)
    : result status (list Z) :=
  let c := wc_init out_cap in
  let c := wc_u64 (er_revoked_epoch m) c in
  let c := wc_u32 (er_revoked_broker_id m) c in
  let c := wc_i64 (er_revoked_at_ns m) c in
  let c := wc_u32 (er_reason_code m) c in
  wc_finish OBICALL_ERR_BUFFER_TOO_SMALL c.

Definition obicall_wire_decode_epoch_revoke (input : list Z) : result status obicall_msg_epoch_revoke :=
  let c := rc_init input in
  let '(revoked_epoch, c) := rc_u64 c in
  let '(revoked_broker_id, c) := rc_u32 c in
  let '(revoked_at_ns, c) := rc_i64 c in
  let '(reason_code, c) := rc_u32 c in
  if rc_ok c then Ok (EpochRevoke revoked_epoch revoked_broker_id revoked_at_ns reason_code)
  else Err OBICALL_ERR_WIRE_MALFORMED.

Definition epoch_revoke_wire (m : obicall_msg_epoch_revoke) : list Z :=
  le_bytes 8 (er_revoked_epoch m) ++ le_bytes 4 (er_revoked_broker_id m) ++
  le_bytes 8 (u64 (er_revoked_at_ns m)) ++ le_bytes 4 (er_reason_code m).

(** ** [obicall_msg_readiness_report_t] *)

Record obicall_msg_readiness_report := ReadinessReport {
  rr_broker_id : Z;
  rr_config_digest : list Z;
  rr_checkpoint_schema_version : Z;
  rr_last_processed_window_seq : Z;
  rr_healthy : Z
}.

Record wf_readiness_report (m : obicall_msg_readiness_report) : Prop := {
  wf_rr_broker_id : is_u32 (rr_broker_id m);
  wf_rr_config_digest : is_chars OBICALL_DIGEST_LEN (rr_config_digest m);
  wf_rr_checkpoint_schema_version : is_u32 (rr_checkpoint_schema_version m);
  wf_rr_last_processed_window_seq : is_u64 (rr_last_processed_window_seq m);
  wf_rr_healthy : is_u32 (rr_healthy m)
}.

Definition obicall_wire_encode_readiness_report (m : obicall_msg_readiness_report) (out_cap : Z)
    : result status (list Z) :=
  let c := wc_init out_cap in
  let c := wc_u32 (rr_broker_id m) c in
  let c := wc_bytes (rr_config_digest m) c in
  let c := wc_u32 (rr_checkpoint_schema_version m) c in
  let c := wc_u64 (rr_last_processed_window_seq m) c in
  let c := wc_u32 (rr_healthy m) c in
  wc_finish OBICALL_ERR_BUFFER_TOO_SMALL c.

Definition obicall_wire_decode_readiness_report (input : list Z) : result status obicall_msg_readiness_report :=
  let c := rc_init input in
  let '(broker_id, c) := rc_u32 c in
  let '(config_digest, c) := rc_fixed OBICALL_DIGEST_LEN c in
  let '(checkpoint_schema_version, c) := rc_u32 c in
  let '(last_processed_window_seq, c) := rc_u64 c in
  let '(healthy, c) := rc_u32 c in
  if rc_ok c then Ok (ReadinessReport broker_id config_digest checkpoint_schema_version
            last_processed_window_seq healthy)
  else Err OBICALL_ERR_WIRE_MALFORMED.

Definition readiness_report_wire (m : obicall_msg_readiness_report) : list Z :=
  le_bytes 4 (rr_broker_id m) ++ rr_config_digest m ++
  le_bytes 4 (rr_checkpoint_schema_version m) ++
  le_bytes 8 (rr_last_processed_window_seq m) ++ le_bytes 4 (rr_healthy m).

(** ** [obicall_msg_replay_request_t] *)

Record obicall_msg_replay_request := ReplayRequest {
  rq_pipeline_id : list Z;
  rq_from_window_seq : Z
}.

Record wf_replay_request (m : obicall_msg_replay_request) : Prop := {
  wf_rq_pipeline_id : is_chars OBICALL_PIPELINE_ID_LEN (rq_pipeline_id m);
  wf_rq_from_window_seq : is_u64 (rq_from_window_seq m)
}.

Definition obicall_wire_encode_replay_request (m : obicall_msg_replay_request) (out_cap : Z)
    : result status (list Z) :=
  let c := wc_init out_cap in
  let c := wc_fixed (rq_pipeline_id m) c in
  let c := wc_u64 (rq_from_window_seq m) c in
  wc_finish OBICALL_ERR_BUFFER_TOO_SMALL c.

Definition obicall_wire_decode_replay_request (input : list Z) : result status obicall_msg_replay_request :=
  let c := rc_init input in
  let '(pipeline_id, c) := rc_fixed OBICALL_PIPELINE_ID_LEN c in
  let '(from_window_seq, c) := rc_u64 c in
  if rc_ok c then Ok (ReplayRequest pipeline_id from_window_seq)
  else Err OBICALL_ERR_WIRE_MALFORMED.

Definition replay_request_wire (m : obicall_msg_replay_request) : list Z :=
  rq_pipeline_id m ++ le_bytes 8 (rq_from_window_seq m).

(** ** [obicall_msg_admission_decision_t] *)

Record obicall_msg_admission_decision := AdmissionDecision {
  ad_pipeline_id : list Z;
  ad_window_seq : Z;
  ad_sensor_id : list Z;
  ad_sequence : Z;
  ad_admitted : Z;
  ad_reason_code : Z;
  ad_decided_at_ns : Z
}.

Record wf_admission_decision (m : obicall_msg_admission_decision) : Prop := {
  wf_ad_pipeline_id : is_chars OBICALL_PIPELINE_ID_LEN (ad_pipeline_id m);
  wf_ad_window_seq : is_u64 (ad_window_seq m);
  wf_ad_sensor_id : is_chars OBICALL_SENSOR_ID_LEN (ad_sensor_id m);
  wf_ad_sequence : is_u64 (ad_sequence m);
  wf_ad_admitted : is_u32 (ad_admitted m);
  wf_ad_reason_code : is_u32 (ad_reason_code m);
  wf_ad_decided_at_ns : is_i64 (ad_decided_at_ns m)
}.

Definition obicall_wire_encode_admission_decision (m : obicall_msg_admission_decision) (out_cap : Z)
    : result status (list Z) :=
  let c := wc_init out_cap in
  let c := wc_fixed (ad_pipeline_id m) c in
  let c := wc_u64 (ad_window_seq m) c in
  let c := wc_fixed (ad_sensor_id m) c in
  let c := wc_u64 (ad_sequence m) c in
  let c := wc_u32 (ad_admitted m) c in
  let c := wc_u32 (ad_reason_code m) c in
  let c := wc_i64 (ad_decided_at_ns m) c in
  wc_finish OBICALL_ERR_BUFFER_TOO_SMALL c.

Definition obicall_wire_decode_admission_decision (input : list Z) : result status obicall_msg_admission_decision :=
  let c := rc_init input in
  let '(pipeline_id, c) := rc_fixed OBICALL_PIPELINE_ID_LEN c in
  let '(window_seq, c) := rc_u64 c in
  let '(sensor_id, c) := rc_fixed OBICALL_SENSOR_ID_LEN c in
  let '(sequence, c) := rc_u64 c in
  let '(admitted, c) := rc_u32 c in
  let '(reason_code, c) := rc_u32 c in
  let '(decided_at_ns, c) := rc_i64 c in
  if rc_ok c then Ok (AdmissionDecision pipeline_id window_seq sensor_id sequence
            admitted reason_code decided_at_ns)
  else Err OBICALL_ERR_WIRE_MALFORMED.

Definition admission_decision_wire (m : obicall_msg_admission_decision) : list Z :=
  ad_pipeline_id m ++ le_bytes 8 (ad_window_seq m) ++ ad_sensor_id m ++
  le_bytes 8 (ad_sequence m) ++ le_bytes 4 (ad_admitted m) ++
  le_bytes 4 (ad_reason_code m) ++ le_bytes 8 (u64 (ad_decided_at_ns m)).

(** ** [obicall_msg_result_ack_t] *)

Record obicall_msg_result_ack := ResultAck {
  ra_pipeline_id : list Z;
  ra_window_seq : Z;
  ra_accepted : Z;
  ra_reject_status : Z
}.

Record wf_result_ack (m : obicall_msg_result_ack) : Prop := {
  wf_ra_pipeline_id : is_chars OBICALL_PIPELINE_ID_LEN (ra_pipeline_id m);
  wf_ra_window_seq : is_u64 (ra_window_seq m);
  wf_ra_accepted : is_u32 (ra_accepted m);
  wf_ra_reject_status : is_i32 (ra_reject_status m)
}.

Definition obicall_wire_encode_result_ack (m : obicall_msg_result_ack) (out_cap : Z)
    : result status (list Z) :=
  let c := wc_init out_cap in
  let c := wc_fixed (ra_pipeline_id m) c in
  let c := wc_u64 (ra_window_seq m) c in
  let c := wc_u32 (ra_accepted m) c in
  let c := wc_i32 (ra_reject_status m) c in
  wc_finish OBICALL_ERR_BUFFER_TOO_SMALL c.

Definition obicall_wire_decode_result_ack (input : list Z) : result status obicall_msg_result_ack :=
  let c := rc_init input in
  let '(pipeline_id, c) := rc_fixed OBICALL_PIPELINE_ID_LEN c in
  let '(window_seq, c) := rc_u64 c in
  let '(accepted, c) := rc_u32 c in
  let '(reject_status, c) := rc_i32 c in
  if rc_ok c then Ok (ResultAck pipeline_id window_seq accepted reject_status)
  else Err OBICALL_ERR_WIRE_MALFORMED.

Definition result_ack_wire (m : obicall_msg_result_ack) : list Z :=
  ra_pipeline_id m ++ le_bytes 8 (ra_window_seq m) ++ le_bytes 4 (ra_accepted m) ++
  le_bytes 4 (u32 (ra_reject_status m)).

(** ** [obicall_msg_status_reply_t] *)

Record obicall_msg_status_reply := StatusReply {
  sr_running : Z;
  sr_gate_epoch : Z;
  sr_owner_broker_id : Z;
  sr_last_committed_window_seq : Z;
  sr_uptime_ns : Z
}.

Record wf_status_reply (m : obicall_msg_status_reply) : Prop := {
  wf_sr_running : is_u32 (sr_running m);
  wf_sr_gate_epoch : is_u64 (sr_gate_epoch m);
  wf_sr_owner_broker_id : is_u32 (sr_owner_broker_id m);
  wf_sr_last_committed_window_seq : is_u64 (sr_last_committed_window_seq m);
  wf_sr_uptime_ns : is_i64 (sr_uptime_ns m)
}.

Definition obicall_wire_encode_status_reply (m : obicall_msg_status_reply) (out_cap : Z)
    : result status (list Z) :=
  let c := wc_init out_cap in
  let c := wc_u32 (sr_running m) c in
  let c := wc_u64 (sr_gate_epoch m) c in
  let c := wc_u32 (sr_owner_broker_id m) c in
  let c := wc_u64 (sr_last_committed_window_seq m) c in
  let c := wc_i64 (sr_uptime_ns m) c in
  wc_finish OBICALL_ERR_BUFFER_TOO_SMALL c.

Definition obicall_wire_decode_status_reply (input : list Z) : result status obicall_msg_status_reply :=
  let c := rc_init input in
  let '(running, c) := rc_u32 c in
  let '(gate_epoch, c) := rc_u64 c in
  let '(owner_broker_id, c) := rc_u32 c in
  let '(last_committed_window_seq, c) := rc_u64 c in
  let '(uptime_ns, c) := rc_i64 c in
  if rc_ok c then Ok (StatusReply running gate_epoch owner_broker_id
            last_committed_window_seq uptime_ns)
  else Err OBICALL_ERR_WIRE_MALFORMED.

Definition status_reply_wire (m : obicall_msg_status_reply) : list Z :=
  le_bytes 4 (sr_running m) ++ le_bytes 8 (sr_gate_epoch m) ++
  le_bytes 4 (sr_owner_broker_id m) ++ le_bytes 8 (sr_last_committed_window_seq m) ++
  le_bytes 8 (u64 (sr_uptime_ns m)).

(** * Every control message meets the codec contract *)

(** The three laws of a message codec without counts. *)
Ltac solve_msg_encode := intros m cap Hwf Hcap; solve_encode.
Ltac solve_msg_decode := intros m extra []; unfold rc_init; rewrite <- ?app_assoc; repeat read_step; by destruct m.
Ltac solve_msg_sound :=
  let input := fresh "input" in let Hb := fresh in let H := fresh in
  intros input ? Hb H; read_cases H; read_inv input.
Ltac solve_msg_value :=
  cbn; rewrite <- ?app_assoc; split_and!; [constructor; cbn; assumption|reflexivity..].

#[export] Instance auth_hello_codec :
  Codec obicall_wire_encode_auth_hello obicall_wire_decode_auth_hello auth_hello_wire wf_auth_hello id.
Proof.
  split.
  - unfold obicall_wire_encode_auth_hello. solve_msg_encode.
  - unfold obicall_wire_decode_auth_hello, auth_hello_wire. solve_msg_decode.
  - unfold obicall_wire_decode_auth_hello. solve_msg_sound.
    exists (AuthHello z z0 l). eexists. unfold auth_hello_wire. solve_msg_value.
Qed.

#[export] Instance heartbeat_codec :
  Codec obicall_wire_encode_heartbeat obicall_wire_decode_heartbeat heartbeat_wire wf_heartbeat id.
Proof.
  split.
  - unfold obicall_wire_encode_heartbeat. solve_msg_encode.
  - unfold obicall_wire_decode_heartbeat, heartbeat_wire. solve_msg_decode.
  - unfold obicall_wire_decode_heartbeat. solve_msg_sound.
    exists (Heartbeat z z0 z1 l z2 z3 z4). eexists. unfold heartbeat_wire. solve_msg_value.
Qed.

#[export] Instance epoch_grant_codec :
  Codec obicall_wire_encode_epoch_grant obicall_wire_decode_epoch_grant epoch_grant_wire wf_epoch_grant id.
Proof.
  split.
  - unfold obicall_wire_encode_epoch_grant. solve_msg_encode.
  - unfold obicall_wire_decode_epoch_grant, epoch_grant_wire. solve_msg_decode.
  - unfold obicall_wire_decode_epoch_grant. solve_msg_sound.
    exists (EpochGrant z z0 z1). eexists. unfold epoch_grant_wire. solve_msg_value.
Qed.

#[export] Instance epoch_revoke_codec :
  Codec obicall_wire_encode_epoch_revoke obicall_wire_decode_epoch_revoke epoch_revoke_wire wf_epoch_revoke id.
Proof.
  split.
  - unfold obicall_wire_encode_epoch_revoke. solve_msg_encode.
  - unfold obicall_wire_decode_epoch_revoke, epoch_revoke_wire. solve_msg_decode.
  - unfold obicall_wire_decode_epoch_revoke. solve_msg_sound.
    exists (EpochRevoke z z0 z1 z2). eexists. unfold epoch_revoke_wire. solve_msg_value.
Qed.

#[export] Instance readiness_report_codec :
  Codec obicall_wire_encode_readiness_report obicall_wire_decode_readiness_report readiness_report_wire wf_readiness_report id.
Proof.
  split.
  - unfold obicall_wire_encode_readiness_report. solve_msg_encode.
  - unfold obicall_wire_decode_readiness_report, readiness_report_wire. solve_msg_decode.
  - unfold obicall_wire_decode_readiness_report. solve_msg_sound.
    exists (ReadinessReport z l z0 z1 z2). eexists. unfold readiness_report_wire. solve_msg_value.
Qed.

#[export] Instance replay_request_codec :
  Codec obicall_wire_encode_replay_request obicall_wire_decode_replay_request replay_request_wire wf_replay_request id.
Proof.
  split.
  - unfold obicall_wire_encode_replay_request. solve_msg_encode.
  - unfold obicall_wire_decode_replay_request, replay_request_wire. solve_msg_decode.
  - unfold obicall_wire_decode_replay_request. solve_msg_sound.
    exists (ReplayRequest l z). eexists. unfold replay_request_wire. solve_msg_value.
Qed.

#[export] Instance admission_decision_codec :
  Codec obicall_wire_encode_admission_decision obicall_wire_decode_admission_decision admission_decision_wire wf_admission_decision id.
Proof.
  split.
  - unfold obicall_wire_encode_admission_decision. solve_msg_encode.
  - unfold obicall_wire_decode_admission_decision, admission_decision_wire. solve_msg_decode.
  - unfold obicall_wire_decode_admission_decision. solve_msg_sound.
    exists (AdmissionDecision l z l0 z0 z1 z2 z3). eexists. unfold admission_decision_wire. solve_msg_value.
Qed.

#[export] Instance result_ack_codec :
  Codec obicall_wire_encode_result_ack obicall_wire_decode_result_ack result_ack_wire wf_result_ack id.
Proof.
  split.
  - unfold obicall_wire_encode_result_ack. solve_msg_encode.
  - unfold obicall_wire_decode_result_ack, result_ack_wire. solve_msg_decode.
  - unfold obicall_wire_decode_result_ack. solve_msg_sound.
    exists (ResultAck l z z0 z1). eexists. unfold result_ack_wire. solve_msg_value.
Qed.

#[export] Instance status_reply_codec :
  Codec obicall_wire_encode_status_reply obicall_wire_decode_status_reply status_reply_wire wf_status_reply id.
Proof.
  split.
  - unfold obicall_wire_encode_status_reply. solve_msg_encode.
  - unfold obicall_wire_decode_status_reply, status_reply_wire. solve_msg_decode.
  - unfold obicall_wire_decode_status_reply. solve_msg_sound.
    exists (StatusReply z z0 z1 z2 z3). eexists. unfold status_reply_wire. solve_msg_value.
Qed.


(** * The claims *)

(** all nine control messages meet the codec contract: each encoder writes
    its fields or reports a buffer that is too small, and each decoder accepts
    exactly the encodings of well-formed messages followed by ignored bytes. *)
Theorem control_messages_codec :
  Codec obicall_wire_encode_auth_hello obicall_wire_decode_auth_hello auth_hello_wire wf_auth_hello id /\
  Codec obicall_wire_encode_heartbeat obicall_wire_decode_heartbeat heartbeat_wire wf_heartbeat id /\
  Codec obicall_wire_encode_epoch_grant obicall_wire_decode_epoch_grant epoch_grant_wire wf_epoch_grant id /\
  Codec obicall_wire_encode_epoch_revoke obicall_wire_decode_epoch_revoke epoch_revoke_wire wf_epoch_revoke id /\
  Codec obicall_wire_encode_readiness_report obicall_wire_decode_readiness_report
    readiness_report_wire wf_readiness_report id /\
  Codec obicall_wire_encode_replay_request obicall_wire_decode_replay_request
    replay_request_wire wf_replay_request id /\
  Codec obicall_wire_encode_admission_decision obicall_wire_decode_admission_decision
    admission_decision_wire wf_admission_decision id /\
  Codec obicall_wire_encode_result_ack obicall_wire_decode_result_ack result_ack_wire wf_result_ack id /\
  Codec obicall_wire_encode_status_reply obicall_wire_decode_status_reply
    status_reply_wire wf_status_reply id.
Proof. split_and!; apply _. Qed.
