(* ===== verification/Binary64.v ===== *)
(** * Binary64: C [double]

    A [double] is kept as its 64 bits in the data records (what [memcpy] moves)
    and computed with as a [spec_float] of the Standard Library's [SpecFloat]
    (precision 53, exponents to 1024, round to nearest even): the semantics of
    [+ - * / sqrt] and the comparisons under IEEE 754 without excess precision.
    The order lemmas hold for every non-NaN value and are what the selection
    and ranking components rely on. *)

From Stdlib Require Export Floats.SpecFloat.
From S2P Require Import Prelude.

Definition f64 := spec_float.

Definition f64_of_bits (b : Z) : f64 :=
  let s := Z.testbit b 63 in
  let e := Z.land (Z.shiftr b 52) 2047 in
  let m := Z.land b 4503599627370495 in
  if e =? 2047 then (if m =? 0 then S754_infinity s else S754_nan)
  else if e =? 0 then match m with Zpos p => S754_finite s p (-1074) | _ => S754_zero s end
  else match 4503599627370496 + m with Zpos p => S754_finite s p (e - 1075) | _ => S754_nan end.

(** The bits of a value; the payload of a NaN an operation creates is the
    processor's choice [nan].  (The values the operations produce fit in 64 bits,
    where [u64] is the identity.) *)
Definition bits_of_f64 (nan : Z) (x : f64) : Z :=
  let sign (s : bool) := if s then 9223372036854775808 else 0 in
  u64 match x with
  | S754_zero s => sign s
  | S754_infinity s => sign s + 9218868437227405312
  | S754_nan => nan
  | S754_finite s m e =>
      if Zpos m <? 4503599627370496 then sign s + Zpos m
      else sign s + (e + 1075) * 4503599627370496 + (Zpos m - 4503599627370496)
  end.

Definition f64_add : f64 -> f64 -> f64 := SFadd 53 1024.
Definition f64_sub : f64 -> f64 -> f64 := SFsub 53 1024.
Definition f64_mul : f64 -> f64 -> f64 := SFmul 53 1024.
Definition f64_div : f64 -> f64 -> f64 := SFdiv 53 1024.
Definition f64_sqrt : f64 -> f64 := SFsqrt 53 1024.
Definition f64_neg : f64 -> f64 := SFopp.
Definition fabs : f64 -> f64 := SFabs.
Definition f64_eqb : f64 -> f64 -> bool := SFeqb.
Definition f64_ltb : f64 -> f64 -> bool := SFltb.
Definition f64_leb : f64 -> f64 -> bool := SFleb.
Definition f64_zero : f64 := S754_zero false.
Definition f64_one : f64 := f64_of_bits 4607182418800017408.

Definition isfinite (x : f64) : bool :=
  match x with S754_zero _ | S754_finite _ _ _ => true | _ => false end.

Definition is_nan (x : f64) : bool := match x with S754_nan => true | _ => false end.

Declare Scope f64_scope.
Delimit Scope f64_scope with f64.
Bind Scope f64_scope with spec_float.
Infix "+" := f64_add : f64_scope.
Infix "-" := f64_sub : f64_scope.
Infix "*" := f64_mul : f64_scope.
Infix "/" := f64_div : f64_scope.
Infix "=?" := f64_eqb : f64_scope.
Infix "<?" := f64_ltb : f64_scope.
Infix "<=?" := f64_leb : f64_scope.
Notation "x >? y" := (f64_ltb y x) : f64_scope.
Notation "x >=? y" := (f64_leb y x) : f64_scope.
Notation "- x" := (f64_neg x) : f64_scope.

#[global] Instance f64_eq_dec : EqDecision f64.
Proof. solve_decision. Defined.

Example f64_arith :
  bits_of_f64 0 (f64_one / (f64_of_bits 4613937818241073152 (* 3.0 *)))%f64 = 4599676419421066581.
Proof. reflexivity. Qed.

(** ** The order *)

(** A lexicographic key: sign class, exponent, mantissa. *)
Definition f64_key (x : f64) : Z * (Z * Z) :=
  match x with
  | S754_zero _ | S754_nan => (0, (0, 0))
  | S754_infinity s => (if s then -2 else 2, (0, 0))
  | S754_finite false m e => (1, (e, Zpos m))
  | S754_finite true m e => (-1, (- e, Zneg m))
  end.

Definition lex_lt (a b : Z * (Z * Z)) : Prop :=
  a.1 < b.1 \/ a.1 = b.1 /\ (a.2.1 < b.2.1 \/ a.2.1 = b.2.1 /\ a.2.2 < b.2.2).

Lemma f64_ltb_spec x y :
  is_nan x = false -> is_nan y = false ->
  f64_ltb x y = true <-> lex_lt (f64_key x) (f64_key y).
Proof.
  unfold f64_ltb, SFltb, lex_lt. intros Hx Hy.
  destruct x as [sx|sx| |sx mx ex], y as [sy|sy| |sy my ey]; try done;
    try destruct sx; try destruct sy; cbn [SFcompare f64_key fst snd]; try (split; [done|lia]);
    try (split; [lia|done]).
  all: destruct (Z.compare_spec ex ey); try (split; [done|lia]); try (split; [lia|done]); subst.
  all: change (Pos.compare_cont Eq mx my) with (mx ?= my)%positive.
  all: destruct (Pos.compare_spec mx my); cbn [CompOpp]; split; try done; lia.
Qed.

Lemma f64_leb_spec x y :
  is_nan x = false -> is_nan y = false -> f64_leb x y = negb (f64_ltb y x).
Proof.
  unfold f64_leb, f64_ltb, SFleb, SFltb. intros Hx Hy.
  destruct x as [sx|sx| |sx mx ex], y as [sy|sy| |sy my ey]; try done;
    try destruct sx; try destruct sy; cbn [SFcompare]; try done.
  all: rewrite (Z.compare_antisym ex ey); destruct (ex ?= ey) eqn:E; cbn [CompOpp]; try done.
  all: change (Pos.compare_cont Eq mx my) with (mx ?= my)%positive;
    change (Pos.compare_cont Eq my mx) with (my ?= mx)%positive;
    rewrite (Pos.compare_antisym mx my); by destruct (mx ?= my)%positive.
Qed.

Lemma f64_eqb_spec x y :
  is_nan x = false -> is_nan y = false ->
  f64_eqb x y = negb (f64_ltb x y) && negb (f64_ltb y x).
Proof.
  unfold f64_eqb, f64_ltb, SFeqb, SFltb. intros Hx Hy.
  destruct x as [sx|sx| |sx mx ex], y as [sy|sy| |sy my ey]; try done;
    try destruct sx; try destruct sy; cbn [SFcompare]; try done.
  all: rewrite (Z.compare_antisym ex ey); destruct (ex ?= ey) eqn:E; cbn [CompOpp]; try done.
  all: change (Pos.compare_cont Eq mx my) with (mx ?= my)%positive;
    change (Pos.compare_cont Eq my mx) with (my ?= mx)%positive;
    rewrite (Pos.compare_antisym mx my); by destruct (mx ?= my)%positive.
Qed.

Lemma f64_ltb_nan_l y : f64_ltb S754_nan y = false.
Proof. done. Qed.
Lemma f64_ltb_nan_r x : f64_ltb x S754_nan = false.
Proof. by destruct x. Qed.

Lemma f64_ltb_not_nan x y : f64_ltb x y = true -> is_nan x = false /\ is_nan y = false.
Proof. by destruct x, y. Qed.

Lemma f64_ltb_irrefl x : f64_ltb x x = false.
Proof.
  destruct (is_nan x) eqn:E; [by destruct x|]. apply not_true_is_false.
  rewrite f64_ltb_spec by done. unfold lex_lt. lia.
Qed.

Lemma f64_ltb_trans x y z : f64_ltb x y = true -> f64_ltb y z = true -> f64_ltb x z = true.
Proof.
  intros H1 H2. destruct (f64_ltb_not_nan _ _ H1), (f64_ltb_not_nan _ _ H2).
  rewrite f64_ltb_spec in * by done. unfold lex_lt in *. lia.
Qed.

(** On non-NaN values "not less" is a total preorder. *)
Lemma f64_nlt_trans x y z :
  is_nan x = false -> is_nan y = false -> is_nan z = false ->
  f64_ltb y x = false -> f64_ltb z y = false -> f64_ltb z x = false.
Proof.
  intros Hx Hy Hz H1 H2. apply not_true_is_false. apply not_true_iff_false in H1, H2.
  rewrite f64_ltb_spec in * by done. unfold lex_lt in *. lia.
Qed.

Lemma f64_ltb_asym x y : f64_ltb x y = true -> f64_ltb y x = false.
Proof.
  intros H. apply not_true_is_false. intros H'.
  pose proof (f64_ltb_trans _ _ _ H H') as E. by rewrite f64_ltb_irrefl in E.
Qed.

Lemma f64_ltb_lt_nlt x y z :
  is_nan z = false -> f64_ltb x y = true -> f64_ltb z y = false -> f64_ltb x z = true.
Proof.
  intros Hz H1 H2. destruct (f64_ltb_not_nan _ _ H1). apply not_true_iff_false in H2.
  rewrite f64_ltb_spec in * by done. unfold lex_lt in *. lia.
Qed.

Lemma isfinite_not_nan x : isfinite x = true -> is_nan x = false.
Proof. by destruct x. Qed.
#[export] Hint Resolve isfinite_not_nan : obicall.

Lemma bits_of_f64_u64 nan x : is_u64 (bits_of_f64 nan x).
Proof. apply u64_range. Qed.

#[global] Arguments f64_of_bits : simpl never.
#[global] Arguments bits_of_f64 : simpl never.
#[global] Arguments f64_add : simpl never.
#[global] Arguments f64_sub : simpl never.
#[global] Arguments f64_mul : simpl never.
#[global] Arguments f64_div : simpl never.
#[global] Arguments f64_sqrt : simpl never.
#[global] Arguments f64_ltb : simpl never.
#[global] Arguments f64_leb : simpl never.
#[global] Arguments f64_eqb : simpl never.
#[global] Arguments isfinite : simpl never.
