(* ===== verification/Observation.v ===== *)
(** * Observation: validation of admitted input (src/core/observation.c)

    [obicall_observation_validate] returns the issues in the order its callback
    receives them together with the first error; [covariance_is_psd] runs the
    semi-definite Cholesky attempt in binary64, its [double l[6][6]] an explicit
    matrix.  The theorems say which observations pass, that every violated
    condition is reported, and that the status is the first report's. *)

From S2P Require Import Prelude Types Binary64.

Inductive obicall_validation_issue :=
| OBICALL_ISSUE_NONE
| OBICALL_ISSUE_NON_FINITE_PAYLOAD
| OBICALL_ISSUE_NON_FINITE_COVARIANCE
| OBICALL_ISSUE_DIMENSION_MISMATCH
| OBICALL_ISSUE_PAYLOAD_COUNT_OUT_OF_RANGE
| OBICALL_ISSUE_COVARIANCE_COUNT_OUT_OF_RANGE
| OBICALL_ISSUE_COVARIANCE_NOT_SYMMETRIC
| OBICALL_ISSUE_COVARIANCE_NOT_PSD
| OBICALL_ISSUE_SENSOR_ID_EMPTY
| OBICALL_ISSUE_UNSUPPORTED_FRAME_OR_UNITS
| OBICALL_ISSUE_TIME_UNCERTAINTY_NEGATIVE
| OBICALL_ISSUE_STRUCT_SIZE_MISMATCH.

#[global] Instance issue_eq_dec : EqDecision obicall_validation_issue.
Proof. solve_decision. Defined.

Definition obicall_payload_shape_dimension (shape : Z) : Z :=
  if shape =? OBICALL_SHAPE_POSITION_1D then 1
  else if shape =? OBICALL_SHAPE_POSITION_2D then 2
  else if shape =? OBICALL_SHAPE_POSITION_2D_VELOCITY then 4
  else if shape =? OBICALL_SHAPE_RANGE_1D then 1
  else 0.

(** ** The Cholesky attempt *)

Definition mat_get (l : list (list f64)) (i j : nat) : f64 :=
  default f64_zero (l !! i ≫= fun r => r !! j).
Definition mat_set (l : list (list f64)) (i j : nat) (x : f64) : list (list f64) :=
  alter (fun r => <[j := x]> r) i l.

(** [sum = cov[i][j] - l[i][0] l[j][0] - ... - l[i][j-1] l[j][j-1]], left to right. *)
Definition psd_sum (cov : list f64) (dim : nat) (l : list (list f64)) (i j : nat) : f64 :=
  fold_left (fun sum k => (sum - mat_get l i k * mat_get l j k)%f64) (seq 0 j)
    (default f64_zero (cov !! (i * dim + j)%nat)).

(** The body of the two outer loops; [None] is [return 0]. *)
Definition psd_entry (cov : list f64) (dim : nat) (epsilon : f64) (l : list (list f64))
    (i j : nat) : option (list (list f64)) :=
  let sum := psd_sum cov dim l i j in
  if (i =? j)%nat then
    if (sum <? - epsilon)%f64 then None
    else Some (mat_set l i j (if (sum >? f64_zero)%f64 then f64_sqrt sum else f64_zero))
  else
    Some (mat_set l i j (if (mat_get l j j >? epsilon)%f64 then (sum / mat_get l j j)%f64
                         else f64_zero)).

Fixpoint psd_run (cov : list f64) (dim : nat) (epsilon : f64) (ijs : list (nat * nat))
    (l : list (list f64)) : bool :=
  match ijs with
  | [] => true
  | (i, j) :: ijs =>
      match psd_entry cov dim epsilon l i j with
      | None => false
      | Some l => psd_run cov dim epsilon ijs l
      end
  end.

(** [for (i = 0; i < dim; ++i) for (j = 0; j <= i; ++j)]. *)
Definition psd_order (dim : nat) : list (nat * nat) :=
  seq 0 dim ≫= fun i => (fun j => (i, j)) <$> seq 0 (S i).

Definition covariance_is_psd (cov : list f64) (dim : nat) (epsilon : f64) : bool :=
  psd_run cov dim epsilon (psd_order dim) (replicate 6 (replicate 6 f64_zero)).

(** ** Validation *)

Definition f64_1e_9 : f64 := f64_of_bits 4472406533629990549.

(** One pair of the symmetry check: [fabs(a - b) > 1e-9 * (1.0 + fabs(a) + fabs(b))]. *)
Definition asymmetric (a b : f64) : bool :=
  (fabs (a - b) >? f64_1e_9 * (f64_one + fabs a + fabs b))%f64.

Definition covariance_symmetric (cov : list f64) (dim : nat) : bool :=
  forallb (fun i => forallb (fun j =>
    negb (asymmetric (default f64_zero (cov !! (i * dim + j)%nat))
                     (default f64_zero (cov !! (j * dim + i)%nat)))) (seq 0 dim)) (seq 0 dim).

(** The reports so far and [first_error]. *)
Definition vstate : Type := list obicall_validation_issue * status.

(** The [NOTE] macro. *)
Definition note (issue : obicall_validation_issue) (err : status) (st : vstate) : vstate :=
  (st.1 ++ [issue], match st.2 with OBICALL_OK => err | e => e end).

Definition note_if (b : bool) (issue : obicall_validation_issue) (err : status) (st : vstate) : vstate :=
  if b then note issue err st else st.

Definition obicall_observation_validate (obs : obicall_observation)
    : list obicall_validation_issue * status :=
  let st : vstate := ([], OBICALL_OK) in
  let st := note_if (negb (obs_struct_size obs =? sizeof_observation))
              OBICALL_ISSUE_STRUCT_SIZE_MISMATCH OBICALL_ERR_INVALID_ARGUMENT st in
  let st := note_if (default 0 (head (obs_sensor_id obs)) =? 0)
              OBICALL_ISSUE_SENSOR_ID_EMPTY OBICALL_ERR_INVALID_ARGUMENT st in
  let has_terminator := existsb (fun b => b =? 0) (obs_sensor_id obs) in
  let st := note_if (negb has_terminator)
              OBICALL_ISSUE_SENSOR_ID_EMPTY OBICALL_ERR_INVALID_ARGUMENT st in
  let st := note_if ((obs_coordinate_frame obs =? OBICALL_FRAME_UNSPECIFIED)
                     || (obs_units obs =? OBICALL_UNITS_UNSPECIFIED))
              OBICALL_ISSUE_UNSUPPORTED_FRAME_OR_UNITS OBICALL_ERR_UNSUPPORTED st in
  let time_uncertainty_s := f64_of_bits (obs_time_uncertainty_s obs) in
  let st := note_if (negb (isfinite time_uncertainty_s) || (time_uncertainty_s <? f64_zero)%f64)
              OBICALL_ISSUE_TIME_UNCERTAINTY_NEGATIVE OBICALL_ERR_VALIDATION_TIMING st in
  let expected_dim := obicall_payload_shape_dimension (obs_payload_shape obs) in
  let st :=
    if (expected_dim =? 0) || negb (obs_payload_count obs =? expected_dim)
       || (obs_payload_count obs >? OBICALL_MAX_PAYLOAD_DOUBLES)
    then note OBICALL_ISSUE_PAYLOAD_COUNT_OUT_OF_RANGE OBICALL_ERR_VALIDATION_DIMENSION st
    else
      let payload := f64_of_bits <$> take (Z.to_nat (obs_payload_count obs)) (obs_payload obs) in
      note_if (negb (forallb isfinite payload))
        OBICALL_ISSUE_NON_FINITE_PAYLOAD OBICALL_ERR_VALIDATION_NON_FINITE st in
  let expected_cov := u32 (expected_dim * expected_dim) in
  if (expected_dim =? 0) || negb (obs_covariance_count obs =? expected_cov)
     || (obs_covariance_count obs >? OBICALL_MAX_COV_DOUBLES)
  then note OBICALL_ISSUE_COVARIANCE_COUNT_OUT_OF_RANGE OBICALL_ERR_VALIDATION_COVARIANCE st
  else
    let covariance :=
      f64_of_bits <$> take (Z.to_nat (obs_covariance_count obs)) (obs_covariance obs) in
    let dim := Z.to_nat expected_dim in
    if negb (forallb isfinite covariance)
    then note OBICALL_ISSUE_NON_FINITE_COVARIANCE OBICALL_ERR_VALIDATION_NON_FINITE st
    else if negb (covariance_symmetric covariance dim)
    then note OBICALL_ISSUE_COVARIANCE_NOT_SYMMETRIC OBICALL_ERR_VALIDATION_COVARIANCE st
    else note_if (negb (covariance_is_psd covariance dim f64_1e_9))
           OBICALL_ISSUE_COVARIANCE_NOT_PSD OBICALL_ERR_VALIDATION_COVARIANCE st.

(** * Theorems *)

(** ** What passes *)

(** The observations the rest of the system works with. *)
Record observation_ok (o : obicall_observation) : Prop := {
  ok_struct_size : obs_struct_size o = sizeof_observation;
  ok_sensor_id : exists c s, obs_sensor_id o = c :: s /\ c <> 0 /\ 0 ∈ s;
  ok_frame : obs_coordinate_frame o <> OBICALL_FRAME_UNSPECIFIED;
  ok_units : obs_units o <> OBICALL_UNITS_UNSPECIFIED;
  ok_time_finite : isfinite (f64_of_bits (obs_time_uncertainty_s o)) = true;
  ok_time_nonneg : (f64_of_bits (obs_time_uncertainty_s o) <? f64_zero)%f64 = false;
  ok_dim : 0 < obs_payload_count o;
  ok_payload_count : obs_payload_count o = obicall_payload_shape_dimension (obs_payload_shape o);
  ok_covariance_count : obs_covariance_count o = obs_payload_count o * obs_payload_count o;
  ok_payload : Forall (fun b => isfinite (f64_of_bits b) = true)
                 (take (Z.to_nat (obs_payload_count o)) (obs_payload o));
  ok_covariance : Forall (fun b => isfinite (f64_of_bits b) = true)
                    (take (Z.to_nat (obs_covariance_count o)) (obs_covariance o));
  ok_symmetric : covariance_symmetric
      (f64_of_bits <$> take (Z.to_nat (obs_covariance_count o)) (obs_covariance o))
      (Z.to_nat (obs_payload_count o)) = true;
  ok_psd : covariance_is_psd
      (f64_of_bits <$> take (Z.to_nat (obs_covariance_count o)) (obs_covariance o))
      (Z.to_nat (obs_payload_count o)) f64_1e_9 = true
}.

Lemma payload_shape_dimension_range shape :
  0 <= obicall_payload_shape_dimension shape <= 4.
Proof. unfold obicall_payload_shape_dimension. repeat case_match; lia. Qed.

(** The status each issue carries. *)
Definition issue_status (i : obicall_validation_issue) : status :=
  match i with
  | OBICALL_ISSUE_NONE => OBICALL_OK
  | OBICALL_ISSUE_NON_FINITE_PAYLOAD | OBICALL_ISSUE_NON_FINITE_COVARIANCE =>
      OBICALL_ERR_VALIDATION_NON_FINITE
  | OBICALL_ISSUE_DIMENSION_MISMATCH | OBICALL_ISSUE_PAYLOAD_COUNT_OUT_OF_RANGE =>
      OBICALL_ERR_VALIDATION_DIMENSION
  | OBICALL_ISSUE_COVARIANCE_COUNT_OUT_OF_RANGE | OBICALL_ISSUE_COVARIANCE_NOT_SYMMETRIC
  | OBICALL_ISSUE_COVARIANCE_NOT_PSD => OBICALL_ERR_VALIDATION_COVARIANCE
  | OBICALL_ISSUE_SENSOR_ID_EMPTY | OBICALL_ISSUE_STRUCT_SIZE_MISMATCH =>
      OBICALL_ERR_INVALID_ARGUMENT
  | OBICALL_ISSUE_UNSUPPORTED_FRAME_OR_UNITS => OBICALL_ERR_UNSUPPORTED
  | OBICALL_ISSUE_TIME_UNCERTAINTY_NEGATIVE => OBICALL_ERR_VALIDATION_TIMING
  end.

(** The states validation goes through: the first error is that of the first report. *)
Definition reported (st : vstate) : Prop :=
  Forall (fun i => issue_status i <> OBICALL_OK) st.1 /\
  st.2 = match st.1 with [] => OBICALL_OK | i :: _ => issue_status i end.

Lemma note_reported i e st :
  e = issue_status i -> e <> OBICALL_OK -> reported st -> reported (note i e st).
Proof.
  intros -> Hi [Hf Hs]. split; simpl; [by apply Forall_app; auto|].
  rewrite Hs. destruct Hf as [|j js Hj]; [done|]. simpl. by destruct (issue_status j).
Qed.

Lemma note_if_reported b i e st :
  e = issue_status i -> e <> OBICALL_OK -> reported st -> reported (note_if b i e st).
Proof. destruct b; [by apply note_reported|done]. Qed.

Lemma note_err i e st : e <> OBICALL_OK -> (note i e st).2 <> OBICALL_OK.
Proof. simpl. by destruct st.2. Qed.

Lemma note_if_ok b i e st :
  e <> OBICALL_OK -> (note_if b i e st).2 = OBICALL_OK <-> b = false /\ st.2 = OBICALL_OK.
Proof. intros He. destruct b; simpl; [|tauto]. split; [|by intros []]. by destruct st.2. Qed.

Lemma existsb_zero_elem l : existsb (fun b => b =? 0) l = true <-> 0 ∈ l.
Proof.
  rewrite existsb_exists. split.
  - intros (x & Hx & E). rewrite Z.eqb_eq in E. subst. by apply list_elem_of_In.
  - intros H. exists 0. split; [by apply list_elem_of_In|done].
Qed.

Lemma forallb_finite l :
  forallb isfinite (f64_of_bits <$> l) = true <-> Forall (fun b => isfinite (f64_of_bits b) = true) l.
Proof.
  induction l as [|b l IH]; [by split; [constructor|]|].
  rewrite fmap_cons. cbn [forallb]. rewrite andb_true_iff, Forall_cons.
  apply and_iff_compat_l, IH.
Qed.

Lemma validate_reported o : reported (obicall_observation_validate o).
Proof.
  unfold obicall_observation_validate.
  repeat case_match; repeat (apply note_reported || apply note_if_reported); done.
Qed.

(** What [obicall_observation_validate] tests of the identity of an observation. *)
Lemma sensor_id_ok s :
  (exists c s', s = c :: s' /\ c <> 0 /\ 0 ∈ s') <->
  (default 0 (head s) =? 0) = false /\ negb (existsb (fun b => b =? 0) s) = false.
Proof.
  rewrite negb_false_iff, existsb_zero_elem, Z.eqb_neq. split.
  - intros (c & s' & -> & Hc & H0). split; [done|by right].
  - intros [Hc H0]. destruct s as [|c s]; [done|]. exists c, s. split_and!; [done..|].
    by apply elem_of_cons in H0 as [<-|].
Qed.

Lemma validate_ok_equiv o :
  (obicall_observation_validate o).2 = OBICALL_OK <-> observation_ok o.
Proof.
  unfold obicall_observation_validate.
  pose proof (payload_shape_dimension_range (obs_payload_shape o)) as Hd.
  set (dim := obicall_payload_shape_dimension (obs_payload_shape o)) in *.
  assert (u32 (dim * dim) = dim * dim) as Hdd by (apply u32_id; unfold is_u32; nia).
  rewrite Hdd. unfold OBICALL_MAX_PAYLOAD_DOUBLES, OBICALL_MAX_COV_DOUBLES. cbv zeta.
  split.
  - intros H.
    destruct ((dim =? 0) || _ || (obs_covariance_count o >? 36)) eqn:E1;
      [by apply note_err in H|].
    destruct (negb (forallb isfinite (_ <$> take (Z.to_nat (obs_covariance_count o)) _))) eqn:E2;
      [by apply note_err in H|].
    destruct (negb (covariance_symmetric _ _)) eqn:E3; [by apply note_err in H|].
    apply note_if_ok in H as [E4 H]; [|done].
    destruct ((dim =? 0) || _ || (obs_payload_count o >? 6)) eqn:E5; [by apply note_err in H|].
    repeat (apply note_if_ok in H as [? H]; [|done]). clear H.
    apply negb_false_iff in E2, E3, E4, H0. apply forallb_finite in E2, H0.
    assert (obs_payload_count o = dim) as Hp by lia.
    apply orb_false_iff in H1 as [Hfin Hneg], H2 as [Hfr Hun]. rewrite Hp in H0.
    apply negb_false_iff in Hfin.
    split; rewrite ?Hp; try done; try lia; try by apply sensor_id_ok.
  - intros [Hsz Hid Hfr Hun Htf Htn Hdim Hp Hc Hpay Hcov Hsym Hpsd].
    apply sensor_id_ok in Hid as [Hid1 Hid2]. fold dim in Hp. rewrite Hp in Hc, Hsym, Hpsd, Hdim.
    replace ((dim =? 0) || _ || (obs_covariance_count o >? 36)) with false by nia.
    replace ((dim =? 0) || _ || (obs_payload_count o >? 6)) with false by lia.
    apply forallb_finite in Hcov, Hpay. rewrite Hcov, Hsym, Hpsd. cbn [negb].
    rewrite !note_if_ok by done. rewrite Hid1, Hid2, Htf, Htn, Hsz, Hpay.
    unfold OBICALL_FRAME_UNSPECIFIED, OBICALL_UNITS_UNSPECIFIED in *.
    split_and!; try done; lia.
Qed.

(** ** What the covariance test accepts

    The entries of a [dim] x [dim] matrix, and a triangular factor of it as mathematics
    writes it, by its recurrence in binary64: the test passes exactly when there is one.
    A pivot not above [1e-9] makes its column zero, so the test is weaker than positive
    semi-definiteness. *)

Definition entry (cov : list f64) (dim i j : nat) : f64 := default f64_zero (cov !! (i * dim + j)%nat).

Definition remainder (cov : list f64) (dim : nat) (L : nat -> nat -> f64) (i j : nat) : f64 :=
  fold_left (fun sum k => (sum - L i k * L j k)%f64) (seq 0 j) (entry cov dim i j).

(** The equation of entry [(i, j)], on or below the diagonal. *)
Definition factor_entry (cov : list f64) (dim : nat) (L : nat -> nat -> f64) (i j : nat) : Prop :=
  let rest := remainder cov dim L i j in
  if decide (i = j) then
    (rest <? - f64_1e_9)%f64 = false /\ L i i = (if (rest >? f64_zero)%f64 then f64_sqrt rest else f64_zero)
  else L i j = (if (L j j >? f64_1e_9)%f64 then (rest / L j j)%f64 else f64_zero).

Definition has_factor (cov : list f64) (dim : nat) : Prop :=
  exists L, forall i j, (j <= i < dim)%nat -> factor_entry cov dim L i j.

(** [(i', j')] comes before [(i, j)] in the order of the loops. *)
Definition before (i j i' j' : nat) : Prop := (j' <= i')%nat /\ ((i' < i)%nat \/ i' = i /\ (j' < j)%nat).

Definition square (l : list (list f64)) : Prop := length l = 6%nat /\ Forall (fun r => length r = 6%nat) l.

Lemma mat_set_square l i j x : square l -> square (mat_set l i j x).
Proof.
  intros [Hl Hr]. unfold mat_set. split; [by rewrite length_alter|]. apply Forall_alter; [done|]. intros r _ H. by rewrite length_insert.
Qed.

Lemma mat_get_set l i j x i' j' : square l -> (i < 6)%nat -> (j < 6)%nat ->
  mat_get (mat_set l i j x) i' j' = if decide (i' = i /\ j' = j) then x else mat_get l i' j'.
Proof.
  intros [Hl Hr] Hi Hj. unfold mat_get, mat_set. destruct (lookup_lt_is_Some_2 l i ltac:(lia)) as [r E].
  pose proof (Forall_lookup_1 _ _ _ _ Hr E) as Hlen. cbn in Hlen.
  destruct (decide (i' = i)) as [->|Hne].
  - rewrite list_lookup_alter_eq, E. cbn [fmap option_fmap option_map mbind option_bind].
    destruct (decide (j' = j)) as [->|Hnj].
    + rewrite decide_True by done. by rewrite list_lookup_insert_eq by lia.
    + rewrite decide_False by (by intros []). by rewrite list_lookup_insert_ne by done.
  - rewrite list_lookup_alter_ne by done. by rewrite decide_False by (by intros []).
Qed.

Lemma remainder_ext cov dim L M i j :
  (forall k, (k < j)%nat -> L i k = M i k /\ L j k = M j k) -> remainder cov dim L i j = remainder cov dim M i j.
Proof.
  intros H. unfold remainder. assert (Hs : Forall (fun k => (k < j)%nat) (seq 0 j)).
  { apply Forall_forall. intros k Hk. apply elem_of_seq in Hk. lia. }
  revert Hs. generalize (entry cov dim i j), (seq 0 j). intros sum ks Hs. revert sum.
  induction Hs as [|k ks Hk _ IH]; intros sum; cbn [fold_left]; [done|]. destruct (H k Hk) as [-> ->]. apply IH.
Qed.

(** The equations look no further than the loops have come. *)
Lemma factor_entry_ext cov dim L M i j : (j <= i)%nat ->
  (forall i' j', before i (S j) i' j' -> L i' j' = M i' j') -> factor_entry cov dim L i j <-> factor_entry cov dim M i j.
Proof.
  intros Hji H. unfold factor_entry. rewrite (remainder_ext cov dim L M).
  - destruct (decide (i = j)) as [->|Hne]; [by rewrite H by (unfold before; lia)|].
    rewrite (H i j), (H j j) by (unfold before; lia). done.
  - intros k Hk. split; apply H; unfold before; lia.
Qed.

(** The remaining loops succeed exactly when the entries so far extend to a factor. *)
Definition extends (cov : list f64) (dim : nat) (l : list (list f64)) (i j : nat) : Prop :=
  exists L, (forall i' j', (j' <= i' < dim)%nat -> factor_entry cov dim L i' j') /\
    forall i' j', before i j i' j' -> L i' j' = mat_get l i' j'.

Definition solved (cov : list f64) (dim : nat) (l : list (list f64)) (i j : nat) : Prop :=
  square l /\ forall i' j', before i j i' j' -> factor_entry cov dim (mat_get l) i' j'.

Lemma psd_entry_step cov dim l i j :
  (j <= i < dim)%nat -> (dim <= 6)%nat -> solved cov dim l i j ->
  match psd_entry cov dim f64_1e_9 l i j with
  | None => ~ extends cov dim l i j
  | Some l' => solved cov dim l' i (S j) /\ (extends cov dim l' i (S j) <-> extends cov dim l i j)
  end.
Proof.
  intros Hij Hdim [Hsq Hs].
  assert (Hset : forall x, (forall L, (forall i' j', before i j i' j' -> L i' j' = mat_get l i' j') -> factor_entry cov dim L i j <->
      (remainder cov dim (mat_get l) i j <? - f64_1e_9)%f64 && (i =? j)%nat = false /\ L i j = x) ->
    (remainder cov dim (mat_get l) i j <? - f64_1e_9)%f64 && (i =? j)%nat = false ->
    solved cov dim (mat_set l i j x) i (S j) /\ (extends cov dim (mat_set l i j x) i (S j) <-> extends cov dim l i j)).
  { intros x Hx Hok. set (l' := mat_set l i j x).
    assert (Hold : forall i' j', before i j i' j' -> mat_get l' i' j' = mat_get l i' j').
    { intros i' j' Hb. unfold l'. rewrite mat_get_set, decide_False by (done || (unfold before in Hb; lia)). done. }
    assert (Hnew : mat_get l' i j = x) by (unfold l'; by rewrite mat_get_set, decide_True by (done || lia)).
    assert (Hsplit : forall i' j', before i (S j) i' j' -> before i j i' j' \/ (i' = i /\ j' = j)) by (unfold before; lia).
    split; [split; [by apply mat_set_square|]|].
    - intros i' j' [Hb|[-> ->]]%Hsplit; [|by apply Hx].
      apply (factor_entry_ext cov dim _ (mat_get l)); [apply Hb| |by apply Hs].
      intros i2 j2 Hb2. apply Hold. unfold before in *. lia.
    - split; intros (L & HL & Ha); exists L; (split; [done|]).
      + intros i' j' Hb. rewrite Ha; [by apply Hold|]. unfold before in *. lia.
      + intros i' j' [Hb|[-> ->]]%Hsplit; [by rewrite Hold, Ha|]. rewrite Hnew. by apply Hx; [|apply HL]. }
  assert (Hrem : forall L, (forall i' j', before i j i' j' -> L i' j' = mat_get l i' j') ->
    (i <> j -> L j j = mat_get l j j) /\ remainder cov dim L i j = remainder cov dim (mat_get l) i j).
  { intros L Ha. split; [intros Hne; apply Ha; unfold before; lia|].
    destruct (decide (i = j)) as [->|Hne]; apply remainder_ext; intros k Hk; split; apply Ha; unfold before; lia. }
  unfold psd_entry. fold (mat_get l). change (psd_sum cov dim l i j) with (remainder cov dim (mat_get l) i j).
  destruct (Nat.eqb_spec i j) as [->|Hne].
  - destruct (_ <? _)%f64 eqn:Elt.
    + intros (L & HL & Ha). specialize (HL j j Hij). unfold factor_entry in HL. rewrite decide_True in HL by done.
      destruct (Hrem L Ha) as [_ Hr]. rewrite Hr, Elt in HL. by destruct HL.
    + apply Hset; [|by rewrite ?Elt]. intros L Ha. unfold factor_entry. rewrite decide_True by done.
      destruct (Hrem L Ha) as [_ ->]. by rewrite Elt.
  - apply Hset; [|by rewrite andb_false_r]. intros L Ha. unfold factor_entry. rewrite decide_False by done.
    destruct (Hrem L Ha) as [Hjj ->]. rewrite Hjj by done. rewrite andb_false_r. split; [by split|by intros []].
Qed.

Lemma psd_row cov dim rest i : (i < dim)%nat -> (dim <= 6)%nat ->
  (forall l, solved cov dim l (S i) 0 -> psd_run cov dim f64_1e_9 rest l = true <-> extends cov dim l (S i) 0) ->
  forall m j l, (j + m = S i)%nat -> solved cov dim l i j ->
  psd_run cov dim f64_1e_9 ((pair i <$> seq j m) ++ rest) l = true <-> extends cov dim l i j.
Proof.
  intros Hi Hdim Hrest m. induction m as [|m IH]; intros j l Hm Hs.
  - assert (Hb : forall i' j', before i j i' j' <-> before (S i) 0 i' j') by (unfold before; lia).
    cbn [seq fmap list_fmap app]. destruct Hs as [Hsq Hs]. rewrite Hrest by (split; [done|]; intros i' j' H%Hb; auto).
    split; intros (L & HL & Ha); exists L; (split; [done|]); intros i' j' H%Hb; auto.
  - cbn [seq fmap list_fmap app psd_run]. pose proof (psd_entry_step cov dim l i j ltac:(lia) Hdim Hs) as Hst.
    destruct (psd_entry _ _ _ _ _ _) as [l'|]; [|by split; [|intros ?; destruct Hst]].
    destruct Hst as [Hs' <-]. apply IH; [lia|done].
Qed.

Lemma covariance_is_psd_spec cov dim : (dim <= 6)%nat -> covariance_is_psd cov dim f64_1e_9 = true <-> has_factor cov dim.
Proof.
  intros Hdim. unfold covariance_is_psd, psd_order.
  enough (H : forall n i l, (i + n = dim)%nat -> solved cov dim l i 0 ->
    psd_run cov dim f64_1e_9 (seq i n ≫= fun i => pair i <$> seq 0 (S i)) l = true <-> extends cov dim l i 0).
  { rewrite H; [|done|split; [by repeat constructor|unfold before; lia]].
    split; [intros (L & HL & _); by exists L|]. intros [L HL]. exists L. split; [done|]. unfold before. lia. }
  induction n as [|n IH]; intros i l Hin Hs.
  - cbn [seq mbind list_bind psd_run]. split; [intros _|done]. exists (mat_get l). split; [|done].
    intros i' j' Hij. apply Hs. unfold before. lia.
  - change (seq i (S n)) with (i :: seq (S i) n). cbn [mbind list_bind]. apply (psd_row cov dim); [lia|done| |lia|done]. intros l' Hs'. apply IH; [lia|done].
Qed.

(** ** The contract in its own terms *)

Definition shape_sizes : list (Z * Z) :=
  [(OBICALL_SHAPE_POSITION_1D, 1); (OBICALL_SHAPE_POSITION_2D, 2);
   (OBICALL_SHAPE_POSITION_2D_VELOCITY, 4); (OBICALL_SHAPE_RANGE_1D, 1)].

Record contract_ok (o : obicall_observation) : Prop := {
  ct_struct_size : obs_struct_size o = sizeof_observation;
  ct_sensor_id : exists name rest, obs_sensor_id o = name ++ 0 :: rest /\ name <> [] /\ 0 ∉ name;
  ct_frame_units : obs_coordinate_frame o <> OBICALL_FRAME_UNSPECIFIED /\ obs_units o <> OBICALL_UNITS_UNSPECIFIED;
  ct_time : let t := f64_of_bits (obs_time_uncertainty_s o) in isfinite t = true /\ (t <? f64_zero)%f64 = false;
  ct_numbers : exists n,
    In (obs_payload_shape o, Z.of_nat n) shape_sizes /\
    obs_payload_count o = Z.of_nat n /\ obs_covariance_count o = Z.of_nat (n * n) /\
    let numbers := f64_of_bits <$> take n (obs_payload o) in
    let cov := f64_of_bits <$> take (n * n) (obs_covariance o) in
    Forall (fun x => isfinite x = true) numbers /\ Forall (fun x => isfinite x = true) cov /\
    (forall i j, (i < n)%nat -> (j < n)%nat ->
       let a := entry cov n i j in let b := entry cov n j i in
       (fabs (a - b) >? f64_1e_9 * (f64_one + fabs a + fabs b))%f64 = false) /\
    has_factor cov n
}.

Lemma first_zero l : 0 ∈ l -> exists name rest, l = name ++ 0 :: rest /\ 0 ∉ name.
Proof.
  induction l as [|c l IH]; intros H; [by apply elem_of_nil in H|]. destruct (decide (c = 0)) as [->|Hc].
  - exists [], l. split; [done|]. apply not_elem_of_nil.
  - apply elem_of_cons in H as [?|H]; [congruence|]. destruct (IH H) as (name & rest & -> & Hn).
    exists (c :: name), rest. split; [done|]. by rewrite not_elem_of_cons.
Qed.

Lemma sensor_id_contract s :
  (exists c s', s = c :: s' /\ c <> 0 /\ 0 ∈ s') <-> exists name rest, s = name ++ 0 :: rest /\ name <> [] /\ 0 ∉ name.
Proof.
  split.
  - intros (c & s' & -> & Hc & H0). destruct (first_zero s' H0) as (name & rest & -> & Hn).
    exists (c :: name), rest. split_and!; [done..|]. by rewrite not_elem_of_cons.
  - intros ([|c name] & rest & -> & Hne & H0); [done|]. apply not_elem_of_cons in H0 as [Hc _].
    exists c, (name ++ 0 :: rest). split_and!; [done|congruence|]. apply elem_of_app. right. by left.
Qed.

Lemma shape_size shape n :
  In (shape, Z.of_nat n) shape_sizes <-> Z.of_nat n = obicall_payload_shape_dimension shape /\ (0 < n)%nat.
Proof.
  unfold shape_sizes, obicall_payload_shape_dimension, OBICALL_SHAPE_POSITION_1D, OBICALL_SHAPE_POSITION_2D,
    OBICALL_SHAPE_POSITION_2D_VELOCITY, OBICALL_SHAPE_RANGE_1D. split.
  - intros [[= <- E]|[[= <- E]|[[= <- E]|[[= <- E]|[]]]]]; (split; [by rewrite <- E|lia]).
  - intros [E Hn]. destruct (Z.eqb_spec shape 1) as [->|]; [left; congruence|].
    destruct (Z.eqb_spec shape 2) as [->|]; [right; left; congruence|].
    destruct (Z.eqb_spec shape 3) as [->|]; [do 2 right; left; congruence|].
    destruct (Z.eqb_spec shape 4) as [->|]; [do 3 right; left; congruence|]. lia.
Qed.

Lemma covariance_symmetric_spec cov dim :
  covariance_symmetric cov dim = true <->
  forall i j, (i < dim)%nat -> (j < dim)%nat -> asymmetric (entry cov dim i j) (entry cov dim j i) = false.
Proof.
  unfold covariance_symmetric. rewrite forallb_forall. split.
  - intros H i j Hi Hj. specialize (H i ltac:(apply in_seq; lia)). rewrite forallb_forall in H.
    specialize (H j ltac:(apply in_seq; lia)). by apply negb_true_iff in H.
  - intros H i Hi%in_seq. apply forallb_forall. intros j Hj%in_seq. apply negb_true_iff. apply H; lia.
Qed.

Lemma contract_equiv o : observation_ok o <-> contract_ok o.
Proof.
  pose proof (payload_shape_dimension_range (obs_payload_shape o)) as Hd. split.
  - intros [Hsz Hid Hfr Hun Htf Htn Hdim Hp Hc Hpay Hcov Hsym Hpsd]. split; try done; [by apply sensor_id_contract|].
    set (n := Z.to_nat (obs_payload_count o)) in *. assert (Hn : obs_payload_count o = Z.of_nat n) by lia.
    assert (Hnn : Z.to_nat (obs_covariance_count o) = (n * n)%nat) by nia. rewrite Hnn in *.
    exists n. cbv zeta. split_and!; [apply shape_size; lia|done|lia|by apply Forall_fmap|by apply Forall_fmap| |].
    + by apply covariance_symmetric_spec.
    + apply covariance_is_psd_spec; [lia|done].
  - intros [Hsz Hid [Hfr Hun] [Htf Htn] (n & Hsh & Hp & Hc & Hpay & Hcov & Hsym & Hpsd)].
    apply shape_size in Hsh as [Hsh Hn]. apply Forall_fmap in Hpay, Hcov.
    assert (Hcn : Z.to_nat (obs_covariance_count o) = (n * n)%nat) by lia.
    assert (Hpn : Z.to_nat (obs_payload_count o) = n) by lia.
    split; rewrite ?Hcn, ?Hpn; try done; try lia; [by apply sensor_id_contract| |].
    + by apply covariance_symmetric_spec.
    + apply covariance_is_psd_spec; [lia|done].
Qed.

(** C38: [obicall_observation_validate] returns [OBICALL_OK] on exactly the observations
    that have the right structure size, a terminated non-empty sensor id, a frame and
    units, a finite time uncertainty not below zero, the number of payload and covariance
    entries that belongs to the payload's shape, all of them finite, a covariance
    symmetric up to the relative tolerance 1e-9 and one that has a triangular factor in
    binary64, pivots below -1e-9 excluded and columns of pivots up to 1e-9 left zero.
    The last condition is what the code tests; it is weaker than the positive
    semi-definiteness that observation.h announces ([indefinite_accepted]). *)
Theorem validate_ok_iff o :
  (obicall_observation_validate o).2 = OBICALL_OK <-> contract_ok o.
Proof. by rewrite validate_ok_equiv, contract_equiv. Qed.

(** The matrix with rows (0, 1) and (1, 0) passes, although its determinant is -1. *)
Example indefinite_accepted :
  covariance_is_psd (f64_of_bits <$> [0; 4607182418800017408; 4607182418800017408; 0]) 2 f64_1e_9 = true.
Proof. vm_compute. reflexivity. Qed.

(** the status is the category of the first issue reported, and is
    [OBICALL_OK] exactly when the callback receives nothing. *)
Theorem validate_first_issue o :
  (obicall_observation_validate o).2 =
  match (obicall_observation_validate o).1 with
  | [] => OBICALL_OK
  | i :: _ => issue_status i
  end
  /\ ((obicall_observation_validate o).2 = OBICALL_OK <-> (obicall_observation_validate o).1 = []).
Proof.
  destruct (validate_reported o) as [Hf Hs]. rewrite Hs. split; [done|].
  destruct Hf; [done|]. by split.
Qed.
