(* ===== verification/Stdio.v ===== *)
(** * Stdio: the C streams the journal and the gate keep their records in

    A [FILE*] is the bytes of its file and the read position.  Writes go to the
    end (the segment file is opened in append mode, the gate's temporary file is
    freshly truncated) and may come up short; [fflush] and [fsync] report
    success or failure.  How a write fares is an input of the model, so the
    theorems hold for every pattern of failures. *)

From S2P Require Import Prelude Types.

Record cfile := CFile { f_data : list Z; f_pos : nat }.

(** [fread(dst, 1, n, f)]: what was read (its length is the returned count). *)
Definition fread (n : nat) (f : cfile) : list Z * cfile :=
  let got := take n (drop (f_pos f) (f_data f)) in
  (got, CFile (f_data f) (f_pos f + length got)).

Definition feof (f : cfile) : bool := (length (f_data f) <=? f_pos f)%nat.

(** [fseek(f, pos, SEEK_SET)] *)
Definition fseek (pos : nat) (f : cfile) : cfile := CFile (f_data f) pos.

(** How one append of two buffers fares: [None] is a complete write, [Some k] a
    short one of [k] bytes. *)
Record io_outcome := IO {
  io_header : option nat;
  io_body : option nat;
  io_fflush : bool;
  io_fsync : bool
}.

Definition io_success : io_outcome := IO None None true true.

(** [fwrite(bs, 1, n, f) != n] and the stream afterwards. *)
Definition fwrite (short : option nat) (bs : list Z) (f : cfile) : bool * cfile :=
  match short with
  | None => (true, CFile (f_data f ++ bs) (f_pos f))
  | Some k =>
      if (k <? length bs)%nat then (false, CFile (f_data f ++ take k bs) (f_pos f))
      else (true, CFile (f_data f ++ bs) (f_pos f))
  end.

(** How both record writers end: header, body unless it is empty, [fflush], durable
    sync; the first failure returns [err].  A failed write has still changed the
    stream. *)
Definition write_record (err : status) (io : io_outcome) (hdr body : list Z) (f : cfile)
    : status * cfile :=
  let '(ok, f) := fwrite (io_header io) hdr f in
  if negb ok then (err, f)
  else
  let '(ok, f) := if Z.of_nat (length body) >? 0 then fwrite (io_body io) body f else (true, f) in
  if negb ok then (err, f)
  else if negb (io_fflush io) then (err, f)
  else if negb (io_fsync io) then (err, f)
  else (OBICALL_OK, f).

Lemma fwrite_data short bs f ok f' :
  fwrite short bs f = (ok, f') ->
  f_pos f' = f_pos f /\
  exists k, f_data f' = f_data f ++ take k bs /\ (k <= length bs)%nat /\ (ok = true -> k = length bs).
Proof.
  unfold fwrite. intros H. repeat case_match; simplify_eq/=; (split; [done|]).
  - eexists. split; [done|]. apply Nat.ltb_lt in H1. split; [lia|done].
  - exists (length bs). by rewrite firstn_all.
  - exists (length bs). by rewrite firstn_all.
Qed.

Lemma fread_app n pre bs post :
  length bs = n ->
  fread n (CFile (pre ++ bs ++ post) (length pre)) = (bs, CFile (pre ++ bs ++ post) (length pre + n)).
Proof.
  intros <-. unfold fread. simpl. by rewrite drop_app_length, take_app_length.
Qed.

Lemma fread_short n f :
  (length (f_data f) - f_pos f <= n)%nat ->
  fread n f = (drop (f_pos f) (f_data f),
               CFile (f_data f) (f_pos f + (length (f_data f) - f_pos f))).
Proof.
  intros. unfold fread. rewrite take_ge by (rewrite length_drop; lia). by rewrite length_drop.
Qed.

(** Whatever the failures, the file gains a prefix of the record, and all of it
    on success. *)
Lemma write_record_data err io hdr body f st f' :
  err <> OBICALL_OK -> write_record err io hdr body f = (st, f') ->
  f_pos f' = f_pos f /\ (st = OBICALL_OK \/ st = err) /\
  exists k, f_data f' = f_data f ++ take k (hdr ++ body) /\
            (st = OBICALL_OK -> f_data f' = f_data f ++ hdr ++ body).
Proof.
  intros Herr. unfold write_record.
  destruct (fwrite (io_header io) hdr f) as [ok1 f1] eqn:E1.
  apply fwrite_data in E1 as (Hp1 & k1 & Hd1 & Hk1 & Hok1).
  destruct ok1; cbn [negb].
  2:{ intros [= <- <-]. split_and!; [done|by right|]. exists k1. split; [|done].
      by rewrite take_app_le. }
  specialize (Hok1 eq_refl). subst k1. rewrite firstn_all in Hd1.
  destruct (if _ >? 0 then _ else _) as [ok2 f2] eqn:E2.
  assert (f_pos f2 = f_pos f1 /\ exists k, f_data f2 = f_data f1 ++ take k body /\
            (ok2 = true -> take k body = body)) as (Hp2 & k2 & Hd2 & Hok2).
  { destruct (_ >? 0) eqn:Eb.
    - apply fwrite_data in E2 as (? & k & ? & ? & Hk). split; [done|]. exists k. split; [done|].
      intros ->. by rewrite Hk, firstn_all.
    - simplify_eq. split; [done|]. exists 0%nat. destruct body; [|cbn [length] in Eb; lia].
      by rewrite app_nil_r. }
  assert (f_data f2 = f_data f ++ take (length hdr + k2) (hdr ++ body)) as Hd
    by (by rewrite take_app_add, Hd2, Hd1, app_assoc).
  destruct ok2; cbn [negb]; repeat case_match; intros [= <- <-];
    (split_and!; [congruence|auto|eexists; split; [done|intros Hst]]);
    first [done | by destruct (Herr Hst) | by rewrite Hd2, Hd1, (Hok2 eq_refl), <- app_assoc].
Qed.

Lemma write_record_success err hdr body f :
  err <> OBICALL_OK ->
  write_record err io_success hdr body f = (OBICALL_OK, CFile (f_data f ++ hdr ++ body) (f_pos f)).
Proof.
  intros Herr. destruct (write_record err io_success hdr body f) as [st f'] eqn:E.
  assert (st = OBICALL_OK) as ->.
  { revert E. unfold write_record. simpl. by destruct (_ >? 0); intros [= <- <-]. }
  destruct (write_record_data _ _ _ _ _ _ _ Herr E) as (Hp & _ & k & _ & Hd).
  destruct f'; simpl in *. by rewrite Hp, Hd.
Qed.
