(* ===== verification/Journal.v ===== *)
(** * Journal: admission and the segment records (src/core/journal.c)

    [obicall_journal_admit] decides one observation against its sensor's track;
    [obicall_journal_append_record] and [obicall_journal_read_record] move
    records to and from the segment file ([Stdio.cfile]). *)

From Stdlib Require Import Sorting.Sorted.
From S2P Require Import Prelude Types Samples Digest Cursor Wire Binary64 Observation Stdio.

Inductive obicall_admission_reason :=
| OBICALL_ADMIT_OK
| OBICALL_REJECT_VALIDATION
| OBICALL_REJECT_DUPLICATE
| OBICALL_REJECT_LATE
| OBICALL_REJECT_OVERFLOW
| OBICALL_REJECT_SEQUENCE_REGRESSION.

#[global] Instance admission_reason_eq_dec : EqDecision obicall_admission_reason.
Proof. solve_decision. Defined.

Definition admission_code (r : obicall_admission_reason) : Z :=
  match r with
  | OBICALL_ADMIT_OK => 0
  | OBICALL_REJECT_VALIDATION => 1
  | OBICALL_REJECT_DUPLICATE => 2
  | OBICALL_REJECT_LATE => 3
  | OBICALL_REJECT_OVERFLOW => 4
  | OBICALL_REJECT_SEQUENCE_REGRESSION => 5
  end.

Record obicall_journal_config := JournalConfig {
  jc_reorder_window_n : Z;
  jc_max_lateness_ns : Z;
  jc_max_pending_per_pipeline : Z;
  jc_overflow_policy : Z
}.

Record obicall_sensor_track := SensorTrack {
  tr_sensor_id : list Z;              (* char[32] *)
  tr_source_boot_id : Z;
  tr_has_data : Z;
  tr_highest_sequence_seen : Z;
  tr_watermark_sample_time_ns : Z
}.

Definition zero_track : obicall_sensor_track := SensorTrack (replicate 32 0) 0 0 0 0.

(** ** Admission *)

Definition is_new_session (track : obicall_sensor_track) (obs : obicall_observation) : bool :=
  (tr_has_data track =? 0) || negb (tr_source_boot_id track =? obs_source_boot_id obs).

Definition obicall_journal_admit (cfg : obicall_journal_config) (track : obicall_sensor_track)
    (obs : obicall_observation) (current_pending_count : Z)
    : obicall_admission_reason * obicall_sensor_track :=
  match (obicall_observation_validate obs).2 with
  | OBICALL_OK =>
      let new := is_new_session track obs in
      let admit_rest :=
        if current_pending_count >=? jc_max_pending_per_pipeline cfg
        then (OBICALL_REJECT_OVERFLOW, track)
        else
          (OBICALL_ADMIT_OK,
           SensorTrack (obs_sensor_id obs) (obs_source_boot_id obs) 1 (obs_sequence obs)
             (if new || (obs_sample_time_ns obs >? tr_watermark_sample_time_ns track)
              then obs_sample_time_ns obs else tr_watermark_sample_time_ns track)) in
      if negb new then
        if obs_sequence obs <=? tr_highest_sequence_seen track then
          let behind := u64 (tr_highest_sequence_seen track - obs_sequence obs) in
          (if behind >? jc_reorder_window_n cfg then OBICALL_REJECT_LATE
           else OBICALL_REJECT_DUPLICATE, track)
        else if obs_sample_time_ns obs <?
                i64 (tr_watermark_sample_time_ns track - jc_max_lateness_ns cfg)
        then (OBICALL_REJECT_LATE, track)
        else admit_rest
      else admit_rest
  | _ => (OBICALL_REJECT_VALIDATION, track)
  end.

(** ** Segment records *)

Definition OBICALL_JOURNAL_RECORD_MAGIC : Z := 1246712386.   (* 0x4A4F5242 *)
Definition OBICALL_JOURNAL_RECORD_HEADER_LEN : nat := 40.
Definition OBICALL_JOURNAL_MAX_RECORD_OBS_LEN : Z := 4096.

Record obicall_journal_record_header := RecordHeader {
  jh_magic : Z;
  jh_record_len : Z;
  jh_observation_len : Z;
  jh_crc32 : Z;
  jh_window_seq : Z;
  jh_admitted_at_ns : Z;
  jh_admission_reason : Z;
  jh_reserved : Z
}.

Definition obicall_journal_encode_record_header (hdr : obicall_journal_record_header)
    : result status (list Z) :=
  let c := wc_init (Z.of_nat OBICALL_JOURNAL_RECORD_HEADER_LEN) in
  let c := wc_u32 (jh_magic hdr) c in
  let c := wc_u32 (jh_record_len hdr) c in
  let c := wc_u32 (jh_observation_len hdr) c in
  let c := wc_u32 (jh_crc32 hdr) c in
  let c := wc_u64 (jh_window_seq hdr) c in
  let c := wc_i64 (jh_admitted_at_ns hdr) c in
  let c := wc_u32 (jh_admission_reason hdr) c in
  let c := wc_u32 (jh_reserved hdr) c in
  wc_finish OBICALL_ERR_WIRE_MALFORMED c.

Definition obicall_journal_decode_record_header (input : list Z)
    : result status obicall_journal_record_header :=
  let c := rc_init input in
  let '(magic, c) := rc_u32 c in
  let '(record_len, c) := rc_u32 c in
  let '(observation_len, c) := rc_u32 c in
  let '(crc32, c) := rc_u32 c in
  let '(window_seq, c) := rc_u64 c in
  let '(admitted_at_ns, c) := rc_i64 c in
  let '(admission_reason, c) := rc_u32 c in
  let '(reserved, c) := rc_u32 c in
  if rc_ok c then Ok (RecordHeader magic record_len observation_len crc32 window_seq
                        admitted_at_ns admission_reason reserved)
  else Err OBICALL_ERR_WIRE_MALFORMED.

(** Returns the status and the stream, which a failed write has still changed. *)
Definition obicall_journal_append_record (io : io_outcome) (f : cfile) (window_seq admitted_at_ns : Z)
    (reason : obicall_admission_reason) (obs : obicall_observation) : status * cfile :=
  match obicall_wire_encode_observation obs OBICALL_JOURNAL_MAX_RECORD_OBS_LEN with
  | Err st => (st, f)
  | Ok obs_buf =>
      let obs_len := Z.of_nat (length obs_buf) in
      let hdr := RecordHeader OBICALL_JOURNAL_RECORD_MAGIC
                   (u32 (Z.of_nat OBICALL_JOURNAL_RECORD_HEADER_LEN + obs_len)) obs_len
                   (obicall_crc32 obs_buf) window_seq admitted_at_ns (admission_code reason) 0 in
      match obicall_journal_encode_record_header hdr with
      | Err st => (st, f)
      | Ok hdr_buf => write_record OBICALL_ERR_IO io hdr_buf obs_buf f
      end
  end.

Definition obicall_journal_read_record (f : cfile)
    : result status (obicall_journal_record_header * obicall_observation) * cfile :=
  let start_pos := f_pos f in
  let '(hdr_buf, f) := fread OBICALL_JOURNAL_RECORD_HEADER_LEN f in
  if (length hdr_buf =? 0)%nat && feof f then (Err OBICALL_ERR_NOT_FOUND, f)
  else if negb (length hdr_buf =? OBICALL_JOURNAL_RECORD_HEADER_LEN)%nat
  then (Err OBICALL_ERR_WIRE_MALFORMED, fseek start_pos f)
  else
  match obicall_journal_decode_record_header hdr_buf with
  | Err _ => (Err OBICALL_ERR_WIRE_MALFORMED, fseek start_pos f)
  | Ok hdr =>
      if negb (jh_magic hdr =? OBICALL_JOURNAL_RECORD_MAGIC)
      then (Err OBICALL_ERR_WIRE_MALFORMED, fseek start_pos f)
      else if (jh_observation_len hdr >? OBICALL_JOURNAL_MAX_RECORD_OBS_LEN)
           || negb (jh_record_len hdr =?
                    u32 (Z.of_nat OBICALL_JOURNAL_RECORD_HEADER_LEN + jh_observation_len hdr))
      then (Err OBICALL_ERR_WIRE_TOO_LARGE, fseek start_pos f)
      else
      let '(obs_buf, f) := fread (Z.to_nat (jh_observation_len hdr)) f in
      if negb (Z.of_nat (length obs_buf) =? jh_observation_len hdr)
      then (Err OBICALL_ERR_WIRE_MALFORMED, fseek start_pos f)
      else if negb (obicall_crc32 obs_buf =? jh_crc32 hdr)
      then (Err OBICALL_ERR_WIRE_CHECKSUM, fseek start_pos f)
      else
      match obicall_wire_decode_observation obs_buf with
      | Err st => (Err st, fseek start_pos f)
      | Ok obs => (Ok (hdr, obs), f)
      end
  end.

(** The reading loop of [cmd_replay] (src/cli/main.c): the records before the
    first failed read, and the status that stopped it. *)
Fixpoint replay_records (fuel : nat) (f : cfile)
    : list (obicall_journal_record_header * obicall_observation) * option status :=
  match fuel with
  | O => ([], None)
  | S fuel =>
      match obicall_journal_read_record f with
      | (Err st, _) => ([], Some st)
      | (Ok rec, f) => let '(recs, st) := replay_records fuel f in (rec :: recs, st)
      end
  end.

(** * Theorems: admission *)

(** What an observation must satisfy, beyond being valid, on a continuing session. *)
Definition in_order (cfg : obicall_journal_config) (track : obicall_sensor_track)
    (obs : obicall_observation) : Prop :=
  tr_highest_sequence_seen track < obs_sequence obs /\
  i64 (tr_watermark_sample_time_ns track - jc_max_lateness_ns cfg) <= obs_sample_time_ns obs.

Definition same_session (track : obicall_sensor_track) (obs : obicall_observation) : Prop :=
  tr_has_data track <> 0 /\ tr_source_boot_id track = obs_source_boot_id obs.

Lemma is_new_session_spec track obs : is_new_session track obs = false <-> same_session track obs.
Proof. unfold is_new_session, same_session. lia. Qed.

Lemma admit_cases cfg track obs pending r track' :
  obicall_journal_admit cfg track obs pending = (r, track') ->
  (r = OBICALL_ADMIT_OK <->
     (obicall_observation_validate obs).2 = OBICALL_OK /\
     (same_session track obs -> in_order cfg track obs) /\
     pending < jc_max_pending_per_pipeline cfg) /\
  (r <> OBICALL_ADMIT_OK -> track' = track) /\
  (r = OBICALL_ADMIT_OK ->
     tr_sensor_id track' = obs_sensor_id obs /\ tr_source_boot_id track' = obs_source_boot_id obs /\
     tr_has_data track' = 1 /\ tr_highest_sequence_seen track' = obs_sequence obs /\
     tr_watermark_sample_time_ns track' =
       if is_new_session track obs then obs_sample_time_ns obs
       else Z.max (tr_watermark_sample_time_ns track) (obs_sample_time_ns obs)).
Proof.
  unfold obicall_journal_admit, in_order. pose proof (is_new_session_spec track obs) as Hs.
  destruct (obicall_observation_validate obs).2;
    try by (intros [= <- <-]; split_and!; [split; [done|by intros [? _]]|done|done]).
  destruct (is_new_session track obs) eqn:En; cbn [negb orb].
  - assert (~ same_session track obs) by (by intros ?%Hs).
    destruct (pending >=? _) eqn:Ep; intros [= <- <-]; split_and!; try done; split; try done; try lia.
    intros _. split_and!; [done|tauto|lia].
  - assert (same_session track obs) as Hsame by (by apply Hs). clear Hs.
    destruct (obs_sequence obs <=? _) eqn:E1; [|destruct (obs_sample_time_ns obs <? _) eqn:E2;
      [|destruct (pending >=? _) eqn:Ep]]; intros [= <- <-].
    + split_and!; [split; [by case_match|]|done|by case_match].
      intros (_&H'&_). destruct (H' Hsame). lia.
    + split_and!; [split; [done|]|done|done]. intros (_&H'&_). destruct (H' Hsame). lia.
    + split_and!; [split; [done|lia]|done|done].
    + split_and!; [split; [|done]|done|]; intros _; simpl; split_and!; try done; try lia.
      case_match; lia.
Qed.

(** Whatever its sequence number and its time, a valid observation is admitted when its
    boot id is not the track's, there being room. *)
Lemma boot_change_restarts cfg track obs pending :
  (obicall_observation_validate obs).2 = OBICALL_OK -> tr_source_boot_id track <> obs_source_boot_id obs ->
  pending < jc_max_pending_per_pipeline cfg -> (obicall_journal_admit cfg track obs pending).1 = OBICALL_ADMIT_OK.
Proof.
  intros Hv Hb Hp. destruct (obicall_journal_admit cfg track obs pending) as [r t'] eqn:E.
  apply (proj1 (admit_cases _ _ _ _ _ _ E)). split; [done|]. split; [|done]. by intros [_ ?].
Qed.

(** ** One session's admitted sequence numbers *)

(** Admission of a sensor's observations one after the other, each at the
    pending depth of its moment; the admitted ones in order. *)
Fixpoint admit_all (cfg : obicall_journal_config) (track : obicall_sensor_track)
    (subs : list (obicall_observation * Z)) : list obicall_observation * obicall_sensor_track :=
  match subs with
  | [] => ([], track)
  | (obs, pending) :: subs =>
      let '(r, track) := obicall_journal_admit cfg track obs pending in
      let '(adm, track) := admit_all cfg track subs in
      (if decide (r = OBICALL_ADMIT_OK) then obs :: adm else adm, track)
  end.

Lemma admit_all_increasing cfg boot subs track :
  Forall (fun s => obs_source_boot_id s.1 = boot) subs ->
  tr_has_data track <> 0 -> tr_source_boot_id track = boot ->
  StronglySorted Z.lt (obs_sequence <$> (admit_all cfg track subs).1) /\
  Forall (fun o => tr_highest_sequence_seen track < obs_sequence o) (admit_all cfg track subs).1.
Proof.
  intros Hall. revert track. induction Hall as [|[obs p] subs Ho Hall IH]; intros track Hd Hb;
    [by split; constructor|]. simpl in *.
  destruct (obicall_journal_admit cfg track obs p) as [r track'] eqn:E.
  pose proof (admit_cases _ _ _ _ _ _ E) as (Hok & Hrej & Hacc).
  destruct (decide (r = OBICALL_ADMIT_OK)) as [Hr|Hr].
  - destruct Hok as [Hok _]. destruct (Hok Hr) as (_&Hin&_), (Hacc Hr) as (_&Hb'&Hd'&Hs'&_).
    destruct Hin as [Hlt _]; [split; congruence|].
    destruct (IH track') as [IH1 IH2]; [lia|congruence|].
    destruct (admit_all cfg track' subs) as [adm tr]. simpl in *. rewrite Hs' in IH2. split.
    + constructor; [done|]. by apply Forall_fmap.
    + constructor; [done|]. eapply Forall_impl; [done|]. simpl. lia.
  - rewrite (Hrej Hr). destruct (IH track) as [IH1 IH2]; [done..|].
    by destruct (admit_all cfg track subs).
Qed.

(** * Theorems: the segment file *)

Definition record_header_wire (h : obicall_journal_record_header) : list Z :=
  le_bytes 4 (jh_magic h) ++ le_bytes 4 (jh_record_len h) ++ le_bytes 4 (jh_observation_len h) ++
  le_bytes 4 (jh_crc32 h) ++ le_bytes 8 (jh_window_seq h) ++ le_bytes 8 (u64 (jh_admitted_at_ns h)) ++
  le_bytes 4 (jh_admission_reason h) ++ le_bytes 4 (jh_reserved h).

Record wf_record_header (h : obicall_journal_record_header) : Prop := {
  wfj_magic : is_u32 (jh_magic h);
  wfj_record_len : is_u32 (jh_record_len h);
  wfj_observation_len : is_u32 (jh_observation_len h);
  wfj_crc32 : is_u32 (jh_crc32 h);
  wfj_window_seq : is_u64 (jh_window_seq h);
  wfj_admitted_at : is_i64 (jh_admitted_at_ns h);
  wfj_reason : is_u32 (jh_admission_reason h);
  wfj_reserved : is_u32 (jh_reserved h)
}.

Lemma length_record_header_wire h : length (record_header_wire h) = OBICALL_JOURNAL_RECORD_HEADER_LEN.
Proof. unfold record_header_wire. by rewrite !length_app, !length_le_bytes. Qed.

Lemma encode_record_header_wire h :
  obicall_journal_encode_record_header h = Ok (record_header_wire h).
Proof.
  assert (0 <= Z.of_nat OBICALL_JOURNAL_RECORD_HEADER_LEN) by done.
  trans (if Z.of_nat (length (record_header_wire h)) <=? Z.of_nat OBICALL_JOURNAL_RECORD_HEADER_LEN
         then Ok (record_header_wire h) else Err OBICALL_ERR_WIRE_MALFORMED).
  - unfold obicall_journal_encode_record_header. solve_encode.
  - by rewrite length_record_header_wire.
Qed.

Lemma decode_record_header_wire h :
  wf_record_header h -> obicall_journal_decode_record_header (record_header_wire h) = Ok h.
Proof.
  intros []. unfold obicall_journal_decode_record_header, record_header_wire, rc_init.
  rewrite <- (app_nil_r (le_bytes 4 (jh_reserved h))). repeat read_step. by destruct h.
Qed.

(** One record of the segment: its header fields and its observation. *)
Record segment_record := SegmentRecord {
  sr_window_seq : Z;
  sr_admitted_at_ns : Z;
  sr_reason : obicall_admission_reason;
  sr_obs : obicall_observation
}.

Definition valid_record (r : segment_record) : Prop :=
  is_u64 (sr_window_seq r) /\ is_i64 (sr_admitted_at_ns r) /\ valid_observation (sr_obs r).

Definition record_header (r : segment_record) : obicall_journal_record_header :=
  let body := observation_wire (sr_obs r) in
  RecordHeader OBICALL_JOURNAL_RECORD_MAGIC (40 + Z.of_nat (length body)) (Z.of_nat (length body))
    (obicall_crc32 body) (sr_window_seq r) (sr_admitted_at_ns r) (admission_code (sr_reason r)) 0.

Definition record_bytes (r : segment_record) : list Z :=
  record_header_wire (record_header r) ++ observation_wire (sr_obs r).

Definition append (io : io_outcome) (f : cfile) (r : segment_record) : status * cfile :=
  obicall_journal_append_record io f (sr_window_seq r) (sr_admitted_at_ns r) (sr_reason r) (sr_obs r).

(** The size of an encoded observation: always below the record limit. *)
Lemma observation_wire_length o :
  valid_observation o ->
  (108 <= length (observation_wire o) <= 444)%nat.
Proof.
  intros [[] Hp Hc]. unfold observation_wire. rewrite !length_app, !length_le_bytes.
  rewrite !length_concat_le_bytes, !length_take.
  match goal with H : is_chars _ (obs_sensor_id o) |- _ => destruct H as [-> _] end.
  unfold OBICALL_MAX_PAYLOAD_DOUBLES, OBICALL_MAX_COV_DOUBLES, OBICALL_SENSOR_ID_LEN in *. lia.
Qed.

Lemma record_header_wf r : valid_record r -> wf_record_header (record_header r).
Proof.
  intros (?&?&Hv). pose proof (observation_wire_length _ Hv). unfold record_header.
  split; cbn; try done; unfold is_u32, OBICALL_JOURNAL_RECORD_MAGIC; try lia.
  - apply obicall_crc32_range.
  - by destruct (sr_reason r).
Qed.

Lemma encode_record r :
  valid_record r ->
  obicall_wire_encode_observation (sr_obs r) OBICALL_JOURNAL_MAX_RECORD_OBS_LEN =
  Ok (observation_wire (sr_obs r)).
Proof.
  intros (_&_&Hv). pose proof (observation_wire_length _ Hv) as [_ Hl].
  rewrite enc_spec by done. unfold OBICALL_JOURNAL_MAX_RECORD_OBS_LEN. case_match; [done|lia].
Qed.

(** What an append leaves in the file: the whole record when it succeeds, a
    prefix of it when it does not. *)
Lemma append_data io f r st f' :
  valid_record r -> append io f r = (st, f') ->
  f_pos f' = f_pos f /\ (st = OBICALL_OK \/ st = OBICALL_ERR_IO) /\
  exists k, f_data f' = f_data f ++ take k (record_bytes r) /\
            (st = OBICALL_OK -> f_data f' = f_data f ++ record_bytes r).
Proof.
  intros Hv. unfold append, obicall_journal_append_record. rewrite encode_record by done.
  destruct (Hv) as (_&_&Ho). pose proof (observation_wire_length _ Ho) as Hl.
  rewrite encode_record_header_wire, u32_id by (unfold is_u32, OBICALL_JOURNAL_RECORD_HEADER_LEN; lia).
  change (Z.of_nat OBICALL_JOURNAL_RECORD_HEADER_LEN) with 40. fold (record_header r).
  intros E. by apply write_record_data in E.
Qed.

(** Reading at the start of a complete record. *)
Lemma read_complete r pre post :
  valid_record r ->
  obicall_journal_read_record (CFile (pre ++ record_bytes r ++ post) (length pre)) =
  (Ok (record_header r, canon_observation (sr_obs r)),
   CFile (pre ++ record_bytes r ++ post) (length pre + length (record_bytes r))).
Proof.
  intros Hv. destruct (Hv) as (_&_&Ho). pose proof (observation_wire_length _ Ho) as Hl.
  pose proof (length_record_header_wire (record_header r)) as Hh.
  unfold obicall_journal_read_record, record_bytes. rewrite <- !app_assoc.
  rewrite fread_app by done. cbn [f_pos]. rewrite Hh.
  rewrite decode_record_header_wire by by apply record_header_wf.
  cbn [jh_magic record_header jh_observation_len jh_record_len jh_crc32].
  rewrite Z.eqb_refl. cbn [negb andb Nat.eqb OBICALL_JOURNAL_RECORD_HEADER_LEN].
  unfold OBICALL_JOURNAL_MAX_RECORD_OBS_LEN. rewrite u32_id by (unfold is_u32, OBICALL_JOURNAL_RECORD_HEADER_LEN; lia).
  change (Z.of_nat 40) with 40. rewrite Z.eqb_refl. replace (_ >? 4096) with false by lia.
  cbn [negb orb]. rewrite Nat2Z.id.
  assert (E : (length pre + 40)%nat = length (pre ++ record_header_wire (record_header r)))
    by (by rewrite length_app, Hh).
  unfold OBICALL_JOURNAL_RECORD_HEADER_LEN. rewrite E, (app_assoc pre), fread_app by done. rewrite Z.eqb_refl, Z.eqb_refl. cbn [negb].
  rewrite <- (app_nil_r (observation_wire (sr_obs r))) at 1. rewrite dec_wire by done.
  rewrite <- !app_assoc, !length_app, Hh. by rewrite Nat.add_assoc.
Qed.

Lemma read_eof f :
  (length (f_data f) <= f_pos f)%nat ->
  (obicall_journal_read_record f).1 = Err OBICALL_ERR_NOT_FOUND.
Proof.
  intros H. unfold obicall_journal_read_record, OBICALL_JOURNAL_RECORD_HEADER_LEN. rewrite fread_short by lia.
  rewrite drop_ge by lia. unfold feof. cbn [length f_data f_pos Nat.eqb andb].
  replace (_ <=? _)%nat with true; [done|]. symmetry. apply Nat.leb_le. lia.
Qed.

(** A record of which only a proper prefix reached the file: a clean end of
    file, or malformed with the position left at the start of the record. *)
Lemma read_torn r pre k :
  valid_record r -> (k < length (record_bytes r))%nat ->
  obicall_journal_read_record (CFile (pre ++ take k (record_bytes r)) (length pre)) =
  (Err (if (k =? 0)%nat then OBICALL_ERR_NOT_FOUND else OBICALL_ERR_WIRE_MALFORMED),
   CFile (pre ++ take k (record_bytes r)) (length pre)).
Proof.
  intros Hv Hk. pose proof (length_record_header_wire (record_header r)) as Hh.
  unfold record_bytes in *. rewrite length_app, Hh in Hk. unfold OBICALL_JOURNAL_RECORD_HEADER_LEN in *.
  destruct (decide (k < 40)%nat) as [Hlt|Hge].
  - rewrite take_app_le by lia. set (t := take k _).
    assert (length t = k) as Ht by (unfold t; rewrite length_take; lia).
    unfold obicall_journal_read_record, OBICALL_JOURNAL_RECORD_HEADER_LEN. rewrite fread_short by (cbn [f_data f_pos]; rewrite length_app; lia).
    cbn [f_pos f_data]. rewrite drop_app_length, length_app, Ht.
    unfold feof, fseek. cbn [f_pos f_data]. rewrite length_app, Ht.
    destruct (Nat.eqb_spec k 0) as [->|?].
    + replace (_ <=? _)%nat with true by (symmetry; apply Nat.leb_le; lia). simpl.
      do 2 f_equal. lia.
    + simpl. by replace (k =? 40)%nat with false by (symmetry; apply Nat.eqb_neq; lia).
  - replace k with (length (record_header_wire (record_header r)) + (k - 40))%nat by lia.
    rewrite take_app_add. replace (_ =? 0)%nat with false by (symmetry; apply Nat.eqb_neq; lia).
    set (t := take (k - 40) _).
    destruct (Hv) as (_&_&Ho). pose proof (observation_wire_length _ Ho) as Hl.
    assert (length t < length (observation_wire (sr_obs r)))%nat as Ht
      by (unfold t; rewrite length_take; lia).
    unfold obicall_journal_read_record, OBICALL_JOURNAL_RECORD_HEADER_LEN. rewrite fread_app by done.
    cbn [f_pos]. rewrite Hh.
    rewrite decode_record_header_wire by by apply record_header_wf.
    cbn [jh_magic record_header jh_observation_len jh_record_len jh_crc32].
    rewrite Z.eqb_refl. unfold OBICALL_JOURNAL_RECORD_HEADER_LEN. cbn [negb andb Nat.eqb].
    unfold OBICALL_JOURNAL_MAX_RECORD_OBS_LEN. rewrite u32_id by (unfold is_u32; lia).
    change (Z.of_nat 40) with 40. rewrite Z.eqb_refl. replace (_ >? 4096) with false by lia.
    cbn [negb orb]. rewrite Nat2Z.id.
    replace (length pre + 40)%nat with (length (pre ++ record_header_wire (record_header r)))
      by (by rewrite length_app, Hh).
    rewrite (app_assoc pre), fread_short by (cbn [f_data f_pos]; rewrite length_app; lia).
    cbn [f_data f_pos]. rewrite drop_app_length.
    by replace (_ =? _) with false by lia.
Qed.

(** A body damaged within four consecutive bytes is refused by its checksum,
    and the position is left at the start of the record. *)
Lemma read_corrupt r pre a w w' b post :
  valid_record r -> observation_wire (sr_obs r) = a ++ w ++ b -> length w' = length w ->
  (length w <= 4)%nat -> w' <> w -> bytes w -> bytes w' ->
  obicall_journal_read_record
    (CFile (pre ++ (record_header_wire (record_header r) ++ a ++ w' ++ b) ++ post) (length pre)) =
  (Err OBICALL_ERR_WIRE_CHECKSUM,
   CFile (pre ++ (record_header_wire (record_header r) ++ a ++ w' ++ b) ++ post) (length pre)).
Proof.
  intros Hv Hw Hlen Hn Hne Hb Hb'. destruct (Hv) as (_&_&Ho).
  pose proof (observation_wire_length _ Ho) as Hl.
  pose proof (length_record_header_wire (record_header r)) as Hh.
  assert (length (a ++ w' ++ b) = length (observation_wire (sr_obs r))) as Hlb
    by (rewrite Hw, !length_app; lia).
  unfold obicall_journal_read_record, OBICALL_JOURNAL_RECORD_HEADER_LEN in *.
  rewrite <- (app_assoc (record_header_wire _)), fread_app by done. cbn [f_pos]. rewrite Hh.
  rewrite decode_record_header_wire by by apply record_header_wf.
  cbn [jh_magic record_header jh_observation_len jh_record_len jh_crc32].
  rewrite Z.eqb_refl. cbn [negb andb Nat.eqb].
  unfold OBICALL_JOURNAL_MAX_RECORD_OBS_LEN. rewrite u32_id by (unfold is_u32; lia).
  change (Z.of_nat 40) with 40. rewrite Z.eqb_refl. replace (_ >? 4096) with false by lia.
  cbn [negb orb]. rewrite Nat2Z.id.
  replace (length pre + 40)%nat with (length (pre ++ record_header_wire (record_header r)))
    by (by rewrite length_app, Hh).
  rewrite (app_assoc pre), fread_app by done. rewrite Hlb, Z.eqb_refl. cbn [negb].
  replace (_ =? _) with false; [done|]. symmetry. apply Z.eqb_neq. rewrite Hw. intros E.
  revert E. apply crc32_detects_burst; try done. lia.
Qed.

(** ** Replay *)

Definition decoded_record (r : segment_record)
    : obicall_journal_record_header * obicall_observation :=
  (record_header r, canon_observation (sr_obs r)).

(** The journal's own appends, all successful. *)
Definition append_all (rs : list segment_record) (f : cfile) : cfile :=
  fold_left (fun f r => (append io_success f r).2) rs f.

Lemma append_success f r :
  valid_record r -> append io_success f r = (OBICALL_OK, CFile (f_data f ++ record_bytes r) (f_pos f)).
Proof.
  intros Hv. unfold append, obicall_journal_append_record.
  destruct (Hv) as (_&_&Ho). pose proof (observation_wire_length _ Ho).
  rewrite encode_record, encode_record_header_wire by done.
  rewrite u32_id by (unfold is_u32, OBICALL_JOURNAL_RECORD_HEADER_LEN; lia).
  by apply write_record_success.
Qed.

Lemma append_all_data rs f :
  Forall valid_record rs ->
  append_all rs f = CFile (f_data f ++ concat (record_bytes <$> rs)) (f_pos f).
Proof.
  intros Hv. revert f. induction Hv as [|r rs Hr Hv IH]; intros f; simpl.
  - rewrite app_nil_r. by destruct f.
  - unfold append_all in *. simpl. rewrite append_success by done. simpl. rewrite IH.
    simpl. by rewrite <- app_assoc.
Qed.

(** Replaying complete records followed by anything. *)
Lemma replay_app rs fuel pre post :
  Forall valid_record rs -> (length rs <= fuel)%nat ->
  replay_records fuel (CFile (pre ++ concat (record_bytes <$> rs) ++ post) (length pre)) =
  let '(recs, st) := replay_records (fuel - length rs)
    (CFile (pre ++ concat (record_bytes <$> rs) ++ post)
           (length (pre ++ concat (record_bytes <$> rs)))) in
  ((decoded_record <$> rs) ++ recs, st).
Proof.
  intros Hv. revert fuel pre. induction Hv as [|r rs Hr Hv IH]; intros fuel pre Hf.
  - simpl. rewrite app_nil_r, Nat.sub_0_r. by destruct (replay_records fuel _).
  - destruct fuel as [|fuel]; [simpl in Hf; lia|]. cbn [length] in Hf.
    rewrite fmap_cons. cbn [concat replay_records]. rewrite <- app_assoc.
    rewrite read_complete by done.
    rewrite <- length_app, (app_assoc pre (record_bytes r)), IH by lia.
    rewrite <- !app_assoc. change (S fuel - S (length rs))%nat with (fuel - length rs)%nat.
    by destruct (replay_records _ _).
Qed.

(** A file of complete records. *)
Lemma replay_complete rs fuel :
  Forall valid_record rs -> (length rs < fuel)%nat ->
  replay_records fuel (CFile (concat (record_bytes <$> rs)) 0) =
  (decoded_record <$> rs, Some OBICALL_ERR_NOT_FOUND).
Proof.
  intros Hv Hf.
  pose proof (replay_app rs fuel [] [] Hv ltac:(lia)) as E. rewrite app_nil_r in E.
  rewrite !app_nil_l in E. cbn [length] in E. rewrite E. destruct (fuel - length rs)%nat as [|n] eqn:En; [lia|]. cbn [replay_records].
  pose proof (read_eof (CFile (concat (record_bytes <$> rs)) (length (concat (record_bytes <$> rs))))
    ltac:(simpl; lia)) as Er.
  destruct (obicall_journal_read_record _) as [res f']. cbn [fst] in Er. subst res. by rewrite app_nil_r.
Qed.

(** ** The claims *)

(** a record appended successfully is what the reader returns: replaying
    a segment of successful appends gives back every record's header and
    (canonical) observation in order, and stops at a clean end of file. *)
Theorem journal_replay_roundtrip rs fuel :
  Forall valid_record rs -> (length rs < fuel)%nat ->
  replay_records fuel (fseek 0 (append_all rs (CFile [] 0))) =
  (decoded_record <$> rs, Some OBICALL_ERR_NOT_FOUND).
Proof. intros Hv Hf. rewrite append_all_data by done. by apply replay_complete. Qed.

(** a failed append never corrupts what replay returns: after any number
    of good records and one append that reported an error (a short write at any
    point, a failed flush or sync), replay returns the good records and stops
    with a clean or a malformed end, unless the whole last record reached the
    file, which it then returns intact. *)
Theorem journal_torn_append rs r io fuel st f :
  Forall valid_record rs -> valid_record r -> (S (length rs) < fuel)%nat ->
  append io (append_all rs (CFile [] 0)) r = (st, f) -> st <> OBICALL_OK ->
  st = OBICALL_ERR_IO /\
  (replay_records fuel (fseek 0 f) = (decoded_record <$> rs, Some OBICALL_ERR_NOT_FOUND) \/
   replay_records fuel (fseek 0 f) = (decoded_record <$> rs, Some OBICALL_ERR_WIRE_MALFORMED) \/
   replay_records fuel (fseek 0 f) =
     (decoded_record <$> (rs ++ [r]), Some OBICALL_ERR_NOT_FOUND)).
Proof.
  intros Hv Hr Hf Ha Hst.
  destruct (append_data _ _ _ _ _ Hr Ha) as (_ & [?|Hst'] & k & Hd & _); [done|]. split; [done|].
  rewrite append_all_data in Hd by done. cbn [f_data] in Hd. rewrite app_nil_l in Hd. unfold fseek. rewrite Hd.
  destruct (decide (k < length (record_bytes r))%nat) as [Hk|Hk].
  - pose proof (replay_app rs fuel [] (take k (record_bytes r)) Hv ltac:(lia)) as E.
    rewrite !app_nil_l in E. cbn [length] in E. rewrite E. destruct (fuel - length rs)%nat as [|n] eqn:En; [lia|]. cbn [replay_records].
    rewrite read_torn by done. rewrite app_nil_r. destruct (k =? 0)%nat; [by left|by right; left].
  - rewrite take_ge by lia. right; right.
    pose proof (replay_app (rs ++ [r]) fuel [] [] ltac:(apply Forall_app; auto)
      ltac:(rewrite length_app; simpl; lia)) as E.
    rewrite fmap_app, concat_app, !app_nil_l, app_nil_r in E. cbn [length fmap list_fmap concat] in E.
    rewrite app_nil_r in E. rewrite E.
    destruct (fuel - length (rs ++ [r]))%nat as [|n] eqn:En;
      [rewrite length_app in En; cbn [length] in En; lia|].
    cbn [replay_records].
    pose proof (read_eof (CFile (concat (record_bytes <$> rs) ++ record_bytes r)
      (length (concat (record_bytes <$> rs) ++ record_bytes r))) ltac:(simpl; lia)) as Er.
    destruct (obicall_journal_read_record _) as [res f']. cbn [fst] in Er. subst res.
    by rewrite app_nil_r.
Qed.

(** damage confined to four consecutive bytes of a record's observation is
    never returned as data: the reader reports a checksum error and leaves the
    position at the start of the record. *)
Theorem journal_corrupt_body r pre a w w' b post :
  valid_record r -> observation_wire (sr_obs r) = a ++ w ++ b -> length w' = length w ->
  (length w <= 4)%nat -> w' <> w -> bytes w -> bytes w' ->
  let f := CFile (pre ++ (record_header_wire (record_header r) ++ a ++ w' ++ b) ++ post) (length pre) in
  obicall_journal_read_record f = (Err OBICALL_ERR_WIRE_CHECKSUM, f).
Proof. intros. by apply read_corrupt with (w := w). Qed.

(** one sensor session admits strictly increasing sequence numbers, so no
    (boot id, sequence) pair is admitted twice, whatever arrives and however
    the pending depth moves. *)
Theorem journal_admits_increasing cfg boot subs :
  Forall (fun s => obs_source_boot_id s.1 = boot) subs ->
  StronglySorted Z.lt (obs_sequence <$> (admit_all cfg zero_track subs).1).
Proof.
  intros Hall. induction Hall as [|[obs p] subs Ho Hall IH]; [constructor|]. simpl in *.
  destruct (obicall_journal_admit cfg zero_track obs p) as [r track'] eqn:E.
  pose proof (admit_cases _ _ _ _ _ _ E) as (Hok & Hrej & Hacc).
  destruct (decide (r = OBICALL_ADMIT_OK)) as [Hr|Hr].
  - destruct (Hacc Hr) as (_&Hb'&Hd'&Hs'&_).
    destruct (admit_all_increasing cfg boot subs track' Hall ltac:(lia) ltac:(congruence)) as [H1 H2].
    destruct (admit_all cfg track' subs) as [adm tr]. simpl in *. rewrite Hs' in H2.
    constructor; [done|]. by apply Forall_fmap.
  - rewrite (Hrej Hr). by destruct (admit_all cfg zero_track subs).
Qed.

(** the decision on one observation: admitted exactly when it is valid, in
    order on a continuing session, and the pending depth is below the bound;
    a rejected observation leaves the track untouched, an admitted one moves
    the track to its session, its sequence and the later of the two times. *)
Theorem journal_admit_spec cfg track obs pending r track' :
  obicall_journal_admit cfg track obs pending = (r, track') ->
  (r = OBICALL_ADMIT_OK <->
     observation_ok obs /\ (same_session track obs -> in_order cfg track obs) /\
     pending < jc_max_pending_per_pipeline cfg) /\
  (r <> OBICALL_ADMIT_OK -> track' = track) /\
  (r = OBICALL_ADMIT_OK ->
     tr_sensor_id track' = obs_sensor_id obs /\ tr_source_boot_id track' = obs_source_boot_id obs /\
     tr_has_data track' = 1 /\ tr_highest_sequence_seen track' = obs_sequence obs /\
     tr_watermark_sample_time_ns track' =
       if is_new_session track obs then obs_sample_time_ns obs
       else Z.max (tr_watermark_sample_time_ns track) (obs_sample_time_ns obs)).
Proof. intros H. rewrite <- validate_ok_equiv. by apply (admit_cases _ _ _ _ _ _ H). Qed.

(** * Witnesses *)

Definition sample_record : segment_record := SegmentRecord 1 1000 OBICALL_ADMIT_OK sample_observation.
Definition sample_config : obicall_journal_config := JournalConfig 8 2000000000 4096 1.

Lemma sample_record_valid : valid_record sample_record.
Proof. split_and!; try done. split; [exact sample_observation_wf|done..]. Qed.

Lemma journal_replay_witness :
  replay_records 2 (fseek 0 (append_all [sample_record] (CFile [] 0))) =
  (decoded_record <$> [sample_record], Some OBICALL_ERR_NOT_FOUND).
Proof.
  apply (journal_replay_roundtrip [sample_record] 2).
  - apply Forall_singleton, sample_record_valid.
  - apply Nat.ltb_lt. reflexivity.
Defined.

(** The header is cut after three bytes. *)
Lemma journal_torn_witness :
  let a := append (IO (Some 3%nat) None true true) (append_all [sample_record] (CFile [] 0)) sample_record in
  a.1 = OBICALL_ERR_IO.
Proof.
  intros a. apply (journal_torn_append [sample_record] sample_record (IO (Some 3%nat) None true true) 3 a.1 a.2).
  - apply Forall_singleton, sample_record_valid.
  - apply sample_record_valid.
  - apply Nat.ltb_lt. reflexivity.
  - apply surjective_pairing.
  - vm_compute. discriminate.
Defined.

(** The first byte of the body is changed from 200 to 201. *)
Lemma journal_corrupt_witness :
  let body := observation_wire sample_observation in
  let f := CFile ([] ++ (record_header_wire (record_header sample_record) ++ [] ++ [201] ++ drop 1 body) ++ []) 0 in
  obicall_journal_read_record f = (Err OBICALL_ERR_WIRE_CHECKSUM, f).
Proof.
  intros body.
  apply (journal_corrupt_body sample_record [] [] [200] [201] (drop 1 body) []).
  - apply sample_record_valid.
  - reflexivity.
  - reflexivity.
  - apply Nat.leb_le. reflexivity.
  - discriminate.
  - by apply forallb_bytes.
  - by apply forallb_bytes.
Defined.

Lemma journal_admits_witness :
  StronglySorted Z.lt
    (obs_sequence <$> (admit_all sample_config zero_track [(sample_observation, 0); (sample_observation, 0)]).1).
Proof.
  apply (journal_admits_increasing sample_config 77). repeat constructor.
Defined.

Lemma journal_admit_witness :
  (obicall_journal_admit sample_config zero_track sample_observation 0).1 = OBICALL_ADMIT_OK.
Proof.
  apply (journal_admit_spec sample_config zero_track sample_observation 0 _ _ (surjective_pairing _)).
  split; [apply validate_ok_equiv; vm_compute; reflexivity|].
  split; [intros [H _]; vm_compute in H; by destruct H|reflexivity].
Defined.
