(* ===== verification/Ipc.v ===== *)
(** * Ipc: framed messages over a byte stream (src/osal/osal_ipc.c) and the
      session handshake (src/common/procutil.c)

    A socket is what the kernel will do to the calls on it: a script of
    receive events for [recv_all] and of send events for [send_all].  Bytes
    arrive in chunks of any size; [select] may time out and calls may fail
    between them.  The frame functions are proved to be independent of the
    chunking, to consume nothing when they ask to be called again, and to
    accept nothing but frames whose checksum is right. *)

From Stdlib Require Import (notations) Strings.String.
From S2P Require Import Prelude Types Samples Digest Cursor Wire WireMsg.
#[local] Delimit Scope string_scope with string.

(** ** Message types and roles (wire.h) *)

Definition OBICALL_MSG_AUTH_HELLO : Z := 1.
Definition OBICALL_MSG_HEARTBEAT : Z := 2.
Definition OBICALL_MSG_OBSERVATION_SUBMIT : Z := 3.
Definition OBICALL_MSG_EVENT : Z := 4.
Definition OBICALL_MSG_ADMISSION_DECISION : Z := 5.
Definition OBICALL_MSG_RESULT_PUBLISH : Z := 6.
Definition OBICALL_MSG_RESULT_ACK : Z := 7.
Definition OBICALL_MSG_REPLAY_REQUEST : Z := 12.
Definition OBICALL_MSG_REPLAY_DATA : Z := 13.
Definition OBICALL_MSG_REPLAY_END : Z := 14.
Definition OBICALL_MSG_STATUS_QUERY : Z := 15.
Definition OBICALL_MSG_STATUS_REPLY : Z := 16.

Definition OBICALL_ROLE_UNKNOWN : Z := 0.
Definition OBICALL_ROLE_WORKER : Z := 1.
Definition OBICALL_ROLE_BROKER : Z := 2.
Definition OBICALL_ROLE_GATE : Z := 3.
Definition OBICALL_ROLE_JOURNAL : Z := 4.
Definition OBICALL_ROLE_CLI : Z := 5.
Definition OBICALL_ROLE_SUPERVISOR : Z := 6.

(** ** Byte transfer *)

(** One turn of a loop: [select] timed out, a call failed (or the peer closed), or
    bytes are there; a chunk longer than what is asked for stays readable. *)
Inductive rx_event := RxTimeout | RxError | RxBytes (chunk : list Z).

(** The C return values 0, 1 and -1. *)
Inductive recv_code := RecvOk | RecvTimeout | RecvError.

Fixpoint recv_all (len : nat) (got : list Z) (s : list rx_event)
    : recv_code * list Z * list rx_event :=
  if (len <=? length got)%nat then (RecvOk, got, s)
  else
  let timeout := match got with [] => RecvTimeout | _ => RecvError end in
  match s with
  | [] => (timeout, got, [])
  | RxTimeout :: s => (timeout, got, s)
  | RxError :: s => (RecvError, got, s)
  | RxBytes [] :: s => (RecvError, got, s)
  | RxBytes chunk :: s =>
      let need := (len - length got)%nat in
      if (length chunk <=? need)%nat then recv_all len (got ++ chunk) s
      else (RecvOk, got ++ take need chunk, RxBytes (drop need chunk) :: s)
  end.

(** [select] gave up, [send] failed, or it took [n] bytes. *)
Inductive tx_event := TxStall | TxError | TxAccept (n : nat).

(** Whether all was sent, what the peer will read, and the rest of the script. *)
Fixpoint send_all (buf : list Z) (s : list tx_event) : bool * list Z * list tx_event :=
  match buf, s with
  | [], _ => (true, [], s)
  | _, [] => (false, [], [])
  | _, TxAccept (S n) :: s =>
      let k := Nat.min (S n) (length buf) in
      let '(ok, sent, s) := send_all (drop k buf) s in
      (ok, take k buf ++ sent, s)
  | _, _ :: s => (false, [], s)
  end.

(** ** Frames *)

Definition osal_send_frame (msg_type : Z) (payload : list Z) (s : list tx_event)
    : bool * list Z * list tx_event :=
  if Z.of_nat (length payload) >? OBICALL_WIRE_MAX_PAYLOAD then (false, [], s)
  else
  let hdr := WireHeader OBICALL_WIRE_VERSION msg_type 0 (Z.of_nat (length payload))
               (obicall_crc32 payload) in
  match obicall_wire_encode_header hdr with
  | Err _ => (false, [], s)
  | Ok hdr_buf =>
      let '(ok, out, s) := send_all hdr_buf s in
      if negb ok then (false, out, s)
      else if Z.of_nat (length payload) >? 0 then
        let '(ok, out', s) := send_all payload s in (ok, out ++ out', s)
      else (true, out, s)
  end.

(** A whole frame (0), nothing waiting (1), or a connection to be closed (-1). *)
Inductive frame_result := Frame (msg_type : Z) (payload : list Z) | NoFrame | FrameError.

Definition osal_recv_frame (payload_cap : Z) (s : list rx_event) : frame_result * list rx_event :=
  let '(hr, hdr_buf, s) := recv_all (Z.to_nat OBICALL_WIRE_HEADER_LEN) [] s in
  match hr with
  | RecvTimeout => (NoFrame, s)
  | RecvError => (FrameError, s)
  | RecvOk =>
      match obicall_wire_decode_header hdr_buf with
      | Err _ => (FrameError, s)
      | Ok hdr =>
          if wh_payload_len hdr >? payload_cap then (FrameError, s)
          else
          let '(pr, payload, s) :=
            if wh_payload_len hdr >? 0 then recv_all (Z.to_nat (wh_payload_len hdr)) [] s
            else (RecvOk, [], s) in
          match pr with
          | RecvOk =>
              if negb (obicall_crc32 payload =? wh_crc32 hdr) then (FrameError, s)
              else (Frame (wh_msg_type hdr) payload, s)
          | _ => (FrameError, s)
          end
      end
  end.

(** ** The handshake *)

(** The bytes a client puts on a fresh connection; [None] when it gives up. *)
Definition procutil_client_connect (token : list Z) (role : Z) (s : list tx_event)
    : option (list Z * list tx_event) :=
  match obicall_wire_encode_auth_hello (AuthHello OBICALL_WIRE_VERSION role token) 64 with
  | Err _ => None
  | Ok buf =>
      let '(ok, out, s) := osal_send_frame OBICALL_MSG_AUTH_HELLO buf s in
      if ok then Some (out, s) else None
  end.

(** The role of a verified client. *)
Definition procutil_server_verify_hello (token : list Z) (s : list rx_event)
    : option Z * list rx_event :=
  match osal_recv_frame 256 s with
  | (Frame msg_type payload, s) =>
      if negb (msg_type =? OBICALL_MSG_AUTH_HELLO) then (None, s)
      else
      match obicall_wire_decode_auth_hello payload with
      | Err _ => (None, s)
      | Ok hello =>
          if negb (ah_protocol_version hello =? OBICALL_WIRE_VERSION) then (None, s)
          else if negb (bool_decide (ah_run_token hello = token)) then (None, s)
          else (Some (ah_role hello), s)
      end
  | (_, s) => (None, s)
  end.

(** ** Hexadecimal tokens *)

Definition hexchars : list Z :=
  [48; 49; 50; 51; 52; 53; 54; 55; 56; 57; 97; 98; 99; 100; 101; 102].

(** The characters and their terminator. *)
Definition procutil_hex_encode (data : list Z) (out_cap : Z) : option (list Z) :=
  if out_cap <? u32 (u32 (Z.of_nat (length data) * 2) + 1) then None
  else Some (concat ((fun b => [hexchars !!! Z.to_nat (Z.shiftr b 4);
                               hexchars !!! Z.to_nat (Z.land b 15)]) <$> data) ++ [0]).

Definition hex_val (c : Z) : Z :=
  if (48 <=? c) && (c <=? 57) then c - 48
  else if (97 <=? c) && (c <=? 102) then c - 97 + 10
  else if (65 <=? c) && (c <=? 70) then c - 65 + 10
  else -1.

(** The loop of [procutil_hex_decode] over pairs of characters. *)
Fixpoint hex_pairs (hex : list Z) : option (list Z) :=
  match hex with
  | h :: l :: hex =>
      let hi := hex_val h in
      let lo := hex_val l in
      if (hi <? 0) || (lo <? 0) then None
      else (cons (u8 (Z.lor (Z.shiftl hi 4) lo))) <$> hex_pairs hex
  | _ => Some []
  end.

Definition procutil_hex_decode (hex : list Z) (out_len : Z) : option (list Z) :=
  if negb (Z.of_nat (length hex) =? u32 (out_len * 2)) then None else hex_pairs hex.

(** ** Command-line options *)

(** [argv[1..]] as C strings: the value after the first occurrence of [name]. *)
Fixpoint find_arg (args : list (list Z)) (name : list Z) : option (list Z) :=
  match args with
  | a :: ((v :: _) as rest) => if bool_decide (a = name) then Some v else find_arg rest name
  | _ => None
  end.

Definition procutil_arg_str (args : list (list Z)) (name def : list Z) : list Z :=
  default def (find_arg args name).

Definition procutil_arg_flag (args : list (list Z)) (name : list Z) : bool :=
  existsb (fun a => bool_decide (a = name)) args.

(** * Lemmas *)

(** The bytes a script will deliver, if nothing goes wrong, and the scripts where
    nothing does. *)
Definition rx_stream (s : list rx_event) : list Z :=
  concat ((fun e => match e with RxBytes c => c | _ => [] end) <$> s).
Definition rx_chunks (s : list rx_event) : Prop :=
  Forall (fun e => match e with RxBytes (_ :: _) => True | _ => False end) s.

Definition frame_header (msg_type : Z) (payload : list Z) : obicall_wire_header :=
  WireHeader OBICALL_WIRE_VERSION msg_type 0 (Z.of_nat (length payload)) (obicall_crc32 payload).
Definition frame_bytes (msg_type : Z) (payload : list Z) : list Z :=
  header_wire (frame_header msg_type payload) ++ payload.

Lemma rx_stream_cons c s : rx_stream (RxBytes c :: s) = c ++ rx_stream s.
Proof. done. Qed.

(** Any chunking: the bytes asked for, and the rest of the stream after them. *)
Lemma recv_all_chunks len got s :
  rx_chunks s -> (length got <= len)%nat -> (len - length got <= length (rx_stream s))%nat ->
  exists s', recv_all len got s = (RecvOk, got ++ take (len - length got) (rx_stream s), s') /\
    rx_chunks s' /\ rx_stream s' = drop (len - length got) (rx_stream s).
Proof.
  intros Hs. revert got. induction Hs as [|e s He Hs IH]; intros got Hle Hlen.
  - cbn [rx_stream fmap list_fmap concat length] in Hlen.
    exists []. cbn [recv_all]. destruct (Nat.leb_spec len (length got)); [|lia].
    replace (len - length got)%nat with 0%nat by lia. rewrite take_0, app_nil_r.
    split; [done|]. split; [constructor|done].
  - destruct e as [| |[|b c]]; try done. cbn [recv_all].
    destruct (Nat.leb_spec len (length got)).
    { exists (RxBytes (b :: c) :: s). replace (len - length got)%nat with 0%nat by lia.
      rewrite take_0, app_nil_r. split; [done|]. split; [by constructor|done]. }
    set (chunk := b :: c) in *. rewrite rx_stream_cons, length_app in *.
    destruct (Nat.leb_spec (length chunk) (len - length got)).
    + destruct (IH (got ++ chunk)) as (s' & E & Hs' & Hd); [rewrite length_app; lia..|].
      exists s'. rewrite E, length_app. split; [|split; [done|]].
      * rewrite take_app_ge by lia. rewrite app_assoc. by rewrite Nat.sub_add_distr.
      * rewrite Hd, drop_app_ge by lia. by rewrite length_app, Nat.sub_add_distr.
    + exists (RxBytes (drop (len - length got) chunk) :: s).
      rewrite take_app_le by lia. split; [done|split].
      * constructor; [|done]. destruct (drop _ chunk) eqn:E; [|done].
        apply (f_equal length) in E. rewrite length_drop in E. cbn [length] in E. lia.
      * by rewrite rx_stream_cons, drop_app_le by lia.
Qed.

(** What was returned is what left the stream; a clean timeout took nothing. *)
Lemma recv_all_stream len got s r out s' :
  recv_all len got s = (r, out, s') ->
  match r with
  | RecvOk => (length got <= len)%nat ->
      length out = len /\ exists more, out = got ++ more /\ rx_stream s = more ++ rx_stream s'
  | RecvTimeout => got = [] /\ out = [] /\ rx_stream s' = rx_stream s
  | RecvError => True
  end.
Proof.
  revert got. induction s as [|e s IH]; intros got; cbn [recv_all].
  - destruct (Nat.leb_spec len (length got)); [|by destruct got; intros [= <- <- <-]].
    intros [= <- <- <-] ?. split; [lia|]. exists []. by rewrite app_nil_r.
  - destruct (Nat.leb_spec len (length got)).
    { intros [= <- <- <-] ?. split; [lia|]. exists []. by rewrite app_nil_r. }
    destruct e as [| |[|b c]]; [by destruct got; intros [= <- <- <-]|by intros [= <- <- <-]..|].
    set (chunk := b :: c). destruct (Nat.leb_spec (length chunk) (len - length got)).
    + intros H1%IH. destruct r; [|by destruct H1 as (?%app_nil&_); destruct H1|done].
      intros Hle. destruct H1 as (Hl & more & -> & Hst); [rewrite length_app; lia|].
      split; [done|]. exists (chunk ++ more).
      by rewrite rx_stream_cons, Hst, !app_assoc.
    + intros [= <- <- <-] Hle. rewrite length_app, length_take. split; [lia|].
      exists (take (len - length got) chunk). split; [done|].
      by rewrite !rx_stream_cons, app_assoc, take_drop.
Qed.

Lemma frame_header_wf msg_type payload :
  is_u8 msg_type -> Z.of_nat (length payload) <= OBICALL_WIRE_MAX_PAYLOAD ->
  wf_header (frame_header msg_type payload).
Proof.
  intros Hm Hl. split; try done; unfold is_u32, OBICALL_WIRE_MAX_PAYLOAD in *; cbn; try lia.
  apply obicall_crc32_range.
Qed.

Lemma send_all_ok buf s out s' : send_all buf s = (true, out, s') -> out = buf.
Proof.
  revert buf out s'. induction s as [|e s IH]; intros [|b buf] out s'; cbn [send_all];
    try by intros [= <- <-]. set (bs := b :: buf).
  destruct e as [| |[|n]]; try done. destruct (send_all _ s) as [[ok sent] s2] eqn:E.
  intros [= -> <- <-]. apply IH in E. subst sent. exact (take_drop (S n `min` length bs) bs).
Qed.

Lemma send_all_prefix buf s ok out s' : send_all buf s = (ok, out, s') -> out `prefix_of` buf.
Proof.
  revert buf ok out s'. induction s as [|e s IH]; intros [|b buf] ok out s'; cbn [send_all];
    try by intros [= <- <- <-]; apply prefix_nil. set (bs := b :: buf).
  destruct e as [| |[|n]]; try by intros [= <- <- <-]; apply prefix_nil.
  destruct (send_all _ s) as [[ok' sent] s2] eqn:E. intros [= <- <- <-].
  apply IH in E. change (take (S n `min` length bs) bs ++ sent `prefix_of` bs).
  set (k := Nat.min (S n) (length bs)) in *. rewrite <- (take_drop k bs) at 2. by apply prefix_app.
Qed.

(** A send that succeeds puts exactly the frame on the stream; one that fails, a
    prefix of it. *)
Lemma send_frame_spec msg_type payload s ok out s' :
  osal_send_frame msg_type payload s = (ok, out, s') ->
  out `prefix_of` frame_bytes msg_type payload /\
  (ok = true -> out = frame_bytes msg_type payload /\
                Z.of_nat (length payload) <= OBICALL_WIRE_MAX_PAYLOAD).
Proof.
  unfold osal_send_frame. destruct (_ >? OBICALL_WIRE_MAX_PAYLOAD) eqn:El.
  { intros [= <- <- <-]. split; [apply prefix_nil|done]. }
  rewrite header_encode_wire. fold (frame_header msg_type payload). unfold frame_bytes.
  generalize (header_wire (frame_header msg_type payload)). intros hdr_buf.
  destruct (send_all _ s) as [[ok1 out1] s1] eqn:E1. destruct ok1; cbn [negb].
  2:{ intros [= <- <- <-]. split; [|done]. apply send_all_prefix in E1. by apply prefix_app_r. }
  apply send_all_ok in E1. subst out1. destruct (_ >? 0) eqn:E0.
  - destruct (send_all payload s1) as [[ok2 out2] s2] eqn:E2. intros [= <- <- <-]. split.
    + apply prefix_app. by eapply send_all_prefix.
    + intros ->. rewrite (send_all_ok _ _ _ _ E2). split; [done|lia].
  - intros [= <- <- <-]. destruct payload; [|cbn [length] in E0; lia]. rewrite app_nil_r.
    split; [done|]. intros _. split; [done|lia].
Qed.

(** [n] calls one after the other. *)
Fixpoint recv_frames (n : nat) (cap : Z) (s : list rx_event) : list frame_result * list rx_event :=
  match n with
  | O => ([], s)
  | S n =>
      let '(r, s) := osal_recv_frame cap s in
      let '(rs, s) := recv_frames n cap s in (r :: rs, s)
  end.

(** A header and as many bytes as it announces, however they are chunked: the
    checksum decides. *)
Lemma recv_frame_raw cap h payload s rest :
  valid_header h -> wh_payload_len h = Z.of_nat (length payload) -> wh_payload_len h <= cap ->
  rx_chunks s -> rx_stream s = header_wire h ++ payload ++ rest ->
  exists s', osal_recv_frame cap s =
    (if obicall_crc32 payload =? wh_crc32 h then Frame (wh_msg_type h) payload else FrameError, s') /\
    rx_chunks s' /\ rx_stream s' = rest.
Proof.
  intros [Hwf Hver Hmax] Hlen Hcap Hs Hst. pose proof (header_wire_length h) as Hl.
  unfold osal_recv_frame. change (Z.to_nat OBICALL_WIRE_HEADER_LEN) with 16%nat.
  destruct (recv_all_chunks 16 [] s) as (s1 & -> & Hs1 & Hd1); [done|cbn; lia| |].
  { rewrite Hst, length_app. cbn [length]. lia. }
  cbn [length] in *. rewrite Nat.sub_0_r, Hst in *. rewrite app_nil_l, take_app_length' by done.
  rewrite drop_app_length' in Hd1 by done.
  rewrite <- (app_nil_r (header_wire _)), header_decode_wire by done.
  rewrite Hver, Z.eqb_refl. replace (wh_payload_len h >? OBICALL_WIRE_MAX_PAYLOAD) with false by lia.
  cbn [negb]. replace (wh_payload_len h >? cap) with false by lia. rewrite Hlen in *.
  destruct (Z.of_nat (length payload) >? 0) eqn:E0.
  - rewrite Nat2Z.id.
    destruct (recv_all_chunks (length payload) [] s1) as (s2 & -> & Hs2 & Hd2); [done|cbn; lia| |].
    { rewrite Hd1, length_app. cbn [length]. lia. }
    cbn [length] in *. rewrite Nat.sub_0_r, Hd1 in *. rewrite app_nil_l, take_app_length' by done.
    rewrite drop_app_length' in Hd2 by done. exists s2. by destruct (_ =? wh_crc32 h).
  - destruct payload; [|cbn [length] in E0; lia]. exists s1. by destruct (_ =? wh_crc32 h).
Qed.

(** What the sender frames within the receiver's buffer. *)
Record sendable (cap : Z) (msg_type : Z) (payload : list Z) : Prop := {
  sd_type : is_u8 msg_type;
  sd_cap : Z.of_nat (length payload) <= cap;
  sd_max : Z.of_nat (length payload) <= OBICALL_WIRE_MAX_PAYLOAD
}.

Lemma recv_frame_chunks cap msg_type payload s rest :
  sendable cap msg_type payload -> rx_chunks s -> rx_stream s = frame_bytes msg_type payload ++ rest ->
  exists s', osal_recv_frame cap s = (Frame msg_type payload, s') /\ rx_chunks s' /\ rx_stream s' = rest.
Proof.
  intros [Hm Hcap Hmax] Hs Hst. unfold frame_bytes in Hst. rewrite <- app_assoc in Hst.
  destruct (recv_frame_raw cap (frame_header msg_type payload) payload s rest) as (s' & E & H); try done.
  - split; [by apply frame_header_wf|done|done].
  - exists s'. rewrite E. cbn [frame_header wh_crc32]. by rewrite Z.eqb_refl.
Qed.

(** What a received frame is, for any script at all. *)
Lemma recv_frame_sound cap s r s' :
  bytes (rx_stream s) -> osal_recv_frame cap s = (r, s') ->
  match r with
  | Frame msg_type payload => exists h, valid_header h /\ wh_msg_type h = msg_type /\
      wh_payload_len h = Z.of_nat (length payload) /\ Z.of_nat (length payload) <= cap /\
      wh_crc32 h = obicall_crc32 payload /\
      rx_stream s = header_wire h ++ payload ++ rx_stream s'
  | NoFrame => rx_stream s' = rx_stream s
  | FrameError => True
  end.
Proof.
  intros Hb. unfold osal_recv_frame. change (Z.to_nat OBICALL_WIRE_HEADER_LEN) with 16%nat.
  destruct (recv_all 16 [] s) as [[hr hdr_buf] s1] eqn:E1.
  pose proof (recv_all_stream _ _ _ _ _ _ E1) as H1.
  destruct hr; [|by intros [= <- <-]; destruct H1 as (_&_&?)|by intros [= <- <-]].
  destruct H1 as (Hl1 & more & -> & Hst1); [cbn; lia|]. rewrite app_nil_l in *.
  rewrite Hst1 in Hb. apply Forall_app in Hb as [Hb1 Hb2].
  destruct (obicall_wire_decode_header more) as [h|] eqn:Eh; [|by intros [= <- <-]].
  apply header_decode_sound in Eh as [Hv Em]; [|done].
  rewrite drop_ge, app_nil_r in Em by lia.
  destruct (wh_payload_len h >? cap) eqn:Ec; [by intros [= <- <-]|].
  pose proof (wfh_len _ (vh_wf _ Hv)) as Hlen. unfold is_u32 in Hlen.
  destruct (wh_payload_len h >? 0) eqn:E0.
  - destruct (recv_all _ [] s1) as [[r2 out2] s2] eqn:E2. apply recv_all_stream in E2.
    destruct r2; [|by intros [= <- <-]..]. destruct E2 as (Hl2 & more2 & -> & Hst2); [cbn; lia|].
    rewrite app_nil_l in *. destruct (_ =? wh_crc32 h) eqn:Ecrc; cbn [negb]; [|by intros [= <- <-]].
    intros [= <- <-]. exists h. split_and!; try done; [lia|lia|lia|]. by rewrite Hst1, Hst2, Em.
  - destruct (_ =? wh_crc32 h) eqn:Ecrc; cbn [negb]; [|by intros [= <- <-]].
    intros [= <- <-]. exists h. cbn [length]. split_and!; try done; [lia|lia|lia|]. by rewrite Hst1, Em.
Qed.

(** Bytes stay bytes. *)
Lemma recv_frame_bytes cap s r s' :
  bytes (rx_stream s) -> osal_recv_frame cap s = (r, s') ->
  match r with
  | Frame _ payload => bytes payload /\ bytes (rx_stream s')
  | NoFrame => bytes (rx_stream s')
  | FrameError => True
  end.
Proof.
  intros Hb E. pose proof (recv_frame_sound _ _ _ _ Hb E) as H. destruct r as [msg_type payload| |]; [|by rewrite H|done].
  destruct H as (h & _ & _ & _ & _ & _ & Hst). rewrite Hst in Hb. by apply Forall_app in Hb as [_ [? ?]%Forall_app].
Qed.

Lemma frame_payload_bytes cap rx msg_type payload :
  bytes (rx_stream rx) -> (osal_recv_frame cap rx).1 = Frame msg_type payload -> bytes payload.
Proof.
  intros Hb E. destruct (osal_recv_frame cap rx) as [r rx'] eqn:Er. cbn [fst] in E. subst r.
  exact (proj1 (recv_frame_bytes _ _ _ _ Hb Er)).
Qed.

Lemma hello_sendable token role :
  is_chars OBICALL_RUN_TOKEN_LEN token -> is_u32 role ->
  obicall_wire_encode_auth_hello (AuthHello OBICALL_WIRE_VERSION role token) 64 =
    Ok (auth_hello_wire (AuthHello OBICALL_WIRE_VERSION role token)) /\
  wf_auth_hello (AuthHello OBICALL_WIRE_VERSION role token) /\
  sendable 256 OBICALL_MSG_AUTH_HELLO (auth_hello_wire (AuthHello OBICALL_WIRE_VERSION role token)).
Proof.
  intros Ht Hr. set (m := AuthHello _ _ _).
  assert (wf_auth_hello m) as Hwf by (by split).
  assert (length (auth_hello_wire m) = 40%nat) as Hl.
  { unfold auth_hello_wire. rewrite !length_app, !length_le_bytes. destruct Ht as [Hl _].
    cbn [m ah_run_token]. by rewrite Hl. }
  rewrite enc_spec by done. rewrite Hl. split_and!; [done|done|]. split; rewrite ?Hl; done.
Qed.

Lemma hello_decode_wire m : wf_auth_hello m -> obicall_wire_decode_auth_hello (auth_hello_wire m) = Ok m.
Proof. intros Hm. rewrite <- (app_nil_r (auth_hello_wire m)). by rewrite dec_wire. Qed.

Lemma hex_nibble n : 0 <= n < 16 -> hex_val (hexchars !!! Z.to_nat n) = n.
Proof.
  intros Hn. assert (Hall : forallb (fun k => hex_val (hexchars !!! k) =? Z.of_nat k) (seq 0 16) = true)
    by reflexivity.
  rewrite forallb_forall in Hall. specialize (Hall (Z.to_nat n)). rewrite in_seq in Hall. lia.
Qed.

Lemma hex_pairs_encode data :
  bytes data ->
  hex_pairs (concat ((fun b => [hexchars !!! Z.to_nat (Z.shiftr b 4);
                               hexchars !!! Z.to_nat (Z.land b 15)]) <$> data)) = Some data.
Proof.
  induction 1 as [|b data Hb _ IH]; [done|]. destruct (nibbles b Hb) as (H1 & H2 & H3).
  rewrite fmap_cons. set (rest := _ <$> data) in *. rewrite concat_cons.
  cbn [app hex_pairs]. rewrite !hex_nibble by done.
  replace (_ <? 0) with false by lia. replace (Z.land b 15 <? 0) with false by lia. cbn [orb].
  rewrite IH. cbn [option_fmap option_map fmap]. by rewrite H3.
Qed.

(** * The claims *)

(** C39: framing: whatever list of messages the sender managed to send, none larger than
    the receiver's buffer, and however the network chunks the bytes, the receiver reads
    exactly these messages in this order and is left at the bytes that follow. *)
Theorem ipc_frames_in_order cap ms outs s rest :
  Forall2 (fun m out => exists tx tx', osal_send_frame m.1 m.2 tx = (true, out, tx')) ms outs ->
  Forall (fun m => is_u8 m.1 /\ Z.of_nat (length m.2) <= cap) ms ->
  rx_chunks s -> rx_stream s = concat outs ++ rest ->
  exists s', recv_frames (length ms) cap s = ((fun m => Frame m.1 m.2) <$> ms, s') /\
    rx_chunks s' /\ rx_stream s' = rest.
Proof.
  intros Hsent. revert s. induction Hsent as [|[t p] out ms outs (tx & tx' & Hsend) Hsent IH];
    intros s Hms Hs Hst; [by exists s|].
  apply Forall_cons in Hms as [[Ht Hp] Hms]. rewrite concat_cons, <- app_assoc in Hst.
  apply send_frame_spec in Hsend as [_ Hsend]. destruct (Hsend eq_refl) as [-> Hmax].
  destruct (recv_frame_chunks cap t p s (concat outs ++ rest)) as (s1 & E & Hs1 & Hst1); try done.
  destruct (IH s1 Hms Hs1 Hst1) as (s' & E' & Hs' & Hst'). exists s'.
  cbn [length recv_frames fst snd]. by rewrite E, E'.
Qed.

(** the receiver's contract, for any behaviour of the network: "nothing
    waiting" has consumed nothing, so calling again is safe; and every frame
    returned was on the stream with its announced length and a matching
    checksum, and exactly its bytes were consumed. *)
Theorem ipc_recv_contract cap s r s' :
  bytes (rx_stream s) -> osal_recv_frame cap s = (r, s') ->
  match r with
  | Frame msg_type payload => exists h, valid_header h /\ wh_msg_type h = msg_type /\
      wh_payload_len h = Z.of_nat (length payload) /\ Z.of_nat (length payload) <= cap /\
      wh_crc32 h = obicall_crc32 payload /\
      rx_stream s = header_wire h ++ payload ++ rx_stream s'
  | NoFrame => rx_stream s' = rx_stream s
  | FrameError => True
  end.
Proof. apply recv_frame_sound. Qed.

(** a frame whose payload was damaged within four consecutive bytes is an
    error, never a message. *)
Theorem ipc_detects_damage cap msg_type a w w' b s rest :
  sendable cap msg_type (a ++ w ++ b) -> length w' = length w -> (length w <= 4)%nat -> w' <> w ->
  bytes w -> bytes w' -> rx_chunks s ->
  rx_stream s = header_wire (frame_header msg_type (a ++ w ++ b)) ++ (a ++ w' ++ b) ++ rest ->
  (osal_recv_frame cap s).1 = FrameError.
Proof.
  intros [Hm Hcap Hmax] Hl Hw Hne Hb Hb' Hs Hst.
  assert (length (a ++ w' ++ b) = length (a ++ w ++ b)) as Hlen by (rewrite !length_app; lia).
  destruct (recv_frame_raw cap (frame_header msg_type (a ++ w ++ b)) (a ++ w' ++ b) s rest)
    as (s' & E & _); try done.
  - split; [by apply frame_header_wf|done|done].
  - cbn [frame_header wh_payload_len]. by rewrite Hlen.
  - rewrite E. cbn [frame_header wh_crc32 fst]. replace (_ =? _) with false; [done|].
    symmetry. apply Z.eqb_neq. intros Ec. revert Ec. apply crc32_detects_burst; try done. lia.
Qed.

(** the handshake: a client that connects with its token is verified by a
    server with the same token, which learns its role, and refused by every
    server with another token. *)
Theorem hello_handshake token token' role tx out tx' s rest :
  is_chars OBICALL_RUN_TOKEN_LEN token -> is_u32 role ->
  procutil_client_connect token role tx = Some (out, tx') ->
  rx_chunks s -> rx_stream s = out ++ rest ->
  exists s', procutil_server_verify_hello token' s =
    (if decide (token = token') then Some role else None, s') /\ rx_chunks s' /\ rx_stream s' = rest.
Proof.
  intros Ht Hr Hc Hs Hst. destruct (hello_sendable token role Ht Hr) as (He & Hwf & Hsd).
  unfold procutil_client_connect in Hc. rewrite He in Hc.
  destruct (osal_send_frame _ _ tx) as [[[] o] tx1] eqn:E; [|done]. injection Hc as -> ->.
  apply send_frame_spec in E as [_ E]. destruct (E eq_refl) as [-> _].
  destruct (recv_frame_chunks 256 OBICALL_MSG_AUTH_HELLO _ s rest Hsd Hs Hst) as (s' & Er & Hs' & Hst').
  exists s'. unfold procutil_server_verify_hello. rewrite Er, hello_decode_wire by done.
  cbn [ah_protocol_version ah_run_token ah_role]. rewrite !Z.eqb_refl. cbn [negb]. split; [|done].
  by destruct (decide (token = token')) as [Hd|Hd]; [rewrite bool_decide_eq_true_2|rewrite bool_decide_eq_false_2].
Qed.

(** a token written in hexadecimal reads back as itself. *)
Theorem hex_roundtrip data cap out :
  bytes data -> Z.of_nat (length data) < 1073741824 ->
  procutil_hex_encode data cap = Some out ->
  procutil_hex_decode (take (2 * length data) out) (Z.of_nat (length data)) = Some data.
Proof.
  intros Hb Hl. unfold procutil_hex_encode. case_match; [done|]. intros [= <-].
  set (f := fun b => [_; _]). assert (length (concat (f <$> data)) = (2 * length data)%nat) as Hlen.
  { clear. induction data as [|b data IH]; [done|]. rewrite fmap_cons, concat_cons, length_app, IH.
    cbn [f length]. lia. }
  rewrite take_app_length' by done. unfold procutil_hex_decode. rewrite Hlen.
  rewrite u32_id by (unfold is_u32; lia).
  replace (Z.of_nat (2 * length data) =? Z.of_nat (length data) * 2) with true by lia.
  by apply hex_pairs_encode.
Qed.

(** * Witnesses *)

(** The network delivers a byte at a time. *)
Definition dribble (l : list Z) : list rx_event := (fun b => RxBytes [b]) <$> l.

Lemma dribble_chunks l : rx_chunks (dribble l) /\ rx_stream (dribble l) = l.
Proof.
  induction l as [|b l [IH1 IH2]]; [by split; [constructor|]|]. unfold dribble in *. rewrite fmap_cons.
  split; [by constructor|]. rewrite rx_stream_cons. cbn [app]. by f_equal.
Qed.

Definition sample_token : list Z := replicate 32 90.

(** The kernel takes everything, or seven bytes at a time. *)
Definition eager_tx : list tx_event := replicate 8 (TxAccept 4096).
Definition slow_tx : list tx_event := replicate 40 (TxAccept 7).

Lemma ipc_frames_witness :
  let ms := [(OBICALL_MSG_HEARTBEAT, [1; 2; 3]); (OBICALL_MSG_STATUS_QUERY, [])] in
  let outs := [frame_bytes OBICALL_MSG_HEARTBEAT [1; 2; 3]; frame_bytes OBICALL_MSG_STATUS_QUERY []] in
  exists s', recv_frames 2 64 (dribble (concat outs ++ [5])) = ((fun m => Frame m.1 m.2) <$> ms, s').
Proof.
  intros ms outs. destruct (dribble_chunks (concat outs ++ [5])) as [H1 H2].
  destruct (ipc_frames_in_order 64 ms outs (dribble (concat outs ++ [5])) [5]) as (s' & E & _).
  - apply Forall2_cons; split; [|apply Forall2_cons; split; [|constructor]].
    + exists slow_tx, (replicate 36 (TxAccept 7)). vm_compute. reflexivity.
    + exists eager_tx, (replicate 7 (TxAccept 4096)). vm_compute. reflexivity.
  - clear. repeat (apply Forall_cons; split; [split; [split; reflexivity || discriminate|discriminate]|]).
    constructor.
  - exact H1.
  - exact H2.
  - exists s'. exact E.
Defined.

(** A timeout in the middle of a header is an error; one before it is not. *)
Lemma ipc_recv_witness :
  let s := [RxTimeout; RxBytes [79]] in
  let r := osal_recv_frame 64 s in
  r.1 = NoFrame /\ rx_stream r.2 = [79].
Proof.
  intros s r. split; [reflexivity|].
  apply (ipc_recv_contract 64 s NoFrame r.2); [by apply forallb_bytes|reflexivity].
Defined.

Lemma ipc_damage_witness :
  let stream := header_wire (frame_header OBICALL_MSG_HEARTBEAT ([1] ++ [2] ++ [3])) ++ ([1] ++ [7] ++ [3]) ++ [] in
  (osal_recv_frame 64 (dribble stream)).1 = FrameError.
Proof.
  intros stream. destruct (dribble_chunks stream) as [H1 H2].
  apply (ipc_detects_damage 64 OBICALL_MSG_HEARTBEAT [1] [2] [7] [3] _ []).
  - split; [split; [discriminate|reflexivity]|discriminate|discriminate].
  - reflexivity.
  - apply Nat.leb_le. reflexivity.
  - discriminate.
  - by apply forallb_bytes.
  - by apply forallb_bytes.
  - exact H1.
  - exact H2.
Defined.

Lemma hello_witness :
  let out := frame_bytes OBICALL_MSG_AUTH_HELLO
    (auth_hello_wire (AuthHello OBICALL_WIRE_VERSION OBICALL_ROLE_BROKER sample_token)) in
  (procutil_server_verify_hello sample_token (dribble out)).1 = Some OBICALL_ROLE_BROKER /\
  (procutil_server_verify_hello (replicate 32 91) (dribble out)).1 = None.
Proof.
  assert (is_chars OBICALL_RUN_TOKEN_LEN sample_token) as Ht by by apply is_chars_eval.
  assert (is_u32 OBICALL_ROLE_BROKER) as Hr by done.
  intros out. destruct (dribble_chunks out) as [H1 H2].
  assert (procutil_client_connect sample_token OBICALL_ROLE_BROKER eager_tx = Some (out, replicate 6 (TxAccept 4096)))
    as Hc by (vm_compute; reflexivity).
  rewrite <- (app_nil_r out) in H2.
  destruct (hello_handshake sample_token sample_token OBICALL_ROLE_BROKER _ _ _ _ [] Ht Hr Hc H1 H2)
    as (s1 & E1 & _).
  destruct (hello_handshake sample_token (replicate 32 91) OBICALL_ROLE_BROKER _ _ _ _ [] Ht Hr Hc H1 H2)
    as (s2 & E2 & _).
  rewrite E1, E2. split; reflexivity.
Defined.

Lemma hex_witness :
  procutil_hex_decode (take 64 (chars 65 "5a5a5a5a5a5a5a5a5a5a5a5a5a5a5a5a5a5a5a5a5a5a5a5a5a5a5a5a5a5a5a5a"%string)) 32
  = Some sample_token.
Proof.
  apply (hex_roundtrip sample_token 65).
  - by apply forallb_bytes.
  - reflexivity.
  - reflexivity.
Defined.
