(* ===== verification/JournalDaemon.v ===== *)
(** * JournalDaemon: the journal process (src/journal/journal_main.c)

    The shared state is the C [g_state] without its mutex; each connection slot
    has a thread, whose program point is a [thread].  A transition of
    [journald_step] is one thread's work between two points where it holds or
    waits for the lock: accepting a connection, the handshake, a worker's
    submission (decode, admit, ring, segment), a broker's replay request, the
    fetch of one ring entry under the lock, and its sending outside of it.
    The system also carries two ghost components that the C code does not have:
    the log of every decision and, per slot, what was sent. *)

From Stdlib Require Import Sorting.Sorted.
From Stdlib Require Import (notations) Strings.String.
#[local] Delimit Scope string_scope with string.
From S2P Require Import Prelude Types Samples Digest Cursor Wire WireMsg Binary64.
From S2P Require Import Observation Stdio Journal Ipc.

Definition MAX_SENSOR_TRACKS : Z := 32.
Definition RING_CAPACITY : Z := 4096.
Definition MAX_CONNECTIONS : nat := 16.

Record ring_entry := RingEntry {
  re_window_seq : Z;
  re_admission_reason : Z;
  re_obs : obicall_observation
}.

Record conn_slot := ConnSlot {
  cs_in_use : bool;
  cs_role : Z;
  cs_next_seq_to_send : Z;
  cs_caught_up : bool
}.

Record journal_state := JournalState {
  js_pipeline_id : list Z;                      (* char[32] *)
  js_cfg : obicall_journal_config;
  js_tracks : list obicall_sensor_track;        (* the first track_count of [32] *)
  js_ring : list ring_entry;                    (* [4096] *)
  js_ring_head : Z;
  js_next_window_seq : Z;
  js_conns : list conn_slot;                    (* [16] *)
  js_segment_file : option cfile;
  js_run_token : list Z
}.

Definition with_conns (s : journal_state) (cs : list conn_slot) : journal_state :=
  JournalState (js_pipeline_id s) (js_cfg s) (js_tracks s) (js_ring s) (js_ring_head s)
    (js_next_window_seq s) cs (js_segment_file s) (js_run_token s).

(** ** Admission *)

Definition find_track (tracks : list obicall_sensor_track) (sensor_id : list Z) : option nat :=
  fst <$> list_find (fun t => strncmp_eq OBICALL_SENSOR_ID_LEN (tr_sensor_id t) sensor_id = true) tracks.

(** The index of the track and the track array. *)
Definition find_or_create_track (sensor_id : list Z) (tracks : list obicall_sensor_track)
    : option (nat * list obicall_sensor_track) :=
  match find_track tracks sensor_id with
  | Some i => Some (i, tracks)
  | None =>
      if Z.of_nat (length tracks) >=? MAX_SENSOR_TRACKS then None
      else Some (length tracks,
                 tracks ++ [SensorTrack (strncpy_zeroed OBICALL_SENSOR_ID_LEN sensor_id) 0 0 0 0])
  end.

Definition pending_step (acc : Z * bool) (c : conn_slot) : Z * bool :=
  let '(slowest, any) := acc in
  if cs_in_use c && (cs_role c =? OBICALL_ROLE_BROKER)
  then (if negb any || (cs_next_seq_to_send c <? slowest) then cs_next_seq_to_send c else slowest, true)
  else (slowest, any).

Definition compute_pending_depth_locked (s : journal_state) : Z :=
  let '(slowest, any) := fold_left pending_step (js_conns s) (js_next_window_seq s, false) in
  if negb any then 0
  else u32 (if js_next_window_seq s >? slowest then js_next_window_seq s - slowest else 0).

Definition ring_slot (window_seq : Z) : nat := Z.to_nat (window_seq mod RING_CAPACITY).

(** The decision, the window assigned (if one was) and the state.  The status of
    the append is dropped, as the C code drops it; [io] and [now] are the file
    system and the clock. *)
Definition admit_locked (io : io_outcome) (now : Z) (obs : obicall_observation) (s : journal_state)
    : obicall_admission_reason * option Z * journal_state :=
  match find_or_create_track (obs_sensor_id obs) (js_tracks s) with
  | None => (OBICALL_REJECT_OVERFLOW, None, s)
  | Some (i, tracks) =>
      let pending := compute_pending_depth_locked s in
      let '(reason, track) :=
        obicall_journal_admit (js_cfg s) (default zero_track (tracks !! i)) obs pending in
      let window_seq := js_next_window_seq s in
      let segment :=
        match js_segment_file s with
        | None => None
        | Some f => Some (obicall_journal_append_record io f window_seq now reason obs).2
        end in
      (reason, Some window_seq,
       JournalState (js_pipeline_id s) (js_cfg s) (<[i := track]> tracks)
         (<[ring_slot window_seq := RingEntry window_seq (admission_code reason) obs]> (js_ring s))
         window_seq (u64 (window_seq + 1)) (js_conns s) segment (js_run_token s))
  end.

(** ** Broker connections *)

(** What goes out for one entry (two frames, whose own failures are ignored). *)
Definition admission_decision_of (pipeline_id : list Z) (now : Z) (e : ring_entry)
    : obicall_msg_admission_decision :=
  AdmissionDecision (strncpy_zeroed OBICALL_PIPELINE_ID_LEN pipeline_id) (re_window_seq e)
    (strncpy_zeroed OBICALL_SENSOR_ID_LEN (obs_sensor_id (re_obs e))) (obs_sequence (re_obs e))
    (if re_admission_reason e =? admission_code OBICALL_ADMIT_OK then 1 else 0)
    (re_admission_reason e) now.

Definition send_ring_entry (pipeline_id : list Z) (now : Z) (e : ring_entry) (tx : list tx_event)
    : list Z * list tx_event :=
  match obicall_wire_encode_observation (re_obs e) 1200 with
  | Err _ => ([], tx)
  | Ok buf =>
      let '(_, out1, tx) := osal_send_frame OBICALL_MSG_REPLAY_DATA buf tx in
      match obicall_wire_encode_admission_decision (admission_decision_of pipeline_id now e) 256 with
      | Err _ => (out1, tx)
      | Ok dbuf =>
          let '(_, out2, tx) := osal_send_frame OBICALL_MSG_ADMISSION_DECISION dbuf tx in
          (out1 ++ out2, tx)
      end
  end.

(** Where a subscriber starts: its request, clipped to what the ring retains. *)
Definition replay_cursor (from_window_seq ring_head : Z) : Z :=
  let cursor := if from_window_seq <? 1 then 1 else from_window_seq in
  let oldest_available :=
    if u64 (ring_head + 1) >? RING_CAPACITY then u64 (ring_head + 1) - RING_CAPACITY else 1 in
  if cursor <? oldest_available then oldest_available else cursor.

Definition zero_entry : ring_entry :=
  RingEntry 0 0 (Observation 0 0 (replicate 32 0) 0 0 0 0 0 0 0 0 0 0 0 (replicate 6 0) 0 (replicate 36 0)).

(** One look at the ring under the lock. *)
Definition fetch_entry (cursor : Z) (s : journal_state) : option ring_entry :=
  if (cursor >=? 1) && (cursor <=? js_ring_head s)
  then Some (default zero_entry (js_ring s !! ring_slot cursor)) else None.

(** ** Threads and the system *)

Inductive thread :=
| ThNone                                   (* no connection *)
| ThHello                                  (* connection_thread, verifying *)
| ThReplayRequest                          (* handle_broker_connection, first message *)
| ThFetch (cursor : Z)                     (* the loop, about to look at the ring *)
| ThSend (cursor : Z) (entry : ring_entry) (* the loop, sending *)
| ThWorker.                                (* handle_worker_connection *)

Record journald := Journald {
  jd_state : journal_state;
  jd_threads : list thread;                (* [16] *)
  jd_log : list segment_record;            (* ghost: every decision *)
  jd_appended : bool;                      (* ghost: every append reported success *)
  jd_sent : list (list (Z * ring_entry))   (* ghost: per slot, cursor and entry *)
}.

Definition set_slot (y : journald) (i : nat) (c : conn_slot) (t : thread)
    (sent : list (Z * ring_entry)) : journald :=
  Journald (with_conns (jd_state y) (<[i := c]> (js_conns (jd_state y)))) (<[i := t]> (jd_threads y))
    (jd_log y) (jd_appended y) (<[i := sent]> (jd_sent y)).

Definition conn_at (y : journald) (i : nat) : conn_slot :=
  default (ConnSlot false 0 0 false) (js_conns (jd_state y) !! i).
Definition sent_at (y : journald) (i : nat) : list (Z * ring_entry) := default [] (jd_sent y !! i).

(** [osal_close(slot->sock); slot->in_use = 0] at the end of [connection_thread]. *)
Definition close_slot (y : journald) (i : nat) : journald :=
  let c := conn_at y i in
  set_slot y i (ConnSlot false (cs_role c) (cs_next_seq_to_send c) (cs_caught_up c)) ThNone (sent_at y i).

(** The accept loop of [main]: the first free slot, if there is one. *)
Definition accept_connection (y : journald) : journald :=
  match list_find (fun c => cs_in_use c = false) (js_conns (jd_state y)) with
  | None => y
  | Some (i, _) => set_slot y i (ConnSlot true OBICALL_ROLE_UNKNOWN 1 false) ThHello []
  end.

Definition verify_turn (rx : list rx_event) (i : nat) (y : journald) : journald :=
  match (procutil_server_verify_hello (js_run_token (jd_state y)) rx).1 with
  | None => close_slot y i
  | Some role =>
      let c := conn_at y i in
      let y' := set_slot y i (ConnSlot (cs_in_use c) role (cs_next_seq_to_send c) (cs_caught_up c))
                  (if role =? OBICALL_ROLE_BROKER then ThReplayRequest else ThWorker) (sent_at y i) in
      if (role =? OBICALL_ROLE_BROKER) || (role =? OBICALL_ROLE_WORKER) then y' else close_slot y' i
  end.

Definition request_turn (rx : list rx_event) (i : nat) (y : journald) : journald :=
  match (osal_recv_frame 2048 rx).1 with
  | Frame msg_type payload =>
      if negb (msg_type =? OBICALL_MSG_REPLAY_REQUEST) then close_slot y i
      else
      match obicall_wire_decode_replay_request payload with
      | Err _ => close_slot y i
      | Ok req =>
          let cursor := replay_cursor (rq_from_window_seq req) (js_ring_head (jd_state y)) in
          let c := conn_at y i in
          set_slot y i (ConnSlot (cs_in_use c) (cs_role c) cursor (cs_caught_up c)) (ThFetch cursor)
            (sent_at y i)
      end
  | _ => close_slot y i
  end.

Definition fetch_turn (cursor : Z) (i : nat) (y : journald) : journald :=
  let c := conn_at y i in
  match fetch_entry cursor (jd_state y) with
  | None => set_slot y i (ConnSlot (cs_in_use c) (cs_role c) (cs_next_seq_to_send c) true)
              (ThFetch cursor) (sent_at y i)
  | Some e => set_slot y i c (ThSend cursor e) (sent_at y i)
  end.

Definition sent_turn (cursor : Z) (e : ring_entry) (i : nat) (y : journald) : journald :=
  let c := conn_at y i in
  let cursor' := u64 (cursor + 1) in
  set_slot y i (ConnSlot (cs_in_use c) (cs_role c) cursor' (cs_caught_up c)) (ThFetch cursor')
    (sent_at y i ++ [(cursor, e)]).

Definition worker_turn (rx : list rx_event) (io : io_outcome) (now : Z) (i : nat) (y : journald)
    : journald :=
  match (osal_recv_frame 2048 rx).1 with
  | FrameError => close_slot y i
  | NoFrame => y
  | Frame msg_type payload =>
      if negb (msg_type =? OBICALL_MSG_OBSERVATION_SUBMIT) then y
      else
      match obicall_wire_decode_observation payload with
      | Err _ => y
      | Ok obs =>
          match admit_locked io now obs (jd_state y) with
          | (_, None, s) => Journald s (jd_threads y) (jd_log y) (jd_appended y) (jd_sent y)
          | (reason, Some window_seq, s) =>
              let d := SegmentRecord window_seq now reason obs in
              let ok := match js_segment_file (jd_state y) with
                        | None => true
                        | Some f => bool_decide ((append io f d).1 = OBICALL_OK)
                        end in
              Journald s (jd_threads y) (jd_log y ++ [d]) (jd_appended y && ok) (jd_sent y)
          end
      end
  end.

Inductive journald_step : journald -> journald -> Prop :=
| step_accept y : journald_step y (accept_connection y)
| step_verify y i rx :
    jd_threads y !! i = Some ThHello -> journald_step y (verify_turn rx i y)
| step_request y i rx :
    jd_threads y !! i = Some ThReplayRequest -> bytes (rx_stream rx) ->
    journald_step y (request_turn rx i y)
| step_fetch y i cursor :
    jd_threads y !! i = Some (ThFetch cursor) -> journald_step y (fetch_turn cursor i y)
| step_sent y i cursor e :
    jd_threads y !! i = Some (ThSend cursor e) -> journald_step y (sent_turn cursor e i y)
| step_worker y i rx io now :
    jd_threads y !! i = Some ThWorker -> bytes (rx_stream rx) -> is_i64 now ->
    journald_step y (worker_turn rx io now i y).

(** [main] up to the listener. *)
Definition journald_init (pipeline_id : list Z) (cfg : obicall_journal_config)
    (segment : option cfile) (token : list Z) : journald :=
  Journald
    (JournalState (strncpy_zeroed OBICALL_PIPELINE_ID_LEN pipeline_id) cfg []
       (replicate (Z.to_nat RING_CAPACITY) zero_entry) 0 1
       (replicate MAX_CONNECTIONS (ConnSlot false 0 0 false)) segment token)
    (replicate MAX_CONNECTIONS ThNone) [] true (replicate MAX_CONNECTIONS []).

Inductive journald_reach (y0 : journald) : journald -> Prop :=
| reach_start : journald_reach y0 y0
| reach_step y y' : journald_reach y0 y -> journald_step y y' -> journald_reach y0 y'.

(** * Lemmas *)

(** ** Tracks are keyed by the text of the sensor id *)

Lemma strncmp_eq_c_str n a b :
  length a = n -> length b = n -> strncmp_eq n a b = true <-> c_str a = c_str b.
Proof.
  revert a b. induction n as [|n IH]; intros [|x a] [|y b] Ha Hb; try discriminate; [by split|].
  injection Ha as Ha. injection Hb as Hb.
  cbn [strncmp_eq head hd_error tail c_str default from_option].
  rewrite andb_true_iff, orb_true_iff, IH by done.
  change (Datatypes.id x) with x. change (Datatypes.id y) with y.
  destruct (Z.eqb_spec x y), (Z.eqb_spec x 0), (Z.eqb_spec y 0); intuition congruence.
Qed.

Definition key (id : list Z) : list Z := c_str id.
Definition track_keys (tracks : list obicall_sensor_track) : list (list Z) :=
  (fun t => key (tr_sensor_id t)) <$> tracks.

(** Track ids are 32 bytes with a terminator among them. *)
Definition id_ok (id : list Z) : Prop :=
  length id = OBICALL_SENSOR_ID_LEN /\ existsb (fun b => b =? 0) id = true.
Definition tracks_ok (tracks : list obicall_sensor_track) : Prop :=
  Forall (fun t => id_ok (tr_sensor_id t)) tracks /\ Z.of_nat (length tracks) <= MAX_SENSOR_TRACKS.

Lemma list_find_Forall_iff {A} (P Q : A -> Prop) `{forall x, Decision (P x), forall x, Decision (Q x)} l :
  Forall (fun x => P x <-> Q x) l -> list_find P l = list_find Q l.
Proof.
  induction 1 as [|x l Hx _ IH]; [done|]. simpl. rewrite IH.
  by destruct (decide (P x)), (decide (Q x)); try tauto.
Qed.

Lemma find_track_keys tracks id :
  tracks_ok tracks -> length id = OBICALL_SENSOR_ID_LEN ->
  find_track tracks id = fst <$> list_find (fun k => k = key id) (track_keys tracks).
Proof.
  intros [Ht _] Hid. unfold find_track, track_keys. rewrite list_find_fmap.
  rewrite <- option_fmap_compose. unfold compose.
  rewrite (list_find_Forall_iff _ (fun t => key (tr_sensor_id t) = key id));
    [by destruct (list_find _ tracks) as [[]|]|].
  eapply Forall_impl; [exact Ht|]. intros t [Hl _]. by apply strncmp_eq_c_str.
Qed.

Lemma find_or_create_spec tracks id i tracks' :
  tracks_ok tracks -> length id = OBICALL_SENSOR_ID_LEN ->
  find_or_create_track id tracks = Some (i, tracks') ->
  tracks_ok tracks' /\
  (exists t, tracks' !! i = Some t /\ (tracks !! i = Some t \/ tr_has_data t = 0) /\
     (existsb (fun b => b =? 0) id = true ->
        key (tr_sensor_id t) = key id /\ find_track tracks' id = Some i)) /\
  (forall id' j t, length id' = OBICALL_SENSOR_ID_LEN -> find_track tracks id' = Some j ->
     tracks !! j = Some t -> find_track tracks' id' = Some j /\ tracks' !! j = Some t) /\
  (length tracks <= length tracks')%nat.
Proof.
  intros Hok Hid. unfold find_or_create_track. destruct (find_track tracks id) as [j|] eqn:Ef.
  - intros [= <- <-]. pose proof Ef as Ef'. rewrite find_track_keys in Ef' by done.
    destruct (list_find _ _) as [[j' k]|] eqn:El; [|done]. injection Ef' as ->.
    apply list_find_Some in El as (Hl & -> & _). unfold track_keys in Hl.
    apply list_lookup_fmap_Some in Hl as (t & Ht & Hk).
    split; [done|]. split; [|split; [done|lia]]. exists t. split; [done|]. split; [by left|]. done.
  - destruct (_ >=? MAX_SENSOR_TRACKS) eqn:Ec; [done|]. intros [= <- <-].
    set (new := SensorTrack _ _ _ _ _).
    destruct (strncpy_zeroed_spec OBICALL_SENSOR_ID_LEN id) as (Hl & Hk & Ht); [unfold OBICALL_SENSOR_ID_LEN; lia|].
    assert (tracks_ok (tracks ++ [new])) as Hok'.
    { destruct Hok as [Hok Hn]. split; [apply Forall_app; split; [done|]; by apply Forall_singleton|].
      rewrite length_app. cbn [length]. lia. }
    split; [done|]. split; [|split].
    + exists new. rewrite lookup_app_r, Nat.sub_diag by lia. split; [done|]. split; [by right|].
      intros Hterm. assert (key (tr_sensor_id new) = key id) as Hkey.
      { unfold key, new. cbn [tr_sensor_id]. rewrite Hk. apply take_ge.
        pose proof (c_str_terminated _ Hterm). lia. }
      split; [done|]. rewrite find_track_keys in Ef |- * by done. unfold track_keys in *.
      rewrite fmap_app. apply fmap_None in Ef. rewrite list_find_app_r by done. simpl.
      rewrite decide_True by done. simpl. by rewrite ?length_fmap, ?Nat.add_0_r.
    + intros id' j t Hid' Hf Htj. rewrite find_track_keys in Hf |- * by done. unfold track_keys in *.
      apply fmap_Some in Hf as ([j' k] & Hf & ->). rewrite fmap_app. split.
      * by rewrite (list_find_app_l _ _ _ _ _ Hf).
      * by apply lookup_app_l_Some.
    + rewrite length_app. lia.
Qed.

Lemma update_track_find tracks i t t' id :
  tracks_ok tracks -> tracks !! i = Some t -> id_ok (tr_sensor_id t') ->
  key (tr_sensor_id t') = key (tr_sensor_id t) -> length id = OBICALL_SENSOR_ID_LEN ->
  tracks_ok (<[i := t']> tracks) /\ find_track (<[i := t']> tracks) id = find_track tracks id.
Proof.
  intros Hok Hi Hid' Hk Hid. assert (tracks_ok (<[i := t']> tracks)) as Hok'.
  { destruct Hok. split; [by apply Forall_insert|by rewrite length_insert]. }
  split; [done|]. rewrite !find_track_keys by done. unfold track_keys.
  rewrite list_fmap_insert, list_insert_id; [done|]. rewrite list_lookup_fmap, Hi. simpl. by rewrite Hk.
Qed.

(** ** The admitted decisions of one sensor *)

Definition admitted_of (k : list Z) (log : list segment_record) : list segment_record :=
  filter (fun d => sr_reason d = OBICALL_ADMIT_OK /\ key (obs_sensor_id (sr_obs d)) = k) log.

Lemma admitted_of_snoc k log d :
  admitted_of k (log ++ [d]) =
  admitted_of k log ++
  (if decide (sr_reason d = OBICALL_ADMIT_OK /\ key (obs_sensor_id (sr_obs d)) = k) then [d] else []).
Proof. unfold admitted_of. by rewrite filter_app, filter_cons, filter_nil. Qed.

Lemma admitted_of_rejected k log d :
  sr_reason d <> OBICALL_ADMIT_OK -> admitted_of k (log ++ [d]) = admitted_of k log.
Proof. intros H. by rewrite admitted_of_snoc, decide_False, app_nil_r by (by intros [? _]). Qed.

(** The track of a sensor remembers its last admitted decision. *)
Definition track_inv (tracks : list obicall_sensor_track) (log : list segment_record) : Prop :=
  tracks_ok tracks /\
  forall id d, length id = OBICALL_SENSOR_ID_LEN -> last (admitted_of (key id) log) = Some d ->
    exists i t, find_track tracks id = Some i /\ tracks !! i = Some t /\ tr_has_data t <> 0 /\
      tr_source_boot_id t = obs_source_boot_id (sr_obs d) /\
      tr_highest_sequence_seen t = obs_sequence (sr_obs d).

(** Between two consecutive admissions of a sensor the sequence number grows, or the boot
    id changes. *)
Definition log_increasing (log : list segment_record) : Prop :=
  forall k i d1 d2, admitted_of k log !! i = Some d1 -> admitted_of k log !! S i = Some d2 ->
    obs_source_boot_id (sr_obs d1) = obs_source_boot_id (sr_obs d2) ->
    obs_sequence (sr_obs d1) < obs_sequence (sr_obs d2).

Lemma validated_id_ok o :
  (obicall_observation_validate o).2 = OBICALL_OK -> length (obs_sensor_id o) = OBICALL_SENSOR_ID_LEN ->
  id_ok (obs_sensor_id o).
Proof.
  intros Hv Hl. split; [done|]. apply validate_ok_equiv in Hv. destruct Hv.
  destruct ok_sensor_id as (c & s & -> & _ & Hz). apply existsb_exists. exists 0. split; [|done].
  right. by apply list_elem_of_In.
Qed.

Lemma log_increasing_snoc log d :
  log_increasing log ->
  (forall d', last (admitted_of (key (obs_sensor_id (sr_obs d))) log) = Some d' ->
     obs_source_boot_id (sr_obs d') = obs_source_boot_id (sr_obs d) ->
     obs_sequence (sr_obs d') < obs_sequence (sr_obs d)) ->
  log_increasing (log ++ [d]).
Proof.
  intros Hinc Hlt k i d1 d2. rewrite admitted_of_snoc. destruct (decide _) as [[_ Hk]|Hk]; [|rewrite app_nil_r; apply Hinc].
  intros H1 H2 Hb. apply lookup_app_Some in H2 as [H2|[Hlen H2]].
  - rewrite lookup_app_l in H1; [by apply (Hinc k i)|]. apply lookup_lt_Some in H2. lia.
  - apply list_lookup_singleton_Some in H2 as [Hi <-]. rewrite lookup_app_l in H1 by lia. apply Hlt; [|done].
    rewrite last_lookup, Hk. by replace (Init.Nat.pred (length (admitted_of k log))) with i by lia.
Qed.

(** One admission at the daemon. *)
Lemma admit_locked_tracks io now obs s reason w s' log :
  track_inv (js_tracks s) log -> log_increasing log ->
  length (obs_sensor_id obs) = OBICALL_SENSOR_ID_LEN ->
  admit_locked io now obs s = (reason, Some w, s') ->
  let d := SegmentRecord w now reason obs in
  track_inv (js_tracks s') (log ++ [d]) /\ log_increasing (log ++ [d]).
Proof.
  intros [Hok Hinv] Hinc Hid. unfold admit_locked.
  destruct (find_or_create_track _ _) as [[i tracks]|] eqn:Ef; [|done].
  destruct (find_or_create_spec _ _ _ _ Hok Hid Ef) as (Hok1 & (t & Ht & Hold & Hterm) & Hpres & _).
  rewrite Ht. change (default zero_track (Some t)) with t.
  destruct (obicall_journal_admit _ t obs _) as [r track'] eqn:Ea. intros E.
  injection E as <- <- <-. set (d := SegmentRecord _ _ _ _).
  pose proof (admit_cases _ _ _ _ _ _ Ea) as (Hr & Hrej & Hacc). cbn [js_tracks].
  destruct (decide (r = OBICALL_ADMIT_OK)) as [->|Hne].
  2:{ rewrite (Hrej Hne), list_insert_id by done. split; [split; [done|]|].
      - intros id d' Hl. rewrite admitted_of_rejected by done. intros Hlast.
        destruct (Hinv id d' Hl Hlast) as (j & tj & Hf & Hj & Hrest).
        destruct (Hpres id j tj Hl Hf Hj). by exists j, tj.
      - intros k j d1 d2. rewrite admitted_of_rejected by done. apply Hinc. }
  destruct (proj1 Hr eq_refl) as (Hval & Hord & _). clear Hr Hrej.
  destruct (Hacc eq_refl) as (Hid' & Hboot & Hdata & Hseq & _). clear Hacc.
  pose proof (validated_id_ok _ Hval Hid) as Hidok.
  destruct (Hterm (proj2 Hidok)) as [Hkey Hfind].
  assert (forall id, length id = OBICALL_SENSOR_ID_LEN ->
    tracks_ok (<[i := track']> tracks) /\ find_track (<[i := track']> tracks) id = find_track tracks id) as Hupd.
  { intros id Hl. apply (update_track_find _ _ t); try done; rewrite Hid'; done. }
  assert (tracks !! i = Some t) as Ht' by done.
  split; [split; [by apply (Hupd (obs_sensor_id obs))|]|].
  - intros id d' Hl. rewrite admitted_of_snoc. cbn [sr_reason sr_obs d].
    destruct (decide (_ /\ key (obs_sensor_id obs) = key id)) as [[_ Hk]|Hk].
    + rewrite last_snoc. intros [= <-]. exists i, track'. destruct (Hupd id Hl) as [Hok2 ->].
      split_and!; try done; try lia.
      * rewrite find_track_keys, <- Hk, <- find_track_keys by done. done.
      * rewrite list_lookup_insert_eq; [done|]. by eapply lookup_lt_Some.
    + rewrite app_nil_r. intros Hlast. destruct (Hinv id d' Hl Hlast) as (j & tj & Hf & Hj & Hrest).
      destruct (Hpres id j tj Hl Hf Hj) as [Hf' Hj']. exists j, tj. destruct (Hupd id Hl) as [_ ->].
      split; [done|]. split; [|done]. rewrite list_lookup_insert_ne; [done|]. intros <-. apply Hk.
      split; [done|]. rewrite find_track_keys in Hf' by done.
      apply fmap_Some in Hf' as ([j' k'] & Hf' & ->). apply list_find_Some in Hf' as (Hl' & -> & _).
      unfold track_keys in Hl'. rewrite list_lookup_fmap in Hl'. cbn [fst] in *. rewrite Ht in Hl'.
      injection Hl' as Hl'. congruence.
  - apply log_increasing_snoc; [done|]. cbn [sr_obs d]. intros dl Hdl Hboot'.
    destruct (Hinv (obs_sensor_id obs) dl Hid Hdl) as (j & tj & Hf & Hj & Hd & Hb & Hs).
    destruct (Hpres _ j tj Hid Hf Hj) as [Hf' Hj']. rewrite Hfind in Hf'. injection Hf' as <-.
    rewrite Ht in Hj'. injection Hj' as <-. rewrite <- Hs. apply Hord. split; [done|]. by rewrite Hb.
Qed.

(** ** The system invariant *)

Definition entry_of (d : segment_record) : ring_entry :=
  RingEntry (sr_window_seq d) (admission_code (sr_reason d)) (sr_obs d).

(** [e] is the entry of window [c], or of one a multiple of the ring's capacity
    later. *)
Definition copy_of (log : list segment_record) (c : Z) (e : ring_entry) : Prop :=
  exists k d, log !! k = Some d /\ e = entry_of d /\ c <= Z.of_nat k + 1 /\
    (Z.of_nat k + 1) mod RING_CAPACITY = c mod RING_CAPACITY.

(** The cursors sent are consecutive. *)
Definition consecutive (sent : list (Z * ring_entry)) : Prop :=
  exists start, fst <$> sent = seqZ start (Z.of_nat (length sent)).

Definition sent_upto (sent : list (Z * ring_entry)) (c : Z) : Prop :=
  1 <= c /\ exists start, fst <$> sent = seqZ start (Z.of_nat (length sent)) /\
    c = start + Z.of_nat (length sent).

Definition thread_ok (log : list segment_record) (sent : list (Z * ring_entry)) (t : thread) : Prop :=
  match t with
  | ThHello | ThReplayRequest => sent = []
  | ThFetch c => sent_upto sent c
  | ThSend c e => sent_upto sent c /\ copy_of log c e /\ c <= Z.of_nat (length log)
  | ThNone | ThWorker => True
  end.

Record sys_inv (base : list Z) (y : journald) : Prop := {
  si_ring_len : length (js_ring (jd_state y)) = Z.to_nat RING_CAPACITY;
  si_conns : length (js_conns (jd_state y)) = MAX_CONNECTIONS;
  si_nthreads : length (jd_threads y) = MAX_CONNECTIONS;
  si_nsent : length (jd_sent y) = MAX_CONNECTIONS;
  si_head : js_ring_head (jd_state y) = Z.of_nat (length (jd_log y));
  si_next : js_next_window_seq (jd_state y) = Z.of_nat (length (jd_log y)) + 1;
  si_log : forall k d, jd_log y !! k = Some d -> sr_window_seq d = Z.of_nat k + 1;
  si_ring : forall k d, jd_log y !! k = Some d ->
    Z.of_nat (length (jd_log y)) <= Z.of_nat k + RING_CAPACITY ->
    js_ring (jd_state y) !! ring_slot (Z.of_nat k + 1) = Some (entry_of d);
  si_valid : Forall valid_record (jd_log y);
  si_tracks : track_inv (js_tracks (jd_state y)) (jd_log y);
  si_increasing : log_increasing (jd_log y);
  si_threads : forall i t, jd_threads y !! i = Some t -> thread_ok (jd_log y) (sent_at y i) t;
  si_sent : forall i, Forall (fun p => copy_of (jd_log y) p.1 p.2) (sent_at y i) /\ consecutive (sent_at y i);
  si_segment : forall f, js_segment_file (jd_state y) = Some f -> jd_appended y = true ->
    f_data f = base ++ concat (record_bytes <$> jd_log y)
}.

Lemma copy_of_app log log' c e : copy_of log c e -> copy_of (log ++ log') c e.
Proof. intros (k & d & Hl & H). exists k, d. split; [by apply lookup_app_l_Some|done]. Qed.

Lemma sent_upto_consecutive sent c : sent_upto sent c -> consecutive sent.
Proof. intros (_ & start & H & _). by exists start. Qed.

Lemma sent_upto_nil c : 1 <= c -> sent_upto [] c.
Proof. intros Hc. split; [done|]. exists c. split; [done|]. cbn [length]. lia. Qed.

Lemma sent_upto_snoc sent c e : sent_upto sent c -> sent_upto (sent ++ [(c, e)]) (c + 1).
Proof.
  intros (Hc & start & Hs & Hend). split; [lia|]. exists start. rewrite length_app. cbn [length].
  rewrite fmap_app, Hs. split; [|lia]. rewrite Nat2Z.inj_add, seqZ_app by lia. f_equal.
  cbn [fmap list_fmap fst]. by rewrite Hend.
Qed.

Lemma thread_ok_app log log' sent t : thread_ok log sent t -> thread_ok (log ++ log') sent t.
Proof.
  destruct t; try done. intros (? & ? & ?). split_and!; [done|by apply copy_of_app|].
  rewrite length_app. lia.
Qed.

(** A thread moves on, changing its own slot only. *)
Lemma set_slot_inv base y i c t sent :
  sys_inv base y -> thread_ok (jd_log y) sent t ->
  Forall (fun p => copy_of (jd_log y) p.1 p.2) sent -> consecutive sent ->
  sys_inv base (set_slot y i c t sent).
Proof.
  intros [] Ht Hc Hs.
  assert (forall j, (sent_at (set_slot y i c t sent) j = sent /\ j = i) \/
                    (sent_at (set_slot y i c t sent) j = sent_at y j /\
                     (j <> i \/ (MAX_CONNECTIONS <= i)%nat))) as Hat.
  { intros j. unfold sent_at, set_slot. cbn [jd_sent].
    destruct (decide (j = i)) as [->|Hne]; [|right; split; [by rewrite list_lookup_insert_ne|by left]].
    destruct (decide (i < MAX_CONNECTIONS)%nat).
    - left. rewrite list_lookup_insert_eq by lia. done.
    - right. rewrite list_insert_ge by lia. split; [done|right; lia]. }
  split; cbn [set_slot jd_state jd_threads jd_log jd_appended jd_sent with_conns js_ring js_conns
    js_ring_head js_next_window_seq js_tracks js_segment_file]; rewrite ?length_insert; try done.
  - intros j t' Hj. destruct (Hat j) as [[-> ->]|[-> [Hne|Hge]]].
    + apply list_lookup_insert_Some in Hj as [(_ & <- & _)|(? & _)]; done.
    + rewrite list_lookup_insert_ne in Hj by done. by apply si_threads0.
    + rewrite list_insert_ge in Hj by lia. by apply si_threads0.
  - intros j. destruct (Hat j) as [[-> _]|[-> _]]; [done|apply si_sent0].
Qed.

Lemma sent_at_nil_or base y i : sys_inv base y ->
  Forall (fun p => copy_of (jd_log y) p.1 p.2) (sent_at y i) /\ consecutive (sent_at y i).
Proof. intros Hinv. apply (si_sent _ _ Hinv). Qed.

Lemma close_slot_inv base y i : sys_inv base y -> sys_inv base (close_slot y i).
Proof. intros H. apply set_slot_inv; [done|done|by eapply sent_at_nil_or..]. Qed.

(** What a fetch under the lock sees. *)
Lemma fetch_entry_spec base y c e :
  sys_inv base y -> fetch_entry c (jd_state y) = Some e ->
  copy_of (jd_log y) c e /\ 1 <= c <= Z.of_nat (length (jd_log y)).
Proof.
  intros Hinv. unfold fetch_entry. rewrite (si_head _ _ Hinv).
  destruct (_ && _) eqn:E; [|done]. assert (1 <= c <= Z.of_nat (length (jd_log y))) as Hc by lia.
  clear E. set (h := Z.of_nat (length (jd_log y))) in *. intros [= <-]. split; [|done].
  set (w := h - (h - c) mod RING_CAPACITY). unfold RING_CAPACITY in *.
  assert (c <= w <= h /\ w mod 4096 = c mod 4096 /\ h <= w - 1 + 4096) as (Hw & Hm & Hr)
    by (unfold w; mlia).
  destruct (lookup_lt_is_Some_2 (jd_log y) (Z.to_nat (w - 1))) as [d Hd]; [unfold h in *; lia|].
  exists (Z.to_nat (w - 1)), d. split; [done|].
  pose proof (si_ring _ _ Hinv _ _ Hd ltac:(unfold RING_CAPACITY, h in *; lia)) as Hring.
  rewrite Z2Nat.id by lia. replace (w - 1 + 1) with w by lia. split; [|split; [lia|done]].
  rewrite Z2Nat.id in Hring by lia. replace (w - 1 + 1) with w in Hring by lia.
  unfold ring_slot, RING_CAPACITY in *. rewrite Hm in Hring. by rewrite Hring.
Qed.

Lemma canon_observation_valid o : valid_observation o -> valid_observation (canon_observation o).
Proof.
  intros [[] Hp Hc]. unfold OBICALL_MAX_PAYLOAD_DOUBLES, OBICALL_MAX_COV_DOUBLES in *.
  destruct (pad_used_take is_u64 6 0 (obs_payload o) (obs_payload_count o)); try done; try lia.
  destruct (pad_used_take is_u64 36 0 (obs_covariance o) (obs_covariance_count o)); try done; try lia.
Qed.

Lemma decoded_observation_valid payload o :
  bytes payload -> obicall_wire_decode_observation payload = Ok o -> valid_observation o.
Proof.
  intros Hb H. destruct (dec_sound _ _ Hb H) as (a & extra & Ha & _ & ->). by apply canon_observation_valid.
Qed.

Lemma append_ok_data io f d :
  valid_record d -> (append io f d).1 = OBICALL_OK ->
  f_data (append io f d).2 = f_data f ++ record_bytes d.
Proof.
  intros Hd. destruct (append io f d) as [st f'] eqn:E. cbn [fst snd]. intros ->.
  destruct (append_data _ _ _ _ _ Hd E) as (_ & _ & k & _ & H). by apply H.
Qed.

(** What one admission does to the shared state. *)
Lemma admit_locked_some io now obs s reason w s' :
  admit_locked io now obs s = (reason, Some w, s') ->
  w = js_next_window_seq s /\
  js_ring s' = <[ring_slot w := RingEntry w (admission_code reason) obs]> (js_ring s) /\
  js_ring_head s' = w /\ js_next_window_seq s' = u64 (w + 1) /\ js_conns s' = js_conns s /\
  js_segment_file s' =
    (fun f => (append io f (SegmentRecord w now reason obs)).2) <$> js_segment_file s.
Proof.
  unfold admit_locked. destruct (find_or_create_track _ _) as [[i tracks]|]; [|done].
  destruct (obicall_journal_admit _ _ _ _) as [r t]. intros [= <- <- <-]. split_and!; try done.
Qed.

Lemma admit_locked_none io now obs s reason s' :
  admit_locked io now obs s = (reason, None, s') -> s' = s /\ reason = OBICALL_REJECT_OVERFLOW.
Proof.
  unfold admit_locked. destruct (find_or_create_track _ _) as [[i tracks]|]; [|by intros [= <- <-]].
  by destruct (obicall_journal_admit _ _ _ _).
Qed.

Definition log_fits (y : journald) : Prop := Z.of_nat (length (jd_log y)) + 1 < 18446744073709551616.

Lemma worker_turn_inv base y rx io now i :
  sys_inv base y -> bytes (rx_stream rx) -> is_i64 now -> log_fits (worker_turn rx io now i y) ->
  sys_inv base (worker_turn rx io now i y).
Proof.
  intros Hinv Hb Hnow. unfold worker_turn. destruct (osal_recv_frame 2048 rx).1 as [msg_type payload| |] eqn:Er;
    [|done|intros _; by apply close_slot_inv].
  pose proof (frame_payload_bytes _ _ _ _ Hb Er) as Hpb. destruct (negb _); [done|].
  destruct (obicall_wire_decode_observation payload) as [obs|] eqn:Eo; [|done].
  pose proof (decoded_observation_valid _ _ Hpb Eo) as Hvo.
  assert (length (obs_sensor_id obs) = OBICALL_SENSOR_ID_LEN) as Hid
    by apply (wfo_sensor_id _ (vo_wf _ Hvo)).
  destruct (admit_locked io now obs (jd_state y)) as [[reason [w|]] s'] eqn:Ea.
  2:{ apply admit_locked_none in Ea as [-> _]. intros _. destruct Hinv. by split. }
  pose proof Ea as Et. apply admit_locked_some in Ea as (Hw & Hring & Hhead & Hnext & Hconns & Hseg).
  apply (admit_locked_tracks io now obs (jd_state y) reason w s' (jd_log y)) in Et;
    [|by apply (si_tracks _ _ Hinv)|by apply (si_increasing _ _ Hinv)|done].
  cbv zeta in Et. destruct Et as [Htr Hinc]. set (d := SegmentRecord w now reason obs) in *.
  unfold log_fits. cbn [jd_log]. rewrite length_app. cbn [length]. intros Hfit.
  destruct Hinv. rewrite si_next0 in Hw.
  assert (valid_record d) as Hvd by (split_and!; [unfold is_u64; cbn; lia|done|done]).
  split; cbn [jd_state jd_threads jd_log jd_appended jd_sent]; rewrite ?Hconns; try done.
  - by rewrite Hring, length_insert.
  - rewrite Hhead, length_app. cbn [length]. lia.
  - rewrite Hnext, length_app, u64_id by (unfold is_u64; lia). cbn [length]. lia.
  - intros k d' Hk. apply lookup_app_Some in Hk as [Hk|[Hge Hk]]; [by apply si_log0|].
    apply list_lookup_singleton_Some in Hk as [Hk <-]. cbn [d sr_window_seq]. lia.
  - rewrite length_app. cbn [length]. intros k d' Hk Hret. rewrite Hring.
    apply lookup_app_Some in Hk as [Hk|[Hge Hk]].
    + apply lookup_lt_Some in Hk as Hlt. rewrite list_lookup_insert_ne.
      * apply si_ring0; [done|lia].
      * unfold ring_slot, RING_CAPACITY in *. clear -Hw Hlt Hret. intros E. apply Z2Nat.inj in E; mlia.
    + apply list_lookup_singleton_Some in Hk as [Hk <-]. replace (Z.of_nat k + 1) with w by lia.
      rewrite list_lookup_insert_eq; [done|]. rewrite si_ring_len0.
      unfold ring_slot, RING_CAPACITY in *. clear -Hw. apply Z2Nat.inj_lt; mlia.
  - apply Forall_app. split; [done|]. by apply Forall_singleton.
  - intros j t Hj. apply thread_ok_app. by apply si_threads0.
  - intros j. destruct (si_sent0 j) as [Hc Hs]. split; [|done].
    eapply Forall_impl; [exact Hc|]. intros p. apply copy_of_app.
  - intros f. rewrite Hseg. intros (f0 & Hf0 & ->)%fmap_Some. rewrite Hf0.
    intros [Hap Hok]%andb_true_iff. apply bool_decide_eq_true in Hok.
    rewrite append_ok_data by done. rewrite (si_segment0 _ Hf0 Hap), fmap_app, concat_app.
    cbn [fmap list_fmap concat]. by rewrite app_nil_r, app_assoc.
Qed.

Lemma step_log_grows y y' : journald_step y y' -> (length (jd_log y) <= length (jd_log y'))%nat.
Proof.
  destruct 1; unfold accept_connection, verify_turn, request_turn, fetch_turn, sent_turn, worker_turn, close_slot;
    repeat case_match; cbn [set_slot jd_log]; rewrite ?length_app; lia.
Qed.

Lemma replay_cursor_pos from head : 1 <= replay_cursor from head.
Proof. unfold replay_cursor, RING_CAPACITY. split_ifs; lia. Qed.

Lemma step_inv base y y' :
  sys_inv base y -> journald_step y y' -> log_fits y' -> sys_inv base y'.
Proof.
  intros Hinv Hstep. destruct Hstep as [y|y i rx Ht|y i rx Ht Hb|y i c Ht|y i c e Ht|y i rx io now Ht Hb Hnow].
  - intros _. unfold accept_connection. destruct (list_find _ _) as [[i c]|]; [|done].
    apply set_slot_inv; [done|done|constructor|]. exists 0. done.
  - intros _. pose proof (si_threads _ _ Hinv _ _ Ht) as Hs. cbn in Hs. unfold verify_turn.
    destruct (procutil_server_verify_hello _ rx).1 as [role|]; [|by apply close_slot_inv].
    assert (forall c t, (t = ThReplayRequest \/ t = ThWorker) -> sys_inv base (set_slot y i c t (sent_at y i))) as H.
    { intros c t [-> | ->]; (apply set_slot_inv; [done|done|by eapply sent_at_nil_or..]). }
    destruct (_ || _); [|apply close_slot_inv]; apply H; destruct (role =? OBICALL_ROLE_BROKER); auto.
  - intros _. pose proof (si_threads _ _ Hinv _ _ Ht) as Hs. cbn in Hs. unfold request_turn.
    destruct (osal_recv_frame 2048 rx).1 as [msg_type payload| |]; try by apply close_slot_inv.
    destruct (negb _); [by apply close_slot_inv|].
    destruct (obicall_wire_decode_replay_request payload) as [req|]; [|by apply close_slot_inv].
    apply set_slot_inv; [done| |by eapply sent_at_nil_or..].
    rewrite Hs. apply sent_upto_nil, replay_cursor_pos.
  - intros _. pose proof (si_threads _ _ Hinv _ _ Ht) as Hs. cbn in Hs. unfold fetch_turn.
    destruct (fetch_entry c (jd_state y)) as [e|] eqn:Ef.
    + destruct (fetch_entry_spec _ _ _ _ Hinv Ef). apply set_slot_inv; [done| |by eapply sent_at_nil_or..].
      split_and!; [done|done|lia].
    + apply set_slot_inv; [done|done|by eapply sent_at_nil_or..].
  - intros Hfit. pose proof (si_threads _ _ Hinv _ _ Ht) as (Hs & Hc & Hle). unfold sent_turn.
    assert (log_fits y) as Hfit' by done. unfold log_fits in Hfit'.
    pose proof Hs as (Hpos & _). rewrite u64_id by (unfold is_u64; lia).
    pose proof (sent_upto_snoc _ _ e Hs) as Hs'.
    apply set_slot_inv; [done|done| |by eapply sent_upto_consecutive].
    apply Forall_app. split; [by eapply sent_at_nil_or|]. by apply Forall_singleton.
  - intros Hfit. by apply worker_turn_inv.
Qed.

Lemma init_inv pipeline_id cfg segment token :
  sys_inv (match segment with Some f => f_data f | None => [] end)
    (journald_init pipeline_id cfg segment token).
Proof.
  split; unfold journald_init; cbn [jd_state jd_threads jd_log jd_appended jd_sent js_ring js_conns js_tracks
    js_ring_head js_next_window_seq js_segment_file length]; rewrite ?length_replicate; try done.
  - intros i t H. apply lookup_replicate_1 in H as [-> _]. done.
  - intros i. unfold sent_at. cbn [jd_sent].
    assert (default [] (replicate MAX_CONNECTIONS (@nil (Z * ring_entry)) !! i) = []) as ->.
    { destruct (replicate _ _ !! i) eqn:E; [|done]. by apply lookup_replicate_1 in E as [-> _]. }
    split; [constructor|by exists 0].
  - intros f -> _. cbn. by rewrite app_nil_r.
Qed.

Lemma reach_inv base y0 y :
  sys_inv base y0 -> journald_reach y0 y -> log_fits y -> sys_inv base y.
Proof.
  intros H0 Hr. induction Hr as [|y y' Hr IH Hs]; [done|]. intros Hf.
  apply (step_inv base y); [|done|done]. apply IH. unfold log_fits in *.
  pose proof (step_log_grows _ _ Hs). lia.
Qed.

(** An id without a terminator matches no track. *)
Lemma unterminated_unknown tracks id :
  tracks_ok tracks -> length id = OBICALL_SENSOR_ID_LEN -> existsb (fun b => b =? 0) id = false ->
  find_track tracks id = None.
Proof.
  intros Hok Hid Hz. rewrite find_track_keys by done. apply fmap_None, list_find_None.
  destruct Hok as [Hok _]. unfold track_keys. apply Forall_fmap. eapply Forall_impl; [exact Hok|].
  intros t [Hl Ht] E. apply (f_equal length) in E. unfold key in E. rewrite (c_str_unterminated id) in E by done.
  pose proof (c_str_terminated _ Ht). lia.
Qed.

Lemma unterminated_invalid o :
  existsb (fun b => b =? 0) (obs_sensor_id o) = false -> (obicall_observation_validate o).2 <> OBICALL_OK.
Proof.
  intros Hz Hv. apply validate_ok_equiv in Hv. destruct (ok_sensor_id _ Hv) as (c & s & E & _ & Hin).
  rewrite E in Hz. cbn [existsb] in Hz. apply orb_false_iff in Hz as [_ Hz].
  assert (existsb (fun b => b =? 0) s = true) by (apply existsb_exists; exists 0; split; [by apply list_elem_of_In|done]).
  congruence.
Qed.

(** What was sent on a connection: consecutive windows from one on, each its entry
    unless it was overwritten before it was fetched. *)
Lemma sent_entries base y i :
  sys_inv base y -> exists start, forall n c e, sent_at y i !! n = Some (c, e) ->
    c = start + Z.of_nat n /\ copy_of (jd_log y) c e /\
    (Z.of_nat (length (jd_log y)) < c + RING_CAPACITY ->
       exists d, jd_log y !! Z.to_nat (c - 1) = Some d /\ e = entry_of d /\ sr_window_seq d = c /\ valid_record d).
Proof.
  intros Hinv. destruct (si_sent _ _ Hinv i) as [Hc (start & Hs)]. exists start. intros n c e Hn.
  assert (c = start + Z.of_nat n) as Hcn.
  { pose proof (lookup_lt_Some _ _ _ Hn). apply (f_equal (fun l => l !! n)) in Hs.
    rewrite list_lookup_fmap, Hn, lookup_seqZ_lt in Hs by lia. by injection Hs. }
  rewrite Forall_lookup in Hc. specialize (Hc _ _ Hn). cbn [fst snd] in Hc. split_and!; [done|done|].
  intros Hlt. destruct Hc as (k & d & Hk & -> & Hle & Hm). apply lookup_lt_Some in Hk as Hkl.
  assert (Z.of_nat k + 1 = c) as <- by (unfold RING_CAPACITY in *; mlia).
  exists d. split_and!; [rewrite <- Hk; f_equal; lia|done|by apply (si_log _ _ Hinv)|].
  by eapply Forall_lookup_1; [apply (si_valid _ _ Hinv)|].
Qed.

(** * The claims *)

(** C16: the replay stream: whatever connects, disconnects and submits in
    whatever order, a subscriber is sent consecutive windows, each one as the
    journal decided it; the only exception is a window the journal has already
    overwritten (4096 later ones exist), for which it sends a later window that
    shares its ring slot. *)
Theorem journald_subscriber_stream pipeline_id cfg segment token y i :
  journald_reach (journald_init pipeline_id cfg segment token) y -> log_fits y ->
  (forall k d, jd_log y !! k = Some d -> sr_window_seq d = Z.of_nat k + 1) /\
  exists start, forall n c e, sent_at y i !! n = Some (c, e) ->
    c = start + Z.of_nat n /\ copy_of (jd_log y) c e /\
    (Z.of_nat (length (jd_log y)) < c + RING_CAPACITY ->
       exists d, jd_log y !! Z.to_nat (c - 1) = Some d /\ e = entry_of d).
Proof.
  intros Hr Hf. pose proof (reach_inv _ _ _ (init_inv pipeline_id cfg segment token) Hr Hf) as Hinv.
  split; [apply (si_log _ _ Hinv)|]. destruct (sent_entries _ _ i Hinv) as (start & Hs). exists start.
  intros n c e Hn. destruct (Hs n c e Hn) as (-> & Hc & Hd). split_and!; [done|done|].
  intros Hlt. destruct (Hd Hlt) as (d & Hk & -> & _). by exists d.
Qed.

(** C17: in the order of the log, whichever connections they arrive on and however they
    interleave with other sensors, the observations admitted from a sensor have strictly
    increasing sequence numbers as long as its boot id stays the same.  A change of boot
    id starts a new stretch, also a change back to one seen before: the daemon keeps one
    track per sensor, not per boot ([Journal.boot_change_restarts]). *)
Theorem journald_admits_increasing pipeline_id cfg segment token y k before stretch after boot :
  journald_reach (journald_init pipeline_id cfg segment token) y -> log_fits y ->
  admitted_of k (jd_log y) = before ++ stretch ++ after ->
  Forall (fun d => obs_source_boot_id (sr_obs d) = boot) stretch ->
  StronglySorted Z.lt ((fun d => obs_sequence (sr_obs d)) <$> stretch).
Proof.
  intros Hr Hf. pose proof (reach_inv _ _ _ (init_inv pipeline_id cfg segment token) Hr Hf) as Hinv.
  pose proof (si_increasing _ _ Hinv k) as Hinc. intros E. rewrite E in Hinc. clear E. revert before Hinc.
  induction stretch as [|d stretch IH]; intros before Hinc; [constructor|]. intros [Hb Hbs]%Forall_cons.
  assert (Hs : StronglySorted Z.lt ((fun d => obs_sequence (sr_obs d)) <$> stretch)).
  { apply (IH (before ++ [d])); [|done]. by rewrite <- app_assoc. }
  cbn [fmap list_fmap]. constructor; [done|]. destruct stretch as [|d2 stretch]; [constructor|].
  assert (Hlt : obs_sequence (sr_obs d) < obs_sequence (sr_obs d2)).
  { apply Forall_cons in Hbs as [Hb2 _]. cbn [app] in Hinc. apply (Hinc (length before)); [by rewrite list_lookup_middle| |congruence].
    rewrite lookup_app_r by lia. by replace (S (length before) - length before)%nat with 1%nat by lia. }
  cbn [fmap list_fmap] in Hs |- *. apply StronglySorted_inv in Hs as [_ Hs]. constructor; [done|].
  eapply Forall_impl; [exact Hs|]. intros x Hx. lia.
Qed.

(** C18: as long as its appends report success, a journal started on an empty
    segment holds its whole history there: replaying the file returns every
    decision, rejections included, in window order. *)
Theorem journald_segment_replays pipeline_id cfg pos token y f fuel :
  journald_reach (journald_init pipeline_id cfg (Some (CFile [] pos)) token) y -> log_fits y ->
  jd_appended y = true -> js_segment_file (jd_state y) = Some f -> (length (jd_log y) < fuel)%nat ->
  replay_records fuel (fseek 0 f) = (decoded_record <$> jd_log y, Some OBICALL_ERR_NOT_FOUND).
Proof.
  intros Hr Hf Ha Hs Hfuel.
  pose proof (reach_inv _ _ _ (init_inv pipeline_id cfg (Some (CFile [] pos)) token) Hr Hf) as Hinv.
  unfold fseek. rewrite (si_segment _ _ Hinv _ Hs Ha). apply replay_complete; [|done].
  apply (si_valid _ _ Hinv).
Qed.

(** a reader left 4096 windows behind is not told: what it fetches carries a
    window number at least 4096 above the one it asked for. *)
Theorem journald_overrun pipeline_id cfg segment token y c e :
  journald_reach (journald_init pipeline_id cfg segment token) y -> log_fits y ->
  c + RING_CAPACITY <= js_ring_head (jd_state y) -> fetch_entry c (jd_state y) = Some e ->
  c + RING_CAPACITY <= re_window_seq e.
Proof.
  intros Hr Hf Hc. pose proof (reach_inv _ _ _ (init_inv pipeline_id cfg segment token) Hr Hf) as Hinv.
  rewrite (si_head _ _ Hinv) in Hc. unfold fetch_entry. rewrite (si_head _ _ Hinv).
  destruct (_ && _) eqn:E; [|done]. intros [= <-]. set (h := Z.of_nat (length (jd_log y))) in *.
  set (w := h - (h - c) mod RING_CAPACITY). unfold RING_CAPACITY in *.
  assert (c + 4096 <= w <= h /\ w mod 4096 = c mod 4096 /\ h <= w - 1 + 4096 /\ 1 <= c) as (Hw & Hm & Hret & Hc1)
    by (unfold w; mlia).
  destruct (lookup_lt_is_Some_2 (jd_log y) (Z.to_nat (w - 1))) as [d Hd]; [unfold h in *; lia|].
  pose proof (si_ring _ _ Hinv _ _ Hd ltac:(unfold RING_CAPACITY, h in *; lia)) as Hring.
  pose proof (si_log _ _ Hinv _ _ Hd) as Hwin. rewrite Z2Nat.id in Hring, Hwin by lia.
  replace (w - 1 + 1) with w in * by lia. unfold ring_slot, RING_CAPACITY in *. rewrite Hm in Hring.
  rewrite Hring. change (c + 4096 <= sr_window_seq d). lia.
Qed.

(** backpressure does not hold the ring back: an observation refused because
    a subscriber lags (or for any other reason) still takes the next window and
    overwrites the ring slot of the window 4096 before it. *)
Theorem journald_rejection_takes_window io now obs s reason w s' :
  admit_locked io now obs s = (reason, Some w, s') ->
  length (js_ring s) = Z.to_nat RING_CAPACITY -> is_u64 (js_next_window_seq s + 1) ->
  js_ring_head s' = js_next_window_seq s /\ js_next_window_seq s' = js_next_window_seq s + 1 /\
  js_ring s' !! ring_slot (w - RING_CAPACITY) = Some (RingEntry w (admission_code reason) obs).
Proof.
  intros Ha Hl Hw. apply admit_locked_some in Ha as (-> & -> & -> & -> & _).
  split_and!; [done|by apply u64_id|].
  assert (ring_slot (js_next_window_seq s - RING_CAPACITY) = ring_slot (js_next_window_seq s)) as ->
    by (unfold ring_slot, RING_CAPACITY; f_equal; mlia).
  rewrite list_lookup_insert_eq; [done|]. rewrite Hl. unfold ring_slot, RING_CAPACITY.
  apply Z2Nat.inj_lt; mlia.
Qed.

(** a sensor id without a terminator is refused every time, but each
    refusal takes a fresh track until all 32 are gone, after which every
    sensor not seen before is turned away without a decision on record. *)
Theorem journald_unterminated_id_leaks_tracks pipeline_id cfg segment token y io now obs :
  journald_reach (journald_init pipeline_id cfg segment token) y -> log_fits y ->
  length (obs_sensor_id obs) = OBICALL_SENSOR_ID_LEN ->
  existsb (fun b => b =? 0) (obs_sensor_id obs) = false ->
  let tracks := js_tracks (jd_state y) in
  let '(reason, w, s') := admit_locked io now obs (jd_state y) in
  if Z.of_nat (length tracks) <? MAX_SENSOR_TRACKS
  then reason = OBICALL_REJECT_VALIDATION /\ length (js_tracks s') = S (length tracks)
  else reason = OBICALL_REJECT_OVERFLOW /\ w = None /\ s' = jd_state y.
Proof.
  intros Hr Hf Hid Hz tracks.
  pose proof (reach_inv _ _ _ (init_inv pipeline_id cfg segment token) Hr Hf) as Hinv.
  destruct (si_tracks _ _ Hinv) as [Hok _]. unfold admit_locked, find_or_create_track.
  rewrite unterminated_unknown by done. fold tracks.
  destruct (Z.ltb_spec (Z.of_nat (length tracks)) MAX_SENSOR_TRACKS) as [Hlt|Hge].
  - replace (_ >=? MAX_SENSOR_TRACKS) with false by lia.
    pose proof (unterminated_invalid _ Hz) as Hv. unfold obicall_journal_admit.
    destruct (obicall_observation_validate obs).2; try done; cbn [js_tracks];
      (split; [done|]); rewrite length_insert, length_app; simpl; lia.
  - replace (_ >=? MAX_SENSOR_TRACKS) with true by lia. done.
Qed.

(** ** Subscribers that stay *)

(** Slot [i] belongs to a broker whose replay has begun. *)
Definition subscriber (y : journald) (i : nat) : Prop :=
  (exists cursor, jd_threads y !! i = Some (ThFetch cursor) \/ exists e, jd_threads y !! i = Some (ThSend cursor e)) /\
  exists c, js_conns (jd_state y) !! i = Some c /\ cs_in_use c = true.

Lemma set_slot_subscriber y i j c t sent :
  subscriber y i -> i <> j \/ (exists cursor, t = ThFetch cursor \/ exists e, t = ThSend cursor e) /\ cs_in_use c = true ->
  subscriber (set_slot y j c t sent) i.
Proof.
  intros [(cur & Ht) (c0 & Hc & Hu)] Hj. unfold subscriber, set_slot. cbn [jd_threads jd_state js_conns with_conns].
  destruct (decide (i = j)) as [->|Hne].
  - destruct Hj as [?|[(cur' & Ht') Hu']]; [done|].
    assert ((j < length (jd_threads y))%nat) by (destruct Ht as [Ht|[e Ht]]; by eapply lookup_lt_Some).
    rewrite !list_lookup_insert_eq by (done || by eapply lookup_lt_Some).
    split; [exists cur'; destruct Ht' as [->|[e ->]]; [by left|right; by exists e]|by exists c].
  - rewrite !list_lookup_insert_ne by done. split; [by exists cur|by exists c0].
Qed.

Lemma conn_at_in_use y i c : js_conns (jd_state y) !! i = Some c -> conn_at y i = c.
Proof. unfold conn_at. by intros ->. Qed.

Lemma admit_locked_conns io now obs s : js_conns (admit_locked io now obs s).2 = js_conns s.
Proof.
  unfold admit_locked. destruct (find_or_create_track _ _) as [[i tracks]|]; [|done].
  by destruct (obicall_journal_admit _ _ _ _).
Qed.

Lemma worker_turn_subscriber y rx io now j i :
  jd_threads y !! j = Some ThWorker -> subscriber y i -> subscriber (worker_turn rx io now j y) i.
Proof.
  intros Hj Hs. assert (Hne : i <> j) by (intros ->; destruct Hs as [(cur & [Ht|[e Ht]]) _]; congruence).
  unfold worker_turn. destruct (osal_recv_frame 2048 rx).1 as [mt payload| |]; [|done|by apply set_slot_subscriber; [|left]].
  destruct (negb _); [done|]. destruct (obicall_wire_decode_observation payload) as [obs|]; [|done].
  pose proof (admit_locked_conns io now obs (jd_state y)) as Hc.
  destruct (admit_locked io now obs (jd_state y)) as [[reason [w|]] s']; cbn [snd] in Hc; unfold subscriber; cbn [jd_threads jd_state]; by rewrite Hc.
Qed.

(** a subscriber never leaves: the loop that serves it ignores what becomes of its sends
    and has no other end, so the slot of a broker that died stays taken; each time a
    broker is restarted one of the sixteen connections is gone for good. *)
Theorem journald_subscriber_never_leaves y y' i :
  subscriber y i -> journald_reach y y' -> subscriber y' i.
Proof.
  intros Hs. induction 1 as [|y1 y2 _ IH Hst]; [done|]. clear Hs.
  assert (Hother : forall j t, jd_threads y1 !! j = Some t ->
    (forall cur, t <> ThFetch cur) -> (forall cur e, t <> ThSend cur e) -> i <> j).
  { intros j t Hj H1 H2 ->. destruct IH as [(cur & [Ht|[e Ht]]) _]; rewrite Ht in Hj; injection Hj as <-; [by apply (H1 cur)|by apply (H2 cur e)]. }
  assert (Hself : forall j, i = j -> cs_in_use (conn_at y1 j) = true).
  { intros j <-. destruct IH as [_ (c & Hc & Hu)]. by rewrite (conn_at_in_use _ _ _ Hc). }
  destruct Hst as [y1|y1 j rx Hj|y1 j rx Hj _|y1 j cur Hj|y1 j cur e Hj|y1 j rx io now Hj _ _].
  - unfold accept_connection. destruct (list_find _ _) as [[j c]|] eqn:Ef; [|done].
    apply list_find_Some in Ef as (Hj & Hfree & _). apply set_slot_subscriber; [done|]. left. intros ->.
    destruct IH as [_ (c' & Hc' & Hu)]. congruence.
  - specialize (Hother j _ Hj ltac:(done) ltac:(done)). unfold verify_turn.
    destruct (procutil_server_verify_hello _ _).1 as [role|]; [|by apply set_slot_subscriber; [|left]].
    cbv zeta. destruct (_ || _); [by apply set_slot_subscriber; [|left]|].
    apply set_slot_subscriber; [by apply set_slot_subscriber; [|left]|by left].
  - specialize (Hother j _ Hj ltac:(done) ltac:(done)). unfold request_turn.
    repeat (case_match; try by apply set_slot_subscriber; [|left]).
  - unfold fetch_turn. destruct (fetch_entry cur (jd_state y1)); apply set_slot_subscriber; try done;
      destruct (decide (i = j)) as [E|]; [right|by left|right|by left]; (split; [|by apply Hself]); exists cur; eauto.
  - unfold sent_turn. apply set_slot_subscriber; [done|]. destruct (decide (i = j)) as [E|]; [right|by left].
    split; [eauto|by apply Hself].
  - by apply worker_turn_subscriber.
Qed.

(** The depth is at least the lag of any subscriber. *)
Lemma pending_fold_le conns slow any i c :
  (any = true \/ conns !! i = Some c) -> (forall c, conns !! i = Some c -> cs_in_use c = true /\ cs_role c = OBICALL_ROLE_BROKER) ->
  let '(slow', any') := fold_left pending_step conns (slow, any) in
  any' = true /\ (any = true -> slow' <= slow) /\ (conns !! i = Some c -> slow' <= cs_next_seq_to_send c).
Proof.
  revert slow any i. induction conns as [|c0 conns IH]; intros slow any i Hany Hi; cbn [fold_left].
  { destruct Hany; [|done]. by subst. }
  unfold pending_step at 2. destruct i as [|i]; cbn [lookup list_lookup] in Hany, Hi |- *.
  - destruct (Hi c0 eq_refl) as [-> ->]. rewrite Z.eqb_refl. cbn [andb].
    specialize (IH (if negb any || (cs_next_seq_to_send c0 <? slow) then cs_next_seq_to_send c0 else slow) true (length conns)).
    rewrite (lookup_ge_None_2 conns (length conns)) in IH by done. specialize (IH (or_introl eq_refl) ltac:(done)).
    destruct (fold_left pending_step conns _) as [slow' any']. destruct IH as (H1 & H2 & _). specialize (H2 eq_refl).
    split; [done|]. destruct any; cbn [negb orb] in H2.
    + destruct (Z.ltb_spec (cs_next_seq_to_send c0) slow); split; intros; simplify_eq; lia.
    + split; [done|]. by intros [= <-].
  - destruct (cs_in_use c0 && _).
    + specialize (IH (if negb any || (cs_next_seq_to_send c0 <? slow) then cs_next_seq_to_send c0 else slow) true i (or_introl eq_refl) Hi).
      destruct (fold_left pending_step conns _) as [slow' any']. destruct IH as (H1 & H2 & H3). specialize (H2 eq_refl).
      split; [done|]. split; [|done]. intros ->. cbn [negb orb] in H2. destruct (Z.ltb_spec (cs_next_seq_to_send c0) slow); lia.
    + by apply IH.
Qed.

(** one subscriber that lags stops the pipeline: while it is as many windows behind as may
    be pending, no observation is admitted, of no sensor and for no broker.  A broker that
    has just connected counts as being at window 1 until it asks for its replay, so after
    that many windows its arrival alone does it. *)
Theorem journald_lagging_subscriber_stops_admission io now obs s i c :
  js_conns s !! i = Some c -> cs_in_use c = true -> cs_role c = OBICALL_ROLE_BROKER ->
  Forall (fun c => 0 <= cs_next_seq_to_send c) (js_conns s) -> is_u32 (js_next_window_seq s) ->
  0 < jc_max_pending_per_pipeline (js_cfg s) ->
  jc_max_pending_per_pipeline (js_cfg s) <= js_next_window_seq s - cs_next_seq_to_send c ->
  (admit_locked io now obs s).1.1 <> OBICALL_ADMIT_OK.
Proof.
  intros Hi Hu Hr Hpos Hn Hm Hlag.
  assert (Hdepth : jc_max_pending_per_pipeline (js_cfg s) <= compute_pending_depth_locked s).
  { pose proof (pending_fold_le (js_conns s) (js_next_window_seq s) false i c (or_intror Hi)
      ltac:(intros c' Hc'; rewrite Hi in Hc'; by injection Hc' as <-)) as H.
    unfold compute_pending_depth_locked.
    assert (Hge : forall conns slow any, Forall (fun c => 0 <= cs_next_seq_to_send c) conns -> 0 <= slow ->
      0 <= (fold_left pending_step conns (slow, any)).1).
    { induction conns as [|c0 conns IH]; intros slow any Hf Hs; [done|]. apply Forall_cons in Hf as [H0 Hf].
      cbn [fold_left]. unfold pending_step at 2. destruct (_ && _); [|by apply IH]. apply IH; [done|]. by destruct (_ || _). }
    specialize (Hge (js_conns s) (js_next_window_seq s) false Hpos (proj1 Hn)).
    destruct (fold_left pending_step (js_conns s) _) as [slow any]. cbn [fst] in Hge. destruct H as (-> & _ & H). specialize (H Hi).
    cbn [negb]. destruct (Z.gtb_spec (js_next_window_seq s) slow); [|lia]. rewrite u32_id by (unfold is_u32 in *; lia). lia. }
  unfold admit_locked. destruct (find_or_create_track _ _) as [[k tracks]|]; [|done].
  unfold obicall_journal_admit. rewrite (proj2 (Z.geb_le _ _) Hdepth).
  repeat case_match; simplify_eq/=; done.
Qed.

(** * Witnesses *)

(** A worker connects and submits one observation; a broker connects, asks for
    the stream from its beginning and is sent the one window there is. *)
Definition sample_jinit : journald :=
  journald_init (chars 32 "nav"%string) sample_config (Some (CFile [] 0)) sample_token.
Definition hello_rx (role : Z) : list rx_event :=
  [RxBytes (frame_bytes OBICALL_MSG_AUTH_HELLO (auth_hello_wire (AuthHello OBICALL_WIRE_VERSION role sample_token)))].
Definition submit_rx : list rx_event :=
  [RxBytes (frame_bytes OBICALL_MSG_OBSERVATION_SUBMIT (observation_wire sample_observation))].
Definition request_rx : list rx_event :=
  [RxBytes (frame_bytes OBICALL_MSG_REPLAY_REQUEST (replay_request_wire (ReplayRequest (chars 32 "nav"%string) 1)))].

Definition sample_j1 : journald := accept_connection sample_jinit.
Definition sample_j2 : journald := verify_turn (hello_rx OBICALL_ROLE_WORKER) 0 sample_j1.
Definition sample_j3 : journald := worker_turn submit_rx io_success 1000 0 sample_j2.
Definition sample_j4 : journald := accept_connection sample_j3.
Definition sample_j5 : journald := verify_turn (hello_rx OBICALL_ROLE_BROKER) 1 sample_j4.
Definition sample_j6 : journald := request_turn request_rx 1 sample_j5.
Definition sample_j7 : journald := fetch_turn 1 1 sample_j6.
Definition sample_fetched : ring_entry := default zero_entry (fetch_entry 1 (jd_state sample_j6)).
Definition sample_j8 : journald := sent_turn 1 sample_fetched 1 sample_j7.

Lemma frame_rx_bytes msg_type payload : bytes payload -> bytes (rx_stream [RxBytes (frame_bytes msg_type payload)]).
Proof.
  intros Hp. unfold rx_stream. cbn [fmap list_fmap concat]. rewrite app_nil_r. unfold frame_bytes.
  apply Forall_app. split; [|done]. unfold header_wire. rewrite !Forall_app. by split_and!; apply le_bytes_bytes.
Qed.

Lemma sample_reach3 : journald_reach sample_jinit sample_j3.
Proof.
  apply (reach_step _ sample_j2); [apply (reach_step _ sample_j1); [apply (reach_step _ sample_jinit)|]|].
  - constructor.
  - constructor.
  - apply step_verify. vm_compute. reflexivity.
  - apply step_worker; [vm_compute; reflexivity| |done].
    apply frame_rx_bytes, forallb_bytes. vm_compute. reflexivity.
Qed.

Lemma sample_reach8 : journald_reach sample_jinit sample_j8.
Proof.
  apply (reach_step _ sample_j7); [apply (reach_step _ sample_j6); [apply (reach_step _ sample_j5);
    [apply (reach_step _ sample_j4); [apply (reach_step _ sample_j3); [exact sample_reach3|]|]|]|]|].
  - constructor.
  - apply step_verify. vm_compute. reflexivity.
  - apply step_request; [vm_compute; reflexivity|].
    apply frame_rx_bytes, forallb_bytes. vm_compute. reflexivity.
  - apply step_fetch. vm_compute. reflexivity.
  - apply step_sent. vm_compute. reflexivity.
Qed.

Lemma log_fits_eval y : (length (jd_log y) <=? 1000)%nat = true -> log_fits y.
Proof. rewrite Nat.leb_le. unfold log_fits. lia. Qed.

Lemma sample_fits8 : log_fits sample_j8.
Proof. apply log_fits_eval. vm_compute. reflexivity. Qed.

Lemma sample_fits3 : log_fits sample_j3.
Proof. apply log_fits_eval. vm_compute. reflexivity. Qed.

Lemma journald_stream_witness :
  (length (sent_at sample_j8 1) =? 1)%nat = true /\
  forall k d, jd_log sample_j8 !! k = Some d -> sr_window_seq d = Z.of_nat k + 1.
Proof.
  split; [vm_compute; reflexivity|].
  apply (journald_subscriber_stream (chars 32 "nav"%string) sample_config (Some (CFile [] 0)) sample_token
    sample_j8 1 sample_reach8 sample_fits8).
Defined.

Lemma journald_increases_witness :
  StronglySorted Z.lt ((fun d => obs_sequence (sr_obs d)) <$> admitted_of (key (chars 32 "gnss"%string)) (jd_log sample_j8)).
Proof.
  apply (journald_admits_increasing (chars 32 "nav"%string) sample_config (Some (CFile [] 0)) sample_token
    sample_j8 (key (chars 32 "gnss"%string)) [] _ [] 77 sample_reach8 sample_fits8); [by rewrite app_nil_r|].
  apply Forall_forall. intros d Hd. apply list_elem_of_In in Hd. revert d Hd.
  apply List.Forall_forall. vm_compute. repeat constructor.
Defined.

Definition sample_segment : cfile := default (CFile [] 0) (js_segment_file (jd_state sample_j3)).

Lemma journald_segment_witness :
  replay_records 2 (fseek 0 sample_segment) = (decoded_record <$> jd_log sample_j3, Some OBICALL_ERR_NOT_FOUND).
Proof.
  apply (journald_segment_replays (chars 32 "nav"%string) sample_config 0 sample_token sample_j3 sample_segment 2
    sample_reach3 sample_fits3).
  - vm_compute. reflexivity.
  - vm_compute. reflexivity.
  - apply Nat.ltb_lt. vm_compute. reflexivity.
Defined.

(** A slow subscriber: a broker slot 4096 windows behind, and the ring full. *)
Definition lagging_state : journal_state :=
  JournalState (chars 32 "nav"%string) sample_config [] (replicate 4096 zero_entry) 4097 4098
    [ConnSlot true OBICALL_ROLE_BROKER 1 true] None sample_token.

Lemma journald_rejection_witness :
  let '(reason, w, s') := admit_locked io_success 1000 sample_observation lagging_state in
  reason = OBICALL_REJECT_OVERFLOW /\ js_ring_head s' = 4098.
Proof.
  destruct (admit_locked io_success 1000 sample_observation lagging_state) as [[reason w] s'] eqn:E.
  assert (reason = OBICALL_REJECT_OVERFLOW) as ->.
  { change (reason = OBICALL_REJECT_OVERFLOW) with ((reason, w, s').1.1 = OBICALL_REJECT_OVERFLOW).
    rewrite <- E. vm_compute. reflexivity. }
  assert (w = Some 4098) as ->.
  { change ((OBICALL_REJECT_OVERFLOW, w, s').1.2 = Some 4098). rewrite <- E. vm_compute. reflexivity. }
  split; [reflexivity|].
  apply (journald_rejection_takes_window io_success 1000 sample_observation lagging_state _ _ s' E).
  - vm_compute. reflexivity.
  - change (is_u64 4099). unfold is_u64. lia.
Defined.

Definition sample_unterminated : obicall_observation :=
  Observation sizeof_observation 1 (replicate 32 120) 77 5 1000000000 1000000500 1
    0 OBICALL_FRAME_LOCAL_ENU OBICALL_UNITS_METERS 1 OBICALL_SHAPE_POSITION_2D 2
    (pad 6 0 [f1; f4]) 4 (pad 36 0 [f4; 0; 0; f4]).

Lemma journald_leak_witness :
  let '(reason, w, s') := admit_locked io_success 1000 sample_unterminated (jd_state sample_j3) in
  reason = OBICALL_REJECT_VALIDATION /\ length (js_tracks s') = 2%nat.
Proof.
  assert (length (js_tracks (jd_state sample_j3)) = 1%nat) as Hl by (vm_compute; reflexivity).
  pose proof (journald_unterminated_id_leaks_tracks (chars 32 "nav"%string) sample_config (Some (CFile [] 0))
    sample_token sample_j3 io_success 1000 sample_unterminated sample_reach3 sample_fits3
    eq_refl eq_refl) as H. cbv zeta in H. rewrite Hl in H.
  destruct (admit_locked io_success 1000 sample_unterminated (jd_state sample_j3)) as [[reason w] s'].
  exact H.
Defined.

(** A broker that connects when 4097 windows have gone by. *)
Lemma journald_newcomer_witness : (admit_locked io_success 1000 sample_observation lagging_state).1.1 <> OBICALL_ADMIT_OK.
Proof.
  apply (journald_lagging_subscriber_stops_admission io_success 1000 sample_observation lagging_state 0
    (ConnSlot true OBICALL_ROLE_BROKER 1 true)); [done|done|done| | | |].
  - by apply Forall_singleton.
  - done.
  - vm_compute. reflexivity.
  - apply Z.leb_le. vm_compute. reflexivity.
Defined.

Lemma journald_never_leaves_witness y : journald_reach sample_j6 y -> subscriber y 1.
Proof.
  apply journald_subscriber_never_leaves. split.
  - exists 1. left. vm_compute. reflexivity.
  - eexists. split; vm_compute; reflexivity.
Defined.
