(* ===== verification/Gate.v ===== *)
(** * Gate: the publication gate's decisions and its durable state (src/core/gate.c)

    The gate state is the C struct with all eight pipeline slots.  The decision
    [obicall_gate_decide_publish] returns the outcome, the state it leaves and
    the [*out_pipeline_index] it wrote, if it did.  [committed] is the abstract
    view clients rely on: per pipeline id, the highest committed window.  The
    state record is written through the byte cursors and kept in a file with a
    checksum; [gate_state_codec] and [persist]/[load] lemmas are what the
    daemon's recovery is proved from. *)

From Stdlib Require Import Sorting.Sorted.
From S2P Require Import Prelude Types Samples Digest Cursor Wire Binary64 Stdio.

Definition OBICALL_MAX_PIPELINES : Z := 8.

Record obicall_gate_pipeline_state := GatePipeline {
  gp_pipeline_id : list Z;              (* char[32] *)
  gp_has_committed : Z;
  gp_last_committed_window_seq : Z;
  gp_last_committed_digest : list Z     (* uint8_t[32] *)
}.

Record obicall_gate_state := GateState {
  gs_struct_size : Z;
  gs_schema_version : Z;
  gs_epoch : Z;
  gs_owner_broker_id : Z;
  gs_pipeline_count : Z;
  gs_pipelines : list obicall_gate_pipeline_state (* [8] *)
}.

Definition gate_pipeline_members : list c_member := [m_bytes 32; m_u32; m_u64; m_bytes 32].
Definition gate_state_members : list c_member :=
  [m_u32; m_u32; m_u64; m_u32; m_u32; m_array 8 (m_struct gate_pipeline_members)].
Definition sizeof_gate_state : Z := Eval vm_compute in c_sizeof gate_state_members.

Definition zero_pipeline : obicall_gate_pipeline_state :=
  GatePipeline (replicate 32 0) 0 0 (replicate 32 0).

Inductive obicall_gate_publish_outcome :=
| OBICALL_GATE_COMMIT
| OBICALL_GATE_SHADOW_RECORDED
| OBICALL_GATE_REJECT_NOT_OWNER
| OBICALL_GATE_REJECT_STALE_EPOCH
| OBICALL_GATE_REJECT_DUPLICATE_WINDOW
| OBICALL_GATE_REJECT_EXPIRED
| OBICALL_GATE_REJECT_INCOMPATIBLE
| OBICALL_GATE_REJECT_NO_CAPACITY.

#[global] Instance gate_outcome_eq_dec : EqDecision obicall_gate_publish_outcome.
Proof. solve_decision. Defined.

(** The host bytes the fingerprint covers, on a little-endian host; [junk] is the
    uninitialised buffer of the hashing context. *)
Definition result_digest_chunks (r : obicall_result) : list (list Z) :=
  [le_bytes 4 (res_status r);
   le_bytes 4 (res_payload_count r);
   concat (le_bytes 8 <$> take (Z.to_nat (res_payload_count r)) (res_payload r));
   le_bytes 4 (res_covariance_count r);
   concat (le_bytes 8 <$> take (Z.to_nat (res_covariance_count r)) (res_covariance r))].

Definition compute_result_digest (junk : list Z) (r : obicall_result) : list Z :=
  obicall_sha256_final
    (fold_left obicall_sha256_update (result_digest_chunks r) (obicall_sha256_init junk)).

(** ** Publication *)

(** The slot of a pipeline id among the first [pipeline_count]. *)
Definition find_pipeline (st : obicall_gate_state) (id : list Z) : option nat :=
  fst <$> list_find (fun p => gp_pipeline_id p = id)
                    (take (Z.to_nat (gs_pipeline_count st)) (gs_pipelines st)).

Definition set_pipelines (st : obicall_gate_state) (count : Z)
    (ps : list obicall_gate_pipeline_state) : obicall_gate_state :=
  GateState (gs_struct_size st) (gs_schema_version st) (gs_epoch st) (gs_owner_broker_id st) count ps.

(** A zeroed slot with its id copied in. *)
Definition fresh_pipeline (id : list Z) : obicall_gate_pipeline_state :=
  GatePipeline id 0 0 (replicate 32 0).

(** The slot the publication works on: the known pipeline's, or a fresh one
    allocated for it; [None] when all eight are taken. *)
Definition gate_slot (state : obicall_gate_state) (id : list Z) : option (nat * obicall_gate_state) :=
  match find_pipeline state id with
  | Some i => Some (i, state)
  | None =>
      if gs_pipeline_count state >=? OBICALL_MAX_PIPELINES then None
      else
        let i := Z.to_nat (gs_pipeline_count state) in
        Some (i, set_pipelines state (gs_pipeline_count state + 1)
                   (<[i := fresh_pipeline id]> (gs_pipelines state)))
  end.

Definition obicall_gate_decide_publish (junk : list Z) (state : obicall_gate_state)
    (result : obicall_result) (now_ns : Z)
    : obicall_gate_publish_outcome * obicall_gate_state * option nat :=
  if negb (res_struct_size result =? sizeof_result)
     || negb (res_schema_version result =? OBICALL_RESULT_SCHEMA_VERSION)
  then (OBICALL_GATE_REJECT_INCOMPATIBLE, state, None)
  else if res_valid_until_ns result <=? now_ns then (OBICALL_GATE_REJECT_EXPIRED, state, None)
  else
  match gate_slot state (res_pipeline_id result) with
  | None => (OBICALL_GATE_REJECT_NO_CAPACITY, state, None)
  | Some (pidx, state) =>
      let ps := default zero_pipeline (gs_pipelines state !! pidx) in
      if gs_owner_broker_id state =? OBICALL_BROKER_NONE
      then (OBICALL_GATE_REJECT_NOT_OWNER, state, Some pidx)
      else if negb (res_broker_id result =? gs_owner_broker_id state) then
        if res_epoch result <? gs_epoch state
        then (OBICALL_GATE_REJECT_STALE_EPOCH, state, Some pidx)
        else (OBICALL_GATE_SHADOW_RECORDED, state, Some pidx)
      else if negb (res_epoch result =? gs_epoch state)
      then (OBICALL_GATE_REJECT_STALE_EPOCH, state, Some pidx)
      else if negb (gp_has_committed ps =? 0)
              && (res_window_seq result <=? gp_last_committed_window_seq ps)
      then (OBICALL_GATE_REJECT_DUPLICATE_WINDOW, state, Some pidx)
      else
        (OBICALL_GATE_COMMIT,
         set_pipelines state (gs_pipeline_count state)
           (<[pidx := GatePipeline (gp_pipeline_id ps) 1 (res_window_seq result)
                        (compute_result_digest junk result)]> (gs_pipelines state)),
         Some pidx)
  end.

(** ** Promotion *)

Record obicall_gate_readiness := Readiness {
  rd_healthy : Z;
  rd_config_digest : list Z;
  rd_checkpoint_schema_version : Z;
  rd_last_processed_window_seq : Z
}.

Record obicall_gate_promotion_requirements := PromotionRequirements {
  rq_required_config_digest : list Z;
  rq_required_checkpoint_schema_version : Z;
  rq_max_allowed_replay_gap : Z
}.

Definition obicall_gate_shadow_promotable (shadow : obicall_gate_readiness)
    (requirements : obicall_gate_promotion_requirements) (committed_high_water_window_seq : Z) : bool :=
  if rd_healthy shadow =? 0 then false
  else if negb (bool_decide (rd_config_digest shadow = rq_required_config_digest requirements))
  then false
  else if negb (rd_checkpoint_schema_version shadow =?
                rq_required_checkpoint_schema_version requirements) then false
  else if u64 (rd_last_processed_window_seq shadow + rq_max_allowed_replay_gap requirements)
          <? committed_high_water_window_seq then false
  else true.

(** Returns the new epoch and the state. *)
Definition obicall_gate_promote (state : obicall_gate_state) (new_owner_broker_id : Z)
    : Z * obicall_gate_state :=
  let new_epoch := u64 (gs_epoch state + 1) in
  (new_epoch,
   GateState (gs_struct_size state) (gs_schema_version state) new_epoch new_owner_broker_id
     (gs_pipeline_count state) (gs_pipelines state)).

(** ** Replica agreement *)

Definition payload_agrees (position_tolerance : f64) (a b : Z) : bool :=
  negb (fabs (f64_of_bits a - f64_of_bits b) >? position_tolerance)%f64.

Definition covariance_agrees (covariance_rel_tolerance : f64) (a b : Z) : bool :=
  let av := f64_of_bits a in
  let bv := f64_of_bits b in
  let denom := if (fabs av >? fabs bv)%f64 then fabs av else fabs bv in
  let rel := if (denom >? f64_zero)%f64 then (fabs (av - bv) / denom)%f64 else f64_zero in
  negb (rel >? covariance_rel_tolerance)%f64.

(** The first [n] elements of two arrays, pairwise. *)
Fixpoint forall2b {A} (f : A -> A -> bool) (n : nat) (l k : list A) : bool :=
  match n, l, k with
  | S n, a :: l, b :: k => f a b && forall2b f n l k
  | _, _, _ => true
  end.

Definition obicall_gate_results_agree (a b : obicall_result)
    (position_tolerance covariance_rel_tolerance : f64) : bool :=
  if negb (res_payload_count a =? res_payload_count b)
     || negb (res_covariance_count a =? res_covariance_count b) then false
  else if negb (forall2b (payload_agrees position_tolerance) (Z.to_nat (res_payload_count a))
                         (res_payload a) (res_payload b)) then false
  else forall2b (covariance_agrees covariance_rel_tolerance) (Z.to_nat (res_covariance_count a))
                (res_covariance a) (res_covariance b).

(** ** The state record *)

Definition wc_gate_pipeline (p : obicall_gate_pipeline_state) (c : wcursor) : wcursor :=
  let c := wc_fixed (gp_pipeline_id p) c in
  let c := wc_u32 (gp_has_committed p) c in
  let c := wc_u64 (gp_last_committed_window_seq p) c in
  wc_bytes (gp_last_committed_digest p) c.

Definition rc_gate_pipeline (c : rcursor) : obicall_gate_pipeline_state * rcursor :=
  let '(pipeline_id, c) := rc_fixed OBICALL_PIPELINE_ID_LEN c in
  let '(has_committed, c) := rc_u32 c in
  let '(last_committed_window_seq, c) := rc_u64 c in
  let '(last_committed_digest, c) := rc_fixed OBICALL_DIGEST_LEN c in
  (GatePipeline pipeline_id has_committed last_committed_window_seq last_committed_digest, c).

Definition obicall_gate_encode_state (state : obicall_gate_state) (out_cap : Z)
    : result status (list Z) :=
  if gs_pipeline_count state >? OBICALL_MAX_PIPELINES then Err OBICALL_ERR_INVALID_ARGUMENT
  else
  let c := wc_init out_cap in
  let c := wc_u32 (gs_struct_size state) c in
  let c := wc_u32 (gs_schema_version state) c in
  let c := wc_u64 (gs_epoch state) c in
  let c := wc_u32 (gs_owner_broker_id state) c in
  let c := wc_u32 (gs_pipeline_count state) c in
  let c := wc_array wc_gate_pipeline (Z.to_nat (gs_pipeline_count state)) (gs_pipelines state) c in
  wc_finish OBICALL_ERR_BUFFER_TOO_SMALL c.

Definition obicall_gate_decode_state (input : list Z) : result status obicall_gate_state :=
  let c := rc_init input in
  let '(_, c) := rc_u32 c in
  let '(schema_version, c) := rc_u32 c in
  let '(epoch, c) := rc_u64 c in
  let '(owner_broker_id, c) := rc_u32 c in
  let '(pipeline_count, c) := rc_u32 c in
  if negb (rc_ok c) || (pipeline_count >? OBICALL_MAX_PIPELINES)
  then Err OBICALL_ERR_WIRE_MALFORMED
  else
  let '(pipelines, c) := rc_array rc_gate_pipeline (Z.to_nat pipeline_count) c in
  if rc_ok c
  then Ok (GateState sizeof_gate_state schema_version epoch owner_broker_id pipeline_count
             (pad 8 zero_pipeline pipelines))
  else Err OBICALL_ERR_WIRE_MALFORMED.

Definition OBICALL_GATE_PERSIST_MAGIC : Z := 1329743700.       (* 0x4F424754 *)
Definition OBICALL_GATE_PERSIST_HEADER_LEN : nat := 16.
Definition OBICALL_GATE_PERSIST_MAX_PAYLOAD : Z := 8192.

Definition obicall_gate_persist_state (io : io_outcome) (f : cfile) (state : obicall_gate_state)
    : status * cfile :=
  match obicall_gate_encode_state state OBICALL_GATE_PERSIST_MAX_PAYLOAD with
  | Err st => (st, f)
  | Ok payload =>
      let payload_len := Z.of_nat (length payload) in
      let c := wc_init (Z.of_nat OBICALL_GATE_PERSIST_HEADER_LEN) in
      let c := wc_u32 OBICALL_GATE_PERSIST_MAGIC c in
      let c := wc_u32 payload_len c in
      let c := wc_u32 (obicall_crc32 payload) c in
      let c := wc_u32 0 c in
      match wc_finish OBICALL_ERR_INTERNAL c with
      | Err st => (st, f)
      | Ok hdr => write_record OBICALL_ERR_GATE_PERSISTENCE io hdr payload f
      end
  end.

Definition obicall_gate_load_state (f : cfile) : result status obicall_gate_state :=
  let '(hdr, f) := fread OBICALL_GATE_PERSIST_HEADER_LEN f in
  if negb (length hdr =? OBICALL_GATE_PERSIST_HEADER_LEN)%nat then Err OBICALL_ERR_WIRE_MALFORMED
  else
  let c := rc_init hdr in
  let '(magic, c) := rc_u32 c in
  let '(payload_len, c) := rc_u32 c in
  let '(crc, c) := rc_u32 c in
  let '(_, c) := rc_u32 c in
  if negb (rc_ok c) || negb (magic =? OBICALL_GATE_PERSIST_MAGIC)
     || (payload_len >? OBICALL_GATE_PERSIST_MAX_PAYLOAD)
  then Err OBICALL_ERR_WIRE_MALFORMED
  else
  let '(payload, f) := fread (Z.to_nat payload_len) f in
  if negb (Z.of_nat (length payload) =? payload_len) then Err OBICALL_ERR_WIRE_MALFORMED
  else if negb (obicall_crc32 payload =? crc) then Err OBICALL_ERR_WIRE_CHECKSUM
  else obicall_gate_decode_state payload.

(** * Lemmas *)

Example sizeof_gate_state_abi : sizeof_gate_state = 664.
Proof. reflexivity. Qed.

(** ** The state codec *)

Definition gate_pipeline_wire (p : obicall_gate_pipeline_state) : list Z :=
  gp_pipeline_id p ++ le_bytes 4 (gp_has_committed p) ++
  le_bytes 8 (gp_last_committed_window_seq p) ++ gp_last_committed_digest p.

Definition gate_state_wire (s : obicall_gate_state) : list Z :=
  le_bytes 4 (gs_struct_size s) ++ le_bytes 4 (gs_schema_version s) ++ le_bytes 8 (gs_epoch s) ++
  le_bytes 4 (gs_owner_broker_id s) ++ le_bytes 4 (gs_pipeline_count s) ++
  concat (gate_pipeline_wire <$> take (Z.to_nat (gs_pipeline_count s)) (gs_pipelines s)).

Record wf_gate_pipeline (p : obicall_gate_pipeline_state) : Prop := {
  wfgp_id : is_chars OBICALL_PIPELINE_ID_LEN (gp_pipeline_id p);
  wfgp_has : is_u32 (gp_has_committed p);
  wfgp_last : is_u64 (gp_last_committed_window_seq p);
  wfgp_digest : is_chars OBICALL_DIGEST_LEN (gp_last_committed_digest p)
}.

Record valid_gate_state (s : obicall_gate_state) : Prop := {
  vgs_struct_size : is_u32 (gs_struct_size s);
  vgs_schema : is_u32 (gs_schema_version s);
  vgs_epoch : is_u64 (gs_epoch s);
  vgs_owner : is_u32 (gs_owner_broker_id s);
  vgs_count_range : is_u32 (gs_pipeline_count s);
  vgs_count : gs_pipeline_count s <= Z.of_nat 8;
  vgs_len : length (gs_pipelines s) = 8%nat;
  vgs_pipelines : Forall wf_gate_pipeline (gs_pipelines s)
}.

Definition canon_gate_state (s : obicall_gate_state) : obicall_gate_state :=
  GateState sizeof_gate_state (gs_schema_version s) (gs_epoch s) (gs_owner_broker_id s)
    (gs_pipeline_count s)
    (pad 8 zero_pipeline (take (Z.to_nat (gs_pipeline_count s)) (gs_pipelines s))).

#[export] Instance emits_gate_pipeline p : Emits (wc_gate_pipeline p) (gate_pipeline_wire p).
Proof.
  unfold gate_pipeline_wire. rewrite !app_assoc.
  apply (emits_seq (fun c => wc_u64 _ (wc_u32 _ (wc_fixed _ c))));
    [apply (emits_seq (fun c => wc_u32 _ (wc_fixed _ c))); [apply emits_seq|]|]; apply _.
Qed.

#[export] Instance read_gate_pipeline :
  WireRead rc_gate_pipeline gate_pipeline_wire wf_gate_pipeline.
Proof.
  split.
  - intros p rest []. unfold rc_gate_pipeline, gate_pipeline_wire. rewrite <- !app_assoc.
    repeat read_step. by destruct p.
  - intros c p c' H Hb. unfold rc_gate_pipeline in H.
    destruct (rc_fixed OBICALL_PIPELINE_ID_LEN c) as [l c1] eqn:E1, (rc_u32 c1) as [z c2] eqn:E2,
      (rc_u64 c2) as [z0 c3] eqn:E3, (rc_fixed OBICALL_DIGEST_LEN c3) as [l0 c4] eqn:E4. simplify_eq.
    destruct (rd_inv _ _ _ E1 Hb) as [Hb1 H1], (rd_inv _ _ _ E2 Hb1) as [Hb2 H2],
      (rd_inv _ _ _ E3 Hb2) as [Hb3 H3], (rd_inv _ _ _ E4 Hb3) as [Hb4 H4]. split; [done|]. intros Hok.
    destruct (H4 Hok) as (Hok3&Er4&?), (H3 Hok3) as (Hok2&Er3&?), (H2 Hok2) as (Hok1&Er2&?),
      (H1 Hok1) as (?&Er1&?).
    rewrite Er1, Er2, Er3, Er4. unfold gate_pipeline_wire. simpl. rewrite <- !app_assoc. by split_and!.
Qed.
#[global] Typeclasses Opaque wc_gate_pipeline rc_gate_pipeline.

Lemma zero_pipeline_wf : wf_gate_pipeline zero_pipeline.
Proof.
  split; simpl; try apply is_chars_zero; unfold is_u32, is_u64; lia.
Qed.
#[export] Hint Resolve zero_pipeline_wf : obicall.

#[export] Instance gate_state_codec :
  Codec obicall_gate_encode_state obicall_gate_decode_state gate_state_wire valid_gate_state
        canon_gate_state.
Proof.
  split.
  - intros s cap [] Hcap. unfold obicall_gate_encode_state, OBICALL_MAX_PIPELINES. if_false.
    solve_encode.
  - intros s extra []. unfold obicall_gate_decode_state, gate_state_wire, OBICALL_MAX_PIPELINES, rc_init.
    rewrite <- ?app_assoc. repeat read_step. if_false. repeat read_step. done.
  - intros input s' Hb H. unfold obicall_gate_decode_state, OBICALL_MAX_PIPELINES in H. read_cases H.
    read_inv input.
    exists (GateState z z0 z1 z2 z3 (pad 8 zero_pipeline l)). eexists.
    unfold gate_state_wire, canon_gate_state. cbn. rewrite ?take_pad_length by done.
    rewrite <- ?app_assoc. split_and!; try done. split; cbn; decoded_side.
Qed.

(** ** The durable record *)

Definition gate_persist_header (s : obicall_gate_state) : list Z :=
  le_bytes 4 OBICALL_GATE_PERSIST_MAGIC ++ le_bytes 4 (Z.of_nat (length (gate_state_wire s))) ++
  le_bytes 4 (obicall_crc32 (gate_state_wire s)) ++ le_bytes 4 0.

Definition gate_persist_bytes (s : obicall_gate_state) : list Z :=
  gate_persist_header s ++ gate_state_wire s.

Lemma length_gate_persist_header s : length (gate_persist_header s) = OBICALL_GATE_PERSIST_HEADER_LEN.
Proof. unfold gate_persist_header. by rewrite !length_app, !length_le_bytes. Qed.

Lemma gate_pipeline_wire_length p : wf_gate_pipeline p -> length (gate_pipeline_wire p) = 76%nat.
Proof.
  intros [[Hi _] _ _ [Hd _]]. unfold gate_pipeline_wire.
  by rewrite !length_app, !length_le_bytes, Hi, Hd.
Qed.

Lemma gate_state_wire_length s :
  valid_gate_state s -> (24 <= length (gate_state_wire s) <= 632)%nat.
Proof.
  intros []. unfold gate_state_wire. rewrite !length_app, !length_le_bytes.
  assert (forall l, Forall wf_gate_pipeline l ->
            length (concat (gate_pipeline_wire <$> l)) = (76 * length l)%nat) as Hc.
  { induction 1 as [|p l Hp Hl IH]; [done|].
    rewrite fmap_cons. cbn [concat length]. rewrite length_app, IH, gate_pipeline_wire_length by done. lia. }
  rewrite Hc by by apply Forall_take. rewrite length_take. lia.
Qed.

Lemma gate_persist_write io f s :
  valid_gate_state s ->
  obicall_gate_persist_state io f s =
  write_record OBICALL_ERR_GATE_PERSISTENCE io (gate_persist_header s) (gate_state_wire s) f.
Proof.
  intros Hv. pose proof (gate_state_wire_length s Hv). unfold obicall_gate_persist_state.
  rewrite enc_spec by done. unfold OBICALL_GATE_PERSIST_MAX_PAYLOAD.
  replace (_ <=? 8192) with true by lia.
  assert (0 <= Z.of_nat OBICALL_GATE_PERSIST_HEADER_LEN) by done.
  match goal with |- context [wc_finish _ ?c] =>
    assert (wc_finish OBICALL_ERR_INTERNAL c =
            if Z.of_nat (length (gate_persist_header s)) <=? Z.of_nat OBICALL_GATE_PERSIST_HEADER_LEN
            then Ok (gate_persist_header s) else Err OBICALL_ERR_INTERNAL) as E
  end.
  { unfold gate_persist_header. solve_encode. }
  by rewrite E, length_gate_persist_header.
Qed.

(** Loading decodes exactly the payload the header announces. *)
Lemma gate_load_payload s payload data :
  valid_gate_state s -> data = gate_persist_header s ++ payload ->
  obicall_gate_load_state (CFile data 0) =
  if negb (Z.of_nat (length (take (length (gate_state_wire s)) payload)) =?
           Z.of_nat (length (gate_state_wire s)))
  then Err OBICALL_ERR_WIRE_MALFORMED
  else if negb (obicall_crc32 (take (length (gate_state_wire s)) payload) =?
                obicall_crc32 (gate_state_wire s))
  then Err OBICALL_ERR_WIRE_CHECKSUM
  else obicall_gate_decode_state (take (length (gate_state_wire s)) payload).
Proof.
  intros Hv ->. pose proof (gate_state_wire_length s Hv). unfold obicall_gate_load_state.
  unfold fread. cbn [f_pos f_data]. rewrite drop_0.
  rewrite take_app_length' by by rewrite length_gate_persist_header.
  rewrite length_gate_persist_header. cbn [negb OBICALL_GATE_PERSIST_HEADER_LEN Nat.eqb Nat.add].
  unfold gate_persist_header, rc_init.
  rewrite <- (app_nil_r (le_bytes 4 0)).
  assert (is_u32 OBICALL_GATE_PERSIST_MAGIC) by done.
  assert (is_u32 (Z.of_nat (length (gate_state_wire s)))) by (unfold is_u32; lia).
  assert (is_u32 0) by done.
  rewrite <- !app_assoc. repeat read_step. cbn [rc_ok negb orb].
  rewrite Z.eqb_refl. unfold OBICALL_GATE_PERSIST_MAX_PAYLOAD. replace (_ >? 8192) with false by lia.
  cbn [negb orb]. rewrite Nat2Z.id.
  rewrite !app_assoc. rewrite drop_app_length' by (by rewrite !length_app, !length_le_bytes).
  done.
Qed.

Lemma gate_load_complete s extra :
  valid_gate_state s ->
  obicall_gate_load_state (CFile (gate_persist_bytes s ++ extra) 0) = Ok (canon_gate_state s).
Proof.
  intros Hv. unfold gate_persist_bytes. rewrite <- app_assoc.
  rewrite (gate_load_payload s (gate_state_wire s ++ extra)), take_app_length by done.
  rewrite !Z.eqb_refl. cbn [negb]. rewrite <- (app_nil_r (gate_state_wire s)). by apply dec_wire.
Qed.

Lemma gate_load_torn s k :
  valid_gate_state s -> (k < length (gate_persist_bytes s))%nat ->
  obicall_gate_load_state (CFile (take k (gate_persist_bytes s)) 0) = Err OBICALL_ERR_WIRE_MALFORMED.
Proof.
  intros Hv. unfold gate_persist_bytes. rewrite length_app, length_gate_persist_header.
  unfold OBICALL_GATE_PERSIST_HEADER_LEN. intros Hk. destruct (decide (k < 16)%nat).
  - unfold obicall_gate_load_state, OBICALL_GATE_PERSIST_HEADER_LEN, fread. cbn [f_data f_pos].
    rewrite drop_0, take_take, Nat.min_r by lia. rewrite length_take, length_app, length_gate_persist_header.
    unfold OBICALL_GATE_PERSIST_HEADER_LEN.
    by replace (Nat.min k _ =? 16)%nat with false by (symmetry; apply Nat.eqb_neq; lia).
  - replace k with (length (gate_persist_header s) + (k - 16))%nat
      by (rewrite length_gate_persist_header; unfold OBICALL_GATE_PERSIST_HEADER_LEN; lia).
    rewrite take_app_add, (gate_load_payload s (take (k - 16) (gate_state_wire s))) by done.
    rewrite take_take, Nat.min_r, length_take by lia.
    by replace (_ =? _) with false by lia.
Qed.

Lemma gate_load_corrupt s a w w' b extra :
  valid_gate_state s -> gate_state_wire s = a ++ w ++ b -> length w' = length w ->
  (length w <= 4)%nat -> w' <> w -> bytes w -> bytes w' ->
  obicall_gate_load_state (CFile (gate_persist_header s ++ a ++ w' ++ b ++ extra) 0) =
  Err OBICALL_ERR_WIRE_CHECKSUM.
Proof.
  intros Hv Hw Hlen Hn Hne Hb Hb'.
  rewrite (gate_load_payload s (a ++ w' ++ b ++ extra)) by done.
  replace (take _ _) with (a ++ w' ++ b).
  2:{ rewrite Hw, !app_assoc, take_app_length'; [done|]. rewrite !length_app. lia. }
  replace (Z.of_nat (length (a ++ w' ++ b)) =? _) with true by (rewrite Hw, !length_app; lia).
  cbn [negb]. replace (_ =? _) with false; [done|]. symmetry. apply Z.eqb_neq. rewrite Hw.
  apply crc32_detects_burst; try done. lia.
Qed.

(** ** The abstract view *)

(** The highest committed window a list of slots records for a pipeline id. *)
Definition committed_in (ps : list obicall_gate_pipeline_state) (id : list Z) : option Z :=
  match list_find (fun p => gp_pipeline_id p = id) ps with
  | Some (_, p) => if gp_has_committed p =? 0 then None else Some (gp_last_committed_window_seq p)
  | None => None
  end.

Definition active (s : obicall_gate_state) : list obicall_gate_pipeline_state :=
  take (Z.to_nat (gs_pipeline_count s)) (gs_pipelines s).

Definition committed (s : obicall_gate_state) (id : list Z) : option Z := committed_in (active s) id.

Record gate_inv (s : obicall_gate_state) : Prop := {
  gi_valid : valid_gate_state s;
  gi_ids : NoDup (gp_pipeline_id <$> active s);
  gi_tail : gs_pipelines s = pad 8 zero_pipeline (active s)
}.

(** The publications the gate commits. *)
Record committable (s : obicall_gate_state) (r : obicall_result) (now_ns : Z) : Prop := {
  cm_struct_size : res_struct_size r = sizeof_result;
  cm_schema : res_schema_version r = OBICALL_RESULT_SCHEMA_VERSION;
  cm_unexpired : now_ns < res_valid_until_ns r;
  cm_slot : In (res_pipeline_id r) (gp_pipeline_id <$> active s) \/ gs_pipeline_count s < 8;
  cm_owned : gs_owner_broker_id s <> OBICALL_BROKER_NONE;
  cm_owner : res_broker_id r = gs_owner_broker_id s;
  cm_epoch : res_epoch r = gs_epoch s;
  cm_window : forall w, committed s (res_pipeline_id r) = Some w -> w < res_window_seq r
}.

Lemma length_active s : valid_gate_state s -> length (active s) = Z.to_nat (gs_pipeline_count s).
Proof. intros []. unfold active. rewrite length_take. lia. Qed.

Lemma find_pipeline_Some s i id :
  find_pipeline s id = Some i <->
  exists p, list_find (fun p => gp_pipeline_id p = id) (active s) = Some (i, p).
Proof.
  unfold find_pipeline, active. rewrite fmap_Some. split.
  - intros ([j p] & H & ->). by exists p.
  - intros [p H]. by exists (i, p).
Qed.

Lemma find_pipeline_None s id :
  find_pipeline s id = None <-> id ∉ gp_pipeline_id <$> active s.
Proof.
  unfold find_pipeline. fold (active s). rewrite fmap_None, list_find_None, Forall_forall.
  split.
  - intros H Hin. apply list_elem_of_fmap in Hin as (p & -> & Hp). by eapply H.
  - intros H p Hp E. apply H. rewrite <- E. by apply list_elem_of_fmap_2.
Qed.

Lemma committed_in_app l p id :
  gp_has_committed p = 0 -> gp_pipeline_id p ∉ gp_pipeline_id <$> l ->
  committed_in (l ++ [p]) id = committed_in l id.
Proof.
  intros Hp Hn. unfold committed_in. destruct (list_find _ l) as [[i q]|] eqn:E.
  - by rewrite (list_find_app_l _ _ _ _ _ E).
  - rewrite list_find_app_r by done. simpl. destruct (decide _); simpl; [by rewrite Hp|done].
Qed.

Lemma committed_in_insert l i p q id :
  list_find (fun p => gp_pipeline_id p = gp_pipeline_id q) l = Some (i, p) ->
  committed_in (<[i := q]> l) id =
  if decide (id = gp_pipeline_id q)
  then (if gp_has_committed q =? 0 then None else Some (gp_last_committed_window_seq q))
  else committed_in l id.
Proof.
  revert i. induction l as [|x l IH]; intros i H; [done|]. simpl in H.
  destruct (decide (gp_pipeline_id x = gp_pipeline_id q)) as [Ex|Ex].
  - injection H as <- <-. simpl. unfold committed_in. simpl.
    destruct (decide (id = gp_pipeline_id q)) as [->|Hne].
    + by rewrite decide_True.
    + rewrite !decide_False by congruence. by destruct (list_find _ l) as [[? ?]|].
  - destruct (list_find _ l) as [[j p']|] eqn:E; [|done]. injection H as <- <-. simpl.
    specialize (IH j eq_refl). unfold committed_in in *. simpl.
    destruct (decide (gp_pipeline_id x = id)) as [<-|Hx].
    + by rewrite decide_False by congruence.
    + destruct (list_find (fun p => gp_pipeline_id p = id) (<[j:=q]> l)) as [[? ?]|],
        (list_find (fun p => gp_pipeline_id p = id) l) as [[? ?]|]; done.
Qed.

Lemma digest_chars junk r : is_chars OBICALL_DIGEST_LEN (compute_result_digest junk r).
Proof.
  unfold compute_result_digest, obicall_sha256_final, sha256_output, be_bytes4.
  split; [done|]. repeat constructor; apply u8_range.
Qed.
#[global] Arguments compute_result_digest : simpl never.
#[global] Opaque compute_result_digest.

Lemma list_find_active s i p id :
  list_find (fun p => gp_pipeline_id p = id) (active s) = Some (i, p) ->
  gs_pipelines s !! i = Some p /\ active s !! i = Some p /\ gp_pipeline_id p = id /\
  (i < Z.to_nat (gs_pipeline_count s))%nat.
Proof.
  intros H. apply list_find_Some in H as (Ha & Hid & _). unfold active in Ha.
  pose proof Ha as Ha'. rewrite lookup_take_Some in Ha'. by destruct Ha'.
Qed.

Lemma gate_slot_None s id :
  gate_slot s id = None <-> (id ∉ gp_pipeline_id <$> active s) /\ 8 <= gs_pipeline_count s.
Proof.
  unfold gate_slot, OBICALL_MAX_PIPELINES. destruct (find_pipeline s id) eqn:E.
  - split; [done|]. intros [H _]. apply find_pipeline_None in H. congruence.
  - apply find_pipeline_None in E. destruct (_ >=? 8) eqn:Ec; (split; [|]); try done; try lia.
    intros _. split; [done|lia].
Qed.

(** What allocation or lookup of a slot leaves unchanged. *)
Lemma gate_slot_Some s id i s1 :
  gate_inv s -> is_chars OBICALL_PIPELINE_ID_LEN id -> gate_slot s id = Some (i, s1) ->
  gate_inv s1 /\ (forall id', committed s1 id' = committed s id') /\
  gs_epoch s1 = gs_epoch s /\ gs_owner_broker_id s1 = gs_owner_broker_id s /\
  exists p, list_find (fun p => gp_pipeline_id p = id) (active s1) = Some (i, p).
Proof.
  intros [Hv Hids Htail] Hid. unfold gate_slot, OBICALL_MAX_PIPELINES.
  destruct (find_pipeline s id) as [j|] eqn:E.
  - intros [= <- <-]. split_and!; try done. by apply find_pipeline_Some.
  - apply find_pipeline_None in E. case_match; [done|]. intros [= <- <-].
    pose proof (length_active s Hv) as Hla. destruct (Hv).
    unfold is_u32 in *. set (n := Z.to_nat (gs_pipeline_count s)) in *.
    set (q := fresh_pipeline id) in *.
    assert (active (set_pipelines s (gs_pipeline_count s + 1) (<[n:=q]> (gs_pipelines s))) =
            active s ++ [q]) as Ha.
    { unfold active. cbn [gs_pipeline_count gs_pipelines set_pipelines].
      replace (Z.to_nat (gs_pipeline_count s + 1)) with (S n) by lia.
      rewrite (take_S_r _ _ q) by (by rewrite list_lookup_insert_eq by lia).
      rewrite take_insert_ge by lia. done. }
    assert (wf_gate_pipeline q) as Hq
      by (split; cbn; [done|unfold is_u32; lia|unfold is_u64; lia|apply is_chars_zero]).
    split_and!; try done.
    + split.
      * split; cbn; unfold is_u32; try done; try lia; [by rewrite length_insert|].
        by apply Forall_insert.
      * rewrite Ha, fmap_app. apply NoDup_app. split_and!; [done| |apply NoDup_singleton].
        intros x Hx ->%list_elem_of_singleton. done.
      * rewrite Ha. cbn [gs_pipelines set_pipelines]. rewrite Htail at 1. unfold pad.
        rewrite length_app, Hla. cbn [length].
        rewrite insert_app_r_alt by lia. rewrite Hla, Nat.sub_diag.
        replace (8 - n)%nat with (S (8 - (n + 1)))%nat by lia. simpl. by rewrite <- app_assoc.
    + intros id'. unfold committed. rewrite Ha. by apply committed_in_app.
    + rewrite Ha. exists q. rewrite list_find_app_r.
      * simpl. rewrite decide_True by done. simpl. by rewrite Hla, ?Nat.add_0_r.
      * apply list_find_None, Forall_forall. intros p Hp Ep. apply E. rewrite <- Ep.
        by apply list_elem_of_fmap_2.
Qed.

(** Recording a committed window in a slot. *)
Lemma gate_record_commit s i p q :
  gate_inv s -> list_find (fun p => gp_pipeline_id p = gp_pipeline_id q) (active s) = Some (i, p) ->
  wf_gate_pipeline q -> gp_has_committed q <> 0 ->
  let s' := set_pipelines s (gs_pipeline_count s) (<[i := q]> (gs_pipelines s)) in
  gate_inv s' /\
  forall id, committed s' id =
    if decide (id = gp_pipeline_id q) then Some (gp_last_committed_window_seq q) else committed s id.
Proof.
  intros [Hv Hids Htail] Hf Hq Hh s'. destruct (list_find_active _ _ _ _ Hf) as (Hl & Hla & Hid & Hi).
  assert (active s' = <[i := q]> (active s)) as Ha.
  { unfold active, s'. cbn [gs_pipeline_count gs_pipelines set_pipelines]. by rewrite take_insert_lt. }
  split.
  - split.
    + destruct Hv. split; cbn; try done; [by rewrite length_insert|by apply Forall_insert].
    + rewrite Ha, list_fmap_insert, list_insert_id; [done|]. rewrite list_lookup_fmap, Hla. simpl. by rewrite Hid.
    + rewrite Ha. unfold s'. cbn [gs_pipelines set_pipelines]. rewrite Htail at 1. unfold pad.
      rewrite length_insert. apply insert_app_l. by apply lookup_lt_Some in Hla.
  - intros id. unfold committed. rewrite Ha, (committed_in_insert _ _ _ _ _ Hf).
    case_match; [|done]. by case_match; [lia|].
Qed.

(** One publication: what it decides and what it leaves of the abstract state. *)
Record publish_result (s : obicall_gate_state) (r : obicall_result) (now_ns : Z)
    (o : obicall_gate_publish_outcome) (s' : obicall_gate_state) : Prop := {
  pr_inv : gate_inv s';
  pr_epoch : gs_epoch s' = gs_epoch s;
  pr_owner : gs_owner_broker_id s' = gs_owner_broker_id s;
  pr_commit : o = OBICALL_GATE_COMMIT <-> committable s r now_ns;
  pr_committed : forall id, committed s' id =
    if decide (o = OBICALL_GATE_COMMIT /\ id = res_pipeline_id r) then Some (res_window_seq r)
    else committed s id
}.

(** A rejected publication leaves the abstract state alone. *)
Lemma publish_reject s s1 r now_ns o :
  gate_inv s1 -> (forall id, committed s1 id = committed s id) ->
  gs_epoch s1 = gs_epoch s -> gs_owner_broker_id s1 = gs_owner_broker_id s ->
  o <> OBICALL_GATE_COMMIT -> ~ committable s r now_ns -> publish_result s r now_ns o s1.
Proof.
  intros. split; try done. intros id. by rewrite decide_False by (by intros []).
Qed.

(** A pipeline that finds a slot has one already or there is room. *)
Lemma gate_slot_room s id :
  is_Some (gate_slot s id) -> In id (gp_pipeline_id <$> active s) \/ gs_pipeline_count s < 8.
Proof.
  intros Hs. destruct (decide (id ∈ gp_pipeline_id <$> active s)); [left; by apply list_elem_of_In|].
  right. destruct (decide (gs_pipeline_count s < 8)); [done|].
  assert (E : gate_slot s id = None) by (apply gate_slot_None; split; [done|lia]). rewrite E in Hs. by destruct Hs.
Qed.

Lemma publish_spec junk s r now_ns o s' i :
  gate_inv s -> wf_result r -> obicall_gate_decide_publish junk s r now_ns = (o, s', i) ->
  publish_result s r now_ns o s'.
Proof.
  intros Hinv Hr. unfold obicall_gate_decide_publish.
  destruct (negb _ || _) eqn:E1.
  { intros [= <- <- <-]. apply publish_reject; try done. intros []; lia. }
  destruct (_ <=? now_ns) eqn:E2.
  { intros [= <- <- <-]. apply publish_reject; try done. intros []; lia. }
  destruct (gate_slot s (res_pipeline_id r)) as [[pidx s1]|] eqn:Es.
  2:{ intros [= <- <- <-]. apply gate_slot_None in Es as [Hn Hc].
      apply publish_reject; try done. intros []. destruct cm_slot0 as [H|H]; [|lia].
      by apply list_elem_of_In in H. }
  assert (Hslot : In (res_pipeline_id r) (gp_pipeline_id <$> active s) \/ gs_pipeline_count s < 8) by (apply gate_slot_room; by rewrite Es).
  destruct (gate_slot_Some _ _ _ _ Hinv (wfr_pipeline_id _ Hr) Es) as (Hinv1 & Hcom & He & Ho & p & Hf).
  destruct (list_find_active _ _ _ _ Hf) as (Hl & _ & Hid & _). rewrite Hl. cbn [from_option].
  change (Datatypes.id p) with p.
  assert (committed s (res_pipeline_id r) =
          if gp_has_committed p =? 0 then None else Some (gp_last_committed_window_seq p)) as Hcp.
  { rewrite <- Hcom. unfold committed, committed_in. by rewrite Hf. }
  destruct (gs_owner_broker_id s1 =? OBICALL_BROKER_NONE) eqn:E3.
  { intros [= <- <- <-]. apply publish_reject; try done. intros []. lia. }
  destruct (negb (_ =? gs_owner_broker_id s1)) eqn:E4.
  { assert (~ committable s r now_ns) by (intros []; lia).
    destruct (_ <? gs_epoch s1); intros [= <- <- <-]; by apply publish_reject. }
  destruct (negb (_ =? gs_epoch s1)) eqn:E5.
  { intros [= <- <- <-]. apply publish_reject; try done. intros []. lia. }
  destruct (negb (_ =? 0) && _) eqn:E6.
  { intros [= <- <- <-]. apply publish_reject; try done. intros []. rewrite Hcp in cm_window0.
    destruct (gp_has_committed p =? 0) eqn:E7; [lia|]. specialize (cm_window0 _ eq_refl). lia. }
  set (q := GatePipeline _ _ _ _). intros E. injection E as <- <- <-.
  assert (gp_pipeline_id q = res_pipeline_id r) as Hq by exact Hid.
  rewrite <- Hq in Hf.
  assert (wf_gate_pipeline q) as Hwq
    by (split; unfold q; cbn [gp_pipeline_id gp_has_committed gp_last_committed_window_seq
          gp_last_committed_digest]; [rewrite Hid; apply Hr|done|apply Hr|apply digest_chars]).
  pose proof (gate_record_commit s1 pidx p q Hinv1 Hf Hwq ltac:(done)) as Hrc. cbv zeta in Hrc.
  destruct Hrc as [Hinv2 Hcom2].
  split; try done.
  - split; [|done]. intros _. split; try done; try lia.
    intros w. rewrite Hcp. destruct (gp_has_committed p =? 0) eqn:E7; [done|]. intros [= <-]. lia.
  - intros id. rewrite Hcom2, Hq, Hcom.
    destruct (decide (id = res_pipeline_id r)).
    + by rewrite decide_True.
    + by rewrite decide_False by (by intros []).
Qed.

Lemma promote_inv s b : is_u32 b -> gate_inv s -> gate_inv (obicall_gate_promote s b).2.
Proof.
  intros Hb [[] ? ?]. split; [split; cbn; try done; apply u64_range|done|done].
Qed.

(** ** Runs *)

Inductive gate_op :=
| OpPublish (r : obicall_result) (now_ns : Z)
| OpPromote (new_owner : Z).

Definition valid_gate_op (op : gate_op) : Prop :=
  match op with OpPublish r _ => wf_result r | OpPromote b => is_u32 b end.

(** The committed results of a sequence of operations, in order, and the state. *)
Fixpoint gate_run (junk : list Z) (s : obicall_gate_state) (ops : list gate_op)
    : list obicall_result * obicall_gate_state :=
  match ops with
  | [] => ([], s)
  | OpPublish r now_ns :: ops =>
      let '(o, s, _) := obicall_gate_decide_publish junk s r now_ns in
      let '(rs, s) := gate_run junk s ops in
      (if decide (o = OBICALL_GATE_COMMIT) then r :: rs else rs, s)
  | OpPromote b :: ops => gate_run junk (obicall_gate_promote s b).2 ops
  end.

Definition is_promote (op : gate_op) : bool :=
  match op with OpPromote _ => true | OpPublish _ _ => false end.

Definition promotions (ops : list gate_op) : Z := Z.of_nat (length (List.filter is_promote ops)).

Definition windows_of (id : list Z) (rs : list obicall_result) : list Z :=
  res_window_seq <$> filter (fun r => res_pipeline_id r = id) rs.

Lemma gate_run_spec junk ops s :
  gate_inv s -> Forall valid_gate_op ops ->
  gate_inv (gate_run junk s ops).2 /\
  forall id, StronglySorted Z.lt (windows_of id (gate_run junk s ops).1) /\
    (forall w, committed s id = Some w -> Forall (Z.lt w) (windows_of id (gate_run junk s ops).1)).
Proof.
  intros Hinv Hops. revert s Hinv. induction Hops as [|[r now|b] ops Hop Hops IH]; intros s Hinv; simpl.
  - split; [done|]. intros id. split; [constructor|by intros].
  - destruct (obicall_gate_decide_publish junk s r now) as [[o s'] i] eqn:E.
    pose proof (publish_spec _ _ _ _ _ _ _ Hinv Hop E) as [Hinv' _ _ Hc Hcom].
    destruct (IH s' Hinv') as [Hinv2 IH2]. destruct (gate_run junk s' ops) as [rs s2]. simpl in *.
    split; [done|]. intros id. destruct (IH2 id) as [Hs Hw]. rewrite Hcom in Hw.
    destruct (decide (o = OBICALL_GATE_COMMIT)) as [Ho|Ho]; cbn [fst].
    2:{ rewrite decide_False in Hw by (by intros []). done. }
    unfold windows_of in *. rewrite filter_cons. destruct (decide (res_pipeline_id r = id)) as [Hid|Hid].
    + rewrite decide_True in Hw by done. specialize (Hw _ eq_refl). rewrite fmap_cons.
      split; [by constructor|]. intros w Hw'. apply Hc in Ho. destruct Ho. rewrite Hid in cm_window0.
      specialize (cm_window0 _ Hw'). constructor; [done|].
      eapply Forall_impl; [exact Hw|]. simpl. lia.
    + rewrite decide_False in Hw by (by intros []). done.
  - destruct (IH (obicall_gate_promote s b).2) as [Hinv2 IH2]; [by apply promote_inv|].
    split; [done|]. intros id. destruct (IH2 id) as [Hs Hw]. split; [done|]. exact Hw.
Qed.

(** Every commit of a run carries an epoch the run was in, and in the epoch the
    run started with, the owner it started with. *)
Lemma gate_run_epochs junk ops s :
  gate_inv s -> Forall valid_gate_op ops ->
  gs_epoch s + promotions ops < 18446744073709551616 ->
  gs_epoch (gate_run junk s ops).2 = gs_epoch s + promotions ops /\
  Forall (fun r => gs_epoch s <= res_epoch r <= gs_epoch s + promotions ops /\
            (res_epoch r = gs_epoch s -> res_broker_id r = gs_owner_broker_id s))
         (gate_run junk s ops).1.
Proof.
  intros Hinv Hops. revert s Hinv. induction Hops as [|[r now|b] ops Hop Hops IH];
    intros s Hinv Hwrap.
  - simpl. split; [unfold promotions; simpl; lia|constructor].
  - simpl. destruct (obicall_gate_decide_publish junk s r now) as [[o s'] i] eqn:E.
    pose proof (publish_spec _ _ _ _ _ _ _ Hinv Hop E) as [Hinv' He Ho Hc _].
    change (promotions (OpPublish r now :: ops)) with (promotions ops) in *.
    destruct (IH s' Hinv') as [H1 H2]; [by rewrite He|]. rewrite He, Ho in *.
    destruct (gate_run junk s' ops) as [rs s2]. simpl in *. split; [done|].
    destruct (decide (o = OBICALL_GATE_COMMIT)) as [Hoc|]; [|done].
    apply Hc in Hoc. destruct Hoc. constructor; [|done]. unfold promotions. split; [lia|congruence].
  - assert (promotions (OpPromote b :: ops) = promotions ops + 1) as Hp
      by (unfold promotions; cbn [List.filter is_promote length]; lia).
    rewrite Hp in *. pose proof (vgs_epoch _ (gi_valid _ Hinv)) as Hep.
    assert (0 <= promotions ops) by (unfold promotions; lia).
    assert (gs_epoch (obicall_gate_promote s b).2 = gs_epoch s + 1) as He
      by (cbn; rewrite u64_id by (unfold is_u64 in *; lia); lia).
    change (gate_run junk s (OpPromote b :: ops)) with (gate_run junk (obicall_gate_promote s b).2 ops).
    destruct (IH (obicall_gate_promote s b).2) as [H1 H2]; [by apply promote_inv|lia|].
    rewrite He in *. split; [lia|].
    eapply Forall_impl; [exact H2|]. simpl. intros r [? ?]. split; lia.
Qed.

(** At most one broker commits in an epoch. *)
Lemma gate_run_one_writer junk ops s :
  gate_inv s -> Forall valid_gate_op ops ->
  gs_epoch s + promotions ops < 18446744073709551616 ->
  StronglySorted (fun r1 r2 => res_epoch r1 <= res_epoch r2 /\
      (res_epoch r1 = res_epoch r2 -> res_broker_id r1 = res_broker_id r2))
    (gate_run junk s ops).1.
Proof.
  intros Hinv Hops. revert s Hinv. induction Hops as [|[r now|b] ops Hop Hops IH];
    intros s Hinv Hwrap; simpl.
  - constructor.
  - destruct (obicall_gate_decide_publish junk s r now) as [[o s'] i] eqn:E.
    pose proof (publish_spec _ _ _ _ _ _ _ Hinv Hop E) as [Hinv' He Ho Hc _].
    change (promotions (OpPublish r now :: ops)) with (promotions ops) in *.
    pose proof (IH s' Hinv' ltac:(by rewrite He)) as H1.
    pose proof (gate_run_epochs junk ops s' Hinv' Hops ltac:(by rewrite He)) as [_ H2].
    destruct (gate_run junk s' ops) as [rs s2]. simpl in *.
    destruct (decide (o = OBICALL_GATE_COMMIT)) as [Hoc|]; [|done].
    apply Hc in Hoc. destruct Hoc. constructor; [done|]. rewrite He, Ho in H2.
    eapply Forall_impl; [exact H2|]. simpl. intros r' [? Hr']. split; [lia|].
    intros. rewrite Hr' by lia. done.
  - assert (promotions (OpPromote b :: ops) = promotions ops + 1) as Hp
      by (unfold promotions; cbn [List.filter is_promote length]; lia).
    rewrite Hp in *. pose proof (vgs_epoch _ (gi_valid _ Hinv)) as Hep.
    assert (0 <= promotions ops) by (unfold promotions; lia).
    apply IH; [by apply promote_inv|]. cbn. rewrite u64_id by (unfold is_u64 in *; lia). lia.
Qed.

(** * The claims *)

(** C14: the decision and its refinement: a publication commits exactly when the
    result has this build's layout and schema, has not expired, comes from the
    current owner with the current epoch, finds a slot, and names a window
    above the pipeline's last committed one; a commit moves that pipeline's
    high-water mark to the window and nothing else, any other outcome leaves
    epoch, owner and every high-water mark as they were, and the slot table
    stays well formed. *)
Theorem gate_publish_correct junk s r now_ns o s' i :
  gate_inv s -> wf_result r -> obicall_gate_decide_publish junk s r now_ns = (o, s', i) ->
  publish_result s r now_ns o s'.
Proof. apply publish_spec. Qed.

(** over any sequence of publications and promotions the windows committed
    for a pipeline strictly increase: no window is committed twice, and none at
    or below the mark the run started from. *)
Theorem gate_commits_each_window_once junk s ops id :
  gate_inv s -> Forall valid_gate_op ops ->
  StronglySorted Z.lt (windows_of id (gate_run junk s ops).1) /\
  (forall w, committed s id = Some w -> Forall (Z.lt w) (windows_of id (gate_run junk s ops).1)).
Proof. intros Hi Ho. by apply gate_run_spec. Qed.

(** fencing: commits carry non-decreasing epochs and two commits of one epoch
    come from one broker, so after a promotion nothing the former owner still
    sends is ever committed (for fewer than 2^64 promotions in all). *)
Theorem gate_one_writer_per_epoch junk s ops :
  gate_inv s -> Forall valid_gate_op ops ->
  gs_epoch s + promotions ops < 18446744073709551616 ->
  StronglySorted (fun r1 r2 => res_epoch r1 <= res_epoch r2 /\
      (res_epoch r1 = res_epoch r2 -> res_broker_id r1 = res_broker_id r2))
    (gate_run junk s ops).1 /\
  Forall (fun r => gs_epoch s <= res_epoch r /\
            (res_epoch r = gs_epoch s -> res_broker_id r = gs_owner_broker_id s))
    (gate_run junk s ops).1.
Proof.
  intros Hi Ho Hw. split; [by apply gate_run_one_writer|].
  eapply Forall_impl; [by apply gate_run_epochs|]. simpl. tauto.
Qed.

(** what a shadow needs to be promoted, when the replay-gap sum does not wrap. *)
Theorem gate_promotable_iff shadow rq high_water :
  rd_last_processed_window_seq shadow + rq_max_allowed_replay_gap rq < 18446744073709551616 ->
  0 <= rd_last_processed_window_seq shadow -> 0 <= rq_max_allowed_replay_gap rq ->
  obicall_gate_shadow_promotable shadow rq high_water = true <->
  rd_healthy shadow <> 0 /\ rd_config_digest shadow = rq_required_config_digest rq /\
  rd_checkpoint_schema_version shadow = rq_required_checkpoint_schema_version rq /\
  high_water - rd_last_processed_window_seq shadow <= rq_max_allowed_replay_gap rq.
Proof.
  intros Hw Hl Hg. unfold obicall_gate_shadow_promotable. rewrite u64_id by (unfold is_u64; lia).
  destruct (rd_healthy shadow =? 0) eqn:E1; [split; [done|intros []; lia]|].
  destruct (bool_decide _) eqn:E2; cbn [negb].
  - apply bool_decide_eq_true in E2.
    destruct (rd_checkpoint_schema_version shadow =? _) eqn:E3; cbn [negb].
    + destruct (_ <? high_water) eqn:E4; split; try done; try lia. intros _. split_and!; lia || done.
    + split; [done|]. intros (_&_&?&_). lia.
  - apply bool_decide_eq_false in E2. split; [done|]. by intros (_&?&_).
Qed.

(** with the largest gap the configuration accepts ([--max-replay-gap -1]
    is stored as 2^64 - 1) the sum wraps, and a shadow that has processed every
    committed window is refused. *)
Theorem gate_replay_gap_wraps shadow rq high_water :
  rq_max_allowed_replay_gap rq = 18446744073709551615 ->
  0 < rd_last_processed_window_seq shadow < 18446744073709551616 ->
  high_water = rd_last_processed_window_seq shadow ->
  obicall_gate_shadow_promotable shadow rq high_water = false.
Proof.
  intros Hg Hl ->. unfold obicall_gate_shadow_promotable. rewrite Hg.
  replace (u64 _) with (rd_last_processed_window_seq shadow - 1) by mlia.
  repeat case_match; try done. lia.
Qed.

(** The states the daemon holds are their own canonical form. *)
Lemma gate_inv_canon s : gate_inv s -> gs_struct_size s = sizeof_gate_state -> canon_gate_state s = s.
Proof.
  intros [Hv _ Ht] Hs. destruct s. unfold canon_gate_state. cbn in *. subst.
  unfold active in Ht. cbn [gs_pipeline_count gs_pipelines] in Ht. by rewrite <- Ht.
Qed.

Lemma gate_persist_load io s st f :
  gate_inv s -> gs_struct_size s = sizeof_gate_state ->
  obicall_gate_persist_state io (CFile [] 0) s = (st, f) ->
  (obicall_gate_load_state (fseek 0 f) = Ok s \/
   obicall_gate_load_state (fseek 0 f) = Err OBICALL_ERR_WIRE_MALFORMED) /\
  (st = OBICALL_OK -> obicall_gate_load_state (fseek 0 f) = Ok s).
Proof.
  intros Hi Hs. pose proof (gi_valid _ Hi) as Hv. rewrite gate_persist_write by done. intros H.
  apply write_record_data in H as (_ & _ & k & Hd & Hok); [|done].
  cbn [f_data] in *. rewrite app_nil_l in *. fold (gate_persist_bytes s) in *. unfold fseek.
  pose proof (gate_load_complete s [] Hv) as Hfull. rewrite app_nil_r, gate_inv_canon in Hfull by done.
  split; [|by intros E; rewrite (Hok E)]. rewrite Hd.
  destruct (decide (k < length (gate_persist_bytes s))%nat).
  - right. by apply gate_load_torn.
  - left. by rewrite take_ge by lia.
Qed.

(** C15: the durable record: whatever happens to the writes, reading the file back
    yields the state that was persisted or a malformed-record error, never
    another state; and it yields the state whenever persisting reported success. *)
Theorem gate_persist_then_load io s st f :
  gate_inv s -> gs_struct_size s = sizeof_gate_state ->
  obicall_gate_persist_state io (CFile [] 0) s = (st, f) ->
  (obicall_gate_load_state (fseek 0 f) = Ok s \/
   obicall_gate_load_state (fseek 0 f) = Err OBICALL_ERR_WIRE_MALFORMED) /\
  (st = OBICALL_OK -> obicall_gate_load_state (fseek 0 f) = Ok s).
Proof. apply gate_persist_load. Qed.

(** damage to the state file confined to four consecutive bytes of its
    payload is reported as a checksum error, not loaded. *)
Theorem gate_load_detects_damage s a w w' b extra :
  valid_gate_state s -> gate_state_wire s = a ++ w ++ b -> length w' = length w ->
  (length w <= 4)%nat -> w' <> w -> bytes w -> bytes w' ->
  obicall_gate_load_state (CFile (gate_persist_header s ++ a ++ w' ++ b ++ extra) 0) =
  Err OBICALL_ERR_WIRE_CHECKSUM.
Proof. intros. by apply gate_load_corrupt with (w := w). Qed.

(** a publication from a broker that is not the owner still takes a pipeline
    slot, although it commits nothing. *)
Theorem gate_shadow_takes_a_slot junk s r now_ns :
  gate_inv s -> wf_result r -> res_struct_size r = sizeof_result ->
  res_schema_version r = OBICALL_RESULT_SCHEMA_VERSION -> now_ns < res_valid_until_ns r ->
  gs_owner_broker_id s <> OBICALL_BROKER_NONE -> res_broker_id r <> gs_owner_broker_id s ->
  gs_pipeline_count s < 8 -> ~ In (res_pipeline_id r) (gp_pipeline_id <$> active s) ->
  let '(o, s', _) := obicall_gate_decide_publish junk s r now_ns in
  o <> OBICALL_GATE_COMMIT /\ gs_pipeline_count s' = gs_pipeline_count s + 1.
Proof.
  intros Hi Hr Hsz Hsc Hnow Hown Hbr Hc Hn. unfold obicall_gate_decide_publish.
  rewrite Hsz, Hsc, !Z.eqb_refl. cbn [negb orb]. replace (_ <=? now_ns) with false by lia.
  unfold gate_slot. replace (find_pipeline s (res_pipeline_id r)) with (@None nat).
  2:{ symmetry. apply find_pipeline_None. intros H. apply Hn. by apply list_elem_of_In. }
  unfold OBICALL_MAX_PIPELINES. replace (_ >=? 8) with false by lia.
  cbn [set_pipelines gs_owner_broker_id gs_epoch gs_pipeline_count].
  replace (gs_owner_broker_id s =? OBICALL_BROKER_NONE) with false by lia.
  replace (res_broker_id r =? gs_owner_broker_id s) with false by lia. cbn [negb].
  by destruct (_ <? _).
Qed.

(** a NaN component agrees with anything (for a non-negative covariance
    tolerance): a replica whose estimate has become NaN is not reported as
    disagreeing. *)
Theorem gate_nan_agrees position_tolerance covariance_rel_tolerance b nan :
  is_nan (f64_of_bits nan) = true -> (f64_zero >? covariance_rel_tolerance)%f64 = false ->
  payload_agrees position_tolerance nan b = true /\
  covariance_agrees covariance_rel_tolerance nan b = true.
Proof.
  intros Hn Ht. unfold payload_agrees, covariance_agrees. destruct (f64_of_bits nan); try done.
  split; [by destruct position_tolerance|].
  destruct (f64_of_bits b), covariance_rel_tolerance; simpl in *; by rewrite ?Ht.
Qed.

(** * Witnesses *)

Definition sample_junk : list Z := replicate 64 170.

(** A gate that granted its first epoch to a broker, and nothing committed yet. *)
Definition sample_gate (owner : Z) : obicall_gate_state :=
  GateState sizeof_gate_state 1 1 owner 0 (replicate 8 zero_pipeline).

Lemma sample_gate_inv owner : is_u32 owner -> gate_inv (sample_gate owner).
Proof.
  intros Ho. split; [split|by constructor|done]; cbn; try done.
  repeat constructor; try done; apply zero_pipeline_wf.
Qed.

Lemma prod3_eta {A B C} (x : A * B * C) : x = (x.1.1, x.1.2, x.2).
Proof. by destruct x as [[] ]. Qed.

Lemma gate_publish_witness :
  let d := obicall_gate_decide_publish sample_junk (sample_gate 1) sample_result 10 in
  d.1.1 = OBICALL_GATE_COMMIT /\ publish_result (sample_gate 1) sample_result 10 d.1.1 d.1.2.
Proof.
  intros d. split; [reflexivity|].
  apply (gate_publish_correct sample_junk (sample_gate 1) sample_result 10 d.1.1 d.1.2 d.2).
  - by apply sample_gate_inv.
  - exact sample_result_wf.
  - apply prod3_eta.
Defined.

Definition sample_ops : list gate_op :=
  [OpPublish sample_result 10; OpPublish sample_result 20; OpPromote 2; OpPublish sample_result 30].

Lemma sample_ops_valid : Forall valid_gate_op sample_ops.
Proof. repeat (apply Forall_cons; split; [exact sample_result_wf || done|]). constructor. Qed.

Lemma gate_commits_witness :
  StronglySorted Z.lt (windows_of (res_pipeline_id sample_result)
    (gate_run sample_junk (sample_gate 1) sample_ops).1).
Proof.
  apply (gate_commits_each_window_once sample_junk (sample_gate 1) sample_ops).
  - by apply sample_gate_inv.
  - exact sample_ops_valid.
Defined.

Lemma gate_one_writer_witness :
  Forall (fun r => gs_epoch (sample_gate 1) <= res_epoch r /\
            (res_epoch r = gs_epoch (sample_gate 1) -> res_broker_id r = gs_owner_broker_id (sample_gate 1)))
    (gate_run sample_junk (sample_gate 1) sample_ops).1.
Proof.
  apply (gate_one_writer_per_epoch sample_junk (sample_gate 1) sample_ops).
  - by apply sample_gate_inv.
  - exact sample_ops_valid.
  - reflexivity.
Defined.

Definition sample_shadow (last : Z) : obicall_gate_readiness := Readiness 1 (replicate 32 2) 1 last.

Lemma gate_promotable_witness :
  obicall_gate_shadow_promotable (sample_shadow 40) (PromotionRequirements (replicate 32 2) 1 50) 90 = true.
Proof.
  apply (gate_promotable_iff (sample_shadow 40) (PromotionRequirements (replicate 32 2) 1 50) 90);
    cbn; try lia. split_and!; try done; lia.
Defined.

Lemma gate_replay_gap_witness :
  obicall_gate_shadow_promotable (sample_shadow 40)
    (PromotionRequirements (replicate 32 2) 1 18446744073709551615) 40 = false.
Proof.
  apply (gate_replay_gap_wraps (sample_shadow 40)
    (PromotionRequirements (replicate 32 2) 1 18446744073709551615) 40); cbn; try done.
Defined.

Lemma gate_persist_witness :
  let w := obicall_gate_persist_state io_success (CFile [] 0) (sample_gate 1) in
  obicall_gate_load_state (fseek 0 w.2) = Ok (sample_gate 1).
Proof.
  intros w. apply (gate_persist_then_load io_success (sample_gate 1) w.1 w.2).
  - by apply sample_gate_inv.
  - reflexivity.
  - apply surjective_pairing.
  - vm_compute. reflexivity.
Defined.

(** The first byte of the payload, 152, is changed to 153. *)
Lemma gate_load_damage_witness :
  obicall_gate_load_state (CFile (gate_persist_header (sample_gate 1) ++ [] ++ [153] ++
    drop 1 (gate_state_wire (sample_gate 1)) ++ []) 0) = Err OBICALL_ERR_WIRE_CHECKSUM.
Proof.
  apply (gate_load_detects_damage (sample_gate 1) [] [152] [153]).
  - by apply gi_valid, sample_gate_inv.
  - reflexivity.
  - reflexivity.
  - apply Nat.leb_le. reflexivity.
  - discriminate.
  - by apply forallb_bytes.
  - by apply forallb_bytes.
Defined.

Lemma gate_shadow_slot_witness :
  let '(o, s', _) := obicall_gate_decide_publish sample_junk (sample_gate 2) sample_result 10 in
  o <> OBICALL_GATE_COMMIT /\ gs_pipeline_count s' = gs_pipeline_count (sample_gate 2) + 1.
Proof.
  apply (gate_shadow_takes_a_slot sample_junk (sample_gate 2) sample_result 10); try done.
  - by apply sample_gate_inv.
  - exact sample_result_wf.
  - intros [].
Defined.

Lemma gate_nan_witness :
  payload_agrees f64_one 9221120237041090560 f1 = true /\
  covariance_agrees f64_one 9221120237041090560 f1 = true.
Proof. apply (gate_nan_agrees f64_one f64_one f1 9221120237041090560); reflexivity. Defined.
