(* ===== verification/GateDaemon.v ===== *)
(** * GateDaemon: the gate process around its decisions (src/gate/gate_main.c)

    The context is the C [g_ctx] without its mutex and sockets, together with
    the bytes of the durable state file.  Each message handler is one step (the
    C code runs it under the mutex from the decision to the persist; its single
    statements are in [GateThreads]), taking the monotonic clock reading and the
    fate of its file operations as inputs.
    [gate_restart] is what [main] does with the state file when the process
    starts again.  The claims hold for every interleaving of messages, file
    failures and restarts. *)

From Stdlib Require Import Sorting.Sorted.
From S2P Require Import Prelude Types Samples Cursor Wire WireMsg Stdio Gate.

Record broker_view := BrokerView {
  bv_known : bool;
  bv_readiness : obicall_gate_readiness;
  bv_last_heartbeat_ns : Z
}.

Record gate_ctx := GateCtx {
  gc_state : obicall_gate_state;
  gc_brokers : list broker_view;                 (* [3], indexed by broker id *)
  gc_state_file : option (list Z);               (* the durable file's bytes *)
  gc_required_config_digest : list Z;
  gc_required_checkpoint_schema_version : Z;
  gc_max_allowed_replay_gap : Z;
  gc_confirm_timeout_ns : Z;
  gc_start_time_ns : Z
}.

Definition zero_view : broker_view := BrokerView false (Readiness 0 (replicate 32 0) 0 0) 0.

Definition broker_at (ctx : gate_ctx) (b : Z) : broker_view :=
  default zero_view (gc_brokers ctx !! Z.to_nat b).

Definition with_state (ctx : gate_ctx) (s : obicall_gate_state) : gate_ctx :=
  GateCtx s (gc_brokers ctx) (gc_state_file ctx) (gc_required_config_digest ctx)
    (gc_required_checkpoint_schema_version ctx) (gc_max_allowed_replay_gap ctx)
    (gc_confirm_timeout_ns ctx) (gc_start_time_ns ctx).
Definition with_file (ctx : gate_ctx) (f : option (list Z)) : gate_ctx :=
  GateCtx (gc_state ctx) (gc_brokers ctx) f (gc_required_config_digest ctx)
    (gc_required_checkpoint_schema_version ctx) (gc_max_allowed_replay_gap ctx)
    (gc_confirm_timeout_ns ctx) (gc_start_time_ns ctx).
Definition with_broker (ctx : gate_ctx) (b : Z) (v : broker_view) : gate_ctx :=
  GateCtx (gc_state ctx) (<[Z.to_nat b := v]> (gc_brokers ctx)) (gc_state_file ctx)
    (gc_required_config_digest ctx) (gc_required_checkpoint_schema_version ctx)
    (gc_max_allowed_replay_gap ctx) (gc_confirm_timeout_ns ctx) (gc_start_time_ns ctx).

(** ** Persisting *)

(** The fate of one [persist_locked]: opening the temporary file, the writes to
    it, and the atomic rename over the state file ([osal_file_atomic_replace],
    which either happens entirely or not at all). *)
Record persist_env := PersistEnv {
  pe_fopen : bool;
  pe_io : io_outcome;
  pe_replace : bool
}.

(** [true] is the C return value 0. *)
Definition persist_locked (env : persist_env) (ctx : gate_ctx) : bool * gate_ctx :=
  if negb (pe_fopen env) then (false, ctx)
  else
  let '(st, f) := obicall_gate_persist_state (pe_io env) (CFile [] 0) (gc_state ctx) in
  match st with
  | OBICALL_OK => if pe_replace env then (true, with_file ctx (Some (f_data f))) else (false, ctx)
  | _ => (false, ctx)
  end.

(** ** Promotion *)

(** The loop over the pipelines' high-water marks. *)
Definition committed_high_water (s : obicall_gate_state) : Z :=
  fold_left (fun hw p => if gp_last_committed_window_seq p >? hw
                         then gp_last_committed_window_seq p else hw)
    (take (Z.to_nat (gs_pipeline_count s)) (gs_pipelines s)) 0.

Definition evaluate_promotion_locked (env : persist_env) (now : Z) (ctx : gate_ctx) : gate_ctx :=
  if gs_owner_broker_id (gc_state ctx) =? OBICALL_BROKER_NONE then
    let a := broker_at ctx OBICALL_BROKER_A in
    if bv_known a && negb (rd_healthy (bv_readiness a) =? 0) then
      let '(_, s) := obicall_gate_promote (gc_state ctx) OBICALL_BROKER_A in
      (persist_locked env (with_state ctx s)).2
    else ctx
  else
  let owner := gs_owner_broker_id (gc_state ctx) in
  let ov := broker_at ctx owner in
  if negb (bv_known ov) then ctx
  else
  let age := i64 (now - bv_last_heartbeat_ns ov) in
  if age <=? gc_confirm_timeout_ns ctx then ctx
  else
  let other := if owner =? OBICALL_BROKER_A then OBICALL_BROKER_B else OBICALL_BROKER_A in
  let sv := broker_at ctx other in
  if negb (bv_known sv) then ctx
  else
  let req := PromotionRequirements (gc_required_config_digest ctx)
               (gc_required_checkpoint_schema_version ctx) (gc_max_allowed_replay_gap ctx) in
  if obicall_gate_shadow_promotable (bv_readiness sv) req (committed_high_water (gc_state ctx)) then
    let '(_, s) := obicall_gate_promote (gc_state ctx) other in
    (persist_locked env (with_state ctx s)).2
  else ctx.

(** ** Message handlers *)

Definition status_reply (now : Z) (ctx : gate_ctx) : obicall_msg_status_reply :=
  StatusReply 1 (gs_epoch (gc_state ctx)) (gs_owner_broker_id (gc_state ctx))
    (committed_high_water (gc_state ctx)) (i64 (now - gc_start_time_ns ctx)).

(** [None]: the payload is dropped without a reply. *)
Definition handle_heartbeat (env : persist_env) (now : Z) (payload : list Z) (ctx : gate_ctx)
    : option obicall_msg_status_reply * gate_ctx :=
  match obicall_wire_decode_heartbeat payload with
  | Err _ => (None, ctx)
  | Ok hb =>
      if negb (hb_broker_id hb =? OBICALL_BROKER_A) && negb (hb_broker_id hb =? OBICALL_BROKER_B)
      then (None, ctx)
      else
      let v := BrokerView true
                 (Readiness (hb_healthy hb) (hb_config_digest hb) (hb_checkpoint_schema_version hb)
                    (hb_last_window_seq hb)) now in
      let ctx := evaluate_promotion_locked env now (with_broker ctx (hb_broker_id hb) v) in
      (Some (status_reply now ctx), ctx)
  end.

Definition ack_status (outcome : obicall_gate_publish_outcome) (persisted_ok : bool) : status :=
  match outcome with
  | OBICALL_GATE_COMMIT => if persisted_ok then OBICALL_OK else OBICALL_ERR_GATE_PERSISTENCE
  | OBICALL_GATE_SHADOW_RECORDED => OBICALL_OK
  | OBICALL_GATE_REJECT_NOT_OWNER => OBICALL_ERR_GATE_NOT_OWNER
  | OBICALL_GATE_REJECT_STALE_EPOCH => OBICALL_ERR_GATE_STALE_EPOCH
  | OBICALL_GATE_REJECT_DUPLICATE_WINDOW => OBICALL_ERR_GATE_DUPLICATE_WINDOW
  | OBICALL_GATE_REJECT_EXPIRED => OBICALL_ERR_GATE_EXPIRED
  | OBICALL_GATE_REJECT_INCOMPATIBLE => OBICALL_ERR_GATE_INCOMPATIBLE
  | OBICALL_GATE_REJECT_NO_CAPACITY => OBICALL_ERR_INTERNAL
  end.

Definition handle_result_publish (junk : list Z) (env : persist_env) (now : Z) (payload : list Z)
    (ctx : gate_ctx) : option obicall_msg_result_ack * gate_ctx :=
  match obicall_wire_decode_result payload with
  | Err _ => (None, ctx)
  | Ok result =>
      let '(outcome, s, _) := obicall_gate_decide_publish junk (gc_state ctx) result now in
      let ctx := with_state ctx s in
      let '(persisted_ok, ctx) :=
        match outcome with OBICALL_GATE_COMMIT => persist_locked env ctx | _ => (true, ctx) end in
      let accepted := bool_decide (outcome = OBICALL_GATE_COMMIT) && persisted_ok in
      (Some (ResultAck (strncpy_zeroed OBICALL_PIPELINE_ID_LEN (res_pipeline_id result))
               (res_window_seq result) (if accepted then 1 else 0)
               (status_code (ack_status outcome persisted_ok))),
       ctx)
  end.

Definition handle_status_query (now : Z) (ctx : gate_ctx) : obicall_msg_status_reply * gate_ctx :=
  (status_reply now ctx, ctx).

(** ** Start-up *)

Definition zero_gate_state : obicall_gate_state :=
  GateState 0 0 0 0 0 (replicate 8 zero_pipeline).

(** [main] up to the listener: the state of the fresh process, or [None] when it
    refuses to start because the file is not trustworthy. *)
Definition gate_restart (now : Z) (ctx : gate_ctx) : option gate_ctx :=
  let fresh s :=
    Some (GateCtx (GateState sizeof_gate_state 1 (gs_epoch s) (gs_owner_broker_id s)
                     (gs_pipeline_count s) (gs_pipelines s))
            (replicate 3 zero_view) (gc_state_file ctx) (gc_required_config_digest ctx)
            (gc_required_checkpoint_schema_version ctx) (gc_max_allowed_replay_gap ctx)
            (gc_confirm_timeout_ns ctx) now) in
  match gc_state_file ctx with
  | None => fresh zero_gate_state
  | Some data =>
      match obicall_gate_load_state (CFile data 0) with
      | Err _ => None
      | Ok s => fresh s
      end
  end.

(** ** Runs of the process *)

Inductive gate_event :=
| EvHeartbeat (env : persist_env) (now : Z) (payload : list Z)
| EvResult (env : persist_env) (now : Z) (payload : list Z)
| EvStatusQuery (now : Z)
| EvRestart (now : Z).

(** One event: the result acknowledged as accepted, if any, and the context. *)
Definition gate_step (junk : list Z) (ctx : gate_ctx) (ev : gate_event)
    : option obicall_result * gate_ctx :=
  match ev with
  | EvHeartbeat env now payload => (None, (handle_heartbeat env now payload ctx).2)
  | EvResult env now payload =>
      let '(ack, ctx) := handle_result_publish junk env now payload ctx in
      (match ack, obicall_wire_decode_result payload with
       | Some ack, Ok r => if ra_accepted ack =? 1 then Some r else None
       | _, _ => None
       end, ctx)
  | EvStatusQuery now => (None, (handle_status_query now ctx).2)
  | EvRestart now => (None, default ctx (gate_restart now ctx))
  end.

Fixpoint gate_trace (junk : list Z) (ctx : gate_ctx) (evs : list gate_event)
    : list obicall_result * gate_ctx :=
  match evs with
  | [] => ([], ctx)
  | ev :: evs =>
      let '(acc, ctx) := gate_step junk ctx ev in
      let '(rs, ctx) := gate_trace junk ctx evs in
      (option_list acc ++ rs, ctx)
  end.

(** * Lemmas *)

Definition live_state (s : obicall_gate_state) : Prop :=
  gate_inv s /\ gs_struct_size s = sizeof_gate_state.

Lemma persist_locked_spec env ctx ok ctx' :
  live_state (gc_state ctx) -> persist_locked env ctx = (ok, ctx') ->
  if ok then exists data, ctx' = with_file ctx (Some data) /\
                          obicall_gate_load_state (CFile data 0) = Ok (gc_state ctx)
  else ctx' = ctx.
Proof.
  intros [Hi Hs]. unfold persist_locked. destruct (pe_fopen env); cbn [negb]; [|by intros [= <- <-]].
  destruct (obicall_gate_persist_state _ _ _) as [st f] eqn:E.
  destruct (gate_persist_load _ _ _ _ Hi Hs E) as [_ Hl].
  destruct st; try by intros [= <- <-]. destruct (pe_replace env); intros [= <- <-]; [|done].
  exists (f_data f). split; [done|]. by apply Hl.
Qed.

(** The state a restart would recover. *)
Definition durable (ctx : gate_ctx) (d : obicall_gate_state) : Prop :=
  match gc_state_file ctx with
  | None => d = GateState sizeof_gate_state 1 0 0 0 (replicate 8 zero_pipeline)
  | Some data => obicall_gate_load_state (CFile data 0) = Ok d
  end.

(** [s] has seen everything [d] has: at least its commits, at least its epoch,
    and the same owner in the same epoch. *)
Record ahead (d s : obicall_gate_state) : Prop := {
  ah_committed : forall id w, committed d id = Some w -> exists w', committed s id = Some w' /\ w <= w';
  ah_epoch : gs_epoch d <= gs_epoch s;
  ah_owner : gs_epoch d = gs_epoch s -> gs_owner_broker_id d = gs_owner_broker_id s
}.

#[export] Instance ahead_preorder : PreOrder ahead.
Proof.
  split.
  - intros s. split; [|lia|done]. intros id w H. exists w. split; [done|lia].
  - intros s1 s2 s3 [H1 H2 H3] [H4 H5 H6]. split; [|lia|].
    + intros id w H. destruct (H1 id w H) as (w' & H' & ?). destruct (H4 id w' H') as (w'' & ? & ?).
      exists w''. split; [done|lia].
    + intros E. rewrite H3, H6 by lia. done.
Qed.

Record daemon_inv (ctx : gate_ctx) (d : obicall_gate_state) : Prop := {
  di_live : live_state (gc_state ctx);
  di_durable : durable ctx d;
  di_durable_live : live_state d;
  di_ahead : ahead d (gc_state ctx)
}.

Lemma zero_gate_state_live : live_state (GateState sizeof_gate_state 1 0 0 0 (replicate 8 zero_pipeline)).
Proof.
  split; [|done]. split; [split|by constructor|done]; cbn; try done.
  repeat constructor; try done; apply zero_pipeline_wf.
Qed.

Lemma publish_ahead s r now_ns o s' : publish_result s r now_ns o s' -> ahead s s'.
Proof.
  intros [_ He Ho Hc Hcom]. split; [|lia|congruence]. intros id w Hw. rewrite Hcom.
  destruct (decide (_ /\ _)) as [[Hoc ->]|]; [|exists w; split; [done|lia]].
  apply Hc in Hoc. pose proof (cm_window _ _ _ Hoc _ Hw). eexists. split; [done|lia].
Qed.

Lemma publish_struct_size junk s r now_ns o s' i :
  obicall_gate_decide_publish junk s r now_ns = (o, s', i) -> gs_struct_size s' = gs_struct_size s.
Proof.
  unfold obicall_gate_decide_publish, gate_slot. intros H. repeat case_match; by simplify_eq/=.
Qed.

Lemma promote_ahead s b :
  is_u64 (gs_epoch s) -> gs_epoch s + 1 < 18446744073709551616 -> ahead s (obicall_gate_promote s b).2.
Proof.
  intros He Hw. assert (gs_epoch (obicall_gate_promote s b).2 = gs_epoch s + 1) as E
    by (cbn; apply u64_id; unfold is_u64 in *; lia).
  split; [|lia|lia]. intros id w Hc. exists w. split; [exact Hc|lia].
Qed.

(** A new state, persisted or not, keeps the invariant. *)
Lemma persist_inv env ctx d s ok ctx' :
  daemon_inv ctx d -> live_state s -> ahead (gc_state ctx) s ->
  persist_locked env (with_state ctx s) = (ok, ctx') ->
  gc_state ctx' = s /\ exists d', daemon_inv ctx' d' /\ ahead d d' /\ d' = (if ok then s else d).
Proof.
  intros [Hl Hd Hdl Ha] Hs Has H. apply persist_locked_spec in H; [|done].
  assert (ahead d s) by by etransitivity.
  destruct ok.
  - destruct H as (data & -> & Hload). cbn in Hload. split; [done|]. exists s.
    split_and!; done.
  - subst ctx'. split; [done|]. exists d. split_and!; done.
Qed.

(** Where a promotion can come from. *)
Definition may_promote (ctx : gate_ctx) (now new_owner : Z) : Prop :=
  let s := gc_state ctx in
  (gs_owner_broker_id s = OBICALL_BROKER_NONE /\ new_owner = OBICALL_BROKER_A /\
   bv_known (broker_at ctx OBICALL_BROKER_A) = true /\
   rd_healthy (bv_readiness (broker_at ctx OBICALL_BROKER_A)) <> 0) \/
  (gs_owner_broker_id s <> OBICALL_BROKER_NONE /\
   new_owner = (if gs_owner_broker_id s =? OBICALL_BROKER_A then OBICALL_BROKER_B else OBICALL_BROKER_A) /\
   bv_known (broker_at ctx (gs_owner_broker_id s)) = true /\
   gc_confirm_timeout_ns ctx < i64 (now - bv_last_heartbeat_ns (broker_at ctx (gs_owner_broker_id s))) /\
   bv_known (broker_at ctx new_owner) = true /\
   obicall_gate_shadow_promotable (bv_readiness (broker_at ctx new_owner))
     (PromotionRequirements (gc_required_config_digest ctx)
        (gc_required_checkpoint_schema_version ctx) (gc_max_allowed_replay_gap ctx))
     (committed_high_water s) = true).

Lemma evaluate_promotion_cases env now ctx :
  (evaluate_promotion_locked env now ctx = ctx /\ forall b, ~ may_promote ctx now b) \/
  exists b, may_promote ctx now b /\ is_u32 b /\
    evaluate_promotion_locked env now ctx =
    (persist_locked env (with_state ctx (obicall_gate_promote (gc_state ctx) b).2)).2.
Proof.
  unfold evaluate_promotion_locked, may_promote.
  destruct (gs_owner_broker_id (gc_state ctx) =? OBICALL_BROKER_NONE) eqn:Eo.
  - apply Z.eqb_eq in Eo.
    destruct (bv_known (broker_at ctx OBICALL_BROKER_A) && _) eqn:E.
    + right. exists OBICALL_BROKER_A. apply andb_true_iff in E as [E1 E2]. split_and!; [|done..].
      left. split_and!; try done. lia.
    + left. split; [done|]. intros b [(_ & -> & Hk & Hh)|(? & _)]; [|done].
      rewrite Hk in E. cbn [andb] in E. lia.
  - apply Z.eqb_neq in Eo.
    set (owner := gs_owner_broker_id (gc_state ctx)) in *.
    set (other := if owner =? OBICALL_BROKER_A then OBICALL_BROKER_B else OBICALL_BROKER_A).
    destruct (bv_known (broker_at ctx owner)) eqn:E1; cbn [negb].
    2:{ left. split; [done|]. by intros b [(? & _)|(_ & _ & ? & _)]. }
    destruct (_ <=? gc_confirm_timeout_ns ctx) eqn:E2.
    { left. split; [done|]. intros b [(? & _)|(_ & _ & _ & ? & _)]; [done|lia]. }
    destruct (bv_known (broker_at ctx other)) eqn:E3; cbn [negb].
    2:{ left. split; [done|]. intros b [(? & _)|(_ & -> & _ & _ & ? & _)]; [done|congruence]. }
    destruct (obicall_gate_shadow_promotable _ _ _) eqn:E4.
    + right. exists other. split_and!; [|by unfold other; destruct (owner =? _)|done].
      right. split_and!; try done. lia.
    + left. split; [done|]. intros b [(? & _)|(_ & -> & _ & _ & _ & ?)]; [done|congruence].
Qed.

(** Every file operation of the gate succeeds. *)
Definition disk_ok : persist_env := PersistEnv true io_success true.

Lemma persist_disk_ok ctx : gate_inv (gc_state ctx) -> (persist_locked disk_ok ctx).1 = true.
Proof.
  intros [Hv _ _]. unfold persist_locked. cbn [pe_fopen disk_ok negb pe_io pe_replace].
  by rewrite gate_persist_write, write_record_success.
Qed.

(** [s] promises no more than [d] does. *)
Record caught_up (d s : obicall_gate_state) : Prop := {
  cu_epoch : gs_epoch s = gs_epoch d;
  cu_owner : gs_owner_broker_id s = gs_owner_broker_id d;
  cu_committed : forall id, committed s id = committed d id
}.

#[export] Instance caught_up_refl : Reflexive caught_up.
Proof. by split. Qed.

(** One event: the invariant, what is durable after it ([saves]: its file operations
    succeed), and what an accepted acknowledgement means. *)
Record step_ok (ctx : gate_ctx) (d : obicall_gate_state) (saves : Prop) (acc : option obicall_result)
    (ctx' : gate_ctx) (d' : obicall_gate_state) : Prop := {
  so_inv : daemon_inv ctx' d';
  so_ahead : ahead d d';
  so_epoch : gs_epoch (gc_state ctx') <= gs_epoch (gc_state ctx) + 1;
  so_origin : d' = d \/ d' = gc_state ctx';
  so_saved : saves -> caught_up d (gc_state ctx) -> caught_up d' (gc_state ctx');
  so_acc : forall r, acc = Some r ->
    (forall w, committed d (res_pipeline_id r) = Some w -> w < res_window_seq r) /\
    committed d' (res_pipeline_id r) = Some (res_window_seq r) /\
    gs_epoch d' = res_epoch r /\ gs_owner_broker_id d' = res_broker_id r
}.

Lemma step_ok_same ctx d saves : daemon_inv ctx d -> step_ok ctx d saves None ctx d.
Proof. intros H. by split; [| |lia|left| |]. Qed.

Lemma handle_heartbeat_ok env now payload ctx d :
  daemon_inv ctx d -> gs_epoch (gc_state ctx) + 1 < 18446744073709551616 ->
  exists d', step_ok ctx d (env = disk_ok) None (handle_heartbeat env now payload ctx).2 d'.
Proof.
  intros Hinv Hw. pose proof (step_ok_same ctx d (env = disk_ok) Hinv) as Hid.
  unfold handle_heartbeat. destruct (obicall_wire_decode_heartbeat payload) as [hb|]; [|by exists d].
  destruct (_ && _); [by exists d|]. cbn [snd]. set (ctx1 := with_broker _ _ _).
  assert (daemon_inv ctx1 d) as Hinv1 by (destruct Hinv; by split).
  destruct (evaluate_promotion_cases env now ctx1) as [[-> _]|(b & _ & Hb & ->)].
  { exists d. destruct Hid as [_ ? ? _ Hsv ?]. by split; [| | |left| |]. }
  set (s := (obicall_gate_promote (gc_state ctx1) b).2).
  destruct (di_live _ _ Hinv1) as [Hi Hsz].
  pose proof (vgs_epoch _ (gi_valid _ Hi)) as He.
  destruct (persist_locked env (with_state ctx1 s)) as [ok ctx2] eqn:Ep.
  destruct (persist_inv env ctx1 d s ok ctx2 Hinv1) as (Hs & d' & Hd' & Had & Hd2); try done.
  - split; [by apply promote_inv|done].
  - by apply promote_ahead.
  - exists d'. cbn [snd]. split; [done|done| | | |done].
    + rewrite Hs. unfold s. cbn. change (gc_state ctx1) with (gc_state ctx) in *. clear -He Hw. mlia.
    + rewrite Hs, Hd2. destruct ok; auto.
    + intros -> _. pose proof (persist_disk_ok (with_state ctx1 s) ltac:(by apply promote_inv)) as Hok.
      rewrite Ep in Hok. cbn [fst] in Hok. by rewrite Hs, Hd2, Hok.
Qed.

Lemma canon_result_wf a : valid_result a -> wf_result (canon_result a).
Proof.
  intros [[] Hp Hc Hs].
  unfold OBICALL_MAX_PAYLOAD_DOUBLES, OBICALL_MAX_COV_DOUBLES, OBICALL_MAX_SOURCES in *.
  destruct (pad_used_take is_u64 6 0 (res_payload a) (res_payload_count a)); try done; try lia.
  destruct (pad_used_take is_u64 36 0 (res_covariance a) (res_covariance_count a)); try done; try lia.
  destruct (pad_used_take (is_chars OBICALL_SENSOR_ID_LEN) 8 (replicate 32 0) (res_sources a)
    (res_source_count a)); try done; try lia; try apply is_chars_zero.
Qed.

Lemma decoded_result_wf payload r :
  bytes payload -> obicall_wire_decode_result payload = Ok r -> wf_result r.
Proof.
  intros Hb H. destruct (dec_sound _ _ Hb H) as (a & extra & Ha & _ & ->). by apply canon_result_wf.
Qed.

Lemma handle_result_publish_ok junk env now payload ctx d :
  daemon_inv ctx d -> bytes payload ->
  exists d', step_ok ctx d (env = disk_ok) (gate_step junk ctx (EvResult env now payload)).1
                           (gate_step junk ctx (EvResult env now payload)).2 d'.
Proof.
  intros Hinv Hb. pose proof (step_ok_same ctx d (env = disk_ok) Hinv) as Hid.
  unfold gate_step, handle_result_publish.
  destruct (obicall_wire_decode_result payload) as [r|] eqn:Er; [|by exists d].
  pose proof (decoded_result_wf _ _ Hb Er) as Hr.
  destruct (obicall_gate_decide_publish junk (gc_state ctx) r now) as [[o s] i] eqn:E.
  destruct (di_live _ _ Hinv) as [Hi Hsz].
  pose proof (publish_spec _ _ _ _ _ _ _ Hi Hr E) as Hp. pose proof (publish_ahead _ _ _ _ _ Hp) as Ha.
  assert (live_state s) as Hls by (split; [apply Hp|by rewrite (publish_struct_size _ _ _ _ _ _ _ E)]).
  pose proof (pr_epoch _ _ _ _ _ Hp) as Hep.
  destruct (decide (o = OBICALL_GATE_COMMIT)) as [->|Hne].
  - destruct (persist_locked env (with_state ctx s)) as [ok ctx2] eqn:Ep.
    destruct (persist_inv env ctx d s ok ctx2 Hinv Hls Ha Ep) as (Hs & d' & Hd' & Had & Hd2).
    exists d'. cbn [fst snd]. split; [done|done|rewrite Hs; lia|rewrite Hs, Hd2; destruct ok; auto| |].
    { intros -> _. pose proof (persist_disk_ok (with_state ctx s) ltac:(apply Hp)) as Hok.
      rewrite Ep in Hok. cbn [fst] in Hok. by rewrite Hs, Hd2, Hok. }
    intros r' Hacc. cbn in Hacc. destruct ok; [|done]. injection Hacc as <-. subst d'.
    pose proof (proj1 (pr_commit _ _ _ _ _ Hp) eq_refl) as Hc. split_and!.
    + intros w Hw. destruct (ah_committed _ _ (di_ahead _ _ Hinv) _ _ Hw) as (w' & Hw' & ?).
      pose proof (cm_window _ _ _ Hc _ Hw'). lia.
    + rewrite (pr_committed _ _ _ _ _ Hp). by rewrite decide_True.
    + rewrite Hep. symmetry. apply Hc.
    + rewrite (pr_owner _ _ _ _ _ Hp). symmetry. apply Hc.
  - assert ((match o with OBICALL_GATE_COMMIT => persist_locked env (with_state ctx s)
                     | _ => (true, with_state ctx s) end) = (true, with_state ctx s)) as ->
      by by destruct o.
    rewrite bool_decide_eq_false_2 by done. exists d. cbn. split; [|done|cbn; lia|by left| |done].
    + destruct Hinv. split; [done..|]. by etransitivity.
    + intros _ [He Ho Hc]. split; cbn.
      * by rewrite Hep.
      * by rewrite (pr_owner _ _ _ _ _ Hp).
      * intros id. rewrite (pr_committed _ _ _ _ _ Hp), decide_False by (by intros []). apply Hc.
Qed.

Lemma durable_fresh d :
  ahead d (GateState sizeof_gate_state 1 (gs_epoch d)
    (gs_owner_broker_id d) (gs_pipeline_count d) (gs_pipelines d)).
Proof. split; [|done..]. intros id w H. exists w. split; [exact H|lia]. Qed.

(** Two states that say the same of epoch, owner and every pipeline slot. *)
Record same_data (s d : obicall_gate_state) : Prop := {
  sd_epoch : gs_epoch s = gs_epoch d;
  sd_owner : gs_owner_broker_id s = gs_owner_broker_id d;
  sd_count : gs_pipeline_count s = gs_pipeline_count d;
  sd_pipelines : gs_pipelines s = gs_pipelines d
}.

Lemma same_data_committed s d : same_data s d -> forall id, committed s id = committed d id.
Proof. intros [_ _ Hc Hp] id. unfold committed, active. by rewrite Hc, Hp. Qed.

Lemma gate_restart_ok now ctx d :
  daemon_inv ctx d -> exists ctx', gate_restart now ctx = Some ctx' /\ daemon_inv ctx' d /\
    same_data (gc_state ctx') d.
Proof.
  intros [Hl Hd Hdl Ha]. unfold gate_restart, durable in *.
  assert (forall s, live_state s -> live_state (GateState sizeof_gate_state 1 (gs_epoch s)
    (gs_owner_broker_id s) (gs_pipeline_count s) (gs_pipelines s))) as Hlive.
  { intros s [[[] ? ?] ?]. split; [|done]. split; [split|done|done]; done. }
  destruct (gc_state_file ctx) as [data|] eqn:Ef.
  - rewrite Hd. eexists. split; [done|]. split; [|done]. split.
    + by apply Hlive.
    + done.
    + done.
    + apply durable_fresh.
  - subst d. eexists. split; [done|]. split; [|done]. split; try done.
Qed.

Definition valid_event (ev : gate_event) : Prop :=
  match ev with EvResult _ _ payload => bytes payload | _ => True end.

(** The file operations of the event succeed. *)
Definition event_saves (ev : gate_event) : Prop :=
  match ev with EvHeartbeat env _ _ | EvResult env _ _ => env = disk_ok | _ => True end.

Lemma gate_step_ok junk ctx d ev :
  daemon_inv ctx d -> valid_event ev -> gs_epoch (gc_state ctx) + 1 < 18446744073709551616 ->
  exists d', step_ok ctx d (event_saves ev) (gate_step junk ctx ev).1 (gate_step junk ctx ev).2 d'.
Proof.
  intros Hinv Hev Hw. destruct ev as [env now payload|env now payload|now|now].
  - by apply handle_heartbeat_ok.
  - by apply handle_result_publish_ok.
  - exists d. by apply step_ok_same.
  - destruct (gate_restart_ok now ctx d Hinv) as (ctx' & E & Hinv' & Hsd). exists d.
    unfold gate_step. rewrite E. cbn [default fst snd]. change (Datatypes.id ctx') with ctx'.
    pose proof (sd_epoch _ _ Hsd). split; [done|done| |by left| |done].
    + pose proof (ah_epoch _ _ (di_ahead _ _ Hinv)). lia.
    + intros _ _. destruct Hsd as [? ? ? ?]. split; [done|done|]. by apply same_data_committed.
Qed.

(** Order of two accepted results. *)
Definition acc_before (r1 r2 : obicall_result) : Prop :=
  (res_pipeline_id r1 = res_pipeline_id r2 -> res_window_seq r1 < res_window_seq r2) /\
  res_epoch r1 <= res_epoch r2 /\
  (res_epoch r1 = res_epoch r2 -> res_broker_id r1 = res_broker_id r2).

(** [r] is accepted by a process that recovered [d] or went on from it. *)
Definition acc_after (d : obicall_gate_state) (r : obicall_result) : Prop :=
  (forall w, committed d (res_pipeline_id r) = Some w -> w < res_window_seq r) /\
  gs_epoch d <= res_epoch r /\
  (gs_epoch d = res_epoch r -> gs_owner_broker_id d = res_broker_id r).

Lemma acc_after_ahead d d' r : ahead d d' -> acc_after d' r -> acc_after d r.
Proof.
  intros [H1 H2 H3] (Hw & He & Ho). split_and!; [|lia|].
  - intros w Hc. destruct (H1 _ _ Hc) as (w' & Hc' & ?). specialize (Hw _ Hc'). lia.
  - intros E. rewrite H3, Ho by lia. done.
Qed.

Lemma gate_trace_ok junk evs ctx d :
  daemon_inv ctx d -> Forall valid_event evs ->
  gs_epoch (gc_state ctx) + Z.of_nat (length evs) < 18446744073709551616 ->
  StronglySorted acc_before (gate_trace junk ctx evs).1 /\
  Forall (acc_after d) (gate_trace junk ctx evs).1.
Proof.
  intros Hinv Hevs. revert ctx d Hinv. induction Hevs as [|ev evs Hev Hevs IH]; intros ctx d Hinv Hw.
  { split; constructor. }
  cbn [length] in Hw. cbn [gate_trace].
  destruct (gate_step_ok junk ctx d ev Hinv Hev ltac:(lia)) as [d' [Hinv' Had He _ _ Hacc]].
  destruct (gate_step junk ctx ev) as [acc ctx'] eqn:E. cbn [fst snd] in *.
  destruct (IH ctx' d' Hinv' ltac:(lia)) as [IH1 IH2].
  destruct (gate_trace junk ctx' evs) as [rs ctx2]. cbn [fst] in *.
  assert (Forall (acc_after d) rs) as Hrs
    by (eapply Forall_impl; [exact IH2|intros r; by apply acc_after_ahead]).
  destruct acc as [r|]; cbn [option_list app]; [|done].
  destruct (Hacc r eq_refl) as (Hwin & Hcom & Hep & Hown). split; constructor; try done.
  - eapply Forall_impl; [exact IH2|]. intros r' (Hw' & He' & Ho'). split_and!; [|lia|].
    + intros Ei. rewrite Ei in Hcom. by apply Hw'.
    + intros Ee. rewrite <- Hown, Ho' by lia. done.
  - split_and!; [done|rewrite <- Hep; apply Had|]. intros Ee. rewrite <- Hown.
    apply (ah_owner _ _ Had). lia.
Qed.

(** The contexts the daemon starts from: a restart over any durable file it
    wrote, or over none. *)
Definition started (ctx : gate_ctx) (d : obicall_gate_state) : Prop :=
  daemon_inv ctx d /\ (forall b, bv_known (broker_at ctx b) = false).

Lemma heartbeat_from payload hb now env ctx :
  obicall_wire_decode_heartbeat payload = Ok hb ->
  hb_broker_id hb = OBICALL_BROKER_A \/ hb_broker_id hb = OBICALL_BROKER_B ->
  let v := BrokerView true (Readiness (hb_healthy hb) (hb_config_digest hb)
             (hb_checkpoint_schema_version hb) (hb_last_window_seq hb)) now in
  let ctx' := evaluate_promotion_locked env now (with_broker ctx (hb_broker_id hb) v) in
  handle_heartbeat env now payload ctx = (Some (status_reply now ctx'), ctx').
Proof.
  intros Hd Hb. unfold handle_heartbeat. rewrite Hd. by destruct Hb as [-> | ->].
Qed.

Lemma persist_locked_state env ctx : gc_state (persist_locked env ctx).2 = gc_state ctx.
Proof.
  unfold persist_locked. destruct (negb _); [done|].
  destruct (obicall_gate_persist_state _ _ _) as [st f]. destruct st; try done. by destruct (pe_replace env).
Qed.

(** While the process runs, whatever becomes of its files, its epoch does not go back,
    and it accepts nothing but results of its epoch. *)
Definition no_restart (ev : gate_event) : Prop := match ev with EvRestart _ => False | _ => True end.

Lemma gate_step_running junk ctx ev :
  gate_inv (gc_state ctx) -> valid_event ev -> no_restart ev -> gs_epoch (gc_state ctx) + 1 < 18446744073709551616 ->
  let '(acc, ctx') := gate_step junk ctx ev in
  gate_inv (gc_state ctx') /\
  gs_epoch (gc_state ctx) <= gs_epoch (gc_state ctx') <= gs_epoch (gc_state ctx) + 1 /\
  forall r, acc = Some r -> res_epoch r = gs_epoch (gc_state ctx).
Proof.
  intros Hi Hv Hn Hw. destruct ev as [env now payload|env now payload|now|now]; [| | |done]; cbn [gate_step].
  - unfold handle_heartbeat. destruct (obicall_wire_decode_heartbeat payload) as [hb|]; [|by split; [|split; [cbn [snd]; lia|]]].
    destruct (_ && _); [by split; [|split; [cbn [snd]; lia|]]|]. cbn [snd]. set (ctx1 := with_broker _ _ _).
    change (gc_state ctx) with (gc_state ctx1) in *.
    destruct (evaluate_promotion_cases env now ctx1) as [[-> _]|(b & _ & Hb & ->)]; [by split; [|split; [lia|]]|].
    rewrite persist_locked_state. cbn [gc_state with_state]. split; [by apply promote_inv|]. split; [|done].
    pose proof (vgs_epoch _ (gi_valid _ Hi)) as He. cbn [obicall_gate_promote snd gs_epoch]. revert He Hw. clear. mlia.
  - unfold handle_result_publish. destruct (obicall_wire_decode_result payload) as [r|] eqn:Er; [|by split; [|split; [lia|]]].
    destruct (obicall_gate_decide_publish junk (gc_state ctx) r now) as [[o s] i] eqn:E.
    pose proof (publish_spec _ _ _ _ _ _ _ Hi (decoded_result_wf _ _ Hv Er) E) as Hp.
    assert (Hs : forall ok ctx2, (match o with OBICALL_GATE_COMMIT => persist_locked env (with_state ctx s) | _ => (true, with_state ctx s) end) =
      (ok, ctx2) -> gc_state ctx2 = s).
    { intros ok ctx2. destruct o; try by intros [= <- <-]. intros Hpl. pose proof (persist_locked_state env (with_state ctx s)) as H.
      by rewrite Hpl in H. }
    destruct (match o with OBICALL_GATE_COMMIT => _ | _ => _ end) as [ok ctx2]. rewrite (Hs ok ctx2 eq_refl).
    split; [apply Hp|]. rewrite (pr_epoch _ _ _ _ _ Hp). split; [lia|]. intros r'. cbn [ra_accepted].
    case_bool_decide as Ho; [|done]. cbn [andb]. destruct ok; [|done]. intros [= <-].
    exact (cm_epoch _ _ _ (proj1 (pr_commit _ _ _ _ _ Hp) Ho)).
  - by split; [|split; [cbn [snd handle_status_query]; lia|]].
Qed.

Lemma gate_trace_running junk evs ctx :
  gate_inv (gc_state ctx) -> Forall valid_event evs -> Forall no_restart evs ->
  gs_epoch (gc_state ctx) + Z.of_nat (length evs) < 18446744073709551616 ->
  Forall (fun r => gs_epoch (gc_state ctx) <= res_epoch r) (gate_trace junk ctx evs).1.
Proof.
  intros Hi Hv. revert ctx Hi. induction Hv as [|ev evs Hev Hv IH]; intros ctx Hi Hn Hw; [constructor|].
  apply Forall_cons in Hn as [Hn1 Hn]. cbn [length gate_trace] in *.
  pose proof (gate_step_running junk ctx ev Hi Hev Hn1 ltac:(lia)) as H. destruct (gate_step junk ctx ev) as [acc ctx1].
  destruct H as (Hi1 & He & Ha). specialize (IH ctx1 Hi1 Hn ltac:(lia)). destruct (gate_trace junk ctx1 evs) as [rs ctx2].
  cbn [fst] in *. apply Forall_app. split.
  - destruct acc as [r|]; [|constructor]. constructor; [by rewrite (Ha r eq_refl)|constructor].
  - eapply Forall_impl; [exact IH|]. intros r Hr. cbn in Hr. lia.
Qed.

Lemma persist_locked_brokers env ctx : gc_brokers (persist_locked env ctx).2 = gc_brokers ctx.
Proof.
  unfold persist_locked. destruct (negb _); [done|].
  destruct (obicall_gate_persist_state _ _ _) as [st f]. destruct st; try done. by destruct (pe_replace env).
Qed.

Lemma persist_locked_false env ctx : (persist_locked env ctx).1 = false -> (persist_locked env ctx).2 = ctx.
Proof.
  unfold persist_locked. destruct (negb _); [done|].
  destruct (obicall_gate_persist_state _ _ _) as [st f]. destruct st; try done. by destruct (pe_replace env).
Qed.

Lemma may_promote_unique ctx now b1 b2 : may_promote ctx now b1 -> may_promote ctx now b2 -> b1 = b2.
Proof.
  intros [(H1 & -> & _)|(H1 & -> & _)] [(H2 & -> & _)|(H2 & -> & _)]; done.
Qed.

(** The rule in its own terms: a broker that may be trusted with the pipelines... *)
Record fit_to_own (ctx : gate_ctx) (b : Z) : Prop := {
  fo_known : bv_known (broker_at ctx b) = true;
  fo_healthy : rd_healthy (bv_readiness (broker_at ctx b)) <> 0;
  fo_config : rd_config_digest (bv_readiness (broker_at ctx b)) = gc_required_config_digest ctx;
  fo_schema : rd_checkpoint_schema_version (bv_readiness (broker_at ctx b)) = gc_required_checkpoint_schema_version ctx;
  fo_replay : Forall (fun p => gp_last_committed_window_seq p <=
    rd_last_processed_window_seq (bv_readiness (broker_at ctx b)) + gc_max_allowed_replay_gap ctx) (active (gc_state ctx))
}.

(** ...and when it is given them. *)
Inductive grant_due (ctx : gate_ctx) (now : Z) : Z -> Prop :=
| GrantFirst :
    gs_owner_broker_id (gc_state ctx) = OBICALL_BROKER_NONE -> bv_known (broker_at ctx OBICALL_BROKER_A) = true ->
    rd_healthy (bv_readiness (broker_at ctx OBICALL_BROKER_A)) <> 0 -> grant_due ctx now OBICALL_BROKER_A
| GrantNext owner b :
    gs_owner_broker_id (gc_state ctx) = owner -> owner <> OBICALL_BROKER_NONE ->
    (owner = OBICALL_BROKER_A /\ b = OBICALL_BROKER_B \/ owner <> OBICALL_BROKER_A /\ b = OBICALL_BROKER_A) ->
    bv_known (broker_at ctx owner) = true ->
    gc_confirm_timeout_ns ctx < now - bv_last_heartbeat_ns (broker_at ctx owner) ->
    fit_to_own ctx b -> grant_due ctx now b.

(** The fold over the pipelines finds an upper bound, and one of their numbers. *)
Lemma high_water_le l hw x :
  fold_left (fun hw p => if gp_last_committed_window_seq p >? hw then gp_last_committed_window_seq p else hw) l hw <= x <->
  hw <= x /\ Forall (fun p => gp_last_committed_window_seq p <= x) l.
Proof.
  revert hw. induction l as [|p l IH]; intros hw; cbn [fold_left]; [by split; [|intros []]|].
  rewrite IH, Forall_cons. destruct (Z.gtb_spec (gp_last_committed_window_seq p) hw); intuition lia.
Qed.

Lemma fit_to_own_promotable ctx b :
  is_u64 (rd_last_processed_window_seq (bv_readiness (broker_at ctx b)) + gc_max_allowed_replay_gap ctx) ->
  fit_to_own ctx b <-> bv_known (broker_at ctx b) = true /\
    obicall_gate_shadow_promotable (bv_readiness (broker_at ctx b))
      (PromotionRequirements (gc_required_config_digest ctx) (gc_required_checkpoint_schema_version ctx)
         (gc_max_allowed_replay_gap ctx)) (committed_high_water (gc_state ctx)) = true.
Proof.
  intros Hw. unfold obicall_gate_shadow_promotable. cbn [rq_required_config_digest
    rq_required_checkpoint_schema_version rq_max_allowed_replay_gap]. rewrite u64_id by done.
  set (x := _ + _) in *.
  assert (Hhw : committed_high_water (gc_state ctx) <= x <->
    Forall (fun p => gp_last_committed_window_seq p <= x) (active (gc_state ctx))).
  { unfold committed_high_water. fold (active (gc_state ctx)). rewrite high_water_le.
    unfold is_u64 in Hw. split; [by intros []|]. intros. split; [lia|done]. }
  destruct (Z.eqb_spec (rd_healthy (bv_readiness (broker_at ctx b))) 0); [by split; [intros []|intros []]|].
  case_bool_decide; cbn [negb]; [|by split; [intros []|intros []]].
  destruct (Z.eqb_spec (rd_checkpoint_schema_version (bv_readiness (broker_at ctx b)))
    (gc_required_checkpoint_schema_version ctx)); cbn [negb]; [|by split; [intros []|intros []]].
  destruct (Z.ltb_spec x (committed_high_water (gc_state ctx))).
  - split; [intros [_ _ _ _ Hr]; apply Hhw in Hr; lia|by intros []].
  - split; [by intros []|]. intros [Hk _]. split; try done. by apply Hhw.
Qed.

Lemma grant_due_may_promote ctx now :
  (forall b, is_i64 (now - bv_last_heartbeat_ns (broker_at ctx b))) ->
  (forall b, is_u64 (rd_last_processed_window_seq (bv_readiness (broker_at ctx b)) + gc_max_allowed_replay_gap ctx)) ->
  forall b, grant_due ctx now b <-> may_promote ctx now b.
Proof.
  intros Hage Hgap b. unfold may_promote. rewrite i64_id by apply Hage. split.
  - intros [Ho Hk Hh|owner b' <- Hne Hb Hk Ht [Hkb Hp]%(fit_to_own_promotable _ _ (Hgap _))]; [by left|right].
    split_and!; try done. destruct Hb as [[-> ->]|[Hn ->]]; [done|]. by apply Z.eqb_neq in Hn as ->.
  - intros [(Ho & -> & Hk & Hh)|(Hne & -> & Hk & Ht & Hkb & Hp)]; [by apply GrantFirst|].
    eapply GrantNext; try done; [|by apply fit_to_own_promotable].
    destruct (Z.eqb_spec (gs_owner_broker_id (gc_state ctx)) OBICALL_BROKER_A); auto.
Qed.

(** The heartbeat of a ready broker B, when owner A has been silent for too long. *)
Lemma silent_owner_replaced env now payload hb ctx :
  let s := gc_state ctx in
  obicall_wire_decode_heartbeat payload = Ok hb -> length (gc_brokers ctx) = 3%nat ->
  gs_owner_broker_id s = OBICALL_BROKER_A -> hb_broker_id hb = OBICALL_BROKER_B ->
  bv_known (broker_at ctx OBICALL_BROKER_A) = true ->
  gc_confirm_timeout_ns ctx < i64 (now - bv_last_heartbeat_ns (broker_at ctx OBICALL_BROKER_A)) ->
  obicall_gate_shadow_promotable
    (Readiness (hb_healthy hb) (hb_config_digest hb) (hb_checkpoint_schema_version hb)
       (hb_last_window_seq hb))
    (PromotionRequirements (gc_required_config_digest ctx)
       (gc_required_checkpoint_schema_version ctx) (gc_max_allowed_replay_gap ctx))
    (committed_high_water s) = true ->
  exists ctx', handle_heartbeat env now payload ctx = (Some (status_reply now ctx'), ctx') /\
    gc_state ctx' = (obicall_gate_promote s OBICALL_BROKER_B).2.
Proof.
  intros s Hd Hl Ho Hb Hk Hage Hp. rewrite (heartbeat_from payload hb) by auto. rewrite Hb.
  set (ctx1 := with_broker ctx OBICALL_BROKER_B _). eexists. split; [done|].
  assert (may_promote ctx1 now OBICALL_BROKER_B) as Hm.
  { right. unfold broker_at, ctx1 in *. cbn [gc_state with_broker gc_brokers gc_confirm_timeout_ns
      gc_required_config_digest gc_required_checkpoint_schema_version gc_max_allowed_replay_gap].
    change (gc_state ctx) with s. rewrite Ho. change (Z.to_nat OBICALL_BROKER_A) with 1%nat in *.
    change (Z.to_nat OBICALL_BROKER_B) with 2%nat.
    rewrite list_lookup_insert_ne by done. rewrite list_lookup_insert_eq by (rewrite Hl; lia). by split_and!. }
  destruct (evaluate_promotion_cases env now ctx1) as [[_ Hn]|(b & Hb' & _ & ->)]; [by destruct (Hn _ Hm)|].
  rewrite <- (may_promote_unique _ _ _ _ Hm Hb'). by rewrite persist_locked_state.
Qed.

(** ** Replies *)

Lemma committed_high_water_u64 s : gate_inv s -> is_u64 (committed_high_water s).
Proof.
  intros [Hv _ _]. unfold committed_high_water. pose proof (vgs_pipelines _ Hv) as Hp.
  assert (Ht : Forall wf_gate_pipeline (take (Z.to_nat (gs_pipeline_count s)) (gs_pipelines s))).
  { by apply Forall_take. }
  revert Ht. generalize (take (Z.to_nat (gs_pipeline_count s)) (gs_pipelines s)). intros l Hl.
  assert (H0 : is_u64 0) by done. revert H0. generalize 0. induction Hl as [|p l Hp' _ IH]; intros hw Hw; [done|].
  cbn [fold_left]. apply IH. case_match; [apply Hp'|done].
Qed.

Lemma status_reply_wf now ctx : gate_inv (gc_state ctx) -> wf_status_reply (status_reply now ctx).
Proof.
  intros Hi. destruct (Hi) as [Hv _ _]. split; [done|apply Hv|apply Hv|by apply committed_high_water_u64|apply i64_range].
Qed.

Lemma heartbeat_reply env now payload ctx m ctx' :
  handle_heartbeat env now payload ctx = (Some m, ctx') -> m = status_reply now ctx'.
Proof. unfold handle_heartbeat. intros H. repeat case_match; by simplify_eq. Qed.

Lemma publish_ack_wf junk env now payload ctx ack ctx' :
  bytes payload -> handle_result_publish junk env now payload ctx = (Some ack, ctx') -> wf_result_ack ack.
Proof.
  intros Hb. unfold handle_result_publish. destruct (obicall_wire_decode_result payload) as [r|] eqn:Er; [|done].
  pose proof (decoded_result_wf _ _ Hb Er) as Hr.
  destruct (obicall_gate_decide_publish junk (gc_state ctx) r now) as [[o s] i].
  destruct (match o with OBICALL_GATE_COMMIT => _ | _ => _ end) as [ok c]. intros [= <- <-].
  split; cbn [ra_pipeline_id ra_window_seq ra_accepted ra_reject_status].
  - apply strncpy_zeroed_chars; [unfold OBICALL_PIPELINE_ID_LEN; lia|]. apply (wfr_pipeline_id _ Hr).
  - apply (wfr_window_seq _ Hr).
  - by destruct (_ && _).
  - by destruct o, ok.
Qed.

(** The invariant along a trace. *)
Lemma gate_trace_inv junk evs ctx d :
  daemon_inv ctx d -> Forall valid_event evs ->
  gs_epoch (gc_state ctx) + Z.of_nat (length evs) < 18446744073709551616 ->
  exists d', daemon_inv (gate_trace junk ctx evs).2 d' /\ ahead d d'.
Proof.
  intros Hinv Hevs. revert ctx d Hinv. induction Hevs as [|ev evs Hev Hevs IH]; intros ctx d Hinv Hw; [by exists d|].
  cbn [length] in Hw. cbn [gate_trace].
  destruct (gate_step_ok junk ctx d ev Hinv Hev ltac:(lia)) as [d1 [Hinv' Had He _ _ _]].
  destruct (gate_step junk ctx ev) as [acc ctx']. cbn [fst snd] in *.
  destruct (IH ctx' d1 Hinv' ltac:(lia)) as (d' & Hd' & Had').
  exists d'. destruct (gate_trace junk ctx' evs). cbn [snd] in *. split; [done|by etransitivity].
Qed.

(** What a trace leaves durable is what the running daemon held at some moment. *)
Lemma gate_trace_durable junk evs ctx d :
  daemon_inv ctx d -> Forall valid_event evs ->
  gs_epoch (gc_state ctx) + Z.of_nat (length evs) < 18446744073709551616 ->
  let '(acc, ctx') := gate_trace junk ctx evs in
  exists d', daemon_inv ctx' d' /\ ahead d d' /\
    (d' = d \/ exists before after, evs = before ++ after /\ d' = gc_state (gate_trace junk ctx before).2) /\
    Forall (fun a => exists w, committed d' (res_pipeline_id a) = Some w /\ res_window_seq a <= w) acc /\
    (Forall event_saves evs -> caught_up d (gc_state ctx) -> caught_up d' (gc_state ctx')).
Proof.
  intros Hinv Hevs. revert ctx d Hinv. induction Hevs as [|ev evs Hev Hevs IH]; intros ctx d Hinv Hw.
  { exists d. split_and!; [done|done|by left|constructor|done]. }
  cbn [length] in Hw. cbn [gate_trace].
  destruct (gate_step_ok junk ctx d ev Hinv Hev ltac:(lia)) as [d1 [Hinv1 Had1 He Hor Hsv Hacc]].
  destruct (gate_step junk ctx ev) as [acc ctx1] eqn:Es. cbn [fst snd] in *.
  specialize (IH ctx1 d1 Hinv1 ltac:(lia)). destruct (gate_trace junk ctx1 evs) as [rs ctx'] eqn:Et.
  destruct IH as (d' & Hd' & Had' & Hor' & Hrs & Hsv'). exists d'. split_and!; [done|by etransitivity| | |].
  - assert (Hpre : forall before, gc_state (gate_trace junk ctx (ev :: before)).2 = gc_state (gate_trace junk ctx1 before).2).
    { intros before. cbn [gate_trace]. rewrite Es. by destruct (gate_trace junk ctx1 before). }
    destruct Hor' as [->|(before & after & -> & ->)].
    + destruct Hor as [-> | ->]; [by left|right; exists [ev], evs; split; [done|by rewrite Hpre]].
    + right. exists (ev :: before), after. by rewrite Hpre.
  - destruct acc as [r|]; cbn [option_list app]; [|done]. constructor; [|done].
    destruct (Hacc r eq_refl) as (_ & Hcom & _). apply (ah_committed _ _ Had' _ _ Hcom).
  - intros [Hs Hss]%Forall_cons Hcu. auto.
Qed.

(** * The claims *)

(** C2: exactly once across crashes: over any sequence of messages, failed file
    operations and restarts, the results acknowledged as accepted have strictly
    increasing windows per pipeline, non-decreasing epochs and one broker per
    epoch, and all lie above what the process recovered at the start. *)
Theorem gate_daemon_exactly_once junk evs ctx d :
  daemon_inv ctx d -> Forall valid_event evs ->
  gs_epoch (gc_state ctx) + Z.of_nat (length evs) < 18446744073709551616 ->
  StronglySorted acc_before (gate_trace junk ctx evs).1 /\
  Forall (acc_after d) (gate_trace junk ctx evs).1.
Proof. apply gate_trace_ok. Qed.

(** C3: an accepted acknowledgement is durable: when the reply says accepted, a
    restart at that moment recovers a state in which the window is committed
    under the result's epoch and broker. *)
Theorem gate_ack_is_durable junk env now payload ctx d r ctx' :
  daemon_inv ctx d -> bytes payload ->
  gate_step junk ctx (EvResult env now payload) = (Some r, ctx') ->
  exists d', durable ctx' d' /\ committed d' (res_pipeline_id r) = Some (res_window_seq r) /\
    gs_epoch d' = res_epoch r /\ gs_owner_broker_id d' = res_broker_id r.
Proof.
  intros Hinv Hb E. destruct (handle_result_publish_ok junk env now payload ctx d Hinv Hb) as [d' [Hi _ _ _ _ Ha]].
  rewrite E in Hi, Ha. destruct (Ha r eq_refl) as (_ & ? & ? & ?). exists d'. split; [apply Hi|done].
Qed.

(** C4: restarting recovers: after any run of a gate that was started without a state
    file (messages, failed file operations and restarts in any order, short of 2^64
    promotions) a restart succeeds: no file the gate wrote is refused.  It finds epoch,
    owner and pipelines as the running gate held them after some part of the run, with
    every result acknowledged in the whole run committed; and if no file operation
    failed, it finds the last epoch, the last owner and every committed window. *)
Theorem gate_restart_recovers junk evs t0 now ctx0 ctx1 :
  gc_state_file ctx0 = None -> gate_restart t0 ctx0 = Some ctx1 ->
  Forall valid_event evs -> Z.of_nat (length evs) < 18446744073709551616 ->
  let '(acc, ctx) := gate_trace junk ctx1 evs in
  exists ctx', gate_restart now ctx = Some ctx' /\
    (exists before after, evs = before ++ after /\
       same_data (gc_state ctx') (gc_state (gate_trace junk ctx1 before).2)) /\
    Forall (fun a => exists w, committed (gc_state ctx') (res_pipeline_id a) = Some w /\ res_window_seq a <= w) acc /\
    (Forall event_saves evs ->
       gs_epoch (gc_state ctx') = gs_epoch (gc_state ctx) /\
       gs_owner_broker_id (gc_state ctx') = gs_owner_broker_id (gc_state ctx) /\
       forall id, committed (gc_state ctx') id = committed (gc_state ctx) id).
Proof.
  intros Hf Hstart Hevs Hlen. unfold gate_restart in Hstart. rewrite Hf in Hstart. injection Hstart as <-.
  set (ctx1 := GateCtx _ _ _ _ _ _ _ _).
  assert (Hinv : daemon_inv ctx1 (gc_state ctx1)) by (split; [exact zero_gate_state_live|reflexivity|exact zero_gate_state_live|done]).
  pose proof (gate_trace_durable junk evs ctx1 _ Hinv Hevs Hlen) as H.
  destruct (gate_trace junk ctx1 evs) as [acc ctx]. destruct H as (d & Hd & _ & Hor & Hacc & Hsv).
  destruct (gate_restart_ok now ctx d Hd) as (ctx' & E & _ & Hsd). pose proof (same_data_committed _ _ Hsd) as Hcom.
  exists ctx'. split; [done|]. split; [|split].
  - destruct Hor as [->|(before & after & -> & ->)]; [by exists [], evs|by exists before, after].
  - eapply Forall_impl; [exact Hacc|]. intros a. cbn. by rewrite Hcom.
  - intros Hall. destruct (Hsv Hall (reflexivity _)) as [He Ho Hc]. destruct Hsd. split_and!; [congruence..|].
    intros id. by rewrite Hcom, Hc.
Qed.

(** C5: promotion follows the documented rule: evaluating changes owner and epoch when,
    and only when, broker A is known to be healthy at a gate nobody owns, or the owner's
    last heartbeat is older than the confirm timeout and the other broker is known to be
    healthy, to run the required configuration and checkpoint schema, and to have
    processed every committed window but the allowed replay gap; the new owner gets the
    next epoch, whether or not the state file could be written.  Ages are taken to fit
    64 bits and so is the sum of window and gap: it wraps otherwise, and the rule is then
    broken (see [Gate.gate_replay_gap_wraps]). *)
Theorem gate_promotion_rule env now ctx :
  is_u64 (gs_epoch (gc_state ctx) + 1) ->
  (forall b, is_i64 (now - bv_last_heartbeat_ns (broker_at ctx b))) ->
  (forall b, is_u64 (rd_last_processed_window_seq (bv_readiness (broker_at ctx b)) + gc_max_allowed_replay_gap ctx)) ->
  let s' := gc_state (evaluate_promotion_locked env now ctx) in
  (forall b, grant_due ctx now b ->
     gs_owner_broker_id s' = b /\ gs_epoch s' = gs_epoch (gc_state ctx) + 1 /\
     forall id, committed s' id = committed (gc_state ctx) id) /\
  ((forall b, ~ grant_due ctx now b) -> s' = gc_state ctx).
Proof.
  intros He Hage Hgap s'. pose proof (grant_due_may_promote ctx now Hage Hgap) as Hiff. unfold s'.
  destruct (evaluate_promotion_cases env now ctx) as [[-> Hn]|(b & Hb & _ & ->)].
  - split; [|done]. intros b Hb%Hiff. by destruct (Hn b).
  - rewrite persist_locked_state. cbn. rewrite u64_id by done. split.
    + intros b' Hb'%Hiff. by rewrite (may_promote_unique _ _ _ _ Hb' Hb).
    + intros Hn. destruct (Hn b). by apply Hiff.
Qed.

(** no failover from a live owner: a heartbeat of the owner is never itself
    the occasion of losing ownership. *)
Theorem gate_owner_heartbeat_keeps env now payload hb ctx :
  obicall_wire_decode_heartbeat payload = Ok hb ->
  hb_broker_id hb = OBICALL_BROKER_A \/ hb_broker_id hb = OBICALL_BROKER_B ->
  hb_broker_id hb = gs_owner_broker_id (gc_state ctx) -> length (gc_brokers ctx) = 3%nat ->
  0 <= gc_confirm_timeout_ns ctx ->
  gc_state (handle_heartbeat env now payload ctx).2 = gc_state ctx.
Proof.
  intros Hd Hb Ho Hl Ht. rewrite (heartbeat_from payload hb) by done. cbn [snd].
  set (ctx1 := with_broker _ _ _).
  destruct (evaluate_promotion_cases env now ctx1) as [[-> _]|(b & Hm & _ & _)]; [done|].
  exfalso. destruct Hm as [(E & _)|(_ & _ & _ & Hage & _)].
  - unfold ctx1 in E. cbn in E. rewrite <- Ho in E. destruct Hb as [H|H]; rewrite H in E; done.
  - assert (broker_at ctx1 (gs_owner_broker_id (gc_state ctx1)) =
      BrokerView true (Readiness (hb_healthy hb) (hb_config_digest hb)
        (hb_checkpoint_schema_version hb) (hb_last_window_seq hb)) now) as E.
    { unfold broker_at, ctx1. cbn [gc_brokers with_broker gc_state]. rewrite <- Ho.
      rewrite list_lookup_insert_eq; [done|]. rewrite Hl. by destruct Hb as [-> | ->]; apply Nat.ltb_lt. }
    rewrite E in Hage. cbn [bv_last_heartbeat_ns] in Hage. rewrite Z.sub_diag in Hage.
    change (i64 0) with 0 in Hage.
    change (gc_confirm_timeout_ns ctx1) with (gc_confirm_timeout_ns ctx) in Hage. lia.
Qed.

(** failover happens: when the owner has been silent beyond the confirm
    timeout and the other broker's heartbeat reports the required
    configuration, schema, health and replay progress, the reply to that very
    heartbeat grants it the next epoch. *)
Theorem gate_failover env now payload hb ctx :
  let s := gc_state ctx in
  obicall_wire_decode_heartbeat payload = Ok hb -> length (gc_brokers ctx) = 3%nat ->
  gs_owner_broker_id s = OBICALL_BROKER_A -> hb_broker_id hb = OBICALL_BROKER_B ->
  bv_known (broker_at ctx OBICALL_BROKER_A) = true ->
  gc_confirm_timeout_ns ctx < i64 (now - bv_last_heartbeat_ns (broker_at ctx OBICALL_BROKER_A)) ->
  obicall_gate_shadow_promotable
    (Readiness (hb_healthy hb) (hb_config_digest hb) (hb_checkpoint_schema_version hb)
       (hb_last_window_seq hb))
    (PromotionRequirements (gc_required_config_digest ctx)
       (gc_required_checkpoint_schema_version ctx) (gc_max_allowed_replay_gap ctx))
    (committed_high_water s) = true ->
  is_u64 (gs_epoch s + 1) ->
  exists reply ctx', handle_heartbeat env now payload ctx = (Some reply, ctx') /\
    sr_owner_broker_id reply = OBICALL_BROKER_B /\ sr_gate_epoch reply = gs_epoch s + 1 /\
    gs_owner_broker_id (gc_state ctx') = OBICALL_BROKER_B.
Proof.
  intros s Hd Hl Ho Hb Hk Hage Hp He.
  destruct (silent_owner_replaced env now payload hb ctx Hd Hl Ho Hb Hk Hage Hp) as (ctx' & E & Hs).
  exists (status_reply now ctx'), ctx'. split; [exact E|]. unfold status_reply. cbn [sr_owner_broker_id sr_gate_epoch].
  rewrite Hs. cbn. by rewrite u64_id.
Qed.

(** a grant can be announced without being durable: if persisting fails
    during a failover, the reply still names the new owner and epoch while the
    state file keeps the old ones (the grant is announced from memory). *)
Theorem gate_grant_not_durable env now payload hb ctx b :
  obicall_wire_decode_heartbeat payload = Ok hb ->
  hb_broker_id hb = OBICALL_BROKER_A \/ hb_broker_id hb = OBICALL_BROKER_B ->
  may_promote (with_broker ctx (hb_broker_id hb)
    (BrokerView true (Readiness (hb_healthy hb) (hb_config_digest hb)
       (hb_checkpoint_schema_version hb) (hb_last_window_seq hb)) now)) now b ->
  pe_fopen env = false ->
  exists reply ctx', handle_heartbeat env now payload ctx = (Some reply, ctx') /\
    sr_owner_broker_id reply = b /\ sr_gate_epoch reply = u64 (gs_epoch (gc_state ctx) + 1) /\
    gc_state_file ctx' = gc_state_file ctx.
Proof.
  intros Hd Hb Hm Hf. rewrite (heartbeat_from payload hb) by done. set (ctx1 := with_broker _ _ _) in *.
  eexists _, _. split; [done|].
  destruct (evaluate_promotion_cases env now ctx1) as [[_ Hn]|(b' & Hb' & _ & ->)]; [by destruct (Hn _ Hm)|].
  rewrite <- (may_promote_unique _ _ _ _ Hm Hb'). unfold persist_locked. rewrite Hf. done.
Qed.

(** a commit whose persisting fails is lost for good: the reply reports a
    persistence error and the state file is unchanged, but the high-water mark
    in memory has moved, so the same result sent again is a duplicate. *)
Theorem gate_failed_persist_blocks_retry junk env env' now now' payload r ctx s i :
  live_state (gc_state ctx) -> bytes payload -> obicall_wire_decode_result payload = Ok r ->
  obicall_gate_decide_publish junk (gc_state ctx) r now = (OBICALL_GATE_COMMIT, s, i) ->
  pe_fopen env = false -> now' < res_valid_until_ns r ->
  exists ack ctx' ack',
    handle_result_publish junk env now payload ctx = (Some ack, ctx') /\
    ra_accepted ack = 0 /\ ra_reject_status ack = status_code OBICALL_ERR_GATE_PERSISTENCE /\
    gc_state_file ctx' = gc_state_file ctx /\
    handle_result_publish junk env' now' payload ctx' = (Some ack', ctx') /\
    ra_accepted ack' = 0 /\ ra_reject_status ack' = status_code OBICALL_ERR_GATE_DUPLICATE_WINDOW.
Proof.
  intros [Hi _] Hb Hd E Hf Hnow. pose proof (decoded_result_wf _ _ Hb Hd) as Hr.
  pose proof (publish_spec _ _ _ _ _ _ _ Hi Hr E) as Hp.
  assert (exists i', obicall_gate_decide_publish junk s r now' =
            (OBICALL_GATE_REJECT_DUPLICATE_WINDOW, s, i')) as [i' E'].
  { pose proof (proj1 (pr_commit _ _ _ _ _ Hp) eq_refl) as [Hsz Hsc _ _ Hown Hbr Hep _].
    pose proof (pr_committed _ _ _ _ _ Hp (res_pipeline_id r)) as Hc. rewrite decide_True in Hc by done.
    unfold committed, committed_in in Hc.
    destruct (list_find _ (active s)) as [[j p]|] eqn:Ef; [|done].
    destruct (list_find_active _ _ _ _ Ef) as (Hl & _).
    destruct (gp_has_committed p =? 0) eqn:Eh; [done|]. injection Hc as Hw.
    unfold obicall_gate_decide_publish, gate_slot.
    rewrite Hsz, Hsc, !Z.eqb_refl. cbn [negb orb].
    replace (_ <=? now') with false by lia.
    assert (find_pipeline s (res_pipeline_id r) = Some j) as -> by (apply find_pipeline_Some; by exists p).
    rewrite Hl. cbn [from_option]. change (Datatypes.id p) with p.
    rewrite (pr_epoch _ _ _ _ _ Hp), (pr_owner _ _ _ _ _ Hp), Hbr, Hep, !Z.eqb_refl.
    replace (gs_owner_broker_id (gc_state ctx) =? OBICALL_BROKER_NONE) with false by lia.
    rewrite Hw, Eh, Z.leb_refl. cbn. by eexists. }
  unfold handle_result_publish. rewrite Hd, E. unfold persist_locked. rewrite Hf. cbn [negb].
  eexists _, _, _. split; [done|]. split; [done|]. split; [done|]. split; [done|].
  cbn [gc_state with_state]. rewrite E'. split; [done|]. done.
Qed.

(** after a restart no broker is known, so while the recorded owner stays
    silent the other broker is never promoted, however long it waits: only
    the owner's own heartbeat re-arms the failover. *)
Theorem gate_restart_disarms_failover junk evs ctx :
  gs_owner_broker_id (gc_state ctx) = OBICALL_BROKER_A ->
  bv_known (broker_at ctx OBICALL_BROKER_A) = false ->
  Forall (fun ev => exists env now payload hb, ev = EvHeartbeat env now payload /\
            obicall_wire_decode_heartbeat payload = Ok hb /\ hb_broker_id hb = OBICALL_BROKER_B) evs ->
  gs_owner_broker_id (gc_state (gate_trace junk ctx evs).2) = OBICALL_BROKER_A.
Proof.
  intros Ho Hk Hevs. revert ctx Ho Hk. induction Hevs as [|ev evs Hev Hevs IH]; intros ctx Ho Hk; [done|].
  destruct Hev as (env & now & payload & hb & -> & Hd & Hb). cbn [gate_trace gate_step].
  rewrite (heartbeat_from payload hb) by auto. cbn [snd]. rewrite Hb.
  set (ctx1 := with_broker ctx OBICALL_BROKER_B _).
  assert (bv_known (broker_at ctx1 OBICALL_BROKER_A) = false) as Hk1.
  { unfold broker_at, ctx1 in *. cbn [gc_brokers with_broker]. by rewrite list_lookup_insert_ne. }
  assert (gs_owner_broker_id (gc_state ctx1) = OBICALL_BROKER_A) as Ho1 by done.
  destruct (evaluate_promotion_cases env now ctx1) as [[-> _]|(b & Hm & _ & _)].
  - specialize (IH ctx1 Ho1 Hk1). by destruct (gate_trace junk ctx1 evs).
  - exfalso. destruct Hm as [(E & _)|(_ & _ & E & _)]; [by rewrite Ho1 in E|].
    rewrite Ho1, Hk1 in E. done.
Qed.

(** * Witnesses *)

Definition sample_persist : persist_env := PersistEnv true io_success true.
Definition failing_persist : persist_env := PersistEnv false io_success true.

Definition sample_ready : obicall_gate_readiness := Readiness 1 (replicate 32 2) 1 40.
Definition sample_view (last : Z) : broker_view := BrokerView true sample_ready last.

(** Broker A owns epoch 1 and was last heard at time 100; nothing is durable yet. *)
Definition sample_ctx : gate_ctx :=
  GateCtx (sample_gate OBICALL_BROKER_A) [zero_view; sample_view 100; zero_view] None
    (replicate 32 2) 1 50 700 0.

(** The same just after a restart: no broker is known. *)
Definition sample_restarted : gate_ctx :=
  GateCtx (sample_gate OBICALL_BROKER_A) (replicate 3 zero_view) None (replicate 32 2) 1 50 700 0.

Definition sample_heartbeat (b : Z) : obicall_msg_heartbeat := Heartbeat b 1 40 (replicate 32 2) 1 1 0.
Definition hb_payload (b : Z) : list Z := heartbeat_wire (sample_heartbeat b).
Definition result_payload : list Z := result_wire sample_result.

Definition no_durable : obicall_gate_state := GateState sizeof_gate_state 1 0 0 0 (replicate 8 zero_pipeline).

Lemma sample_ctx_inv : daemon_inv sample_ctx no_durable.
Proof.
  split; [split; [by apply sample_gate_inv|done]|done|exact zero_gate_state_live|].
  split; done.
Qed.

Lemma result_payload_bytes : bytes result_payload.
Proof. apply forallb_bytes. vm_compute. reflexivity. Qed.

(** A result, a failover and a repeat of the former owner's result. *)
Definition sample_events : list gate_event :=
  [EvHeartbeat sample_persist 150 (hb_payload OBICALL_BROKER_A);
   EvResult sample_persist 200 result_payload; EvRestart 250;
   EvHeartbeat sample_persist 300 (hb_payload OBICALL_BROKER_A);
   EvHeartbeat sample_persist 2000 (hb_payload OBICALL_BROKER_B);
   EvResult sample_persist 2100 result_payload; EvStatusQuery 2200].

Lemma sample_events_valid : Forall valid_event sample_events.
Proof.
  repeat (apply Forall_cons; split; [exact result_payload_bytes || exact I|]). constructor.
Qed.

Lemma gate_exactly_once_witness :
  length (gate_trace sample_junk sample_ctx sample_events).1 = 1%nat /\
  gs_owner_broker_id (gc_state (gate_trace sample_junk sample_ctx sample_events).2) = OBICALL_BROKER_B /\
  StronglySorted acc_before (gate_trace sample_junk sample_ctx sample_events).1.
Proof.
  split; [vm_compute; reflexivity|]. split; [vm_compute; reflexivity|].
  apply (gate_daemon_exactly_once sample_junk sample_events sample_ctx no_durable).
  - exact sample_ctx_inv.
  - exact sample_events_valid.
  - reflexivity.
Defined.

Lemma gate_ack_witness :
  let x := gate_step sample_junk sample_ctx (EvResult sample_persist 200 result_payload) in
  exists d', durable x.2 d' /\
    committed d' (res_pipeline_id sample_result) = Some (res_window_seq sample_result).
Proof.
  intros x. assert (x.1 = Some sample_result) as E by (vm_compute; reflexivity).
  destruct (gate_ack_is_durable sample_junk sample_persist 200 result_payload sample_ctx no_durable
    sample_result x.2) as (d' & Hd & Hc & _).
  - exact sample_ctx_inv.
  - exact result_payload_bytes.
  - rewrite <- E. apply surjective_pairing.
  - exists d'. exact (conj Hd Hc).
Defined.

(** A gate started without a state file: broker A takes it, publishes a result, and the
    grant to B that follows does not reach the disk. *)
Definition sample_fresh : gate_ctx := default sample_restarted (gate_restart 50 sample_restarted).
Definition sample_run : list gate_event :=
  [EvHeartbeat sample_persist 150 (hb_payload OBICALL_BROKER_A); EvResult sample_persist 200 result_payload;
   EvHeartbeat failing_persist 2000 (hb_payload OBICALL_BROKER_B)].

Lemma gate_restart_witness :
  length (gate_trace sample_junk sample_fresh sample_run).1 = 1%nat /\
  gs_owner_broker_id (gc_state (gate_trace sample_junk sample_fresh sample_run).2) = OBICALL_BROKER_B /\
  exists ctx', gate_restart 500 (gate_trace sample_junk sample_fresh sample_run).2 = Some ctx' /\
    exists w, committed (gc_state ctx') (res_pipeline_id sample_result) = Some w /\ res_window_seq sample_result <= w.
Proof.
  split; [vm_compute; reflexivity|]. split; [vm_compute; reflexivity|].
  pose proof (gate_restart_recovers sample_junk sample_run 50 500 sample_restarted sample_fresh) as H.
  assert (E : (gate_trace sample_junk sample_fresh sample_run).1 = [sample_result]) by (vm_compute; reflexivity).
  destruct (gate_trace sample_junk sample_fresh sample_run) as [acc ctx]. cbn [fst snd] in *. subst acc.
  destruct H as (ctx' & E & _ & Hacc & _).
  - reflexivity.
  - reflexivity.
  - repeat (apply Forall_cons; split; [exact result_payload_bytes || exact I|]). constructor.
  - reflexivity.
  - exists ctx'. split; [exact E|]. exact (Forall_inv Hacc).
Defined.

(** A shadow that is ready, an owner silent for 1900 ns against a timeout of 700. *)
Definition sample_stale : gate_ctx :=
  GateCtx (sample_gate OBICALL_BROKER_A) [zero_view; sample_view 100; sample_view 1990] None
    (replicate 32 2) 1 50 700 0.

Lemma broker_at_cases (P : broker_view -> Prop) ctx v0 v1 v2 b :
  gc_brokers ctx = [v0; v1; v2] -> P v0 -> P v1 -> P v2 -> P zero_view -> P (broker_at ctx b).
Proof. intros E H0 H1 H2 H3. unfold broker_at. rewrite E. by destruct (Z.to_nat b) as [|[|[|n]]]. Qed.

Lemma sample_ages b : is_i64 (2000 - bv_last_heartbeat_ns (broker_at sample_stale b)).
Proof. by apply (broker_at_cases (fun v => is_i64 (2000 - bv_last_heartbeat_ns v)) _ zero_view (sample_view 100) (sample_view 1990)). Qed.

Lemma sample_gaps b :
  is_u64 (rd_last_processed_window_seq (bv_readiness (broker_at sample_stale b)) + gc_max_allowed_replay_gap sample_stale).
Proof.
  by apply (broker_at_cases (fun v => is_u64 (rd_last_processed_window_seq (bv_readiness v) + 50)) _
    zero_view (sample_view 100) (sample_view 1990)).
Qed.

Lemma sample_stale_due : grant_due sample_stale 2000 OBICALL_BROKER_B.
Proof.
  apply (GrantNext _ _ OBICALL_BROKER_A); [done|done|by left|done|done|]. split; try done.
Qed.

Lemma gate_promotion_witness :
  gs_epoch (gc_state (evaluate_promotion_locked sample_persist 2000 sample_stale)) = 2.
Proof.
  destruct (gate_promotion_rule sample_persist 2000 sample_stale) as [H _].
  - done.
  - exact sample_ages.
  - exact sample_gaps.
  - by destruct (H _ sample_stale_due) as (_ & -> & _).
Defined.

Lemma gate_owner_keeps_witness :
  gc_state (handle_heartbeat sample_persist 5000 (hb_payload OBICALL_BROKER_A) sample_ctx).2 =
  sample_gate OBICALL_BROKER_A.
Proof.
  apply (gate_owner_heartbeat_keeps sample_persist 5000 (hb_payload OBICALL_BROKER_A)
    (sample_heartbeat OBICALL_BROKER_A) sample_ctx).
  - vm_compute. reflexivity.
  - by left.
  - reflexivity.
  - reflexivity.
  - discriminate.
Defined.

Lemma gate_failover_witness :
  exists reply ctx', handle_heartbeat sample_persist 2000 (hb_payload OBICALL_BROKER_B) sample_ctx =
    (Some reply, ctx') /\ sr_owner_broker_id reply = OBICALL_BROKER_B.
Proof.
  destruct (gate_failover sample_persist 2000 (hb_payload OBICALL_BROKER_B)
    (sample_heartbeat OBICALL_BROKER_B) sample_ctx) as (reply & ctx' & E & Ho & _); try done.
  by exists reply, ctx'.
Defined.

Lemma gate_grant_witness :
  exists reply ctx', handle_heartbeat failing_persist 2000 (hb_payload OBICALL_BROKER_B) sample_ctx =
    (Some reply, ctx') /\ sr_owner_broker_id reply = OBICALL_BROKER_B /\ gc_state_file ctx' = None.
Proof.
  destruct (gate_grant_not_durable failing_persist 2000 (hb_payload OBICALL_BROKER_B)
    (sample_heartbeat OBICALL_BROKER_B) sample_ctx OBICALL_BROKER_B) as (reply & ctx' & E & Ho & _ & Hf).
  - vm_compute. reflexivity.
  - by right.
  - right. split_and!; done.
  - reflexivity.
  - by exists reply, ctx'.
Defined.

Lemma gate_blocks_retry_witness :
  exists ack' ctx', handle_result_publish sample_junk sample_persist 201 result_payload ctx' =
    (Some ack', ctx') /\ gc_state_file ctx' = None /\ ra_accepted ack' = 0.
Proof.
  destruct (gate_failed_persist_blocks_retry sample_junk failing_persist sample_persist 200 201
    result_payload sample_result sample_ctx
    (obicall_gate_decide_publish sample_junk (sample_gate OBICALL_BROKER_A) sample_result 200).1.2
    (obicall_gate_decide_publish sample_junk (sample_gate OBICALL_BROKER_A) sample_result 200).2)
    as (ack & ctx' & ack' & _ & _ & _ & Hf & E & Ha & _).
  - apply sample_ctx_inv.
  - exact result_payload_bytes.
  - vm_compute. reflexivity.
  - vm_compute. reflexivity.
  - reflexivity.
  - reflexivity.
  - exists ack', ctx'. exact (conj E (conj Hf Ha)).
Defined.

Lemma gate_disarms_witness :
  gs_owner_broker_id (gc_state (gate_trace sample_junk sample_restarted
    [EvHeartbeat sample_persist 100000 (hb_payload OBICALL_BROKER_B);
     EvHeartbeat sample_persist 200000 (hb_payload OBICALL_BROKER_B)]).2) = OBICALL_BROKER_A.
Proof.
  apply (gate_restart_disarms_failover sample_junk _ sample_restarted); try reflexivity.
  repeat (apply Forall_cons; split;
    [eexists _, _, _, (sample_heartbeat OBICALL_BROKER_B); split_and!; [reflexivity|vm_compute; reflexivity|reflexivity]|]).
  constructor.
Defined.
