(* ===== verification/GateServe.v ===== *)
(** * GateServe: the gate's connections (src/gate/gate_main.c, connection_thread)

    One thread per connection: the handshake, then a message at a time, each handed to
    its handler, which answers on the same socket.  The threads share only the context
    of [GateDaemon], which every handler locks; a turn of a thread is one message, and
    the turns of the threads interleave in any order.  Whatever they do is a trace of
    the events of [GateDaemon], so its claims hold for the gate as its clients see it. *)

From Stdlib Require Import Sorting.Sorted.
From S2P Require Import Prelude Types Samples Cursor Wire WireMsg Stdio Ipc Gate GateDaemon.

(** ** A connection *)

(** What a turn finds: the shutdown flag, the fate of a persist, the clock. *)
Record turn_env := TurnEnv {
  tn_shutdown : bool;
  tn_persist : persist_env;
  tn_now : Z
}.

(** A reply that does not encode is not sent; whether it was sent is not looked at. *)
Definition send_reply (msg_type : Z) (encoded : result status (list Z)) (tx : list tx_event)
    : list Z * list tx_event :=
  match encoded with
  | Err _ => ([], tx)
  | Ok buf => let '(_, out, tx) := osal_send_frame msg_type buf tx in (out, tx)
  end.

Definition serve_message (junk : list Z) (env : turn_env) (msg_type : Z) (payload : list Z)
    (ctx : gate_ctx) (tx : list tx_event) : list Z * gate_ctx * list tx_event :=
  if msg_type =? OBICALL_MSG_HEARTBEAT then
    let '(reply, ctx) := handle_heartbeat (tn_persist env) (tn_now env) payload ctx in
    let '(out, tx) := match reply with
                      | None => ([], tx)
                      | Some m => send_reply OBICALL_MSG_STATUS_REPLY (obicall_wire_encode_status_reply m 64) tx
                      end in
    (out, ctx, tx)
  else if msg_type =? OBICALL_MSG_RESULT_PUBLISH then
    let '(ack, ctx) := handle_result_publish junk (tn_persist env) (tn_now env) payload ctx in
    let '(out, tx) := match ack with
                      | None => ([], tx)
                      | Some m => send_reply OBICALL_MSG_RESULT_ACK (obicall_wire_encode_result_ack m 128) tx
                      end in
    (out, ctx, tx)
  else if msg_type =? OBICALL_MSG_STATUS_QUERY then
    let '(m, ctx) := handle_status_query (tn_now env) ctx in
    let '(out, tx) := send_reply OBICALL_MSG_STATUS_REPLY (obicall_wire_encode_status_reply m 64) tx in
    (out, ctx, tx)
  else ([], ctx, tx).

(** Where the thread of a connection stands. *)
Inductive serve_phase := PhHello | PhServe (role : Z) | PhClosed.

(** The connection: its thread, the two scripts of its socket, what was sent on it. *)
Record gate_conn := GateConn {
  gn_phase : serve_phase;
  gn_rx : list rx_event;
  gn_tx : list tx_event;
  gn_out : list Z
}.

Definition connection_turn (junk token : list Z) (env : turn_env) (ctx : gate_ctx) (c : gate_conn)
    : gate_ctx * gate_conn :=
  match gn_phase c with
  | PhClosed => (ctx, c)
  | PhHello =>
      let '(verified, rx) := procutil_server_verify_hello token (gn_rx c) in
      (ctx, GateConn match verified with Some role => PhServe role | None => PhClosed end rx (gn_tx c) (gn_out c))
  | PhServe role =>
      match osal_recv_frame 4096 (gn_rx c) with
      | (FrameError, rx) => (ctx, GateConn PhClosed rx (gn_tx c) (gn_out c))
      | (NoFrame, rx) => (ctx, GateConn (if tn_shutdown env then PhClosed else PhServe role) rx (gn_tx c) (gn_out c))
      | (Frame msg_type payload, rx) =>
          let '(out, ctx, tx) := serve_message junk env msg_type payload ctx (gn_tx c) in
          (ctx, GateConn (if role =? OBICALL_ROLE_CLI then PhClosed else PhServe role) rx tx (gn_out c ++ out))
      end
  end.

(** ** All connections *)

(** The event of [GateDaemon] a turn amounts to, if it amounts to one. *)
Definition message_event (env : turn_env) (msg_type : Z) (payload : list Z) : option gate_event :=
  if msg_type =? OBICALL_MSG_HEARTBEAT then Some (EvHeartbeat (tn_persist env) (tn_now env) payload)
  else if msg_type =? OBICALL_MSG_RESULT_PUBLISH then Some (EvResult (tn_persist env) (tn_now env) payload)
  else if msg_type =? OBICALL_MSG_STATUS_QUERY then Some (EvStatusQuery (tn_now env))
  else None.
Definition turn_event (env : turn_env) (c : gate_conn) : option gate_event :=
  match gn_phase c, (osal_recv_frame 4096 (gn_rx c)).1 with
  | PhServe _, Frame msg_type payload => message_event env msg_type payload
  | _, _ => None
  end.

(** The process: its context, its connections, and (ghost) the messages handled. *)
Record gated := Gated {
  gd_ctx : gate_ctx;
  gd_conns : list gate_conn;
  gd_events : list gate_event
}.

Inductive gated_step (junk token : list Z) : gated -> gated -> Prop :=
| gated_accept g rx tx :
    bytes (rx_stream rx) ->
    gated_step junk token g (Gated (gd_ctx g) (gd_conns g ++ [GateConn PhHello rx tx []]) (gd_events g))
| gated_turn g i c env :
    gd_conns g !! i = Some c ->
    gated_step junk token g
      (let '(ctx, c') := connection_turn junk token env (gd_ctx g) c in
       Gated ctx (<[i := c']> (gd_conns g)) (gd_events g ++ option_list (turn_event env c))).

Inductive gated_reach (junk token : list Z) (g0 : gated) : gated -> Prop :=
| gated_start : gated_reach junk token g0 g0
| gated_next g g' : gated_reach junk token g0 g -> gated_step junk token g g' -> gated_reach junk token g0 g'.

Definition gated_init (ctx : gate_ctx) : gated := Gated ctx [] [].

(** * Lemmas *)

Lemma gate_trace_app junk ctx evs1 evs2 :
  gate_trace junk ctx (evs1 ++ evs2) =
  let '(acc1, ctx1) := gate_trace junk ctx evs1 in
  let '(acc2, ctx2) := gate_trace junk ctx1 evs2 in (acc1 ++ acc2, ctx2).
Proof.
  revert ctx. induction evs1 as [|ev evs1 IH]; intros ctx; cbn [app gate_trace].
  - by destruct (gate_trace junk ctx evs2).
  - destruct (gate_step junk ctx ev) as [acc ctx1]. rewrite IH.
    destruct (gate_trace junk ctx1 evs1) as [acc1 ctx2], (gate_trace junk ctx2 evs2) as [acc2 ctx3].
    by rewrite app_assoc.
Qed.

Lemma gate_trace_one junk ctx ev :
  gate_trace junk ctx (option_list (Some ev)) = (option_list (gate_step junk ctx ev).1, (gate_step junk ctx ev).2).
Proof.
  change (option_list (Some ev)) with [ev]. cbn [gate_trace]. destruct (gate_step junk ctx ev) as [acc ctx'].
  by rewrite app_nil_r.
Qed.

(** A message is its event, whatever becomes of the reply. *)
Lemma serve_message_event junk env msg_type payload ctx tx :
  (serve_message junk env msg_type payload ctx tx).1.2 =
  (gate_trace junk ctx (option_list (message_event env msg_type payload))).2.
Proof.
  unfold serve_message, message_event. destruct (msg_type =? OBICALL_MSG_HEARTBEAT).
  { rewrite gate_trace_one. cbn [gate_step]. destruct (handle_heartbeat _ _ _ _) as [[reply|] ctx']; [|done].
    by destruct (send_reply _ _ _). }
  destruct (msg_type =? OBICALL_MSG_RESULT_PUBLISH).
  { rewrite gate_trace_one. cbn [gate_step]. destruct (handle_result_publish _ _ _ _ _) as [[ack|] ctx']; [|done].
    by destruct (send_reply _ _ _). }
  destruct (msg_type =? OBICALL_MSG_STATUS_QUERY); [|done].
  rewrite gate_trace_one. cbn [gate_step handle_status_query snd]. by destruct (send_reply _ _ _).
Qed.

Lemma connection_turn_event junk token env ctx c :
  (connection_turn junk token env ctx c).1 = (gate_trace junk ctx (option_list (turn_event env c))).2.
Proof.
  unfold connection_turn, turn_event. destruct (gn_phase c) as [|role|]; [|destruct (osal_recv_frame 4096 (gn_rx c)) as [r rx]|done].
  - by destruct (procutil_server_verify_hello token (gn_rx c)).
  - cbn [fst]. destruct r as [msg_type payload| |]; [|done..]. rewrite <- (serve_message_event junk env msg_type payload ctx (gn_tx c)).
    by destruct (serve_message _ _ _ _ _ _) as [[out ctx'] tx].
Qed.

(** An open connection delivers bytes. *)
Definition conn_ok (c : gate_conn) : Prop := gn_phase c <> PhClosed -> bytes (rx_stream (gn_rx c)).

Lemma verify_hello_bytes token rx role rx' :
  bytes (rx_stream rx) -> procutil_server_verify_hello token rx = (Some role, rx') -> bytes (rx_stream rx').
Proof.
  intros Hb. unfold procutil_server_verify_hello. destruct (osal_recv_frame 256 rx) as [r rx1] eqn:E.
  pose proof (recv_frame_bytes _ _ _ _ Hb E) as Hr. destruct r as [mt payload| |]; [|done..].
  intros H. repeat case_match; simplify_eq. apply Hr.
Qed.

Lemma connection_turn_ok junk token env ctx c : conn_ok c -> conn_ok (connection_turn junk token env ctx c).2.
Proof.
  unfold conn_ok, connection_turn. intros Hc. destruct (gn_phase c) as [|role|] eqn:Ep; [| |by intros []].
  - specialize (Hc ltac:(done)). destruct (procutil_server_verify_hello token (gn_rx c)) as [[role|] rx] eqn:E; [|done].
    intros _. by eapply verify_hello_bytes.
  - specialize (Hc ltac:(done)). destruct (osal_recv_frame 4096 (gn_rx c)) as [r rx] eqn:E.
    pose proof (recv_frame_bytes _ _ _ _ Hc E) as Hr. destruct r as [mt payload| |]; [|by intros _|done].
    destruct (serve_message _ _ _ _ _ _) as [[out ctx'] tx]. intros _. apply Hr.
Qed.

Lemma turn_event_valid env c : conn_ok c -> Forall valid_event (option_list (turn_event env c)).
Proof.
  intros Hc. unfold turn_event. destruct (gn_phase c) as [|role|] eqn:Ep; [constructor| |constructor].
  destruct (osal_recv_frame 4096 (gn_rx c)).1 as [mt payload| |] eqn:E; [|constructor..].
  assert (bytes payload) by (eapply frame_payload_bytes; [apply Hc; by rewrite Ep|exact E]).
  unfold message_event. repeat case_match; by repeat constructor.
Qed.

Record gated_inv (junk : list Z) (ctx0 : gate_ctx) (g : gated) : Prop := {
  gv_conns : Forall conn_ok (gd_conns g);
  gv_events : Forall valid_event (gd_events g);
  gv_trace : (gate_trace junk ctx0 (gd_events g)).2 = gd_ctx g
}.

Lemma gated_step_inv junk token ctx0 g g' :
  gated_inv junk ctx0 g -> gated_step junk token g g' -> gated_inv junk ctx0 g'.
Proof.
  intros Hinv Hs. revert Hinv. destruct Hs as [g1 rx tx Hb|g1 i c env Hi]; intros [Hc He Ht].
  - split; [|done|done]. apply Forall_app. split; [done|]. constructor; [by intros _|constructor].
  - assert (Hci : conn_ok c) by (by eapply Forall_lookup_1).
    pose proof (connection_turn_ok junk token env (gd_ctx g1) c Hci) as Hok.
    pose proof (connection_turn_event junk token env (gd_ctx g1) c) as Hev.
    destruct (connection_turn _ _ _ _ _) as [ctx c']. cbn [fst snd] in *. split; cbn [gd_conns gd_events gd_ctx].
    + by apply Forall_insert.
    + apply Forall_app. split; [done|by apply turn_event_valid].
    + rewrite gate_trace_app. destruct (gate_trace junk ctx0 (gd_events g1)) as [acc ctx1]. cbn [snd] in Ht. subst ctx1.
      by destruct (gate_trace junk (gd_ctx g1) _).
Qed.

Lemma gated_reach_inv junk token ctx0 g :
  gated_reach junk token (gated_init ctx0) g -> gated_inv junk ctx0 g.
Proof. induction 1; [by split|by eapply gated_step_inv]. Qed.

(** ** What a turn sends *)

(** The one frame that answers a message. *)
Definition answer_frame (junk : list Z) (env : turn_env) (msg_type : Z) (payload : list Z) (ctx : gate_ctx) : list Z :=
  if msg_type =? OBICALL_MSG_HEARTBEAT then
    match (handle_heartbeat (tn_persist env) (tn_now env) payload ctx).1 with
    | Some m => frame_bytes OBICALL_MSG_STATUS_REPLY (status_reply_wire m) | None => []
    end
  else if msg_type =? OBICALL_MSG_RESULT_PUBLISH then
    match (handle_result_publish junk (tn_persist env) (tn_now env) payload ctx).1 with
    | Some m => frame_bytes OBICALL_MSG_RESULT_ACK (result_ack_wire m) | None => []
    end
  else if msg_type =? OBICALL_MSG_STATUS_QUERY then
    frame_bytes OBICALL_MSG_STATUS_REPLY (status_reply_wire (handle_status_query (tn_now env) ctx).1)
  else [].

Lemma send_reply_prefix msg_type buf tx : (send_reply msg_type (Ok buf) tx).1 `prefix_of` frame_bytes msg_type buf.
Proof.
  unfold send_reply. destruct (osal_send_frame msg_type buf tx) as [[ok out] tx'] eqn:E. by apply send_frame_spec in E as [? _].
Qed.

Lemma serve_message_answer junk env msg_type payload ctx tx :
  bytes payload -> gate_inv (gc_state (serve_message junk env msg_type payload ctx tx).1.2) ->
  (serve_message junk env msg_type payload ctx tx).1.1 `prefix_of` answer_frame junk env msg_type payload ctx.
Proof.
  intros Hb. unfold serve_message, answer_frame. destruct (msg_type =? OBICALL_MSG_HEARTBEAT).
  { destruct (handle_heartbeat _ _ _ _) as [[m|] ctx'] eqn:E; [|intros _; apply prefix_nil].
    destruct (send_reply _ _ tx) as [out tx'] eqn:Es. cbn [fst snd]. intros Hi.
    assert (Hm : wf_status_reply m) by (apply heartbeat_reply in E as ->; by apply status_reply_wf).
    rewrite enc_spec in Es by done. destruct (_ <=? 64); [|by injection Es as <- _; apply prefix_nil].
    pose proof (send_reply_prefix OBICALL_MSG_STATUS_REPLY (status_reply_wire m) tx) as H. by rewrite Es in H. }
  destruct (msg_type =? OBICALL_MSG_RESULT_PUBLISH).
  { destruct (handle_result_publish _ _ _ _ _) as [[m|] ctx'] eqn:E; [|intros _; apply prefix_nil].
    destruct (send_reply _ _ tx) as [out tx'] eqn:Es. cbn [fst snd]. intros _.
    assert (Hm : wf_result_ack m) by (by eapply publish_ack_wf).
    rewrite enc_spec in Es by done. destruct (_ <=? 128); [|by injection Es as <- _; apply prefix_nil].
    pose proof (send_reply_prefix OBICALL_MSG_RESULT_ACK (result_ack_wire m) tx) as H. by rewrite Es in H. }
  destruct (msg_type =? OBICALL_MSG_STATUS_QUERY); [|intros _; apply prefix_nil].
  unfold handle_status_query. destruct (send_reply _ _ tx) as [out tx'] eqn:Es. cbn [fst snd]. intros Hi.
  rewrite enc_spec in Es by (done || by apply status_reply_wf). destruct (_ <=? 64); [|by injection Es as <- _; apply prefix_nil].
  pose proof (send_reply_prefix OBICALL_MSG_STATUS_REPLY (status_reply_wire (status_reply (tn_now env) ctx)) tx) as H.
  by rewrite Es in H.
Qed.

(** What a turn adds to the connection's output. *)
Definition turn_answer (junk : list Z) (env : turn_env) (ctx : gate_ctx) (c : gate_conn) : list Z :=
  match gn_phase c, (osal_recv_frame 4096 (gn_rx c)).1 with
  | PhServe _, Frame msg_type payload => answer_frame junk env msg_type payload ctx
  | _, _ => []
  end.

Lemma connection_turn_answer junk token env ctx c :
  conn_ok c -> gate_inv (gc_state (connection_turn junk token env ctx c).1) ->
  exists sent, gn_out (connection_turn junk token env ctx c).2 = gn_out c ++ sent /\
    sent `prefix_of` turn_answer junk env ctx c.
Proof.
  intros Hc Hi. assert (Hno : forall x, x = gn_out c -> exists sent, x = gn_out c ++ sent /\ sent `prefix_of` turn_answer junk env ctx c).
  { intros x ->. exists []. split; [by rewrite app_nil_r|apply prefix_nil]. }
  revert Hi Hno. unfold connection_turn, turn_answer. destruct (gn_phase c) as [|role|] eqn:Ep.
  - intros _ H. destruct (procutil_server_verify_hello _ _). by apply H.
  - destruct (osal_recv_frame 4096 (gn_rx c)) as [[msg_type payload| |] rx] eqn:E; [|by intros _ H; apply H..].
    assert (Hb : bytes payload) by (eapply frame_payload_bytes; [apply Hc; by rewrite Ep|by rewrite E]).
    pose proof (serve_message_answer junk env msg_type payload ctx (gn_tx c) Hb) as Ha.
    destruct (serve_message _ _ _ _ _ _) as [[out ctx'] tx]. cbn [fst snd gn_out] in *. intros Hi _.
    exists out. split; [done|by apply Ha].
  - intros _ H. by apply H.
Qed.

(** * The claims *)

(** C6: the gate as its clients see it: however its connections open, close and
    interleave, and whatever arrives on them, what the threads do to the shared context
    is a trace of single messages; so the results it accepts keep strictly increasing
    windows per pipeline, non-decreasing epochs and one broker per epoch, over all
    connections together; a connection whose handshake fails changes nothing; and what
    a turn writes is the answer its own message got at that moment, or the part of it
    the socket took. *)
Theorem gate_serves_one_message_at_a_time junk token ctx d g :
  daemon_inv ctx d -> gated_reach junk token (gated_init ctx) g ->
  gs_epoch (gc_state ctx) + Z.of_nat (length (gd_events g)) + 1 < 18446744073709551616 ->
  let '(accepted, ctx') := gate_trace junk ctx (gd_events g) in
  gd_ctx g = ctx' /\ StronglySorted acc_before accepted /\ Forall (acc_after d) accepted /\
  forall i c env, gd_conns g !! i = Some c ->
    let '(ctx2, c2) := connection_turn junk token env ctx' c in
    (forall role, gn_phase c2 = PhServe role -> gn_phase c = PhServe role \/
       (gn_phase c = PhHello /\ (procutil_server_verify_hello token (gn_rx c)).1 = Some role)) /\
    ((forall role, gn_phase c <> PhServe role) -> ctx2 = ctx' /\ gn_out c2 = gn_out c) /\
    exists sent, gn_out c2 = gn_out c ++ sent /\ sent `prefix_of` turn_answer junk env ctx' c.
Proof.
  intros Hinv Hr Hb. destruct (gated_reach_inv _ _ _ _ Hr) as [Hc He Ht].
  destruct (gate_trace_ok junk (gd_events g) ctx d Hinv He ltac:(lia)) as [Hs Ha].
  destruct (gate_trace junk ctx (gd_events g)) as [accepted ctx'] eqn:Et. cbn [fst snd] in *.
  split; [done|]. split; [done|]. split; [done|]. intros i c env Hi.
  assert (Hci : conn_ok c) by (by eapply Forall_lookup_1).
  assert (Hg : gate_inv (gc_state (connection_turn junk token env ctx' c).1)).
  { assert (H : Forall valid_event (gd_events g ++ option_list (turn_event env c)))
      by (apply Forall_app; split; [done|by apply turn_event_valid]).
    destruct (gate_trace_inv junk _ ctx d Hinv H) as (d' & Hd' & _).
    { rewrite length_app. assert (length (option_list (turn_event env c)) <= 1)%nat by (destruct (turn_event env c); cbn; lia). lia. }
    rewrite gate_trace_app, Et in Hd'. rewrite connection_turn_event. destruct (gate_trace junk ctx' _).
    exact (proj1 (di_live _ _ Hd')). }
  pose proof (connection_turn_answer junk token env ctx' c Hci Hg) as Hsent.
  destruct (connection_turn junk token env ctx' c) as [ctx2 c2] eqn:E. cbn [fst snd] in Hsent.
  split; [|split; [|done]]; revert E; unfold connection_turn; destruct (gn_phase c) as [|role0|] eqn:Ep.
  - destruct (procutil_server_verify_hello token (gn_rx c)) as [[r|] rx]; intros [= <- <-] role; cbn [gn_phase]; [|done].
    intros [= <-]. by right.
  - intros H role Hp. left. repeat case_match; simplify_eq/=; done.
  - intros [= <- <-] role. by rewrite Ep.
  - destruct (procutil_server_verify_hello token (gn_rx c)) as [[r|] rx]; by intros [= <- <-].
  - intros _ Hn. by destruct (Hn role0).
  - by intros [= <- <-].
Qed.

(** * Witness *)

(** A broker connects, is verified and publishes a result. *)
Definition sample_env : turn_env := TurnEnv false sample_persist 200.
Definition sample_conn_rx : list rx_event :=
  [RxBytes (frame_bytes OBICALL_MSG_AUTH_HELLO
      (auth_hello_wire (AuthHello OBICALL_WIRE_VERSION OBICALL_ROLE_BROKER sample_token)));
   RxBytes (frame_bytes OBICALL_MSG_RESULT_PUBLISH result_payload)].
Definition gated_next_turn (g : gated) : gated :=
  match gd_conns g with
  | [] => g
  | c :: _ =>
      let '(ctx, c') := connection_turn sample_junk sample_token sample_env (gd_ctx g) c in
      Gated ctx (<[0%nat := c']> (gd_conns g)) (gd_events g ++ option_list (turn_event sample_env c))
  end.
Definition sample_gated : gated :=
  gated_next_turn (gated_next_turn (Gated sample_ctx [GateConn PhHello sample_conn_rx eager_tx []] [])).

Lemma gated_next_turn_reach g0 g :
  gated_reach sample_junk sample_token g0 g -> gated_reach sample_junk sample_token g0 (gated_next_turn g).
Proof.
  intros Hr. unfold gated_next_turn. destruct (gd_conns g) as [|c cs] eqn:Hc; [done|]. rewrite <- Hc.
  eapply gated_next; [exact Hr|]. apply (gated_turn sample_junk sample_token g 0 c sample_env). by rewrite Hc.
Qed.

Lemma sample_gated_reach : gated_reach sample_junk sample_token (gated_init sample_ctx) sample_gated.
Proof.
  do 2 apply gated_next_turn_reach. eapply gated_next; [apply gated_start|].
  apply (gated_accept sample_junk sample_token (gated_init sample_ctx) sample_conn_rx eager_tx).
  apply forallb_bytes. vm_compute. reflexivity.
Qed.

Lemma gate_serves_witness :
  StronglySorted acc_before (gate_trace sample_junk sample_ctx (gd_events sample_gated)).1 /\
  length (gate_trace sample_junk sample_ctx (gd_events sample_gated)).1 = 1%nat /\
  gd_ctx sample_gated = (gate_trace sample_junk sample_ctx (gd_events sample_gated)).2.
Proof.
  assert (Hl : length (gate_trace sample_junk sample_ctx (gd_events sample_gated)).1 = 1%nat) by (vm_compute; reflexivity).
  pose proof (gate_serves_one_message_at_a_time sample_junk sample_token sample_ctx no_durable sample_gated
    sample_ctx_inv sample_gated_reach ltac:(vm_compute; reflexivity)) as H.
  destruct (gate_trace sample_junk sample_ctx (gd_events sample_gated)) as [accepted ctx'].
  destruct H as (H1 & H2 & _). split; [exact H2|]. split; [exact Hl|exact H1].
Defined.
