(* ===== verification/Threads.v ===== *)
(** * Threads: starting threads and excluding them (src/osal/osal_thread.c)

    What a start allocates and who frees it; and the mutex, as a machine of threads
    that run their locked blocks a statement at a time.  The theorem about it is what
    lets the other files take a locked block for one step. *)

From S2P Require Import Prelude.

(** ** Starting a thread *)

Inductive block := TrampolineArgs | ThreadHandle.
#[export] Instance block_eq_dec : EqDecision block.
Proof. solve_decision. Defined.

(** The answers of [malloc] for the two blocks and of [pthread_create]. *)
Record start_env := StartEnv {
  se_args : bool;
  se_handle : bool;
  se_create : bool
}.

(** What a start did: the C return value, whether the thread runs, the blocks it
    allocated and the ones it freed again. *)
Record started := Started {
  st_return : Z;
  st_runs : bool;
  st_allocated : list block;
  st_freed : list block
}.

Definition osal_thread_start (env : start_env) : started :=
  if negb (se_args env) then Started (-1) false [] []
  else if negb (se_handle env) then Started (-1) false [TrampolineArgs] [TrampolineArgs]
  else if negb (se_create env)
  then Started (-1) false [TrampolineArgs; ThreadHandle] [TrampolineArgs; ThreadHandle]
  else Started 0 true [TrampolineArgs; ThreadHandle] [].

Definition osal_thread_start_detached (env : start_env) : started :=
  if negb (se_args env) then Started (-1) false [] []
  else if negb (se_create env) then Started (-1) false [TrampolineArgs] [TrampolineArgs]
  else Started 0 true [TrampolineArgs] [].

(** What the new thread frees when the function it runs has returned, and what joining
    it frees. *)
Definition trampoline_frees : list block := [TrampolineArgs].
Definition osal_thread_join_frees : list block := [ThreadHandle].

(** Every block is freed exactly once: by the start if it fails; else by the thread that
    then runs, and the handle, of a thread that is not detached, by the join. *)
Theorem thread_blocks_freed env :
  (let s := osal_thread_start env in
   st_allocated s = st_freed s ++ (if st_runs s then trampoline_frees ++ osal_thread_join_frees else []) /\
   (st_return s = 0 <-> st_runs s = true) /\ NoDup (st_allocated s)) /\
  (let s := osal_thread_start_detached env in
   st_allocated s = st_freed s ++ (if st_runs s then trampoline_frees else []) /\
   (st_return s = 0 <-> st_runs s = true) /\ NoDup (st_allocated s)).
Proof.
  assert (Hn : NoDup [TrampolineArgs; ThreadHandle]) by (apply NoDup_cons; split; [by rewrite list_elem_of_singleton|apply NoDup_singleton]).
  destruct env as [[] [] []]; cbn; split_and!; done || apply NoDup_singleton || apply NoDup_nil_2 || exact Hn.
Qed.

(** ** The mutex *)

(** [None] while it is free, else the thread that holds it.  A [lock] that finds it
    taken does not return yet. *)
Definition mutex := option nat.
Definition osal_mutex_init : mutex := None.
Definition osal_mutex_lock (thread : nat) (mu : mutex) : option mutex :=
  match mu with None => Some (Some thread) | Some _ => None end.
Definition osal_mutex_unlock (mu : mutex) : mutex := None.

Section mutex.
(** What the mutex protects, a thread's local variables, and what a thread may want to
    do; a locked block is given by its next statement, [None] where it ends. *)
Context {Shared Local Request : Type} (asks : Request -> Prop).
Context (enter : Request -> Local) (statement : Request -> Shared -> Local -> option (Shared * Local)).

(** Where a thread stands with regard to the mutex. *)
Inductive phase :=
| Outside
| Waiting (r : Request)
| Inside (r : Request) (l : Local)
| Behind (r : Request) (l : Local).

Record machine := Machine {
  mc_shared : Shared;
  mc_mutex : mutex;
  mc_threads : list phase
}.

Inductive action :=
| Quiet
| Unlocked (r : Request) (l : Local)
| Returned (r : Request) (l : Local).

Definition move (m : machine) (i : nat) (p : phase) : machine :=
  Machine (mc_shared m) (mc_mutex m) (<[i := p]> (mc_threads m)).

(** One step of one thread. *)
Inductive thread_step : machine -> action -> machine -> Prop :=
| step_spawn m :
    thread_step m Quiet (Machine (mc_shared m) (mc_mutex m) (mc_threads m ++ [Outside]))
| step_ask m i r :
    mc_threads m !! i = Some Outside -> asks r -> thread_step m Quiet (move m i (Waiting r))
| step_lock m i r mu :
    mc_threads m !! i = Some (Waiting r) -> osal_mutex_lock i (mc_mutex m) = Some mu ->
    thread_step m Quiet (Machine (mc_shared m) mu (<[i := Inside r (enter r)]> (mc_threads m)))
| step_statement m i r l s l' :
    mc_threads m !! i = Some (Inside r l) -> statement r (mc_shared m) l = Some (s, l') ->
    thread_step m Quiet (Machine s (mc_mutex m) (<[i := Inside r l']> (mc_threads m)))
| step_unlock m i r l :
    mc_threads m !! i = Some (Inside r l) -> statement r (mc_shared m) l = None ->
    thread_step m (Unlocked r l)
      (Machine (mc_shared m) (osal_mutex_unlock (mc_mutex m)) (<[i := Behind r l]> (mc_threads m)))
| step_return m i r l :
    mc_threads m !! i = Some (Behind r l) -> thread_step m (Returned r l) (move m i Outside).

(** What thread [i] does next, when that is for it alone to say: [None] when it waits for
    something to do or for the mutex. *)
Definition advance (m : machine) (i : nat) : option (action * machine) :=
  match mc_threads m !! i with
  | None | Some Outside => None
  | Some (Waiting r) =>
      match osal_mutex_lock i (mc_mutex m) with
      | None => None
      | Some mu => Some (Quiet, Machine (mc_shared m) mu (<[i := Inside r (enter r)]> (mc_threads m)))
      end
  | Some (Inside r l) =>
      Some match statement r (mc_shared m) l with
           | Some (s, l) => (Quiet, Machine s (mc_mutex m) (<[i := Inside r l]> (mc_threads m)))
           | None => (Unlocked r l, Machine (mc_shared m) (osal_mutex_unlock (mc_mutex m)) (<[i := Behind r l]> (mc_threads m)))
           end
  | Some (Behind r l) => Some (Returned r l, move m i Outside)
  end.

Lemma advance_step m i a m' : advance m i = Some (a, m') -> thread_step m a m'.
Proof.
  unfold advance. intros H. destruct (mc_threads m !! i) as [[|r|r l|r l]|] eqn:Hi; try done.
  - destruct (osal_mutex_lock i (mc_mutex m)) eqn:E; [|done]. injection H as <- <-. by apply step_lock.
  - destruct (statement r (mc_shared m) l) as [[s l']|] eqn:E; injection H as <- <-; [by eapply step_statement|by apply step_unlock].
  - injection H as <- <-. by apply step_return.
Qed.

(** *** A block run by itself *)

Inductive runs (r : Request) (s : Shared) (l : Local) : Shared -> Local -> Prop :=
| runs_start : runs r s l s l
| runs_on s' l' s'' l'' :
    runs r s l s' l' -> statement r s' l' = Some (s'', l'') -> runs r s l s'' l''.

(** From beginning to end, with nobody else about. *)
Definition completes (r : Request) (s s' : Shared) (l : Local) : Prop :=
  runs r s (enter r) s' l /\ statement r s' l = None.

Lemma runs_cons r s l s1 l1 s2 l2 :
  statement r s l = Some (s1, l1) -> runs r s1 l1 s2 l2 -> runs r s l s2 l2.
Proof. intros Hst. induction 1; [eapply runs_on; [constructor|done]|by eapply runs_on]. Qed.

Lemma runs_head r s l s2 l2 :
  runs r s l s2 l2 -> (s = s2 /\ l = l2) \/ exists s1 l1, statement r s l = Some (s1, l1) /\ runs r s1 l1 s2 l2.
Proof.
  induction 1 as [|s1 l1 s2 l2 _ [[-> ->]|(s3 & l3 & H3 & Hr)] Hst]; [by left| |]; right.
  - exists s2, l2. split; [done|constructor].
  - exists s3, l3. split; [done|by eapply runs_on].
Qed.

(** A block has one outcome. *)
Lemma runs_unique r s l s1 l1 s2 l2 :
  runs r s l s1 l1 -> runs r s l s2 l2 -> statement r s2 l2 = None -> runs r s1 l1 s2 l2.
Proof.
  intros H1 H2 Hn. induction H1 as [|s3 l3 s4 l4 _ IH Hst]; [done|].
  destruct (runs_head _ _ _ _ _ IH) as [[-> ->]|(s5 & l5 & H5 & Hr)]; congruence.
Qed.
Lemma completes_unique r s s1 l1 s2 l2 :
  completes r s s1 l1 -> runs r s (enter r) s2 l2 -> statement r s2 l2 = None -> s1 = s2 /\ l1 = l2.
Proof.
  intros [H1 Hn1] H2 Hn2. destruct (runs_head _ _ _ _ _ (runs_unique _ _ _ _ _ _ _ H1 H2 Hn2)) as [?|(? & ? & ? & _)]; [done|congruence].
Qed.

Inductive blocks (s0 : Shared) : list (Request * Local) -> Shared -> Prop :=
| blocks_nil : blocks s0 [] s0
| blocks_snoc h s r l s' : blocks s0 h s -> completes r s s' l -> blocks s0 (h ++ [(r, l)]) s'.

(** *** Mutual exclusion and atomicity *)

(** The shared state is [s] changed by the statements run so far of the one block that
    is being run, if one is. *)
Definition held (s : Shared) (m : machine) : Prop :=
  match mc_mutex m with
  | None => mc_shared m = s /\ forall i r l, mc_threads m !! i <> Some (Inside r l)
  | Some i =>
      exists r l, mc_threads m !! i = Some (Inside r l) /\ runs r s (enter r) (mc_shared m) l /\
      forall j r' l', mc_threads m !! j = Some (Inside r' l') -> j = i
  end.

Lemma held_start s : held s (Machine s osal_mutex_init []).
Proof. split; [done|]. by intros i r l. Qed.

Lemma held_inside s m i r l :
  held s m -> mc_threads m !! i = Some (Inside r l) ->
  mc_mutex m = Some i /\ runs r s (enter r) (mc_shared m) l.
Proof.
  unfold held. destruct (mc_mutex m) as [k|].
  - intros (r' & l' & Hk & Hr & Hu) Hi. assert (i = k) as -> by (by eapply Hu). split; congruence.
  - intros [_ Hn] Hi. by destruct (Hn i r l).
Qed.

(** A thread that is not inside moves outside: nothing changes. *)
Lemma held_move s m i p p' :
  held s m -> mc_threads m !! i = Some p -> (forall r l, p <> Inside r l) -> (forall r l, p' <> Inside r l) ->
  held s (move m i p').
Proof.
  intros Hh Hi Hp Hp'. assert (Hj : forall j r l, (<[i := p']> (mc_threads m)) !! j = Some (Inside r l) -> mc_threads m !! j = Some (Inside r l)).
  { intros j r l. destruct (decide (i = j)) as [->|]; [|by rewrite list_lookup_insert_ne].
    rewrite list_lookup_insert_eq by (by eapply lookup_lt_Some). intros [= ->]. by destruct (Hp' r l). }
  revert Hh. unfold held, move. cbn [mc_mutex mc_shared mc_threads]. destruct (mc_mutex m) as [k|].
  - intros (r & l & Hk & Hr & Hu). exists r, l. split; [|split; [done|]].
    + rewrite list_lookup_insert_ne; [done|]. intros ->. rewrite Hk in Hi. simplify_eq. by destruct (Hp r l).
    + intros j r' l' H%Hj. by eapply Hu.
  - intros [Hs Hn]. split; [done|]. intros j r l H%Hj. by destruct (Hn j r l).
Qed.

(** The state [held] speaks of after a step: it changes where a block ends. *)
Definition settled (a : action) (s : Shared) (m' : machine) : Shared :=
  match a with Unlocked _ _ => mc_shared m' | _ => s end.

Lemma held_step s m a m' :
  held s m -> thread_step m a m' ->
  held (settled a s m') m' /\
  match a with Unlocked r l => completes r s (mc_shared m') l | _ => True end.
Proof.
  intros Hh Hs. destruct Hs as [m|m i r Hi Hask|m i r mu Hi Hmu|m i r l s' l' Hi Hst|m i r l Hi Hst|m i r l Hi]; cbn [settled].
  - split; [|done]. revert Hh. unfold held. cbn [mc_mutex mc_shared mc_threads].
    assert (Hj : forall j r l, (mc_threads m ++ [Outside]) !! j = Some (Inside r l) -> mc_threads m !! j = Some (Inside r l)).
    { intros j r l [H|[_ H]]%lookup_app_Some; [done|]. by apply list_lookup_singleton_Some in H as [_ ?]. }
    destruct (mc_mutex m) as [k|].
    + intros (r & l & Hk & Hr & Hu). exists r, l. split; [by apply lookup_app_l_Some|]. split; [done|]. intros j r' l' H%Hj. by eapply Hu.
    + intros [Hsh Hn]. split; [done|]. intros j r l H%Hj. by destruct (Hn j r l).
  - split; [|done]. by eapply held_move.
  - split; [|done]. revert Hh. unfold held, osal_mutex_lock in *. destruct (mc_mutex m) as [k|]; [done|].
    injection Hmu as <-. intros [<- Hn]. cbn [mc_mutex mc_shared mc_threads]. exists r, (enter r).
    rewrite list_lookup_insert_eq by (by eapply lookup_lt_Some). split; [done|]. split; [constructor|].
    intros j r' l'. destruct (decide (i = j)) as [->|]; [done|]. rewrite list_lookup_insert_ne by done.
    intros H. by destruct (Hn j r' l').
  - split; [|done]. destruct (held_inside _ _ _ _ _ Hh Hi) as [Hmu Hr]. revert Hh. unfold held. cbn [mc_mutex mc_shared mc_threads].
    rewrite Hmu. intros (_ & _ & _ & _ & Hu). exists r, l'. rewrite list_lookup_insert_eq by (by eapply lookup_lt_Some).
    split; [done|]. split; [by eapply runs_on|]. intros j r' l''. destruct (decide (i = j)) as [->|]; [done|].
    rewrite list_lookup_insert_ne by done. by apply Hu.
  - destruct (held_inside _ _ _ _ _ Hh Hi) as [Hmu Hr]. split; [|by split].
    revert Hh. unfold held, osal_mutex_unlock. cbn [mc_mutex mc_shared mc_threads]. rewrite Hmu. intros (_ & _ & _ & _ & Hu).
    split; [done|]. intros j r' l'. destruct (decide (i = j)) as [->|].
    + by rewrite list_lookup_insert_eq by (by eapply lookup_lt_Some).
    + rewrite list_lookup_insert_ne by done. intros H%Hu. congruence.
  - split; [|done]. by eapply held_move.
Qed.

(** Whatever a thread is at, it asked for. *)
Definition asked (m : machine) : Prop :=
  Forall (fun p => match p with Outside => True | Waiting r | Inside r _ | Behind r _ => asks r end) (mc_threads m).

Lemma asked_step m a m' :
  asked m -> thread_step m a m' -> asked m' /\ match a with Unlocked r _ => asks r | _ => True end.
Proof.
  unfold asked. intros Ha Hs.
  assert (Hi : forall i p, mc_threads m !! i = Some p -> match p with Outside => True | Waiting r | Inside r _ | Behind r _ => asks r end)
    by (intros i p; apply (Forall_lookup_1 _ _ i p Ha)).
  destruct Hs as [m|m i r H ?|m i r mu H _|m i r l s' l' H _|m i r l H _|m i r l H]; cbn [mc_threads move].
  1: split; [|done]; apply Forall_app; by split; [|apply Forall_singleton].
  all: split; [apply Forall_insert; [done|]|]; try done; exact (Hi _ _ H).
Qed.

(** *** What the callers get *)

(** The blocks that have ended but whose callers still have to act on them. *)
Definition pending (m : machine) : list (Request * Local) :=
  omap (fun p => match p with Behind r l => Some (r, l) | _ => None end) (mc_threads m).

Lemma pending_step m a m' :
  thread_step m a m' ->
  match a with
  | Quiet => pending m' = pending m
  | Unlocked r l => pending m' ≡ₚ (r, l) :: pending m
  | Returned r l => pending m ≡ₚ (r, l) :: pending m'
  end.
Proof.
  assert (Hsplit : forall l i (p p' : phase), l !! i = Some p ->
    l = take i l ++ p :: drop (S i) l /\ <[i := p']> l = take i l ++ p' :: drop (S i) l).
  { intros l i p p' Hi. split; [by rewrite take_drop_middle|]. apply insert_take_drop. by eapply lookup_lt_Some. }
  intros Hs. destruct Hs as [m|m i r Hi _|m i r mu Hi _|m i r l s' l' Hi _|m i r l Hi _|m i r l Hi];
    unfold pending, move; cbn [mc_threads].
  1: by rewrite omap_app, app_nil_r.
  all: match goal with Hi : _ |- context [<[_ := ?p]> _] => destruct (Hsplit _ _ _ p Hi) as [E ->] end.
  all: revert E; generalize (take i (mc_threads m)) (drop (S i) (mc_threads m)); intros before after ->.
  all: rewrite !omap_app; cbn [omap list_omap]; by rewrite ?Permutation_middle.

Qed.

Inductive reach (s0 : Shared) : machine -> list (Request * Local) -> list (Request * Local) -> Prop :=
| reach_start : reach s0 (Machine s0 osal_mutex_init []) [] []
| reach_step m ended returned a m' :
    reach s0 m ended returned -> thread_step m a m' ->
    reach s0 m' (match a with Unlocked r l => ended ++ [(r, l)] | _ => ended end)
                (match a with Returned r l => returned ++ [(r, l)] | _ => returned end).

(** Whatever the threads do and however their statements interleave, at most one is
    inside; the shared state is the one the ended blocks leave when each is run by itself
    in the order they ended, changed by what the one inside has done so far; and every
    block returns to its caller what it would by itself, once. *)
Theorem mutex_atomic s0 m ended returned :
  reach s0 m ended returned ->
  exists s, blocks s0 ended s /\ held s m /\ returned ++ pending m ≡ₚ ended.
Proof.
  induction 1 as [|m ended returned a m' _ (s & Hb & Hh & Hp) Hs].
  - exists s0. split; [constructor|]. split; [apply held_start|done].
  - destruct (held_step _ _ _ _ Hh Hs) as [Hh' Ha]. apply pending_step in Hs.
    exists (settled a s m'). destruct a as [|r l|r l]; cbn [settled] in *.
    + by rewrite Hs.
    + split; [by eapply blocks_snoc|]. split; [done|]. by rewrite Hs, <- Hp, <- Permutation_middle, <- Permutation_cons_append.
    + split; [done|]. split; [done|]. by rewrite <- Hp, Hs, <- app_assoc.
Qed.
(** *** Runs by command *)

(** A thread comes, is given something to do, goes on. *)
Inductive command := Spawn | Ask (i : nat) (r : Request) | Go (i : nat).
Definition allowed (c : command) : Prop := match c with Ask _ r => asks r | _ => True end.

Definition obey (c : command) (m : machine) : option (action * machine) :=
  match c with
  | Spawn => Some (Quiet, Machine (mc_shared m) (mc_mutex m) (mc_threads m ++ [Outside]))
  | Ask i r => match mc_threads m !! i with Some Outside => Some (Quiet, move m i (Waiting r)) | _ => None end
  | Go i => advance m i
  end.

Lemma obey_step c m a m' : allowed c -> obey c m = Some (a, m') -> thread_step m a m'.
Proof.
  intros Hc. destruct c as [|i r|i]; cbn [obey].
  - intros [= <- <-]. apply step_spawn.
  - destruct (mc_threads m !! i) as [[| | |]|] eqn:Hi; try done. intros [= <- <-]. by apply step_ask.
  - apply advance_step.
Qed.

Fixpoint obey_all (cs : list command) (run : machine * list (Request * Local) * list (Request * Local))
    : option (machine * list (Request * Local) * list (Request * Local)) :=
  match cs with
  | [] => Some run
  | c :: cs =>
      let '(m, ended, returned) := run in
      match obey c m with
      | None => None
      | Some (a, m) =>
          obey_all cs (m, match a with Unlocked r l => ended ++ [(r, l)] | _ => ended end,
                          match a with Returned r l => returned ++ [(r, l)] | _ => returned end)
      end
  end.

Lemma obey_all_reach s0 cs m ended returned m' ended' returned' :
  reach s0 m ended returned -> Forall allowed cs ->
  obey_all cs (m, ended, returned) = Some (m', ended', returned') -> reach s0 m' ended' returned'.
Proof.
  intros Hr Hc. revert m ended returned Hr. induction Hc as [|c cs Hc _ IH]; intros m ended returned Hr; cbn [obey_all].
  - by intros [= <- <- <-].
  - destruct (obey c m) as [[a m1]|] eqn:E; [|done]. apply IH. eapply reach_step; [done|]. by eapply obey_step.
Qed.
End mutex.
