(* ===== verification/GateThreads.v ===== *)
(** * GateThreads: the gate's handlers a statement at a time (src/gate/gate_main.c)

    [GateDaemon] takes a handler for one step.  Here the threads of the gate run the
    locked blocks of their handlers one statement after the other, interleaved in any
    way the mutex of [Threads] allows, and the process may die between any two
    statements, the renaming of the state file included, and start again.  Whatever
    happens is what a sequence of whole steps of [GateDaemon] does. *)

From Stdlib Require Import Sorting.Sorted.
From S2P Require Import Prelude Types Samples Cursor Wire WireMsg Stdio Ipc Gate GateDaemon GateServe Threads.

(** ** The statements of the locked blocks *)

(** What the threads share: the context with the durable state file, and the temporary
    file, which has the same name for all of them. *)
Record gate_mem := GateMem { gm_ctx : gate_ctx; gm_tmp : option (list Z) }.

(** The local variables of a handler and of [persist_locked] below it. *)
Record gate_vars := GateVars {
  va_persist : bool;                                   (* persist_locked is called *)
  va_file : bool;                                      (* f is open *)
  va_status : status;                                  (* st *)
  va_persisted_ok : bool;
  va_outcome : option obicall_gate_publish_outcome;
  va_reply : obicall_msg_status_reply
}.
Definition init_vars : gate_vars := GateVars false false OBICALL_OK true None (StatusReply 0 0 0 0 0).

Definition set_reply (v : gate_vars) (r : obicall_msg_status_reply) : gate_vars :=
  GateVars (va_persist v) (va_file v) (va_status v) (va_persisted_ok v) (va_outcome v) r.
Definition set_persisted (v : gate_vars) (ok : bool) : gate_vars :=
  GateVars (va_persist v) (va_file v) (va_status v) ok (va_outcome v) (va_reply v).
Definition set_file (v : gate_vars) (file : bool) (st : status) : gate_vars :=
  GateVars (va_persist v) file st (va_persisted_ok v) (va_outcome v) (va_reply v).

(** The members of a broker's view a heartbeat writes. *)
Inductive view_field :=
| FKnown | FLastHeartbeat (now : Z) | FHealthy (healthy : Z) | FDigest (digest : list Z)
| FSchema (version : Z) | FWindow (seq : Z).
Definition set_field (f : view_field) (v : broker_view) : broker_view :=
  let '(BrokerView known (Readiness healthy digest schema window) last) := v in
  match f with
  | FKnown => BrokerView true (Readiness healthy digest schema window) last
  | FLastHeartbeat now => BrokerView known (Readiness healthy digest schema window) now
  | FHealthy healthy => BrokerView known (Readiness healthy digest schema window) last
  | FDigest digest => BrokerView known (Readiness healthy digest schema window) last
  | FSchema schema => BrokerView known (Readiness healthy digest schema window) last
  | FWindow window => BrokerView known (Readiness healthy digest schema window) last
  end.

(** The state after the promotion [evaluate_promotion_locked] decides on, before it is
    persisted; [None] when there is none. *)
Definition promotion (now : Z) (ctx : gate_ctx) : option gate_ctx :=
  let promote b := Some (with_state ctx (obicall_gate_promote (gc_state ctx) b).2) in
  if gs_owner_broker_id (gc_state ctx) =? OBICALL_BROKER_NONE then
    let a := broker_at ctx OBICALL_BROKER_A in
    if bv_known a && negb (rd_healthy (bv_readiness a) =? 0) then promote OBICALL_BROKER_A else None
  else
  let owner := gs_owner_broker_id (gc_state ctx) in
  let ov := broker_at ctx owner in
  if negb (bv_known ov) then None
  else if i64 (now - bv_last_heartbeat_ns ov) <=? gc_confirm_timeout_ns ctx then None
  else
  let other := if owner =? OBICALL_BROKER_A then OBICALL_BROKER_B else OBICALL_BROKER_A in
  let sv := broker_at ctx other in
  if negb (bv_known sv) then None
  else if obicall_gate_shadow_promotable (bv_readiness sv)
            (PromotionRequirements (gc_required_config_digest ctx)
               (gc_required_checkpoint_schema_version ctx) (gc_max_allowed_replay_gap ctx))
            (committed_high_water (gc_state ctx))
  then promote other else None.

Inductive gate_stmt :=
| SetField (b : Z) (f : view_field)
| Promote (now : Z)
| DecidePublish (result : obicall_result) (now : Z)
| OpenTmp (ok : bool)
| WriteTmp (io : io_outcome)
| ReplaceState (ok : bool)
| ReplyRunning | ReplyEpoch | ReplyOwner | ReplyWindow | ReplyUptime (now : Z).

(** The three statements of [persist_locked]. *)
Definition persist_block (env : persist_env) : list gate_stmt :=
  [OpenTmp (pe_fopen env); WriteTmp (pe_io env); ReplaceState (pe_replace env)].
Definition reply_block (now : Z) : list gate_stmt :=
  [ReplyRunning; ReplyEpoch; ReplyOwner; ReplyWindow; ReplyUptime now].
Definition heartbeat_block (env : persist_env) (now : Z) (hb : obicall_msg_heartbeat) : list gate_stmt :=
  let set := SetField (hb_broker_id hb) in
  [set FKnown; set (FLastHeartbeat now); set (FHealthy (hb_healthy hb)); set (FDigest (hb_config_digest hb));
   set (FSchema (hb_checkpoint_schema_version hb)); set (FWindow (hb_last_window_seq hb)); Promote now]
  ++ persist_block env ++ reply_block now.
Definition publish_block (env : persist_env) (now : Z) (result : obicall_result) : list gate_stmt :=
  DecidePublish result now :: persist_block env.

(** A message as its handler gets it, with the clock reading taken before the lock. *)
Record request := Request { rq_env : turn_env; rq_type : Z; rq_payload : list Z }.

(** The locked block of its handler; [None] when the handler returns before it, or when
    there is no handler. *)
Definition locked_block (r : request) : option (list gate_stmt) :=
  let env := tn_persist (rq_env r) in
  let now := tn_now (rq_env r) in
  if rq_type r =? OBICALL_MSG_HEARTBEAT then
    match obicall_wire_decode_heartbeat (rq_payload r) with
    | Err _ => None
    | Ok hb =>
        if negb (hb_broker_id hb =? OBICALL_BROKER_A) && negb (hb_broker_id hb =? OBICALL_BROKER_B) then None
        else Some (heartbeat_block env now hb)
    end
  else if rq_type r =? OBICALL_MSG_RESULT_PUBLISH then
    match obicall_wire_decode_result (rq_payload r) with
    | Err _ => None
    | Ok result => Some (publish_block env now result)
    end
  else if rq_type r =? OBICALL_MSG_STATUS_QUERY then Some (reply_block now)
  else None.

(** A thread's local state: the variables and the statements it has before it. *)
Definition gate_local : Type := gate_vars * list gate_stmt.
Definition gate_enter (r : request) : gate_local := (init_vars, default [] (locked_block r)).
Definition gate_asks (r : request) : Prop := is_Some (locked_block r) /\ bytes (rq_payload r).

Abbreviation gate_machine := (machine (Shared := gate_mem) (Local := gate_local) (Request := request)).

Section junk.
(** The uninitialised bytes of a pipeline slot, as in [GateDaemon]. *)
Variable junk : list Z.

Definition exec_stmt (s : gate_stmt) (mem : gate_mem) (v : gate_vars) : gate_mem * gate_vars :=
  let ctx := gm_ctx mem in
  let 'StatusReply running epoch owner window uptime := va_reply v in
  match s with
  | SetField b f => (GateMem (with_broker ctx b (set_field f (broker_at ctx b))) (gm_tmp mem), v)
  | Promote now =>
      match promotion now ctx with
      | Some ctx => (GateMem ctx (gm_tmp mem),
                     GateVars true (va_file v) (va_status v) (va_persisted_ok v) (va_outcome v) (va_reply v))
      | None => (mem, v)
      end
  | DecidePublish result now =>
      let '(outcome, s, _) := obicall_gate_decide_publish junk (gc_state ctx) result now in
      (GateMem (with_state ctx s) (gm_tmp mem),
       GateVars (bool_decide (outcome = OBICALL_GATE_COMMIT)) (va_file v) (va_status v) (va_persisted_ok v)
         (Some outcome) (va_reply v))
  | OpenTmp ok =>
      if va_persist v then
        if ok then (GateMem ctx (Some []), set_file v true OBICALL_OK)
        else (mem, set_persisted (set_file v false OBICALL_OK) false)
      else (mem, v)
  | WriteTmp io =>
      if va_file v then
        let '(st, f) := obicall_gate_persist_state io (CFile (default [] (gm_tmp mem)) 0) (gc_state ctx) in
        (GateMem ctx (Some (f_data f)), set_file v true st)
      else (mem, v)
  | ReplaceState ok =>
      if va_file v then
        match va_status v with
        | OBICALL_OK =>
            if ok then (GateMem (with_file ctx (gm_tmp mem)) None, set_persisted v true)
            else (mem, set_persisted v false)
        | _ => (mem, set_persisted v false)
        end
      else (mem, v)
  | ReplyRunning => (mem, set_reply v (StatusReply 1 epoch owner window uptime))
  | ReplyEpoch => (mem, set_reply v (StatusReply running (gs_epoch (gc_state ctx)) owner window uptime))
  | ReplyOwner => (mem, set_reply v (StatusReply running epoch (gs_owner_broker_id (gc_state ctx)) window uptime))
  | ReplyWindow => (mem, set_reply v (StatusReply running epoch owner (committed_high_water (gc_state ctx)) uptime))
  | ReplyUptime now => (mem, set_reply v (StatusReply running epoch owner window (i64 (now - gc_start_time_ns ctx))))
  end.

Fixpoint exec_block (ss : list gate_stmt) (mem : gate_mem) (v : gate_vars) : gate_mem * gate_vars :=
  match ss with
  | [] => (mem, v)
  | s :: ss => let '(mem, v) := exec_stmt s mem v in exec_block ss mem v
  end.

(** ** The threads *)

Definition gate_statement (r : request) (mem : gate_mem) (l : gate_local) : option (gate_mem * gate_local) :=
  match l.2 with
  | [] => None
  | s :: ss => let '(mem, v) := exec_stmt s mem l.1 in Some (mem, (v, ss))
  end.
Local Abbreviation gate_thread_step := (thread_step gate_asks gate_enter gate_statement).

(** A run of the process: the steps taken, the machine, what the handlers went on to
    answer.  The process may die at any time; what it kept in memory is gone, and it
    starts again from the state file. *)
Inductive gate_run (mem0 : gate_mem) : nat -> gate_machine -> list (request * gate_local) -> Prop :=
| run_start : gate_run mem0 0 (Machine mem0 osal_mutex_init []) []
| run_step n m sent a m' :
    gate_run mem0 n m sent -> gate_thread_step m a m' ->
    gate_run mem0 (S n) m' (match a with Returned r l => sent ++ [(r, l)] | _ => sent end)
| run_crash n m sent now ctx :
    gate_run mem0 n m sent -> gate_restart now (gm_ctx (mc_shared m)) = Some ctx ->
    gate_run mem0 (S n) (Machine (GateMem ctx (gm_tmp (mc_shared m))) osal_mutex_init []) sent.

(** ** What is answered *)

Inductive gate_answer := AnsStatus (m : obicall_msg_status_reply) | AnsAck (m : obicall_msg_result_ack).

(** What the handler makes of its variables after the block. *)
Definition answer_of (r : request) (v : gate_vars) : option gate_answer :=
  if rq_type r =? OBICALL_MSG_RESULT_PUBLISH then
    match obicall_wire_decode_result (rq_payload r), va_outcome v with
    | Ok result, Some outcome =>
        let accepted := bool_decide (outcome = OBICALL_GATE_COMMIT) && va_persisted_ok v in
        Some (AnsAck (ResultAck (strncpy_zeroed OBICALL_PIPELINE_ID_LEN (res_pipeline_id result))
                        (res_window_seq result) (if accepted then 1 else 0)
                        (status_code (ack_status outcome (va_persisted_ok v)))))
    | _, _ => None
    end
  else Some (AnsStatus (va_reply v)).

(** What the handler of [GateDaemon] answers. *)
Definition event_answer (ctx : gate_ctx) (ev : gate_event) : option gate_answer :=
  match ev with
  | EvHeartbeat env now payload => AnsStatus <$> (handle_heartbeat env now payload ctx).1
  | EvResult env now payload => AnsAck <$> (handle_result_publish junk env now payload ctx).1
  | EvStatusQuery now => Some (AnsStatus (handle_status_query now ctx).1)
  | EvRestart _ => None
  end.
Fixpoint trace_answers (ctx : gate_ctx) (evs : list gate_event) : list (gate_event * gate_answer) :=
  match evs with
  | [] => []
  | ev :: evs => option_list (pair ev <$> event_answer ctx ev) ++ trace_answers (gate_step junk ctx ev).2 evs
  end.

Definition request_event (r : request) : option gate_event := message_event (rq_env r) (rq_type r) (rq_payload r).
Definition answered (rl : request * gate_local) : option (gate_event * gate_answer) :=
  match request_event rl.1, answer_of rl.1 rl.2.1 with
  | Some ev, Some a => Some (ev, a)
  | _, _ => None
  end.

(** The result an answer accepts. *)
Definition acknowledged (ea : gate_event * gate_answer) : option obicall_result :=
  match ea with
  | (EvResult _ _ payload, AnsAck ack) =>
      match obicall_wire_decode_result payload with
      | Ok r => if ra_accepted ack =? 1 then Some r else None
      | Err _ => None
      end
  | _ => None
  end.
End junk.

Abbreviation gate_thread_step junk := (thread_step gate_asks gate_enter (gate_statement junk)).

(** * Lemmas *)

(** ** A block by itself is its handler *)

Lemma evaluate_promotion_split env now ctx :
  evaluate_promotion_locked env now ctx =
  match promotion now ctx with None => ctx | Some ctx' => (persist_locked env ctx').2 end.
Proof. unfold evaluate_promotion_locked, promotion, obicall_gate_promote. repeat case_match; simplify_eq/=; done. Qed.

Lemma exec_app junk ss1 ss2 mem v :
  exec_block junk (ss1 ++ ss2) mem v = let '(mem, v) := exec_block junk ss1 mem v in exec_block junk ss2 mem v.
Proof.
  revert mem v. induction ss1 as [|s ss1 IH]; intros mem v; [done|]. cbn [app exec_block].
  destruct (exec_stmt junk s mem v). apply IH.
Qed.

Lemma exec_cons junk s ss mem v mem' v' :
  exec_stmt junk s mem v = (mem', v') -> exec_block junk (s :: ss) mem v = exec_block junk ss mem' v'.
Proof. intros E. cbn [exec_block]. by rewrite E. Qed.

(** Persisting when there is nothing to persist, and when there is. *)
Lemma exec_persist_off junk env mem v :
  va_persist v = false -> va_file v = false -> exec_block junk (persist_block env) mem v = (mem, v).
Proof. destruct v as [p f st ok o [? ? ? ? ?]]. cbn. by intros -> ->. Qed.

Lemma exec_persist_on junk env mem v :
  va_persist v = true -> va_file v = false -> va_persisted_ok v = true ->
  let '(mem', v') := exec_block junk (persist_block env) mem v in
  gm_ctx mem' = (persist_locked env (gm_ctx mem)).2 /\ va_persisted_ok v' = (persist_locked env (gm_ctx mem)).1 /\
  va_outcome v' = va_outcome v /\ va_reply v' = va_reply v.
Proof.
  destruct v as [p f st ok o [? ? ? ? ?]], mem as [ctx tmp]. cbn [va_persist va_file va_persisted_ok]. intros -> -> ->.
  unfold persist_block, persist_locked. destruct (pe_fopen env); cbn -[obicall_gate_persist_state]; [|done].
  destruct (obicall_gate_persist_state (pe_io env) (CFile [] 0) (gc_state ctx)) as [st' f].
  cbn. destruct st'; try done. by destruct (pe_replace env).
Qed.

Lemma exec_reply junk now mem v : exec_block junk (reply_block now) mem v = (mem, set_reply v (status_reply now (gm_ctx mem))).
Proof. by destruct v as [? ? ? ? ? [? ? ? ? ?]]. Qed.

Lemma set_field_again ctx b v f :
  with_broker (with_broker ctx b v) b (set_field f (broker_at (with_broker ctx b v) b)) = with_broker ctx b (set_field f v).
Proof.
  unfold with_broker, broker_at. cbn [gc_brokers gc_state gc_state_file gc_required_config_digest
    gc_required_checkpoint_schema_version gc_max_allowed_replay_gap gc_confirm_timeout_ns gc_start_time_ns].
  destruct (decide (Z.to_nat b < length (gc_brokers ctx))%nat).
  - by rewrite list_lookup_insert_eq, list_insert_insert_eq.
  - by rewrite !list_insert_ge by (rewrite ?length_insert; lia).
Qed.

Lemma exec_fields junk b fs mem v view :
  exec_block junk (SetField b <$> fs) (GateMem (with_broker (gm_ctx mem) b view) (gm_tmp mem)) v =
  (GateMem (with_broker (gm_ctx mem) b (foldl (fun view f => set_field f view) view fs)) (gm_tmp mem), v).
Proof.
  revert view. induction fs as [|f fs IH]; intros view; [done|]. cbn [fmap list_fmap foldl].
  erewrite exec_cons; [apply IH|]. destruct v as [? ? ? ? ? [? ? ? ? ?]]. cbn [exec_stmt va_reply gm_ctx gm_tmp].
  by rewrite set_field_again.
Qed.

Lemma exec_heartbeat junk env now hb mem :
  let ctx1 := with_broker (gm_ctx mem) (hb_broker_id hb)
    (BrokerView true (Readiness (hb_healthy hb) (hb_config_digest hb) (hb_checkpoint_schema_version hb) (hb_last_window_seq hb)) now) in
  let ctx' := evaluate_promotion_locked env now ctx1 in
  let '(mem', v) := exec_block junk (heartbeat_block env now hb) mem init_vars in
  gm_ctx mem' = ctx' /\ va_reply v = status_reply now ctx'.
Proof.
  cbv zeta. unfold heartbeat_block. set (b := hb_broker_id hb).
  change ([SetField b FKnown; _; _; _; _; _; _]) with
    (SetField b FKnown :: (SetField b <$> [FLastHeartbeat now; FHealthy (hb_healthy hb); FDigest (hb_config_digest hb);
       FSchema (hb_checkpoint_schema_version hb); FWindow (hb_last_window_seq hb)]) ++ [Promote now]).
  set (view := BrokerView true _ now). rewrite <- !app_comm_cons.
  rewrite (exec_cons _ _ _ _ _ (GateMem (with_broker (gm_ctx mem) b (set_field FKnown (broker_at (gm_ctx mem) b))) (gm_tmp mem)) init_vars) by done.
  rewrite <- app_assoc, exec_app, exec_fields. 
  assert (Hv : foldl (fun v f => set_field f v) (set_field FKnown (broker_at (gm_ctx mem) b))
    [FLastHeartbeat now; FHealthy (hb_healthy hb); FDigest (hb_config_digest hb);
     FSchema (hb_checkpoint_schema_version hb); FWindow (hb_last_window_seq hb)] = view)
    by (by destruct (broker_at (gm_ctx mem) b) as [? [? ? ? ?] ?]).
  rewrite Hv. set (ctx1 := with_broker (gm_ctx mem) b view). rewrite evaluate_promotion_split.
  cbn [app exec_block exec_stmt va_reply init_vars gm_ctx gm_tmp]. 
  destruct (promotion now ctx1) as [ctx2|] eqn:Ep.
  - rewrite exec_app. set (v := GateVars true _ _ _ _ _).
    pose proof (exec_persist_on junk env (GateMem ctx2 (gm_tmp mem)) v eq_refl eq_refl eq_refl) as H.
    destruct (exec_block junk (persist_block env) _ _) as [mem' v']. destruct H as (H & _). cbn [gm_ctx] in H.
    rewrite exec_reply. cbn [va_reply set_reply]. by rewrite H.
  - rewrite exec_app, exec_persist_off by done. by rewrite exec_reply.
Qed.

Lemma exec_publish junk env now result mem :
  let '(outcome, s, _) := obicall_gate_decide_publish junk (gc_state (gm_ctx mem)) result now in
  let '(persisted_ok, ctx') :=
    match outcome with
    | OBICALL_GATE_COMMIT => persist_locked env (with_state (gm_ctx mem) s)
    | _ => (true, with_state (gm_ctx mem) s)
    end in
  let '(mem', v) := exec_block junk (publish_block env now result) mem init_vars in
  gm_ctx mem' = ctx' /\ va_persisted_ok v = persisted_ok /\ va_outcome v = Some outcome.
Proof.
  destruct (obicall_gate_decide_publish _ _ _ _) as [[outcome s] pidx] eqn:E. unfold publish_block.
  set (v := GateVars (bool_decide (outcome = OBICALL_GATE_COMMIT)) false OBICALL_OK true (Some outcome) (va_reply init_vars)).
  rewrite (exec_cons _ _ _ _ _ (GateMem (with_state (gm_ctx mem) s) (gm_tmp mem)) v)
    by (cbn [exec_stmt va_reply init_vars]; by rewrite E).
  destruct (decide (outcome = OBICALL_GATE_COMMIT)) as [Ho|Ho].
  - pose proof (exec_persist_on junk env (GateMem (with_state (gm_ctx mem) s) (gm_tmp mem)) v) as H.
    destruct (exec_block _ _ _ _) as [mem' v']. specialize (H (bool_decide_eq_true_2 _ Ho) eq_refl eq_refl).
    cbn [gm_ctx] in H. destruct H as (H1 & H2 & H3 & _). rewrite H1, H2, H3. unfold v. cbn [va_outcome].
    rewrite Ho. by destruct (persist_locked env _).
  - rewrite exec_persist_off; [|by apply bool_decide_eq_false_2|done]. by destruct outcome.
Qed.

(** Run by itself, the block of a message does to the context what its handler does, and
    leaves in the variables what the handler answers. *)
Lemma block_is_handler junk r ss mem :
  locked_block r = Some ss -> exists ev, request_event r = Some ev /\
  let '(mem', v) := exec_block junk ss mem init_vars in
  gm_ctx mem' = (gate_step junk (gm_ctx mem) ev).2 /\ answer_of r v = event_answer junk (gm_ctx mem) ev.
Proof.
  unfold locked_block, request_event, message_event, answer_of.
  destruct (Z.eqb_spec (rq_type r) OBICALL_MSG_HEARTBEAT) as [Ht|_].
  { assert (Hp : (rq_type r =? OBICALL_MSG_RESULT_PUBLISH) = false) by (by rewrite Ht). rewrite Hp.
    destruct (obicall_wire_decode_heartbeat (rq_payload r)) as [hb|] eqn:Ehb; [|done].
    destruct (_ && _) eqn:Eb; [done|]. intros [= <-]. eexists. split; [done|].
    pose proof (exec_heartbeat junk (tn_persist (rq_env r)) (tn_now (rq_env r)) hb mem) as H. cbv zeta in H.
    destruct (exec_block _ _ _ _) as [mem' v]. destruct H as [H1 H2].
    cbn [gate_step event_answer]. unfold handle_heartbeat. rewrite Ehb, Eb. cbn [fst snd fmap option_fmap option_map].
    by rewrite H1, H2. }
  destruct (Z.eqb_spec (rq_type r) OBICALL_MSG_RESULT_PUBLISH) as [_|_].
  { destruct (obicall_wire_decode_result (rq_payload r)) as [result|] eqn:Er; [|done]. intros [= <-].
    eexists. split; [done|].
    pose proof (exec_publish junk (tn_persist (rq_env r)) (tn_now (rq_env r)) result mem) as H.
    cbn [gate_step event_answer]. unfold handle_result_publish. rewrite Er.
    destruct (obicall_gate_decide_publish _ _ _ _) as [[outcome s] pidx].
    destruct (match outcome with OBICALL_GATE_COMMIT => _ | _ => _ end) as [ok ctx'].
    destruct (exec_block _ _ _ _) as [mem' v]. destruct H as (-> & -> & ->). done. }
  destruct (Z.eqb_spec (rq_type r) OBICALL_MSG_STATUS_QUERY) as [_|_]; [|done].
  intros [= <-]. eexists. split; [done|]. by rewrite exec_reply.
Qed.

(** ** Statements of a run *)

Lemma runs_exec junk r mem l mem' l' :
  runs (gate_statement junk) r mem l mem' l' ->
  exists ss, l.2 = ss ++ l'.2 /\ exec_block junk ss mem l.1 = (mem', l'.1).
Proof.
  induction 1 as [|mem1 l1 mem2 l2 _ (ss & Hl & He) Hs]; [by exists []|].
  unfold gate_statement in Hs. destruct l1 as [v1 [|s ss1]]; [done|]. cbn [fst snd] in *.
  destruct (exec_stmt junk s mem1 v1) as [mem3 v3] eqn:E. injection Hs as <- <-. exists (ss ++ [s]). cbn [fst snd].
  rewrite <- app_assoc. split; [done|]. rewrite exec_app, He. cbn [exec_block]. by rewrite E.
Qed.

Lemma completes_exec junk r mem mem' l :
  completes gate_enter (gate_statement junk) r mem mem' l ->
  exec_block junk (default [] (locked_block r)) mem init_vars = (mem', l.1).
Proof.
  intros [Hr Hn]. apply runs_exec in Hr as (ss & Hl & He). cbn [gate_enter fst snd] in *. rewrite Hl.
  destruct l as [v [|s rest]]; cbn [snd fst] in *; [by rewrite app_nil_r|].
  unfold gate_statement in Hn. cbn [snd fst] in Hn. by destruct (exec_stmt junk s mem' v).
Qed.

(** ** The state file *)

(** What a restart makes use of. *)
Definition restart_data (ctx : gate_ctx) : option (list Z) * (list Z * Z * Z * Z) :=
  (gc_state_file ctx, (gc_required_config_digest ctx, gc_required_checkpoint_schema_version ctx,
                       gc_max_allowed_replay_gap ctx, gc_confirm_timeout_ns ctx)).

Lemma restart_same now ctx ctx' : restart_data ctx = restart_data ctx' -> gate_restart now ctx = gate_restart now ctx'.
Proof. unfold restart_data, gate_restart. intros [= -> -> -> -> ->]. done. Qed.

Definition replaces (s : gate_stmt) : Prop := match s with ReplaceState _ => True | _ => False end.

Lemma promotion_restart now ctx ctx' : promotion now ctx = Some ctx' -> restart_data ctx' = restart_data ctx.
Proof. unfold promotion. intros H. repeat case_match; simplify_eq/=; done. Qed.

Lemma exec_stmt_keeps junk s mem v :
  ~ replaces s -> restart_data (gm_ctx (exec_stmt junk s mem v).1) = restart_data (gm_ctx mem).
Proof.
  intros Hs. destruct v as [p f st ok o [? ? ? ? ?]], s; cbn [exec_stmt va_reply]; try done.
  - destruct (promotion now (gm_ctx mem)) eqn:E; [|done]. by apply promotion_restart in E.
  - by destruct (obicall_gate_decide_publish _ _ _ _) as [[? ?] ?].
  - cbn. by destruct p, ok0.
  - cbn. destruct f; [|done]. by destruct (obicall_gate_persist_state _ _ _).
Qed.

Lemma exec_block_keeps junk ss mem v :
  Forall (fun s => ~ replaces s) ss -> restart_data (gm_ctx (exec_block junk ss mem v).1) = restart_data (gm_ctx mem).
Proof.
  intros Hss. revert mem v. induction Hss as [|s ss Hs _ IH]; intros mem v; [done|]. cbn [exec_block].
  pose proof (exec_stmt_keeps junk s mem v Hs) as H. destruct (exec_stmt junk s mem v) as [mem' v']. by rewrite IH.
Qed.

(** A block replaces the state file in one statement, so whoever stops it in the middle
    finds the file of before or the file of after. *)
Lemma block_replaces_once r ss1 ss2 :
  locked_block r = Some (ss1 ++ ss2) ->
  Forall (fun s => ~ replaces s) ss1 \/ Forall (fun s => ~ replaces s) ss2.
Proof.
  assert (Hcut : forall ss before s after, ss = before ++ s :: after ->
    Forall (fun s => ~ replaces s) before -> Forall (fun s => ~ replaces s) after -> ss = ss1 ++ ss2 ->
    Forall (fun s => ~ replaces s) ss1 \/ Forall (fun s => ~ replaces s) ss2).
  { intros ss before s after -> Hb Ha. revert before Hb. induction ss1 as [|s1 ss1' IH]; intros before Hb E; [by left|].
    destruct before as [|s2 before]; cbn in E; injection E as <- E.
    - right. rewrite E in Ha. by apply Forall_app in Ha as [_ ?].
    - apply Forall_cons in Hb as [Hs Hb]. destruct (IH before Hb E) as [H|H]; [left; by constructor|by right]. }
  unfold locked_block. intros H. destruct (_ =? _).
  { destruct (obicall_wire_decode_heartbeat _) as [hb|]; [|done]. destruct (_ && _); [done|]. injection H as H.
    eapply (Hcut _ (take 9 (heartbeat_block _ _ hb))); [reflexivity|..|exact H]; by repeat constructor; intros []. }
  destruct (_ =? _).
  { destruct (obicall_wire_decode_result _) as [res|]; [|done]. injection H as H.
    eapply (Hcut _ (take 3 (publish_block _ _ res))); [reflexivity|..|exact H]; by repeat constructor; intros []. }
  destruct (_ =? _); [|done]. injection H as H. left.
  assert (Hall : Forall (fun s => ~ replaces s) (ss1 ++ ss2)) by (rewrite <- H; by repeat constructor; intros []).
  by apply Forall_app in Hall as [? _].
Qed.

(** ** Traces *)

Lemma trace_answers_app junk ctx evs1 evs2 :
  trace_answers junk ctx (evs1 ++ evs2) =
  trace_answers junk ctx evs1 ++ trace_answers junk (gate_trace junk ctx evs1).2 evs2.
Proof.
  revert ctx. induction evs1 as [|ev evs1 IH]; intros ctx; [done|]. cbn [app trace_answers gate_trace].
  rewrite IH, app_assoc. destruct (gate_step junk ctx ev) as [acc ctx1]. cbn [snd].
  by destruct (gate_trace junk ctx1 evs1).
Qed.

Lemma trace_snoc junk ctx evs ev :
  (gate_trace junk ctx (evs ++ [ev])).2 = (gate_step junk (gate_trace junk ctx evs).2 ev).2.
Proof.
  rewrite gate_trace_app. destruct (gate_trace junk ctx evs) as [acc ctx1]. cbn [gate_trace snd].
  by destruct (gate_step junk ctx1 ev).
Qed.

(** What a trace accepts is what its answers acknowledge. *)
Lemma acknowledged_trace junk ctx evs :
  omap acknowledged (trace_answers junk ctx evs) = (gate_trace junk ctx evs).1.
Proof.
  revert ctx. induction evs as [|ev evs IH]; intros ctx; [done|]. cbn [trace_answers gate_trace]. rewrite omap_app, IH.
  destruct (gate_step junk ctx ev) as [acc ctx'] eqn:E. cbn [snd]. destruct (gate_trace junk ctx' evs) as [rs ctx''].
  cbn [fst]. f_equal. destruct ev as [env now payload|env now payload|now|now]; cbn [gate_step] in E.
  - injection E as <- _. cbn [event_answer]. by destruct (handle_heartbeat _ _ _ _).1.
  - cbn [event_answer]. destruct (handle_result_publish _ _ _ _ _) as [[ack|] ctx1]; injection E as <- _; [|done].
    cbn. destruct (obicall_wire_decode_result payload); [|done]. by destruct (ra_accepted ack =? 1).
  - by injection E as <- _.
  - by injection E as <- _.
Qed.

Lemma request_event_valid r ev : request_event r = Some ev -> bytes (rq_payload r) -> valid_event ev.
Proof. unfold request_event, message_event. intros H Hb. repeat case_match; by simplify_eq. Qed.

(** A message, when the block of its handler has run from [mem] to [mem']. *)
Lemma completed_event junk r mem mem' l :
  gate_asks r -> completes gate_enter (gate_statement junk) r mem mem' l ->
  exists ev, valid_event ev /\ gm_ctx mem' = (gate_step junk (gm_ctx mem) ev).2 /\
    option_list (answered (r, l)) = trace_answers junk (gm_ctx mem) [ev].
Proof.
  intros [[ss Hss] Hb] Hc. apply completes_exec in Hc. rewrite Hss in Hc.
  destruct (block_is_handler junk r ss mem Hss) as (ev & He & H). change (default [] (Some ss)) with ss in Hc.
  rewrite Hc in H. destruct H as [H1 H2].
  exists ev. split; [by eapply request_event_valid|]. split; [done|].
  unfold answered. cbn [fst snd trace_answers]. rewrite He, H2, app_nil_r. by destruct (event_answer junk (gm_ctx mem) ev).
Qed.

(** Stopped in the middle, a block leaves to the restart what was there before it, or
    what it leaves when it runs to its end. *)
Lemma stopped_block junk r mem mem' l :
  gate_asks r -> runs (gate_statement junk) r mem (gate_enter r) mem' l ->
  restart_data (gm_ctx mem') = restart_data (gm_ctx mem) \/
  exists ev, valid_event ev /\ restart_data (gm_ctx mem') = restart_data (gate_step junk (gm_ctx mem) ev).2.
Proof.
  intros [[ss Hss] Hb] Hr. apply runs_exec in Hr as (done & Hl & He). cbn [gate_enter fst snd] in Hl, He.
  rewrite Hss in Hl. change (default [] (Some ss)) with ss in Hl. subst ss.
  destruct (block_replaces_once r done l.2 Hss) as [Hk|Hk].
  - left. pose proof (exec_block_keeps junk done mem init_vars Hk) as H. by rewrite He in H.
  - right. destruct (block_is_handler junk r _ mem Hss) as (ev & Hev & H). exists ev. split; [by eapply request_event_valid|].
    rewrite exec_app, He in H. pose proof (exec_block_keeps junk l.2 mem' l.1 Hk) as Hf.
    destruct (exec_block junk l.2 mem' l.1) as [mem2 v2]. destruct H as [<- _]. by symmetry.
Qed.

(** ** Runs *)

Definition run_inv (junk : list Z) (ctx0 : gate_ctx) (n : nat) (m : gate_machine) (sent : list (request * gate_local)) : Prop :=
  exists evs s lost, (length evs <= 2 * n)%nat /\ Forall valid_event evs /\
    gm_ctx s = (gate_trace junk ctx0 evs).2 /\ held gate_enter (gate_statement junk) s m /\ asked gate_asks m /\
    omap answered (sent ++ pending m) ++ lost ≡ₚ trace_answers junk ctx0 evs.

(** Who looks at the files now sees what some trace leaves there, which goes on from the
    blocks that have ended by one event at most. *)
Lemma stopped_trace junk ctx0 evs s m :
  gm_ctx s = (gate_trace junk ctx0 evs).2 -> held gate_enter (gate_statement junk) s m -> asked gate_asks m ->
  exists more, Forall valid_event more /\ (length more <= 1)%nat /\
    restart_data (gm_ctx (mc_shared m)) = restart_data (gate_trace junk ctx0 (evs ++ more)).2.
Proof.
  intros Hs Hh Ha. unfold held in Hh. destruct (mc_mutex m) as [i|].
  - destruct Hh as (r & l & Hi & Hr & _). pose proof (Forall_lookup_1 _ _ _ _ Ha Hi) as Hask. cbn in Hask.
    destruct (stopped_block junk r s (mc_shared m) l Hask Hr) as [H|(ev & Hev & H)].
    + exists []. rewrite app_nil_r, H, Hs. split_and!; [done|cbn; lia|done].
    + exists [ev]. rewrite trace_snoc, <- Hs. split_and!; [by repeat constructor|done|done].
  - destruct Hh as [-> _]. exists []. rewrite app_nil_r, Hs. split_and!; [done|cbn; lia|done].
Qed.

Lemma run_inv_step junk ctx0 n m sent a m' :
  run_inv junk ctx0 n m sent -> gate_thread_step junk m a m' ->
  run_inv junk ctx0 (S n) m' (match a with Returned r l => sent ++ [(r, l)] | _ => sent end).
Proof.
  intros (evs & s & lost & Hn & Hev & Hs & Hh & Hask & Hp) Hst.
  destruct (held_step _ _ _ _ _ _ _ Hh Hst) as [Hh' Hc]. destruct (asked_step _ _ _ _ _ _ Hask Hst) as [Hask' Har].
  apply pending_step in Hst. destruct a as [|r l|r l]; cbn [settled] in Hh'.
  - exists evs, s, lost. split_and!; try done; [lia|by rewrite Hst].
  - destruct (completed_event junk r s (mc_shared m') l Har Hc) as (ev & Hv & Hctx & Hans).
    exists (evs ++ [ev]), (mc_shared m'), lost. split_and!; try done.
    + rewrite length_app. cbn. lia.
    + apply Forall_app. by repeat constructor.
    + by rewrite trace_snoc, <- Hs.
    + assert (Hm : omap answered (sent ++ pending m') ≡ₚ option_list (answered (r, l)) ++ omap answered (sent ++ pending m)).
      { rewrite Hst, <- Permutation_middle. cbn [omap list_omap]. by destruct (answered (r, l)). }
      rewrite trace_answers_app, <- Hs, <- Hans, <- Hp, Hm, <- app_assoc. apply Permutation_app_comm.
  - exists evs, s, lost. split_and!; try done; [lia|]. by rewrite <- Hp, Hst, <- app_assoc.
Qed.

Lemma run_inv_crash junk ctx0 n m sent now ctx :
  run_inv junk ctx0 n m sent -> gate_restart now (gm_ctx (mc_shared m)) = Some ctx ->
  run_inv junk ctx0 (S n) (Machine (GateMem ctx (gm_tmp (mc_shared m))) osal_mutex_init []) sent.
Proof.
  intros (evs & s & lost & Hn & Hev & Hs & Hh & Hask & Hp) Hre.
  destruct (stopped_trace junk ctx0 evs s m Hs Hh Hask) as (more & Hmv & Hml & Hdata).
  rewrite (restart_same now _ _ Hdata) in Hre.
  exists (evs ++ more ++ [EvRestart now]), (GateMem ctx (gm_tmp (mc_shared m))),
    (omap answered (pending m) ++ lost ++ trace_answers junk (gate_trace junk ctx0 evs).2 (more ++ [EvRestart now])).
  split_and!.
  - rewrite !length_app. cbn. lia.
  - rewrite !Forall_app. by repeat constructor.
  - rewrite app_assoc, trace_snoc. cbn [gm_ctx gate_step snd]. by rewrite Hre.
  - apply held_start.
  - constructor.
  - rewrite (trace_answers_app _ _ evs), <- Hp, !omap_app. change (pending (Machine _ osal_mutex_init [])) with (@nil (request * gate_local)).
    by rewrite app_nil_r, <- !app_assoc.
Qed.

Lemma gate_run_inv junk mem0 n m sent : gate_run junk mem0 n m sent -> run_inv junk (gm_ctx mem0) n m sent.
Proof.
  induction 1; [|by eapply run_inv_step|by eapply run_inv_crash].
  exists [], mem0, []. split_and!; [cbn; lia|done|done|apply held_start|constructor|done].
Qed.

(** What was accepted is durable: the state file is never behind. *)
Definition holds_result (s : obicall_gate_state) (r : obicall_result) : Prop :=
  exists w, committed s (res_pipeline_id r) = Some w /\ res_window_seq r <= w.

Lemma holds_ahead s s' r : ahead s s' -> holds_result s r -> holds_result s' r.
Proof. intros [Ha _ _] (w & Hc & Hw). destruct (Ha _ _ Hc) as (w' & Hc' & ?). exists w'. split; [done|lia]. Qed.

Lemma gate_trace_holds junk evs ctx d :
  daemon_inv ctx d -> Forall valid_event evs ->
  gs_epoch (gc_state ctx) + Z.of_nat (length evs) < 18446744073709551616 ->
  exists d', daemon_inv (gate_trace junk ctx evs).2 d' /\ ahead d d' /\
    Forall (holds_result d') (gate_trace junk ctx evs).1.
Proof.
  intros Hinv Hevs. revert ctx d Hinv. induction Hevs as [|ev evs Hev Hevs IH]; intros ctx d Hinv Hw; [by exists d|].
  cbn [length] in Hw. cbn [gate_trace].
  destruct (gate_step_ok junk ctx d ev Hinv Hev ltac:(lia)) as [d1 [Hinv' Had He _ _ Hacc]].
  destruct (gate_step junk ctx ev) as [acc ctx']. cbn [fst snd] in *.
  destruct (IH ctx' d1 Hinv' ltac:(lia)) as (d' & Hd' & Had' & Hrs).
  exists d'. destruct (gate_trace junk ctx' evs) as [rs ctx2]. cbn [fst snd] in *.
  split; [done|]. split; [by etransitivity|]. apply Forall_app. split; [|done].
  destruct acc as [r|]; [|constructor]. constructor; [|constructor]. apply (holds_ahead d1); [done|].
  destruct (Hacc r eq_refl) as (_ & Hc & _). exists (res_window_seq r). split; [done|lia].
Qed.

(** * The claim *)

(** What the handlers went on to answer, and the results they accepted by it. *)
Definition answers (sent : list (request * gate_local)) : list (gate_event * gate_answer) := omap answered sent.
Definition accepted_results (sent : list (request * gate_local)) : list obicall_result := omap acknowledged (answers sent).
Definition result_key (r : obicall_result) : list Z * Z := (res_pipeline_id r, res_window_seq r).

Lemma acc_before_NoDup rs : StronglySorted acc_before rs -> NoDup (result_key <$> rs).
Proof.
  induction 1 as [|r rs _ IH Hr]; [constructor|]. cbn. apply NoDup_cons. split; [|done].
  intros (r' & Hk & Hin)%list_elem_of_fmap. rewrite Forall_forall in Hr. destruct (Hr r' Hin) as (Hlt & _).
  unfold result_key in Hk. injection Hk as Hp Hw. specialize (Hlt Hp). lia.
Qed.

(** C1: the gate is safe at every statement: however its threads interleave, statement by
    statement under the mutex, and wherever in between the process dies, in the middle of
    a persist included, and is started again: what it answered are answers of a sequence
    of whole messages and restarts handled one after the other; while nobody is in a
    locked block its state is the one after that sequence; no window of a pipeline was
    acknowledged twice, over all lives of the process; and a restart at that very moment
    succeeds, with every result ever acknowledged as accepted still committed. *)
Theorem gate_safe_at_every_statement junk ctx0 d tmp n m sent :
  daemon_inv ctx0 d -> gate_run junk (GateMem ctx0 tmp) n m sent ->
  gs_epoch (gc_state ctx0) + 2 * Z.of_nat n + 1 < 18446744073709551616 ->
  (exists evs lost, Forall valid_event evs /\
    answers sent ++ answers (pending m) ++ lost ≡ₚ trace_answers junk ctx0 evs /\
    (mc_mutex m = None -> gm_ctx (mc_shared m) = (gate_trace junk ctx0 evs).2)) /\
  NoDup (result_key <$> accepted_results sent) /\ Forall (acc_after d) (accepted_results sent) /\
  forall now, exists ctx, gate_restart now (gm_ctx (mc_shared m)) = Some ctx /\
    Forall (holds_result (gc_state ctx)) (accepted_results sent).
Proof.
  intros Hinv Hr Hb. destruct (gate_run_inv _ _ _ _ _ Hr) as (evs & s & lost & Hn & Hev & Hs & Hh & Hask & Hp).
  cbn [gm_ctx] in *. rewrite omap_app, <- app_assoc in Hp.
  assert (Hsub : exists others, (gate_trace junk ctx0 evs).1 ≡ₚ accepted_results sent ++ others).
  { eexists. by rewrite <- acknowledged_trace, <- Hp, omap_app. }
  destruct Hsub as [others Hsub].
  assert (Hw : gs_epoch (gc_state ctx0) + Z.of_nat (length evs) < 18446744073709551616) by lia.
  destruct (gate_trace_ok junk evs ctx0 d Hinv Hev Hw) as [Hsort Hafter].
  split; [|split; [|split]].
  - exists evs, lost. split; [done|]. split; [done|]. intros Hmu. unfold held in Hh. rewrite Hmu in Hh.
    destruct Hh as [-> _]. done.
  - apply acc_before_NoDup in Hsort. rewrite Hsub, fmap_app in Hsort. by apply NoDup_app in Hsort as [? _].
  - rewrite Hsub in Hafter. by apply Forall_app in Hafter as [? _].
  - intros now. destruct (stopped_trace junk ctx0 evs s m Hs Hh Hask) as (more & Hmv & Hml & Hdata).
    destruct (gate_trace_holds junk (evs ++ more) ctx0 d Hinv) as (d' & Hd' & _ & Hrs).
    { by apply Forall_app. } { rewrite length_app. lia. }
    destruct (gate_restart_ok now _ d' Hd') as (ctx & Hre & [_ _ _ Hahead] & _).
    exists ctx. rewrite (restart_same now _ _ Hdata). split; [done|].
    rewrite gate_trace_app in Hrs.
    destruct (gate_trace junk ctx0 evs) as [acc ctx1]. cbn [fst] in Hsub. destruct (gate_trace junk ctx1 more) as [acc2 ctx2].
    apply Forall_app in Hrs as [Hrs _]. rewrite Hsub in Hrs. apply Forall_app in Hrs as [Hrs _].
    eapply Forall_impl; [exact Hrs|]. intros r. by apply holds_ahead.
Qed.

(** * Witness *)

(** A run given by commands, of which one is that the process dies and starts again. *)
Inductive gate_command := Do (c : command (Request := request)) | Crash (now : Z).
Definition gate_allowed (c : gate_command) : Prop :=
  match c with Do c => allowed gate_asks c | Crash _ => True end.

Definition gate_obey (junk : list Z) (c : gate_command) (run : gate_machine * list (request * gate_local))
    : option (gate_machine * list (request * gate_local)) :=
  let '(m, sent) := run in
  match c with
  | Do c =>
      match obey gate_enter (gate_statement junk) c m with
      | Some (a, m) => Some (m, match a with Returned r l => sent ++ [(r, l)] | _ => sent end)
      | None => None
      end
  | Crash now =>
      match gate_restart now (gm_ctx (mc_shared m)) with
      | Some ctx => Some (Machine (GateMem ctx (gm_tmp (mc_shared m))) osal_mutex_init [], sent)
      | None => None
      end
  end.
Fixpoint gate_obey_all (junk : list Z) (cs : list gate_command) (run : gate_machine * list (request * gate_local))
    : option (gate_machine * list (request * gate_local)) :=
  match cs with
  | [] => Some run
  | c :: cs => match gate_obey junk c run with None => None | Some run => gate_obey_all junk cs run end
  end.

Lemma gate_obey_run junk mem0 n m sent c m' sent' :
  gate_run junk mem0 n m sent -> gate_allowed c ->
  gate_obey junk c (m, sent) = Some (m', sent') -> gate_run junk mem0 (S n) m' sent'.
Proof.
  intros Hr Hc. destruct c as [c|now]; cbn [gate_obey].
  - destruct (obey _ _ c m) as [[a m1]|] eqn:E; [|done]. intros [= <- <-].
    eapply run_step; [done|]. by eapply obey_step.
  - destruct (gate_restart _ _) as [ctx|] eqn:E; [|done]. intros [= <- <-]. by eapply run_crash.
Qed.

Lemma gate_obey_all_run junk mem0 n cs m sent m' sent' :
  gate_run junk mem0 n m sent -> Forall gate_allowed cs ->
  gate_obey_all junk cs (m, sent) = Some (m', sent') -> gate_run junk mem0 (n + length cs) m' sent'.
Proof.
  intros Hr Hc. revert n m sent Hr. induction Hc as [|c cs Hc _ IH]; intros n m sent Hr; cbn [gate_obey_all length].
  - intros [= <- <-]. by rewrite Nat.add_0_r.
  - destruct (gate_obey junk c (m, sent)) as [[m1 sent1]|] eqn:E; [|done]. intros H.
    rewrite <- Nat.add_succ_comm. apply (IH _ m1 sent1); [|done]. by eapply gate_obey_run.
Qed.

(** A broker publishes and is answered; it publishes again while another connection asks
    for the status, and stands between the opening of the temporary file and the writing
    when the process dies. *)
Definition second_result : obicall_result :=
  let r := sample_result in
  Result (res_struct_size r) (res_schema_version r) (res_pipeline_id r) (res_window_seq r + 1) (res_broker_id r) (res_epoch r)
    (res_status r) (res_payload_shape r) (res_payload_count r) (res_payload r) (res_covariance_count r) (res_covariance r)
    (res_input_digest r) (res_config_digest r) (res_timestamp_ns r) (res_valid_until_ns r) (res_source_count r)
    (res_sources r) (res_dgt_action_id r).
Definition sample_publish : request := Request sample_env OBICALL_MSG_RESULT_PUBLISH result_payload.
Definition second_publish : request := Request sample_env OBICALL_MSG_RESULT_PUBLISH (result_wire second_result).
Definition sample_query : request := Request sample_env OBICALL_MSG_STATUS_QUERY [].
Definition sample_commands : list gate_command :=
  Do <$> [Spawn; Ask 0 sample_publish; Spawn] ++ replicate 7 (Go 0) ++ [Ask 0 second_publish; Ask 1 sample_query] ++ replicate 3 (Go 0).
Definition sample_run : option (gate_machine * list (request * gate_local)) :=
  gate_obey_all sample_junk sample_commands (Machine (GateMem sample_ctx None) osal_mutex_init [], []).

Lemma sample_commands_ask : Forall gate_allowed sample_commands.
Proof.
  assert (Hp : gate_asks sample_publish) by (split; [by eexists|apply forallb_bytes; vm_compute; reflexivity]).
  assert (Hs : gate_asks second_publish) by (split; [by eexists|apply forallb_bytes; vm_compute; reflexivity]).
  assert (Hq : gate_asks sample_query) by (split; [by eexists|constructor]).
  unfold sample_commands. cbn [app replicate fmap list_fmap]. repeat (apply Forall_cons; split; [exact Hp || exact Hs || exact Hq || exact I|]).
  constructor.
Qed.

Lemma sample_run_reach m sent :
  sample_run = Some (m, sent) -> gate_run sample_junk (GateMem sample_ctx None) (length sample_commands) m sent.
Proof.
  unfold sample_run. generalize sample_commands_ask. generalize sample_commands. intros cs Hcs E.
  apply (gate_obey_all_run _ _ 0 cs _ _ _ _ (run_start _ _) Hcs E).
Qed.

Lemma gate_safe_witness :
  exists m sent, sample_run = Some (m, sent) /\ mc_mutex m = Some 0%nat /\ gm_tmp (mc_shared m) = Some [] /\
    length (accepted_results sent) = 1%nat /\ NoDup (result_key <$> accepted_results sent) /\
    exists ctx, gate_restart 300 (gm_ctx (mc_shared m)) = Some ctx /\
      Forall (holds_result (gc_state ctx)) (accepted_results sent).
Proof.
  assert (H : (fun run => (mc_mutex run.1, gm_tmp (mc_shared run.1), length (accepted_results run.2))) <$> sample_run
              = Some (Some 0%nat, Some [], 1%nat)) by (vm_compute; reflexivity).
  destruct sample_run as [[m sent]|] eqn:E; [|discriminate H]. injection H as H1 H2 H3.
  exists m, sent. split; [reflexivity|]. split; [exact H1|]. split; [exact H2|]. split; [exact H3|].
  pose proof (sample_run_reach m sent E) as Hr.
  destruct (gate_safe_at_every_statement sample_junk sample_ctx no_durable None _ m sent sample_ctx_inv Hr
    ltac:(vm_compute; reflexivity)) as (_ & Hn & _ & Hre).
  split; [exact Hn|exact (Hre 300)].
Defined.
