(* ===== verification/Dgt.v ===== *)
(** * Dgt: the minimax policy (src/core/dgt.c)

    Table validation, the worst-case loss of an action and the selection among
    eligible actions with hysteresis and fallback, all in binary64 as the C
    code computes them.  The loops over actions, scenarios and components keep
    their order and early returns.  Reads past the arrays (an invalid table can
    announce more actions or scenarios than the arrays hold) are undefined in
    C; the model reads a default there, and the theorems about the fallback
    assume the announced counts fit. *)

From Stdlib Require Import (notations) Strings.String.
#[local] Delimit Scope string_scope with string.
From S2P Require Import Prelude Types Binary64.

Definition OBICALL_DGT_POLICY_SCHEMA_VERSION : Z := 1.
Definition OBICALL_DGT_MAX_ACTIONS : Z := 16.
Definition OBICALL_DGT_MAX_SCENARIOS : Z := 16.

Record obicall_dgt_action := DgtAction {
  da_action_id : Z;
  da_name : list Z;
  da_sensor_subset_mask : Z;
  da_estimator_mode : Z;
  da_provider_name : list Z
}.

Record obicall_dgt_scenario := DgtScenario { ds_scenario_id : Z; ds_name : list Z }.

Record obicall_dgt_cost_components := CostComponents {
  cc_estimation_error : f64;
  cc_delay : f64;
  cc_coverage_loss : f64;
  cc_resource_cost : f64
}.

Record obicall_dgt_weights := DgtWeights {
  w_estimation_error : f64;
  w_delay : f64;
  w_coverage_loss : f64;
  w_resource_cost : f64
}.

Record obicall_dgt_policy_table := PolicyTable {
  pt_struct_size : Z;
  pt_schema_version : Z;
  pt_policy_version : Z;
  pt_action_count : Z;
  pt_actions : list obicall_dgt_action;                    (* [16] *)
  pt_scenario_count : Z;
  pt_scenarios : list obicall_dgt_scenario;                (* [16] *)
  pt_weights : obicall_dgt_weights;
  pt_cost : list (list obicall_dgt_cost_components);       (* [16][16] *)
  pt_scale_estimation_error : f64;
  pt_scale_delay : f64;
  pt_scale_coverage_loss : f64;
  pt_scale_resource_cost : f64
}.

Definition OBICALL_MAX_NAME_LEN : Z := 64.
Definition dgt_action_members : list c_member :=
  [m_u32; m_bytes OBICALL_MAX_NAME_LEN; m_u64; m_u32; m_bytes OBICALL_MAX_NAME_LEN].
Definition dgt_scenario_members : list c_member := [m_u32; m_bytes OBICALL_MAX_NAME_LEN].
Definition policy_table_members : list c_member :=
  [m_u32; m_u32; m_u32; m_u32; m_array 16 (m_struct dgt_action_members); m_u32;
   m_array 16 (m_struct dgt_scenario_members); m_struct [m_f64; m_f64; m_f64; m_f64];
   m_array 256 (m_struct [m_f64; m_f64; m_f64; m_f64]); m_f64; m_f64; m_f64; m_f64].
Definition sizeof_policy_table : Z := Eval vm_compute in c_sizeof policy_table_members.

Record obicall_dgt_hysteresis_state := HysteresisState {
  hs_has_previous : Z;
  hs_previous_action_index : Z;
  hs_previous_worst_case_loss : f64
}.

Record obicall_dgt_decision := DgtDecision {
  dd_selected_action_id : Z;
  dd_selected_action_index : Z;
  dd_worst_case_loss : f64;
  dd_eligible_count : Z;
  dd_used_fallback_baseline : Z;
  dd_used_hysteresis_hold : Z
}.

(** [table->actions[i]], [table->cost[a][s]] and [eligibility->action_eligible[a]]. *)
Definition zero_action : obicall_dgt_action := DgtAction 0 [] 0 0 [].
Definition zero_cost : obicall_dgt_cost_components :=
  CostComponents f64_zero f64_zero f64_zero f64_zero.
Definition action_at (t : obicall_dgt_policy_table) (a : Z) : obicall_dgt_action :=
  default zero_action (pt_actions t !! Z.to_nat a).
Definition cost_at (t : obicall_dgt_policy_table) (a s : Z) : obicall_dgt_cost_components :=
  default zero_cost (pt_cost t !! Z.to_nat a ≫= fun row => row !! Z.to_nat s).
Definition eligible_at (elig : list Z) (a : Z) : bool :=
  negb (default 0 (elig !! Z.to_nat a) =? 0).

(** [0, 1, ..., n - 1] as the loop counters take them. *)
Definition upto (n : Z) : list Z := Z.of_nat <$> seq 0 (Z.to_nat n).

(** ** Validation *)

(** The three component loops: every element finite and not negative (or, for the
    scales, not zero either). *)
Definition bad_component (x : f64) : bool := negb (isfinite x) || (x <? f64_zero)%f64.
Definition bad_scale (x : f64) : bool := negb (isfinite x) || (x <=? f64_zero)%f64.

(** Status and the text left in [out_issue_detail]. *)
Definition obicall_dgt_validate_table (table : option obicall_dgt_policy_table)
    : status * String.string :=
  match table with
  | None => (OBICALL_ERR_NULL_POINTER, String.EmptyString)
  | Some t =>
      if negb (pt_struct_size t =? sizeof_policy_table)
      then (OBICALL_ERR_INVALID_ARGUMENT, "struct_size mismatch"%string)
      else if negb (pt_schema_version t =? OBICALL_DGT_POLICY_SCHEMA_VERSION)
      then (OBICALL_ERR_UNSUPPORTED, "unsupported policy schema_version"%string)
      else if (pt_action_count t =? 0) || (pt_action_count t >? OBICALL_DGT_MAX_ACTIONS)
      then (OBICALL_ERR_INVALID_ARGUMENT, "action_count out of range"%string)
      else if (pt_scenario_count t =? 0) || (pt_scenario_count t >? OBICALL_DGT_MAX_SCENARIOS)
      then (OBICALL_ERR_INVALID_ARGUMENT, "scenario_count out of range"%string)
      else
      let w := pt_weights t in
      let weights := [w_estimation_error w; w_delay w; w_coverage_loss w; w_resource_cost w] in
      if existsb bad_component weights
      then (OBICALL_ERR_DGT_INVALID_SCORE, "weight is non-finite or negative"%string)
      else if negb (existsb (fun x => x >? f64_zero)%f64 weights)
      then (OBICALL_ERR_DGT_INVALID_SCORE, "at least one weight must be positive"%string)
      else
      let scales := [pt_scale_estimation_error t; pt_scale_delay t; pt_scale_coverage_loss t;
                     pt_scale_resource_cost t] in
      if existsb bad_scale scales
      then (OBICALL_ERR_DGT_INVALID_SCORE,
            "normalization scale must be finite and positive"%string)
      else if existsb (fun a => existsb (fun s =>
                let c := cost_at t a s in
                existsb bad_component [cc_estimation_error c; cc_delay c; cc_coverage_loss c;
                                       cc_resource_cost c])
                (upto (pt_scenario_count t))) (upto (pt_action_count t))
      then (OBICALL_ERR_DGT_INVALID_SCORE, "cost component is non-finite or negative"%string)
      else (OBICALL_OK, String.EmptyString)
  end.

(** ** Losses *)

Definition scenario_loss (t : obicall_dgt_policy_table) (a s : Z) : f64 :=
  let c := cost_at t a s in
  let w := pt_weights t in
  (w_estimation_error w * (cc_estimation_error c / pt_scale_estimation_error t)
   + w_delay w * (cc_delay c / pt_scale_delay t)
   + w_coverage_loss w * (cc_coverage_loss c / pt_scale_coverage_loss t)
   + w_resource_cost w * (cc_resource_cost c / pt_scale_resource_cost t))%f64.

(** The scenario loop; [worst] is [None] until [have_one]. *)
Fixpoint worst_loop (t : obicall_dgt_policy_table) (a : Z) (ss : list Z) (worst : option f64)
    : result status (option f64) :=
  match ss with
  | [] => Ok worst
  | s :: ss =>
      let loss := scenario_loss t a s in
      if negb (isfinite loss) then Err OBICALL_ERR_DGT_INVALID_SCORE
      else worst_loop t a ss
             (match worst with
              | None => Some loss
              | Some w => if (loss >? w)%f64 then Some loss else Some w
              end)
  end.

Definition obicall_dgt_action_worst_case_loss (t : obicall_dgt_policy_table) (action_index : Z)
    : result status f64 :=
  if action_index >=? pt_action_count t then Err OBICALL_ERR_OUT_OF_RANGE
  else
    match worst_loop t action_index (upto (pt_scenario_count t)) None with
    | Err st => Err st
    | Ok None => Err OBICALL_ERR_DGT_INVALID_SCORE
    | Ok (Some worst) => Ok worst
    end.

(** ** Selection *)

Definition select_baseline (table : option obicall_dgt_policy_table) (elig : list Z)
    (baseline_action_index : Z) : result status (obicall_dgt_decision * obicall_dgt_hysteresis_state) :=
  match table with
  | None => Err OBICALL_ERR_DGT_NO_ELIGIBLE_ACTION
  | Some t =>
      if (baseline_action_index >=? pt_action_count t) || negb (eligible_at elig baseline_action_index)
      then Err OBICALL_ERR_DGT_NO_ELIGIBLE_ACTION
      else
      match obicall_dgt_action_worst_case_loss t baseline_action_index with
      | Err _ => Err OBICALL_ERR_DGT_NO_ELIGIBLE_ACTION
      | Ok loss =>
          Ok (DgtDecision (da_action_id (action_at t baseline_action_index)) baseline_action_index
                loss 1 1 0,
              HysteresisState 1 baseline_action_index loss)
      end
  end.

(** One turn of the search: the eligible count and the best action so far (no
    best is the sentinel [OBICALL_DGT_INVALID_ACTION_INDEX]). *)
Definition search_step (t : obicall_dgt_policy_table) (elig : list Z)
    (st : Z * option (Z * f64)) (a : Z) : Z * option (Z * f64) :=
  let '(count, best) := st in
  if negb (eligible_at elig a) then (count, best)
  else
  match obicall_dgt_action_worst_case_loss t a with
  | Err _ => (count, best)
  | Ok loss =>
      let take_it :=
        match best with
        | None => true
        | Some (best_idx, best_loss) =>
            (loss <? best_loss)%f64
            || ((loss =? best_loss)%f64
                && (da_action_id (action_at t a) <? da_action_id (action_at t best_idx)))
        end in
      (count + 1, if take_it then Some (a, loss) else best)
  end.

(** Whether the held action is retained, and its loss. *)
Definition hysteresis_hold (t : obicall_dgt_policy_table) (elig : list Z)
    (hysteresis_in : option obicall_dgt_hysteresis_state) (hysteresis_margin best_loss : f64)
    : option (Z * f64) :=
  match hysteresis_in with
  | None => None
  | Some h =>
      let prev := hs_previous_action_index h in
      if (hs_has_previous h =? 0) || (prev >=? pt_action_count t) || negb (eligible_at elig prev)
      then None
      else
      match obicall_dgt_action_worst_case_loss t prev with
      | Err _ => None
      | Ok prev_loss =>
          let threshold := (prev_loss * (f64_one - hysteresis_margin))%f64 in
          if negb (best_loss <? threshold)%f64 then Some (prev, prev_loss) else None
      end
  end.

Definition obicall_dgt_select_action (table : option obicall_dgt_policy_table) (elig : list Z)
    (hysteresis_in : option obicall_dgt_hysteresis_state) (hysteresis_margin : f64)
    (baseline_action_index : Z) : result status (obicall_dgt_decision * obicall_dgt_hysteresis_state) :=
  match obicall_dgt_validate_table table, table with
  | (OBICALL_OK, _), Some t =>
      match fold_left (search_step t elig) (upto (pt_action_count t)) (0, None) with
      | (_, None) => select_baseline table elig baseline_action_index
      | (eligible_count, Some (best_idx, best_loss)) =>
          let '(final_idx, final_loss, used_hold) :=
            match hysteresis_hold t elig hysteresis_in hysteresis_margin best_loss with
            | None => (best_idx, best_loss, 0)
            | Some (prev, prev_loss) => (prev, prev_loss, if prev =? best_idx then 0 else 1)
            end in
          Ok (DgtDecision (da_action_id (action_at t final_idx)) final_idx final_loss eligible_count
                0 used_hold,
              HysteresisState 1 final_idx final_loss)
      end
  | _, _ => select_baseline table elig baseline_action_index
  end.

Example sizeof_policy_table_abi : sizeof_policy_table = 11800.
Proof. reflexivity. Qed.

(** * Lemmas *)

(** [x] is the greatest of [l] in the order of binary64. *)
Definition f64_max_of (l : list f64) (x : f64) : Prop :=
  x ∈ l /\ Forall (fun y => (y >? x)%f64 = false) l.

Lemma worst_loop_spec t a ss done worst :
  match worst with None => done = [] | Some w => f64_max_of (scenario_loss t a <$> done) w end ->
  Forall (fun s => isfinite (scenario_loss t a s) = true) done ->
  match worst_loop t a ss worst with
  | Err e => e = OBICALL_ERR_DGT_INVALID_SCORE /\
             ~ Forall (fun s => isfinite (scenario_loss t a s) = true) (done ++ ss)
  | Ok None => done ++ ss = []
  | Ok (Some w) => f64_max_of (scenario_loss t a <$> (done ++ ss)) w /\
                   Forall (fun s => isfinite (scenario_loss t a s) = true) (done ++ ss)
  end.
Proof.
  revert done worst. induction ss as [|s ss IH]; intros done worst Hw Hf.
  { simpl. rewrite app_nil_r. by destruct worst. }
  cbn [worst_loop]. destruct (isfinite (scenario_loss t a s)) eqn:E; cbn [negb].
  2:{ split; [done|]. rewrite Forall_app, Forall_cons. intros (_&?&_). congruence. }
  replace (done ++ s :: ss) with ((done ++ [s]) ++ ss) by by rewrite <- app_assoc.
  apply IH; [|by apply Forall_app; auto].
  rewrite fmap_app. cbn [fmap list_fmap]. destruct worst as [w|].
  - destruct Hw as [Hin Hmax]. destruct (scenario_loss t a s >? w)%f64 eqn:Ew; split.
    + apply elem_of_app. right. by left.
    + apply Forall_app. split; [|by repeat constructor; apply f64_ltb_irrefl].
      rewrite Forall_fmap in Hmax |- *. eapply Forall_impl; [apply Forall_and; split; [exact Hf|exact Hmax]|].
      simpl. intros x [Hfx Hx]. apply not_true_is_false. intros Ex.
      pose proof (f64_ltb_trans _ _ _ Ew Ex). congruence.
    + apply elem_of_app. by left.
    + apply Forall_app. split; [done|]. by repeat constructor.
  - subst done. simpl. split; [by left|]. repeat constructor. apply f64_ltb_irrefl.
Qed.

(** The worst-case loss is the maximum over the scenarios. *)
Lemma worst_case_loss_spec t a loss :
  obicall_dgt_action_worst_case_loss t a = Ok loss <->
  a < pt_action_count t /\
  f64_max_of (scenario_loss t a <$> upto (pt_scenario_count t)) loss /\
  Forall (fun s => isfinite (scenario_loss t a s) = true) (upto (pt_scenario_count t)) /\
  obicall_dgt_action_worst_case_loss t a = Ok loss.
Proof.
  split; [|by intros (_&_&_&?)]. intros H. pose proof H as H'.
  unfold obicall_dgt_action_worst_case_loss in H. destruct (a >=? _) eqn:Ea; [done|].
  pose proof (worst_loop_spec t a (upto (pt_scenario_count t)) [] None eq_refl ltac:(constructor)) as Hs.
  destruct (worst_loop _ _ _ _) as [[w|]|]; simplify_eq. simpl in Hs. split_and!; [lia|apply Hs..|done].
Qed.

Lemma worst_case_loss_finite t a loss :
  obicall_dgt_action_worst_case_loss t a = Ok loss -> isfinite loss = true.
Proof.
  intros (_&[Hin _]&Hf&_)%worst_case_loss_spec. apply list_elem_of_fmap in Hin as (s & -> & Hs).
  rewrite Forall_forall in Hf. by apply Hf.
Qed.

(** The best of the actions searched: no eligible action with a defined loss has a
    smaller loss, nor the same loss with a smaller id. *)
Record is_best (t : obicall_dgt_policy_table) (elig : list Z) (as_ : list Z) (b : Z) (l : f64) : Prop := {
  best_in : b ∈ as_;
  best_eligible : eligible_at elig b = true;
  best_loss : obicall_dgt_action_worst_case_loss t b = Ok l;
  best_min : forall a la, a ∈ as_ -> eligible_at elig a = true ->
    obicall_dgt_action_worst_case_loss t a = Ok la ->
    (la <? l)%f64 = false /\
    ((la =? l)%f64 = true -> da_action_id (action_at t b) <= da_action_id (action_at t a))
}.

Definition scored (t : obicall_dgt_policy_table) (elig : list Z) (a : Z) : bool :=
  eligible_at elig a &&
  match obicall_dgt_action_worst_case_loss t a with Ok _ => true | Err _ => false end.

Lemma search_step_skip t elig st a : scored t elig a = false -> search_step t elig st a = st.
Proof.
  unfold scored, search_step. destruct st. destruct (eligible_at elig a); [|done]. simpl.
  by destruct (obicall_dgt_action_worst_case_loss t a).
Qed.

Lemma f64_eq_nlt x y : (x =? y)%f64 = true -> (x <? y)%f64 = false /\ (y <? x)%f64 = false.
Proof.
  unfold f64_eqb, f64_ltb, SFeqb, SFltb. intros H.
  assert (is_nan x = false /\ is_nan y = false) as [Hx Hy] by by destruct x, y.
  change (f64_eqb x y = true) in H. rewrite f64_eqb_spec in H by done. apply andb_true_iff in H.
  by rewrite !negb_true_iff in H.
Qed.

Lemma search_step_best t elig as_ count b a :
  match b with
  | None => Forall (fun a => scored t elig a = false) as_
  | Some (i, l) => is_best t elig as_ i l
  end ->
  match (search_step t elig (count, b) a).2 with
  | None => Forall (fun a => scored t elig a = false) (as_ ++ [a])
  | Some (i, l) => is_best t elig (as_ ++ [a]) i l
  end.
Proof.
  intros Hb. destruct (scored t elig a) eqn:Es.
  2:{ rewrite search_step_skip by done. simpl. destruct b as [[i l]|]; [|by apply Forall_app; auto].
      destruct Hb as [Hin ? ? Hmin]. split; [by apply elem_of_app; left|done|done|].
      intros a' la [?| ->%list_elem_of_singleton]%elem_of_app He Hl; [by apply Hmin|].
      unfold scored in Es. by rewrite He, Hl in Es. }
  unfold scored in Es. apply andb_true_iff in Es as [He Hl].
  destruct (obicall_dgt_action_worst_case_loss t a) as [la|] eqn:El; [|done]. clear Hl.
  pose proof (isfinite_not_nan _ (worst_case_loss_finite _ _ _ El)) as Hna.
  unfold search_step. rewrite He, El. cbn [negb snd]. destruct b as [[i l]|].
  - destruct Hb as [Hin Hei Hli Hmin].
    pose proof (isfinite_not_nan _ (worst_case_loss_finite _ _ _ Hli)) as Hnl.
    destruct ((la <? l)%f64 || _) eqn:Et.
    + split; [by apply elem_of_app; right; left|done|done|]. intros a' la' [Ha| ->%list_elem_of_singleton]%elem_of_app He' Hl'.
      * pose proof (isfinite_not_nan _ (worst_case_loss_finite _ _ _ Hl')) as Hn'.
        destruct (Hmin a' la' Ha He' Hl') as [H1 H2]. apply orb_true_iff in Et as [Et|Et].
        -- split; [apply f64_ltb_asym, (f64_ltb_lt_nlt _ _ _ Hn' Et H1)|].
           intros [_ Hc]%f64_eq_nlt. pose proof (f64_ltb_lt_nlt _ _ _ Hn' Et H1). congruence.
        -- apply andb_true_iff in Et as [Eq Hid]. destruct (f64_eq_nlt _ _ Eq) as [E1 E2].
           split; [exact (f64_nlt_trans _ _ _ Hna Hnl Hn' E2 H1)|].
           intros Eq'. destruct (f64_eq_nlt _ _ Eq') as [E3 E4].
           assert ((la' =? l)%f64 = true) as Eq2.
           { rewrite f64_eqb_spec by done. rewrite H1. cbn [negb andb].
             by rewrite (f64_nlt_trans la' la l). }
           specialize (H2 Eq2). clear -Hid H2. lia.
      * rewrite El in Hl'. injection Hl' as <-. split; [apply f64_ltb_irrefl|lia].
    + apply orb_false_iff in Et as [Et1 Et2]. split; [by apply elem_of_app; left|done|done|].
      intros a' la' [Ha| ->%list_elem_of_singleton]%elem_of_app He' Hl'; [by apply Hmin|].
      rewrite El in Hl'. injection Hl' as <-. split; [done|]. intros Eq. rewrite Eq in Et2. cbn in Et2. lia.
  - split; [by apply elem_of_app; right; left|done|done|]. intros a' la' [Ha| ->%list_elem_of_singleton]%elem_of_app He' Hl'.
    + rewrite Forall_forall in Hb. specialize (Hb a' Ha). unfold scored in Hb. by rewrite He', Hl' in Hb.
    + rewrite El in Hl'. injection Hl' as <-. split; [apply f64_ltb_irrefl|lia].
Qed.

Lemma search_spec t elig as_ :
  match (fold_left (search_step t elig) as_ (0, None)).2 with
  | None => Forall (fun a => scored t elig a = false) as_
  | Some (i, l) => is_best t elig as_ i l
  end /\
  (fold_left (search_step t elig) as_ (0, None)).1 = Z.of_nat (length (List.filter (scored t elig) as_)).
Proof.
  induction as_ as [|a as_ [IH1 IH2]] using rev_ind; [by split; [constructor|]|].
  rewrite fold_left_app. cbn [fold_left].
  destruct (fold_left (search_step t elig) as_ (0, None)) as [count b] eqn:E. simpl in IH1, IH2.
  split; [by apply search_step_best|].
  rewrite List.filter_app, length_app. cbn [List.filter]. destruct (scored t elig a) eqn:Es.
  - unfold scored in Es. apply andb_true_iff in Es as [He Hl]. unfold search_step. rewrite He. simpl.
    destruct (obicall_dgt_action_worst_case_loss t a); [|done]. simpl. lia.
  - rewrite search_step_skip by done. simpl. lia.
Qed.

Lemma elem_of_upto n a : a ∈ upto n <-> 0 <= a < n.
Proof.
  unfold upto. rewrite list_elem_of_fmap. setoid_rewrite elem_of_seq. split.
  - intros (i & -> & Hi). lia.
  - intros Ha. exists (Z.to_nat a). lia.
Qed.

(** The whole selection on a valid table. *)
Lemma select_valid t elig hin margin base :
  (obicall_dgt_validate_table (Some t)).1 = OBICALL_OK ->
  obicall_dgt_select_action (Some t) elig hin margin base =
  match (fold_left (search_step t elig) (upto (pt_action_count t)) (0, None)) with
  | (_, None) => select_baseline (Some t) elig base
  | (eligible_count, Some (best_idx, best_loss)) =>
      let '(final_idx, final_loss, used_hold) :=
        match hysteresis_hold t elig hin margin best_loss with
        | None => (best_idx, best_loss, 0)
        | Some (prev, prev_loss) => (prev, prev_loss, if prev =? best_idx then 0 else 1)
        end in
      Ok (DgtDecision (da_action_id (action_at t final_idx)) final_idx final_loss eligible_count
            0 used_hold,
          HysteresisState 1 final_idx final_loss)
  end.
Proof.
  intros H. unfold obicall_dgt_select_action.
  destruct (obicall_dgt_validate_table (Some t)) as [st d]. simpl in H. by subst st.
Qed.

Lemma select_baseline_spec t elig base d h :
  select_baseline (Some t) elig base = Ok (d, h) ->
  dd_selected_action_index d = base /\ eligible_at elig base = true /\ base < pt_action_count t /\
  obicall_dgt_action_worst_case_loss t base = Ok (dd_worst_case_loss d) /\
  dd_selected_action_id d = da_action_id (action_at t base) /\ dd_used_fallback_baseline d = 1 /\
  hs_previous_action_index h = base.
Proof.
  unfold select_baseline. destruct (_ || _) eqn:E; [done|]. apply orb_false_iff in E as [E1 E2].
  apply negb_false_iff in E2. destruct (obicall_dgt_action_worst_case_loss t base) eqn:El; [|done].
  intros [= <- <-]. simpl. split_and!; try done. clear -E1. lia.
Qed.

Lemma hysteresis_hold_spec t elig hin margin bl p lp :
  hysteresis_hold t elig hin margin bl = Some (p, lp) <->
  exists h, hin = Some h /\ hs_has_previous h <> 0 /\ hs_previous_action_index h = p /\
    p < pt_action_count t /\ eligible_at elig p = true /\
    obicall_dgt_action_worst_case_loss t p = Ok lp /\ (bl <? lp * (f64_one - margin))%f64 = false.
Proof.
  unfold hysteresis_hold. destruct hin as [h|]; [|split; [done|by intros (?&?&_)]].
  set (prev := hs_previous_action_index h).
  destruct ((hs_has_previous h =? 0) || _ || _) eqn:E.
  - split; [done|]. intros (h' & [= <-] & Hh & <- & Hp & He & _). fold prev in Hp, He.
    rewrite He in E. cbn [negb] in E. clear He. lia.
  - apply orb_false_iff in E as [E E3]. apply orb_false_iff in E as [E1 E2]. apply negb_false_iff in E3.
    destruct (obicall_dgt_action_worst_case_loss t prev) as [l|] eqn:El.
    + cbv zeta. destruct (bl <? l * (f64_one - margin))%f64 eqn:Eb; cbn [negb]; split; try done.
      * intros (h' & [= <-] & _ & <- & _ & _ & Hl & Hb). fold prev in Hl. rewrite El in Hl.
        injection Hl as <-. congruence.
      * intros [= <- <-]. exists h. split_and!; try done; lia.
      * intros (h' & [= <-] & _ & <- & _ & _ & Hl & Hb). fold prev in Hl. rewrite El in Hl.
        by injection Hl as <-.
    + split; [done|]. intros (h' & [= <-] & _ & <- & _ & _ & Hl & _). fold prev in Hl. congruence.
Qed.

(** What a decision names, and the state it leaves behind. *)
Lemma select_eligible_spec t elig hin margin base d h :
  0 <= base -> (forall h, hin = Some h -> 0 <= hs_previous_action_index h) ->
  obicall_dgt_select_action (Some t) elig hin margin base = Ok (d, h) ->
  let i := dd_selected_action_index d in
  0 <= i < pt_action_count t /\ eligible_at elig i = true /\
  obicall_dgt_action_worst_case_loss t i = Ok (dd_worst_case_loss d) /\
  dd_selected_action_id d = da_action_id (action_at t i) /\ hs_previous_action_index h = i.
Proof.
  intros Hbase Hprev H i.
  assert (forall d, select_baseline (Some t) elig base = Ok (d, h) ->
    0 <= dd_selected_action_index d < pt_action_count t /\
    eligible_at elig (dd_selected_action_index d) = true /\
    obicall_dgt_action_worst_case_loss t (dd_selected_action_index d) = Ok (dd_worst_case_loss d) /\
    dd_selected_action_id d = da_action_id (action_at t (dd_selected_action_index d)) /\
    hs_previous_action_index h = dd_selected_action_index d) as Hbl.
  { intros d' (-> & ? & ? & ? & ? & _ & ?)%select_baseline_spec. by split_and!. }
  destruct (decide ((obicall_dgt_validate_table (Some t)).1 = OBICALL_OK)) as [Hv|Hv].
  2:{ apply Hbl. revert H. unfold obicall_dgt_select_action.
      destruct (obicall_dgt_validate_table (Some t)) as [st ?]. by destruct st. }
  rewrite select_valid in H by done.
  destruct (search_spec t elig (upto (pt_action_count t))) as [Hb _].
  destruct (fold_left _ _ _) as [count [[b bl]|]]; simpl in Hb; [|by apply Hbl].
  destruct (hysteresis_hold t elig hin margin bl) as [[p lp]|] eqn:Eh.
  - apply hysteresis_hold_spec in Eh as (h' & -> & _ & <- & Hp & He & Hl & _).
    injection H as <- <-. simpl in i. subst i. split_and!; try done. by apply Hprev.
  - injection H as <- <-. simpl in i. subst i. destruct Hb as [Hin ? ? _].
    apply elem_of_upto in Hin as [? ?]. by split_and!.
Qed.

(** * The claims *)

(** ** The decision in its own terms *)

(** A loss is the weighted sum of the four normalised costs, added from the left. *)
Definition loss_of (t : obicall_dgt_policy_table) (a s : Z) : f64 :=
  let c := cost_at t a s in
  let w := pt_weights t in
  let term '(weight, cost, scale) := (weight * (cost / scale))%f64 in
  match term <$> [(w_estimation_error w, cc_estimation_error c, pt_scale_estimation_error t);
                  (w_delay w, cc_delay c, pt_scale_delay t);
                  (w_coverage_loss w, cc_coverage_loss c, pt_scale_coverage_loss t);
                  (w_resource_cost w, cc_resource_cost c, pt_scale_resource_cost t)] with
  | [] => f64_zero
  | x :: xs => fold_left f64_add xs x
  end.
Definition losses (t : obicall_dgt_policy_table) (a : Z) : list f64 := loss_of t a <$> upto (pt_scenario_count t).

(** The greatest, the first one of equals. *)
Definition first_max (l : list f64) (x : f64) : Prop :=
  exists before after, l = before ++ x :: after /\
    Forall (fun y => (y <? x)%f64 = true) before /\ Forall (fun y => (y >? x)%f64 = false) after.

Record worst_loss (t : obicall_dgt_policy_table) (a : Z) (x : f64) : Prop := {
  wl_finite : Forall (fun y => isfinite y = true) (losses t a);
  wl_max : first_max (losses t a) x
}.

(** Eligible, within the table and of defined loss. *)
Definition choosable (t : obicall_dgt_policy_table) (elig : list Z) (a : Z) (x : f64) : Prop :=
  0 <= a < pt_action_count t /\ default 0 (elig !! Z.to_nat a) <> 0 /\ worst_loss t a x.

Record minimax (t : obicall_dgt_policy_table) (elig : list Z) (b : Z) (l : f64) : Prop := {
  mm_choosable : choosable t elig b l;
  mm_least : forall a x, choosable t elig a x ->
    (x <? l)%f64 = false /\ ((x =? l)%f64 = true -> da_action_id (action_at t b) <= da_action_id (action_at t a))
}.

(** Action [p] was chosen last time, can still be chosen, and the best loss [bl] is not
    below its own loss by more than the margin. *)
Definition holds (t : obicall_dgt_policy_table) (elig : list Z) (hin : option obicall_dgt_hysteresis_state)
    (margin bl : f64) (p : Z) (lp : f64) : Prop :=
  exists h, hin = Some h /\ hs_has_previous h <> 0 /\ hs_previous_action_index h = p /\
    choosable t elig p lp /\ (bl <? lp * (f64_one - margin))%f64 = false.

Lemma first_max_unique l x y : first_max l x -> first_max l y -> x = y.
Proof.
  intros (b1 & a1 & -> & Hb1 & Ha1) (b2 & a2 & E & Hb2 & Ha2). revert b2 Hb2 E.
  induction Hb1 as [|z b1 Hz _ IH]; intros b2 Hb2 E.
  - destruct Hb2 as [|w b2 Hw Hb2]; injection E as -> E; [done|]. exfalso. subst a1.
    apply Forall_app in Ha1 as [_ [Hy _]%Forall_cons]. congruence.
  - destruct Hb2 as [|w b2 Hw Hb2]; injection E as -> E.
    + exfalso. subst a2. apply Forall_app in Ha2 as [_ [Hx _]%Forall_cons]. congruence.
    + by apply (IH b2).
Qed.

Lemma worst_loss_unique t a x y : worst_loss t a x -> worst_loss t a y -> x = y.
Proof. intros [_ H1] [_ H2]. by apply (first_max_unique (losses t a)). Qed.

(** The scenario loop finds it. *)
Lemma worst_loop_first t a ss done w :
  Forall (fun y => isfinite y = true) (loss_of t a <$> done) -> first_max (loss_of t a <$> done) w ->
  match worst_loop t a ss (Some w) with
  | Ok (Some x) => Forall (fun y => isfinite y = true) (loss_of t a <$> done ++ ss) /\ first_max (loss_of t a <$> done ++ ss) x
  | Ok None => False
  | Err _ => ~ Forall (fun y => isfinite y = true) (loss_of t a <$> done ++ ss)
  end.
Proof.
  revert done w. induction ss as [|s ss IH]; intros done w Hf Hw; cbn [worst_loop]; [by rewrite app_nil_r|].
  change (scenario_loss t a s) with (loss_of t a s). destruct (isfinite (loss_of t a s)) eqn:E; cbn [negb].
  2:{ rewrite fmap_app, Forall_app. intros [_ [Hs _]%Forall_cons]. congruence. }
  replace (done ++ s :: ss) with ((done ++ [s]) ++ ss) by by rewrite <- app_assoc.
  assert (Hf' : Forall (fun y => isfinite y = true) (loss_of t a <$> done ++ [s])).
  { rewrite fmap_app, Forall_app. split; [done|]. by constructor. }
  destruct Hw as (b & af & Ew & Hb & Ha). destruct (loss_of t a s >? w)%f64 eqn:Ec; (apply IH; [done|]); rewrite fmap_app.
  - exists (loss_of t a <$> done), []. split_and!; [done| |constructor]. rewrite Ew in Hf |- *.
    apply Forall_app in Hf as [Hfb [Hfw Hfa]%Forall_cons]. apply Forall_app. split; [|constructor; [done|]].
    + eapply Forall_impl; [exact Hb|]. intros y Hy. by apply (f64_ltb_trans y w).
    + apply Forall_forall. intros y Hy. rewrite Forall_forall in Ha, Hfa. specialize (Ha y Hy). specialize (Hfa y Hy).
      apply not_false_is_true. intros Hn.
      pose proof (f64_ltb_lt_nlt w (loss_of t a s) y (isfinite_not_nan _ Hfa) Ec Hn). congruence.
  - rewrite Ew. exists b, (af ++ [loss_of t a s]). split_and!; [by rewrite <- app_assoc|done|].
    apply Forall_app. split; [done|]. by constructor.
Qed.

Lemma worst_loss_spec t a x :
  a < pt_action_count t -> obicall_dgt_action_worst_case_loss t a = Ok x <-> worst_loss t a x.
Proof.
  intros Ha. unfold obicall_dgt_action_worst_case_loss. destruct (Z.geb_spec a (pt_action_count t)) as [|_]; [lia|].
  unfold losses. destruct (upto (pt_scenario_count t)) as [|s ss] eqn:Es; cbn [worst_loop].
  { split; [done|]. intros [_ (b & af & E & _)]. unfold losses in E. rewrite Es in E. by destruct b. }
  change (scenario_loss t a s) with (loss_of t a s). destruct (isfinite (loss_of t a s)) eqn:E; cbn [negb].
  2:{ split; [done|]. intros [Hf _]. unfold losses in Hf. rewrite Es in Hf. rewrite fmap_cons, Forall_cons in Hf. destruct Hf as [Hs _]. congruence. }
  pose proof (worst_loop_first t a ss [s] (loss_of t a s) ltac:(by constructor) ltac:(by exists [], [])) as H.
  cbn [app] in H. rewrite <- Es in H. destruct (worst_loop t a ss _) as [[y|]|]; [|done|].
  - destruct H as [Hf Hm]. assert (Hy : worst_loss t a y) by done. split; [by intros [= <-]|].
    intros Hx. by rewrite (worst_loss_unique t a x y Hx Hy).
  - split; [done|]. intros [Hf _]. done.
Qed.

Lemma choosable_spec t elig a x :
  choosable t elig a x <->
  a ∈ upto (pt_action_count t) /\ eligible_at elig a = true /\ obicall_dgt_action_worst_case_loss t a = Ok x.
Proof.
  unfold choosable, eligible_at. rewrite elem_of_upto, negb_true_iff, Z.eqb_neq. split.
  - intros (Ha & He & Hl). split; [done|]. split; [done|]. apply worst_loss_spec; [apply Ha|done].
  - intros (Ha & He & Hl). split; [done|]. split; [done|]. apply worst_loss_spec; [apply Ha|done].
Qed.

Lemma is_best_minimax t elig b l : is_best t elig (upto (pt_action_count t)) b l -> minimax t elig b l.
Proof.
  intros [Hin He Hl Hmin]. split; [by apply choosable_spec|]. intros a x (Ha & Hea & Hla)%choosable_spec. by apply Hmin.
Qed.

Lemma scored_choosable t elig a :
  a ∈ upto (pt_action_count t) -> scored t elig a = true <-> exists x, choosable t elig a x.
Proof.
  intros Ha. unfold scored. setoid_rewrite choosable_spec. rewrite andb_true_iff. split.
  - intros [He Hl]. destruct (obicall_dgt_action_worst_case_loss t a) as [x|]; [by exists x|done].
  - intros (x & _ & He & Hl). by rewrite Hl.
Qed.

Lemma hold_holds t elig hin margin bl p lp :
  (forall h, hin = Some h -> 0 <= hs_previous_action_index h) ->
  hysteresis_hold t elig hin margin bl = Some (p, lp) <-> holds t elig hin margin bl p lp.
Proof.
  intros Hpos. rewrite hysteresis_hold_spec. unfold holds. split.
  - intros (h & -> & Hh & <- & Hp & He & Hl & Hb). exists h. specialize (Hpos h eq_refl).
    split; [done|]. split; [done|]. split; [done|]. split; [|done]. apply choosable_spec. by rewrite elem_of_upto.
  - intros (h & -> & Hh & <- & Hc & Hb). apply choosable_spec in Hc as ([Hp1 Hp2]%elem_of_upto & He & Hl).
    exists h. by repeat (split; [done|]).
Qed.

(** C36: minimax with hysteresis: on a valid table with an action that can be chosen
    (eligible, with a finite loss in every scenario) the decision succeeds, without the
    baseline.  It names the action whose worst-case loss over the scenarios is least (of
    equals the one with the lowest id), unless an action was held that can still be chosen
    and whose own loss, less the margin, the least one does not fall below: then it
    names that one.  Id, loss, the number of actions that could be chosen, the hold flag
    and the next call's held action are those of the action named. *)
Theorem dgt_select_minimax t elig hin margin base :
  (obicall_dgt_validate_table (Some t)).1 = OBICALL_OK ->
  (forall h, hin = Some h -> 0 <= hs_previous_action_index h) ->
  (exists a x, choosable t elig a x) ->
  exists d h b bl, obicall_dgt_select_action (Some t) elig hin margin base = Ok (d, h) /\
    minimax t elig b bl /\
    let i := dd_selected_action_index d in
    let l := dd_worst_case_loss d in
    ((exists p lp, holds t elig hin margin bl p lp /\ i = p /\ l = lp /\
        dd_used_hysteresis_hold d = (if decide (p = b) then 0 else 1)) \/
     (forall p lp, ~ holds t elig hin margin bl p lp) /\ i = b /\ l = bl /\ dd_used_hysteresis_hold d = 0) /\
    choosable t elig i l /\ dd_selected_action_id d = da_action_id (action_at t i) /\
    dd_used_fallback_baseline d = 0 /\
    (exists as_, NoDup as_ /\ dd_eligible_count d = Z.of_nat (length as_) /\
       forall a, a ∈ as_ <-> exists x, choosable t elig a x) /\
    h = HysteresisState 1 i l.
Proof.
  intros Hv Hpos (a & x & Hc). rewrite select_valid by done.
  destruct (search_spec t elig (upto (pt_action_count t))) as [Hb Hn].
  destruct (fold_left _ _ _) as [count [[b bl]|]]; simpl in Hb, Hn.
  2:{ rewrite Forall_forall in Hb. pose proof (proj1 (choosable_spec _ _ _ _) Hc) as (Ha & _).
      specialize (Hb a Ha). assert (scored t elig a = true) by (apply scored_choosable; eauto). congruence. }
  apply is_best_minimax in Hb. subst count.
  assert (Hcount : exists as_, NoDup as_ /\
      Z.of_nat (length (List.filter (scored t elig) (upto (pt_action_count t)))) = Z.of_nat (length as_) /\
      forall a, a ∈ as_ <-> exists x, choosable t elig a x).
  { exists (List.filter (scored t elig) (upto (pt_action_count t))). split_and!; [|done|].
    - apply NoDup_ListNoDup, List.NoDup_filter, NoDup_ListNoDup. unfold upto.
      apply NoDup_fmap; [apply _|apply NoDup_seq].
    - intros a'. rewrite list_elem_of_In, filter_In, <- list_elem_of_In. split.
      + intros [Ha' Hs]. by apply scored_choosable.
      + intros [x' Hx']. pose proof (proj1 (choosable_spec _ _ _ _) Hx') as (Ha' & _).
        split; [done|]. apply scored_choosable; eauto. }
  destruct (hysteresis_hold t elig hin margin bl) as [[p lp]|] eqn:Eh; do 2 eexists; exists b, bl; (split; [reflexivity|]);
    cbn [dd_selected_action_index dd_worst_case_loss dd_used_hysteresis_hold dd_selected_action_id
         dd_used_fallback_baseline dd_eligible_count]; (split; [done|]).
  - apply hold_holds in Eh; [|done]. split; [|split; [by destruct Eh as (? & _ & _ & _ & ? & _)|done]].
    left. exists p, lp. split_and!; [done..|]. by destruct (Z.eqb_spec p b), (decide (p = b)).
  - split; [|split; [apply Hb|done]]. right. split; [|done]. intros p lp Hh%hold_holds; [|done]. congruence.
Qed.

(** safety: whatever the table and the history, a decision names an action
    that is structurally eligible, within the table, and carries its own
    worst-case loss; hysteresis and fallback never resurrect an ineligible one. *)
Theorem dgt_select_eligible t elig hin margin base d h :
  0 <= base -> (forall h, hin = Some h -> 0 <= hs_previous_action_index h) ->
  obicall_dgt_select_action (Some t) elig hin margin base = Ok (d, h) ->
  let i := dd_selected_action_index d in
  0 <= i < pt_action_count t /\ eligible_at elig i = true /\
  obicall_dgt_action_worst_case_loss t i = Ok (dd_worst_case_loss d) /\
  dd_selected_action_id d = da_action_id (action_at t i).
Proof.
  intros Hbase Hprev H. by destruct (select_eligible_spec _ _ _ _ _ _ _ Hbase Hprev H) as (? & ? & ? & ? & _).
Qed.

(** on a valid table the selection fails only when no action at all is both
    eligible and of defined loss, and the failure is always
    [OBICALL_ERR_DGT_NO_ELIGIBLE_ACTION]. *)
Theorem dgt_select_fails_iff t elig hin margin base e :
  (obicall_dgt_validate_table (Some t)).1 = OBICALL_OK -> 0 <= base ->
  obicall_dgt_select_action (Some t) elig hin margin base = Err e <->
  e = OBICALL_ERR_DGT_NO_ELIGIBLE_ACTION /\
  forall a, 0 <= a < pt_action_count t -> scored t elig a = false.
Proof.
  intros Hv Hb0. rewrite select_valid by done.
  destruct (search_spec t elig (upto (pt_action_count t))) as [Hb _].
  destruct (fold_left _ _ _) as [count [[b bl]|]]; simpl in Hb.
  - destruct Hb as [Hin He Hl _]. split.
    + by destruct (hysteresis_hold _ _ _ _ _) as [[? ?]|].
    + intros [_ Hn]. apply elem_of_upto in Hin. specialize (Hn b Hin). unfold scored in Hn.
      by rewrite He, Hl in Hn.
  - rewrite Forall_forall in Hb. unfold select_baseline. split.
    + intros H. split; [by repeat case_match; simplify_eq|].
      intros a Ha. apply Hb. by apply elem_of_upto.
    + intros [-> Hn]. destruct (_ || _) eqn:E; [done|]. apply orb_false_iff in E as [E1 E2].
      apply negb_false_iff in E2. destruct (Z.geb_spec base (pt_action_count t)) as [|Hlt]; [done|].
      specialize (Hn base ltac:(lia)). unfold scored in Hn. rewrite E2 in Hn.
      by destruct (obicall_dgt_action_worst_case_loss t base).
Qed.

(** the worst-case loss of an action is the greatest of its scenario losses,
    all of which are finite. *)
Theorem dgt_worst_case_is_max t a loss :
  obicall_dgt_action_worst_case_loss t a = Ok loss ->
  f64_max_of (scenario_loss t a <$> upto (pt_scenario_count t)) loss /\
  Forall (fun s => isfinite (scenario_loss t a s) = true) (upto (pt_scenario_count t)).
Proof. intros (_&?&?&_)%worst_case_loss_spec. done. Qed.

(** * Witnesses *)

(** Two actions under one scenario, unit weights and scales: the second is better. *)
Definition sample_table : obicall_dgt_policy_table :=
  PolicyTable sizeof_policy_table 1 1 2
    (pad 16 zero_action [DgtAction 10 [] 1 1 []; DgtAction 11 [] 3 1 []]) 1
    (pad 16 (DgtScenario 0 []) [DgtScenario 1 []])
    (DgtWeights f64_one f64_one f64_one f64_one)
    (pad 16 (replicate 16 zero_cost)
       [pad 16 zero_cost [CostComponents (f64_add f64_one f64_one) f64_zero f64_zero f64_zero];
        pad 16 zero_cost [CostComponents f64_one f64_zero f64_zero f64_zero]])
    f64_one f64_one f64_one f64_one.

Definition sample_elig : list Z := pad 16 0 [1; 1].

Definition decision_of (r : result status (obicall_dgt_decision * obicall_dgt_hysteresis_state))
    : obicall_dgt_decision * obicall_dgt_hysteresis_state :=
  match r with Ok x => x | Err _ => (DgtDecision 0 0 f64_zero 0 0 0, HysteresisState 0 0 f64_zero) end.

(** 0.05 *)
Definition sample_margin : f64 := f64_of_bits 4587366580439587226.

(** Action 0 was held; action 1 beats it by more than the margin. *)
Lemma dgt_minimax_witness :
  exists d h, obicall_dgt_select_action (Some sample_table) sample_elig (Some (HysteresisState 1 0 f64_one)) sample_margin 0 = Ok (d, h) /\
  dd_selected_action_index d = 1 /\ dd_used_fallback_baseline d = 0 /\ choosable sample_table sample_elig 1 (dd_worst_case_loss d).
Proof.
  destruct (dgt_select_minimax sample_table sample_elig (Some (HysteresisState 1 0 f64_one)) sample_margin 0)
    as (d & h & b & bl & E & _ & _ & Hc & _ & Hf & _).
  - reflexivity.
  - by intros h [= <-].
  - exists 1, f64_one. apply choosable_spec. split; [|split; vm_compute; reflexivity].
    apply elem_of_upto. change (0 <= 1 < 2). lia.
  - exists d, h. assert (Hi : dd_selected_action_index d = 1).
    { transitivity (dd_selected_action_index (decision_of (Ok (d, h))).1); [reflexivity|]. rewrite <- E. vm_compute. reflexivity. }
    rewrite Hi in Hc. by split_and!.
Defined.

(** The held action 0 is no longer eligible: it is not retained. *)
Lemma dgt_eligible_witness :
  let x := decision_of (obicall_dgt_select_action (Some sample_table) (pad 16 0 [0; 1])
             (Some (HysteresisState 1 0 f64_one)) sample_margin 0) in
  eligible_at (pad 16 0 [0; 1]) (dd_selected_action_index x.1) = true.
Proof.
  intros x. apply (dgt_select_eligible sample_table (pad 16 0 [0; 1]) (Some (HysteresisState 1 0 f64_one))
    sample_margin 0 x.1 x.2).
  - lia.
  - intros h [= <-]. done.
  - vm_compute. reflexivity.
Defined.

Lemma dgt_fails_witness :
  obicall_dgt_select_action (Some sample_table) (replicate 16 0) None sample_margin 0 =
  Err OBICALL_ERR_DGT_NO_ELIGIBLE_ACTION.
Proof.
  apply (dgt_select_fails_iff sample_table (replicate 16 0) None sample_margin 0).
  - reflexivity.
  - lia.
  - split; [done|]. intros a Ha. cbn in Ha. assert (a = 0 \/ a = 1) as [-> | ->] by lia; reflexivity.
Defined.

Lemma dgt_worst_case_witness :
  f64_max_of (scenario_loss sample_table 1 <$> upto 1) f64_one.
Proof.
  apply (dgt_worst_case_is_max sample_table 1 f64_one). vm_compute. reflexivity.
Defined.
