(* ===== verification/Estimator.v ===== *)
(** * Estimator: the constant-velocity Kalman filter (src/core/estimator.c)

    The filter is written over a record of arithmetic operations ([Num]), in the
    order and association of the C loops.  Its instance at binary64 is the
    program; its instance at the real numbers is the filter the program
    approximates.  What concerns control flow (which inputs are refused, what
    they leave behind) is proved for every instance, what concerns the matrices
    for the real one; the binary64 instance is shown not to share it exactly. *)

From Stdlib Require Import Reals Lra.
From S2P Require Import Prelude Types Binary64.

(** The operations of C [double] the estimator uses. *)
Class Num (A : Type) := {
  n_zero : A;
  n_one : A;
  n_add : A -> A -> A;
  n_sub : A -> A -> A;
  n_mul : A -> A -> A;
  n_div : A -> A -> A;
  n_neg : A -> A;
  n_abs : A -> A;
  n_ltb : A -> A -> bool;
  n_leb : A -> A -> bool;
  n_finite : A -> bool;
  n_of_Z : Z -> A;      (* conversion of an int64_t *)
  n_1e9 : A;
  n_1e_15 : A
}.

Declare Scope num_scope.
Delimit Scope num_scope with num.
Infix "+" := n_add : num_scope.
Infix "-" := n_sub : num_scope.
Infix "*" := n_mul : num_scope.
Infix "/" := n_div : num_scope.
Infix "<?" := n_ltb : num_scope.
Infix "<=?" := n_leb : num_scope.
Notation "x >? y" := (n_ltb y x) : num_scope.
Notation "- x" := (n_neg x) : num_scope.

Definition SD : nat := 4.

Section kalman.
Context {A : Type} `{Num A}.

Record obicall_kalman_params := KalmanParams {
  kp_process_noise_position : A;
  kp_process_noise_velocity : A;
  kp_initial_position_variance : A;
  kp_initial_velocity_variance : A;
  kp_max_prediction_gap_s : A
}.

Record obicall_kalman_state := KalmanState {
  ks_initialized : Z;
  ks_mean : list A;                (* double[4] *)
  ks_covariance : list A;          (* double[16], row-major *)
  ks_last_update_time_ns : Z
}.

(** [for (i = 0; i < SD; ++i)], and the doubly indexed tables. *)
Definition vec4 (f : nat -> A) : list A := f <$> seq 0 SD.
Definition mat4 (f : nat -> nat -> A) : list (list A) := (fun i => f i <$> seq 0 SD) <$> seq 0 SD.
Definition at1 (v : list A) (i : nat) : A := default n_zero (v !! i).
Definition at2 (m : list (list A)) (i j : nat) : A := default n_zero (m !! i ≫= fun row => row !! j).
(** [acc = 0.0; for (k = 0; k < SD; ++k) acc += f(k)] *)
Definition sum4 (f : nat -> A) : A := fold_left (fun acc k => n_add acc (f k)) (seq 0 SD) n_zero.
Definition flat4 (f : nat -> nat -> A) : list A := concat (mat4 f).

(** The two product loops, [a b] and [a b^T]. *)
Definition mat_mul (a b : list (list A)) : list (list A) :=
  mat4 (fun i j => sum4 (fun k => n_mul (at2 a i k) (at2 b k j))).
Definition mat_mul_t (a b : list (list A)) : list (list A) :=
  mat4 (fun i j => sum4 (fun k => n_mul (at2 a i k) (at2 b j k))).

Definition obicall_kalman_init (params : obicall_kalman_params) (x0 y0 : A) (time_ns : Z)
    : obicall_kalman_state :=
  KalmanState 1 [x0; y0; n_zero; n_zero]
    (flat4 (fun i j => if negb (i =? j)%nat then n_zero
                       else if (i <? 2)%nat then kp_initial_position_variance params
                       else kp_initial_velocity_variance params))
    time_ns.

(** [f], the transition over [dt]. *)
Definition transition (dt : A) : list (list A) :=
  [[n_one; n_zero; dt; n_zero]; [n_zero; n_one; n_zero; dt];
   [n_zero; n_zero; n_one; n_zero]; [n_zero; n_zero; n_zero; n_one]].

Definition cov_matrix (cov : list A) : list (list A) := mat4 (fun i j => at1 cov (i * SD + j)).

(** The arithmetic of a prediction over [dt]. *)
Definition predict_mean (dt : A) (mean : list A) : list A :=
  vec4 (fun i => sum4 (fun j => n_mul (at2 (transition dt) i j) (at1 mean j))).

Definition predict_covariance (params : obicall_kalman_params) (dt : A) (cov : list A) : list A :=
  let f := transition dt in
  let p := cov_matrix cov in
  let fp := mat_mul f p in
  let fpft := mat_mul_t fp f in
  let q_pos := n_mul (kp_process_noise_position params) dt in
  let q_vel := n_mul (kp_process_noise_velocity params) dt in
  flat4 (fun i j => n_add (at2 fpft i j)
           (if (i =? j)%nat then if (i <? 2)%nat then q_pos else q_vel else n_zero)).

(** The elapsed time, [(double)(time_ns - last) / 1e9]. *)
Definition elapsed (state : obicall_kalman_state) (time_ns : Z) : A :=
  n_div (n_of_Z (i64 (time_ns - ks_last_update_time_ns state))) n_1e9.

(** The status and the state, which only a successful prediction changes. *)
Definition obicall_kalman_predict (params : obicall_kalman_params) (time_ns : Z)
    (state : obicall_kalman_state) : status * obicall_kalman_state :=
  if ks_initialized state =? 0 then (OBICALL_ERR_INVALID_ARGUMENT, state)
  else if time_ns =? ks_last_update_time_ns state then (OBICALL_OK, state)
  else
  let dt := elapsed state time_ns in
  if (dt <? n_zero)%num then (OBICALL_ERR_VALIDATION_TIMING, state)
  else if ((kp_max_prediction_gap_s params >? n_zero) && (dt >? kp_max_prediction_gap_s params))%num
  then (OBICALL_ERR_VALIDATION_TIMING, state)
  else
    (OBICALL_OK,
     KalmanState (ks_initialized state) (predict_mean dt (ks_mean state))
       (predict_covariance params dt (ks_covariance state)) time_ns).

(** The innovation covariance, its determinant and its inverse. *)
Definition innovation (p : list (list A)) (r : list A) : A * A * A * A :=
  ((at2 p 0 0 + at1 r 0)%num, (at2 p 0 1 + at1 r 1)%num,
   (at2 p 1 0 + at1 r 2)%num, (at2 p 1 1 + at1 r 3)%num).
Definition determinant (s : A * A * A * A) : A :=
  let '(s00, s01, s10, s11) := s in (s00 * s11 - s01 * s10)%num.

(** [k], the gain: four rows of two. *)
Definition gain (p : list (list A)) (s : A * A * A * A) : list (list A) :=
  let '(s00, s01, s10, s11) := s in
  let det := determinant s in
  let i00 := (s11 / det)%num in
  let i01 := (- s01 / det)%num in
  let i10 := (- s10 / det)%num in
  let i11 := (s00 / det)%num in
  (fun i => [(at2 p i 0 * i00 + at2 p i 1 * i10)%num; (at2 p i 0 * i01 + at2 p i 1 * i11)%num])
    <$> seq 0 SD.

Definition update_mean (k : list (list A)) (zx zy : A) (mean : list A) : list A :=
  let y0 := (zx - at1 mean 0)%num in
  let y1 := (zy - at1 mean 1)%num in
  vec4 (fun i => at1 mean i + (at2 k i 0 * y0 + at2 k i 1 * y1))%num.

(** Joseph form: [I - K H], then [P = (I - K H) P (I - K H)^T + K R K^T]. *)
Definition joseph_ikh (k : list (list A)) : list (list A) :=
  mat4 (fun i j =>
    let kh := if (j =? 0)%nat then at2 k i 0 else if (j =? 1)%nat then at2 k i 1 else n_zero in
    ((if (i =? j)%nat then n_one else n_zero) - kh)%num).
Definition joseph_sum (p_new k : list (list A)) (r : list A) : list A :=
  flat4 (fun i j =>
    let kr0 := (at2 k i 0 * at1 r 0 + at2 k i 1 * at1 r 2)%num in
    let kr1 := (at2 k i 0 * at1 r 1 + at2 k i 1 * at1 r 3)%num in
    (at2 p_new i j + (kr0 * at2 k j 0 + kr1 * at2 k j 1))%num).
Definition joseph (k p : list (list A)) (r : list A) : list A :=
  joseph_sum (mat_mul_t (mat_mul (joseph_ikh k) p) (joseph_ikh k)) k r.

Definition obicall_kalman_update_position (params : obicall_kalman_params) (time_ns : Z) (zx zy : A)
    (meas_cov_2x2 : list A) (state : obicall_kalman_state) : status * obicall_kalman_state :=
  if negb (n_finite zx) || negb (n_finite zy) then (OBICALL_ERR_VALIDATION_NON_FINITE, state)
  else if existsb (fun i => negb (n_finite (at1 meas_cov_2x2 i))) (seq 0 4)
  then (OBICALL_ERR_VALIDATION_NON_FINITE, state)
  else
  let '(st, state) := obicall_kalman_predict params time_ns state in
  match st with
  | OBICALL_OK =>
      let p := cov_matrix (ks_covariance state) in
      let s := innovation p meas_cov_2x2 in
      let det := determinant s in
      if negb (n_finite det) || (n_abs det <? n_1e_15)%num
      then (OBICALL_ERR_VALIDATION_COVARIANCE, state)
      else
      let k := gain p s in
      (OBICALL_OK,
       KalmanState (ks_initialized state) (update_mean k zx zy (ks_mean state))
         (joseph k p meas_cov_2x2) (ks_last_update_time_ns state))
  | _ => (st, state)
  end.

(** The fusion loop: the two running sums. *)
Fixpoint fuse_loop (mv : list (A * A)) (sum_inv_var sum_mean_over_var : A) : result status (A * A) :=
  match mv with
  | [] => Ok (sum_inv_var, sum_mean_over_var)
  | (m, v) :: mv =>
      if negb (n_finite m) || negb (n_finite v) || (v <=? n_zero)%num
      then Err OBICALL_ERR_VALIDATION_NON_FINITE
      else
      let w := (n_one / v)%num in
      fuse_loop mv (sum_inv_var + w)%num (sum_mean_over_var + m * w)%num
  end.

(** Mean and variance of the fused estimate of [count] (mean, variance) pairs. *)
Definition obicall_static_fuse_1d (mv : list (A * A)) : result status (A * A) :=
  if (length mv =? 0)%nat then Err OBICALL_ERR_INVALID_ARGUMENT
  else
  match fuse_loop mv n_zero n_zero with
  | Err st => Err st
  | Ok (sum_inv_var, sum_mean_over_var) =>
      Ok ((sum_mean_over_var / sum_inv_var)%num, (n_one / sum_inv_var)%num)
  end.
End kalman.

Arguments obicall_kalman_params A : clear implicits.
Arguments obicall_kalman_state A : clear implicits.

(** ** The two instances *)

(** Round to nearest even, as the conversion from [int64_t]. *)
Definition f64_of_Z (z : Z) : f64 := binary_normalize 53 1024 z 0 false.

#[export] Instance num_f64 : Num f64 := {|
  n_zero := f64_zero;
  n_one := f64_one;
  n_add := f64_add;
  n_sub := f64_sub;
  n_mul := f64_mul;
  n_div := f64_div;
  n_neg := f64_neg;
  n_abs := fabs;
  n_ltb := f64_ltb;
  n_leb := f64_leb;
  n_finite := isfinite;
  n_of_Z := f64_of_Z;
  n_1e9 := f64_of_bits 4741671816366391296;
  n_1e_15 := f64_of_bits 4382569440205035030
|}.

#[export] Instance num_R : Num R := {|
  n_zero := 0%R;
  n_one := 1%R;
  n_add := Rplus;
  n_sub := Rminus;
  n_mul := Rmult;
  n_div := Rdiv;
  n_neg := Ropp;
  n_abs := Rabs;
  n_ltb := fun x y => if Rlt_dec x y then true else false;
  n_leb := fun x y => if Rle_dec x y then true else false;
  n_finite := fun _ => true;
  n_of_Z := IZR;
  n_1e9 := 1000000000%R;
  n_1e_15 := (/ 1000000000000000)%R
|}.

(** * Lemmas *)

Section control.
Context {A : Type} `{Num A}.

Lemma predict_cases params time_ns (s : obicall_kalman_state A) st s' :
  obicall_kalman_predict params time_ns s = (st, s') ->
  match st with
  | OBICALL_OK =>
      ks_last_update_time_ns s' = time_ns /\ ks_initialized s' = ks_initialized s /\
      (s' = s \/
       let dt := elapsed s time_ns in
       (dt <? n_zero)%num = false /\
       ((kp_max_prediction_gap_s params >? n_zero) && (dt >? kp_max_prediction_gap_s params))%num = false /\
       ks_mean s' = predict_mean dt (ks_mean s) /\
       ks_covariance s' = predict_covariance params dt (ks_covariance s))
  | OBICALL_ERR_INVALID_ARGUMENT => ks_initialized s = 0 /\ s' = s
  | OBICALL_ERR_VALIDATION_TIMING => s' = s
  | _ => False
  end.
Proof.
  unfold obicall_kalman_predict. destruct (ks_initialized s =? 0) eqn:E0; [intros [= <- <-]; split; [lia|done]|].
  destruct (time_ns =? _) eqn:E1.
  { intros [= <- <-]. split; [lia|]. split; [done|by left]. }
  destruct (_ <? n_zero)%num eqn:E2; [by intros [= <- <-]|].
  destruct (_ && _) eqn:E3; [by intros [= <- <-]|]. intros [= <- <-].
  cbn [ks_last_update_time_ns ks_initialized ks_mean ks_covariance]. by split_and!; [..|right].
Qed.
End control.

(** ** The filter over the reals *)

Local Open Scope R_scope.

Lemma num_R_ltb x y : n_ltb x y = true <-> x < y.
Proof. cbn. by destruct (Rlt_dec x y). Qed.

(** [x^T P x] for a row-major 4x4 matrix, and for a 2x2 one. *)
Definition sum_R (f : nat -> R) : R := f 0%nat + f 1%nat + f 2%nat + f 3%nat.
Definition quad (p x : list R) : R :=
  sum_R (fun i => sum_R (fun j => at1 x i * at1 p (i * SD + j) * at1 x j)).
Definition quad2 (r : list R) (u v : R) : R :=
  u * u * at1 r 0 + u * v * at1 r 1 + v * u * at1 r 2 + v * v * at1 r 3.

(** Symmetric and positive semi-definite. *)
Record psd (p : list R) : Prop := {
  psd_length : length p = 16%nat;
  psd_symmetric : forall i j, (i < SD)%nat -> (j < SD)%nat -> at1 p (i * SD + j) = at1 p (j * SD + i);
  psd_nonneg : forall x, length x = SD -> 0 <= quad p x
}.
Definition psd2 (r : list R) : Prop := at1 r 1 = at1 r 2 /\ forall u v, 0 <= quad2 r u v.

(** All four-vectors and 4x4 matrices, written out. *)
Ltac list_cases l :=
  repeat match goal with
  | H : length l = _ |- _ => destruct l as [|? l]; [discriminate H|]; cbn [length] in H
  | H : S (length l) = _ |- _ => destruct l as [|? l]; [discriminate H|]; cbn [length] in H
  end.
Lemma list4 (l : list R) : length l = 4%nat -> exists a b c d, l = [a; b; c; d].
Proof. destruct l as [|a [|b [|c [|d [|]]]]]; try discriminate. by exists a, b, c, d. Qed.
Lemma list16 (l : list R) : length l = 16%nat ->
  exists a0 a1 a2 a3 b0 b1 b2 b3 c0 c1 c2 c3 d0 d1 d2 d3,
    l = [a0; a1; a2; a3; b0; b1; b2; b3; c0; c1; c2; c3; d0; d1; d2; d3].
Proof.
  do 16 (destruct l as [|? l]; [discriminate|]). destruct l; [|discriminate]. intros _.
  by do 16 eexists.
Qed.

(** Unfolds loops, tables and the real instance down to arithmetic; a matrix
    is written out before the form that reads it. *)
Ltac reals_eval t := eval cbv [quad quad2 sum_R sum4 vec4 mat4 flat4 at1 at2 cov_matrix transition predict_mean predict_covariance
  mat_mul mat_mul_t joseph_ikh joseph_sum joseph innovation determinant gain update_mean
  fold_left seq SD fmap list_fmap map mbind option_bind concat app default from_option
  lookup list_lookup Nat.add Nat.mul Nat.eqb Nat.ltb Nat.leb
  n_zero n_one n_add n_sub n_mul n_div n_neg num_R Datatypes.id] in t.
Ltac reals := match goal with |- ?g => let g' := reals_eval g in change g' end.
Ltac reals_in H := let t := type of H in let t' := reals_eval t in change t' in H.
Ltac reals_matrix m := let m' := reals_eval m in change m with m'.
(** The Joseph form's factors one after the other, so that each is written out once. *)
Ltac reals_joseph :=
  unfold joseph;
  match goal with |- context [joseph_ikh ?k] => reals_matrix (joseph_ikh k) end;
  match goal with |- context [cov_matrix ?p] => reals_matrix (cov_matrix p) end;
  match goal with |- context [mat_mul ?a ?b] => reals_matrix (mat_mul a b) end;
  match goal with |- context [mat_mul_t ?a ?b] => reals_matrix (mat_mul_t a b) end;
  match goal with |- context [joseph_sum ?a ?b ?c] => reals_matrix (joseph_sum a b c) end.

Lemma lt4 i : (i < SD)%nat -> i = 0%nat \/ i = 1%nat \/ i = 2%nat \/ i = 3%nat.
Proof. unfold SD. lia. Qed.

(** [F P F^T + Q] *)
Lemma predict_psd params dt p :
  psd p -> 0 <= dt -> 0 <= kp_process_noise_position params -> 0 <= kp_process_noise_velocity params ->
  psd (predict_covariance params dt p).
Proof.
  intros [Hl Hs Hq] Hdt Hp Hv. destruct (list16 _ Hl) as (a0&a1&a2&a3&b0&b1&b2&b3&c0&c1&c2&c3&d0&d1&d2&d3&->).
  split; [done| |].
  - pose proof (Hs 0 1)%nat as H01. pose proof (Hs 0 2)%nat as H02. pose proof (Hs 0 3)%nat as H03.
    pose proof (Hs 1 2)%nat as H12. pose proof (Hs 1 3)%nat as H13. pose proof (Hs 2 3)%nat as H23.
    reals_in H01. reals_in H02. reals_in H03. reals_in H12. reals_in H13. reals_in H23.
    rewrite <- H01, <- H02, <- H03, <- H12, <- H13, <- H23 by lia.
    intros i j [-> | [-> | [-> | ->]]]%lt4 [-> | [-> | [-> | ->]]]%lt4; reals; ring.
  - intros x (x0 & x1 & x2 & x3 & ->)%list4.
    specialize (Hq [x0; x1; x2 + dt * x0; x3 + dt * x1] eq_refl).
    assert (0 <= kp_process_noise_position params * dt * (x0 * x0 + x1 * x1) +
                 kp_process_noise_velocity params * dt * (x2 * x2 + x3 * x3)).
    { apply Rplus_le_le_0_compat; (apply Rmult_le_pos; [by apply Rmult_le_pos|nra]). }
    eapply Rle_trans; [|apply Req_le]; [exact (Rplus_le_le_0_compat _ _ Hq H)|]. reals. ring.
Qed.

(** A gain matrix: four rows of two. *)
Definition gain_shape (k : list (list R)) : Prop :=
  exists k00 k01 k10 k11 k20 k21 k30 k31, k = [[k00; k01]; [k10; k11]; [k20; k21]; [k30; k31]].

Lemma gain_has_shape p s : gain_shape (gain p s).
Proof. destruct s as [[[s00 s01] s10] s11]. by do 8 eexists. Qed.

(** [(I - K H) P (I - K H)^T + K R K^T], for any gain. *)
Lemma joseph_psd k p r0 r1 r2 r3 :
  gain_shape k -> psd p -> psd2 [r0; r1; r2; r3] -> psd (joseph k (cov_matrix p) [r0; r1; r2; r3]).
Proof.
  intros (k00&k01&k10&k11&k20&k21&k30&k31&->) [Hl Hs Hq] [Hr Hrq].
  destruct (list16 _ Hl) as (a0&a1&a2&a3&b0&b1&b2&b3&c0&c1&c2&c3&d0&d1&d2&d3&->).
  reals_in Hr. subst r2. reals_joseph. split; [done| |].
  - pose proof (Hs 0 1)%nat as H01. pose proof (Hs 0 2)%nat as H02. pose proof (Hs 0 3)%nat as H03.
    pose proof (Hs 1 2)%nat as H12. pose proof (Hs 1 3)%nat as H13. pose proof (Hs 2 3)%nat as H23.
    reals_in H01. reals_in H02. reals_in H03. reals_in H12. reals_in H13. reals_in H23.
    rewrite <- H01, <- H02, <- H03, <- H12, <- H13, <- H23 by lia.
    intros i j [-> | [-> | [-> | ->]]]%lt4 [-> | [-> | [-> | ->]]]%lt4; reals; ring.
  - intros x (x0 & x1 & x2 & x3 & ->)%list4.
    set (u := k00 * x0 + k10 * x1 + k20 * x2 + k30 * x3).
    set (v := k01 * x0 + k11 * x1 + k21 * x2 + k31 * x3).
    specialize (Hq [x0 - u; x1 - v; x2; x3] eq_refl). specialize (Hrq u v).
    eapply Rle_trans; [|apply Req_le]; [exact (Rplus_le_le_0_compat _ _ Hq Hrq)|].
    unfold u, v. reals. ring.
Qed.

(** With the gain of the code, the Joseph form is the short form [(I - K H) P]. *)
Definition short_form (k p : list (list R)) : list R :=
  flat4 (fun i j => at2 (mat_mul (joseph_ikh k) p) i j).

Lemma gain_at p s00 s01 s10 s11 i :
  (i < SD)%nat -> let det := s00 * s11 - s01 * s10 in
  at2 (gain p (s00, s01, s10, s11)) i 0 = at2 p i 0 * (s11 / det) + at2 p i 1 * (- s10 / det) /\
  at2 (gain p (s00, s01, s10, s11)) i 1 = at2 p i 0 * (- s01 / det) + at2 p i 1 * (s00 / det).
Proof. intros Hi. by destruct (lt4 i Hi) as [-> | [-> | [-> | ->]]]. Qed.

Lemma gain_solves p s00 s01 s10 s11 i :
  s00 * s11 - s01 * s10 <> 0 -> (i < SD)%nat ->
  let k := gain p (s00, s01, s10, s11) in
  at2 k i 0 * s00 + at2 k i 1 * s10 = at2 p i 0 /\ at2 k i 0 * s01 + at2 k i 1 * s11 = at2 p i 1.
Proof.
  intros Hdet Hi k. destruct (gain_at p s00 s01 s10 s11 i Hi) as [E0 E1]. unfold k. rewrite E0, E1.
  split; field; exact Hdet.
Qed.

(** [j] and [x] differ by a combination of two residues that vanish. *)
Lemma joseph_entry k0 k1 (p0 p1 q0 q1 x j : R) :
  q0 = p0 -> q1 = p1 -> j = x - ((p0 - q0) * k0 + (p1 - q1) * k1) -> j = x.
Proof. intros -> -> ->. ring. Qed.
Ltac joseph_cell H0 H1 a b :=
  apply (f_equal2 cons); [apply (joseph_entry a b _ _ _ _ _ _ H0 H1); ring|].

(** If [K S = P H^T] with [S = H P H^T + R], the two forms agree. *)
Lemma joseph_short k p r0 r1 r2 r3 :
  gain_shape k -> length p = 16%nat ->
  (forall i, (i < SD)%nat ->
     at2 k i 0 * (at2 (cov_matrix p) 0 0 + r0) + at2 k i 1 * (at2 (cov_matrix p) 1 0 + r2) = at2 (cov_matrix p) i 0 /\
     at2 k i 0 * (at2 (cov_matrix p) 0 1 + r1) + at2 k i 1 * (at2 (cov_matrix p) 1 1 + r3) = at2 (cov_matrix p) i 1) ->
  joseph k (cov_matrix p) [r0; r1; r2; r3] = short_form k (cov_matrix p).
Proof.
  intros (k00&k01&k10&k11&k20&k21&k30&k31&->) Hl Hk.
  destruct (list16 _ Hl) as (a0&a1&a2&a3&b0&b1&b2&b3&c0&c1&c2&c3&d0&d1&d2&d3&->).
  destruct (Hk 0%nat) as [H00 H01]; [unfold SD; lia|]. destruct (Hk 1%nat) as [H10 H11]; [unfold SD; lia|].
  destruct (Hk 2%nat) as [H20 H21]; [unfold SD; lia|]. destruct (Hk 3%nat) as [H30 H31]; [unfold SD; lia|].
  clear Hk Hl. reals_in H00. reals_in H01. reals_in H10. reals_in H11. reals_in H20. reals_in H21.
  reals_in H30. reals_in H31. reals_joseph. unfold short_form. reals.
  joseph_cell H00 H01 k00 k01. joseph_cell H00 H01 k10 k11.
  joseph_cell H00 H01 k20 k21. joseph_cell H00 H01 k30 k31.
  joseph_cell H10 H11 k00 k01. joseph_cell H10 H11 k10 k11.
  joseph_cell H10 H11 k20 k21. joseph_cell H10 H11 k30 k31.
  joseph_cell H20 H21 k00 k01. joseph_cell H20 H21 k10 k11.
  joseph_cell H20 H21 k20 k21. joseph_cell H20 H21 k30 k31.
  joseph_cell H30 H31 k00 k01. joseph_cell H30 H31 k10 k11.
  joseph_cell H30 H31 k20 k21. joseph_cell H30 H31 k30 k31.
  done.
Qed.

(** The noise densities are variances per second. *)
Definition noise_ok (params : obicall_kalman_params R) : Prop :=
  0 <= kp_process_noise_position params /\ 0 <= kp_process_noise_velocity params.

Lemma predict_keeps_psd params time_ns s s' :
  noise_ok params -> psd (ks_covariance s) ->
  obicall_kalman_predict params time_ns s = (OBICALL_OK, s') -> psd (ks_covariance s').
Proof.
  intros [Hp Hv] Hpsd (_ & _ & [-> | (Hdt & _ & _ & ->)])%predict_cases; [done|].
  apply predict_psd; [done| |done..]. apply Rnot_lt_le. intros Hlt.
  exact (eq_true_false_abs _ (proj2 (num_R_ltb _ _) Hlt) Hdt).
Qed.

Lemma determinant_not_zero (det : R) :
  (negb (n_finite det) || (n_abs det <? n_1e_15)%num) = false -> det <> 0.
Proof.
  intros E ->. apply orb_false_iff in E as [_ E]. cbn in E.
  destruct (Rlt_dec _ _) as [|Hn]; [done|]. apply Hn. rewrite Rabs_R0. lra.
Qed.

(** The sums of a fusion. *)
Definition inverse_sum (mv : list (R * R)) : R := foldr Rplus 0 ((fun p => / p.2) <$> mv).
Definition weighted_sum (mv : list (R * R)) : R := foldr Rplus 0 ((fun p => p.1 * / p.2) <$> mv).

Lemma fuse_loop_sums mv a b :
  Forall (fun p => 0 < p.2) mv ->
  fuse_loop mv a b = Ok (a + inverse_sum mv, b + weighted_sum mv).
Proof.
  intros Hv. revert a b. induction Hv as [|[m v] mv Hv _ IH]; intros a b.
  - unfold inverse_sum, weighted_sum. cbn. by rewrite !Rplus_0_r.
  - cbn in Hv |- *. destruct (Rle_dec v 0) as [Hle|_]; [lra|]. rewrite IH.
    unfold inverse_sum, weighted_sum. cbn. f_equal. f_equal; field; lra.
Qed.

Lemma fuse_loop_refuses mv a b :
  Exists (fun p => p.2 <= 0) mv -> fuse_loop mv a b = Err OBICALL_ERR_VALIDATION_NON_FINITE.
Proof.
  intros He. revert a b. induction mv as [|[m v] mv IH]; intros a b; [by inversion He|]. cbn.
  destruct (Rle_dec v 0) as [Hle|Hnle]; [done|]. apply IH. inversion He; [by cbn in *|done].
Qed.

Lemma inverse_sum_member mv p :
  Forall (fun p => 0 < p.2) mv -> p ∈ mv -> / p.2 <= inverse_sum mv.
Proof.
  intros Hv Hin. assert (Hnn : forall l, Forall (fun p => 0 < p.2) l -> 0 <= inverse_sum l).
  { intros l Hl. induction Hl as [|q l Hq _ IH]; unfold inverse_sum in *; cbn; [lra|].
    pose proof (Rinv_0_lt_compat _ Hq). lra. }
  induction Hv as [|q mv Hq Hmv IH]; [by apply elem_of_nil in Hin|].
  unfold inverse_sum in *. cbn. apply elem_of_cons in Hin as [->|Hin].
  - specialize (Hnn mv Hmv). lra.
  - pose proof (Rinv_0_lt_compat _ Hq). specialize (IH Hin). lra.
Qed.

Lemma weighted_sum_between lo hi mv :
  Forall (fun p => lo <= p.1 <= hi /\ 0 < p.2) mv ->
  lo * inverse_sum mv <= weighted_sum mv <= hi * inverse_sum mv.
Proof.
  induction 1 as [|[m v] mv [Hm Hv] _ IH]; unfold inverse_sum, weighted_sum in *; cbn in *; [lra|].
  pose proof (Rinv_0_lt_compat _ Hv). nra.
Qed.

(** * Properties *)

(** What an update leaves behind, in any arithmetic (so in binary64): a
    successful update stamps the state with the measurement's time; a refused
    input (non-finite measurement, uninitialised filter, time running backwards
    or too large a gap) leaves the state untouched; but a singular innovation
    covariance refuses the measurement after the prediction was carried out, so
    the state is the predicted one, at the measurement's time. *)
Theorem kalman_update_outcome {A : Type} {num : Num A} params time_ns zx zy r (s : obicall_kalman_state A) st s' :
  obicall_kalman_update_position params time_ns zx zy r s = (st, s') ->
  match st with
  | OBICALL_OK => ks_last_update_time_ns s' = time_ns /\ ks_initialized s' = ks_initialized s
  | OBICALL_ERR_VALIDATION_COVARIANCE => obicall_kalman_predict params time_ns s = (OBICALL_OK, s')
  | OBICALL_ERR_VALIDATION_NON_FINITE | OBICALL_ERR_VALIDATION_TIMING => s' = s
  | OBICALL_ERR_INVALID_ARGUMENT => ks_initialized s = 0%Z /\ s' = s
  | _ => False
  end.
Proof.
  unfold obicall_kalman_update_position.
  destruct (_ || _); [by intros [= <- <-]|]. destruct (existsb _ _); [by intros [= <- <-]|].
  destruct (obicall_kalman_predict params time_ns s) as [sp s1] eqn:E.
  pose proof (predict_cases _ _ _ _ _ E) as Hp.
  destruct sp; try (intros [= <- <-]; first [exact Hp|by destruct Hp]).
  match goal with |- context [if ?b then _ else _] => destruct b end; intros [= <- <-]; [done|].
  destruct Hp as (? & ? & _). by split.
Qed.

(** ** The textbook filter, entry by entry

    [m] and [p] are a mean and a covariance, [F] moves the positions by the velocities for
    [dt] seconds, [Q] is diagonal and grows with [dt], and [H] reads the positions. *)
Record predicted (params : obicall_kalman_params R) (dt : R) (m : nat -> R) (p : nat -> nat -> R)
    (m1 : nat -> R) (p1 : nat -> nat -> R) : Prop := {
  pd_mean : forall i, (i < SD)%nat -> m1 i = m i + (if (i <? 2)%nat then dt * m (i + 2)%nat else 0);
  pd_covariance : forall i j, (i < SD)%nat -> (j < SD)%nat ->
    p1 i j = p i j + (if (i <? 2)%nat then dt * p (i + 2)%nat j else 0)
                   + (if (j <? 2)%nat then dt * p i (j + 2)%nat else 0)
                   + (if ((i <? 2) && (j <? 2))%nat then dt * dt * p (i + 2)%nat (j + 2)%nat else 0)
                   + (if (i =? j)%nat then
                        dt * (if (i <? 2)%nat then kp_process_noise_position params else kp_process_noise_velocity params)
                      else 0)
}.

Record corrected (zx zy : R) (r : nat -> nat -> R) (m1 : nat -> R) (p1 : nat -> nat -> R)
    (m2 : nat -> R) (p2 : nat -> nat -> R) : Prop := {
  cr_gain : exists k : nat -> nat -> R,
    (* K (H P H^T + R) = P H^T *)
    (forall i j, (i < SD)%nat -> (j < 2)%nat ->
       k i 0%nat * (p1 0%nat j + r 0%nat j) + k i 1%nat * (p1 1%nat j + r 1%nat j) = p1 i j) /\
    (* m + K (z - H m) *)
    (forall i, (i < SD)%nat -> m2 i = m1 i + (k i 0%nat * (zx - m1 0%nat) + k i 1%nat * (zy - m1 1%nat))) /\
    (* (I - K H) P *)
    (forall i j, (i < SD)%nat -> (j < SD)%nat -> p2 i j = p1 i j - (k i 0%nat * p1 0%nat j + k i 1%nat * p1 1%nat j))
}.

Definition mean_of (s : obicall_kalman_state R) (i : nat) : R := at1 (ks_mean s) i.
Definition cov_of (s : obicall_kalman_state R) (i j : nat) : R := at1 (ks_covariance s) (i * SD + j)%nat.

Lemma predict_predicted params time_ns s s1 :
  length (ks_covariance s) = 16%nat -> obicall_kalman_predict params time_ns s = (OBICALL_OK, s1) ->
  let dt := IZR (i64 (time_ns - ks_last_update_time_ns s)) / 1000000000 in
  0 <= dt /\ predicted params dt (mean_of s) (cov_of s) (mean_of s1) (cov_of s1).
Proof.
  intros Hl H dt. pose proof (predict_cases _ _ _ _ _ H) as (Ht & _ & Hc).
  assert (Hdt : elapsed s time_ns = dt) by done. unfold mean_of, cov_of. destruct Hc as [-> | (Hlt & _ & Hm & Hp)].
  - assert (H0 : dt = 0).
    { unfold dt. replace (time_ns - ks_last_update_time_ns s)%Z with 0%Z by lia. change (i64 0) with 0%Z. lra. }
    rewrite H0. split; [lra|]. split; intros; repeat case_match; ring.
  - cbv zeta in *. rewrite Hdt in *. clearbody dt. rewrite Hm, Hp. split.
    { apply Rnot_lt_le. intros Hn. exact (eq_true_false_abs _ (proj2 (num_R_ltb _ _) Hn) Hlt). }
    destruct (list16 _ Hl) as (a0&a1&a2&a3&b0&b1&b2&b3&c0&c1&c2&c3&d0&d1&d2&d3&E). rewrite E. split.
    + generalize (ks_mean s). intros m i [-> | [-> | [-> | ->]]]%lt4; reals;
        destruct m as [|? [|? [|? [|? ?]]]]; reals; ring.
    + intros i j [-> | [-> | [-> | ->]]]%lt4 [-> | [-> | [-> | ->]]]%lt4; reals; cbn [andb]; ring.
Qed.

Lemma update_corrected zx zy r0 r1 r2 r3 m p :
  let k := gain (cov_matrix p) (innovation (cov_matrix p) [r0; r1; r2; r3]) in
  length p = 16%nat -> determinant (innovation (cov_matrix p) [r0; r1; r2; r3]) <> 0 ->
  joseph k (cov_matrix p) [r0; r1; r2; r3] = short_form k (cov_matrix p) ->
  corrected zx zy (fun i j => at1 [r0; r1; r2; r3] (i * 2 + j)) (at1 m) (fun i j => at1 p (i * SD + j))
    (at1 (update_mean k zx zy m)) (fun i j => at1 (joseph k (cov_matrix p) [r0; r1; r2; r3]) (i * SD + j)).
Proof.
  intros k Hl Hdet ->. assert (Hk : gain_shape k) by apply gain_has_shape.
  assert (Hs : forall i, (i < SD)%nat ->
    at2 k i 0 * (at1 p 0 + r0) + at2 k i 1 * (at1 p 4 + r2) = at1 p (i * SD + 0) /\
    at2 k i 0 * (at1 p 1 + r1) + at2 k i 1 * (at1 p 5 + r3) = at1 p (i * SD + 1)).
  { intros i Hi. pose proof (gain_solves (cov_matrix p) _ _ _ _ i Hdet Hi) as Hg.
    destruct (list16 _ Hl) as (a0&a1&a2&a3&b0&b1&b2&b3&c0&c1&c2&c3&d0&d1&d2&d3&->). cbv zeta in Hg. fold k in Hg.
    by destruct (lt4 i Hi) as [-> | [-> | [-> | ->]]]. }
  clearbody k. split. exists (at2 k). split_and!.
  - intros i j Hi Hj. destruct (Hs i Hi) as [H0 H1]. assert (j = 0 \/ j = 1)%nat as [-> | ->] by lia.
    + exact H0.
    + exact H1.
  - intros i [-> | [-> | [-> | ->]]]%lt4; reflexivity.
  - clear Hs Hdet. destruct Hk as (k00&k01&k10&k11&k20&k21&k30&k31&->).
    destruct (list16 _ Hl) as (a0&a1&a2&a3&b0&b1&b2&b3&c0&c1&c2&c3&d0&d1&d2&d3&->).
    intros i j [-> | [-> | [-> | ->]]]%lt4 [-> | [-> | [-> | ->]]]%lt4; unfold short_form; reals; ring.
Qed.

(** C37: in exact arithmetic, for process noise not below zero, a symmetric positive
    semi-definite covariance and a symmetric positive semi-definite measurement
    covariance (which admission does not ensure: see [Observation.indefinite_accepted]),
    a successful update is the textbook filter: the prediction moves mean and covariance
    over the elapsed time, [F m] and [F P F^T + Q]; the gain solves [K S = P H^T]; the mean
    moves by the gain times the innovation; the covariance, which the code evaluates in the
    Joseph form, is [(I - K H) P], and it is again symmetric and positive semi-definite. *)
Theorem kalman_update_correct params time_ns zx zy r s s' :
  noise_ok params -> psd (ks_covariance s) -> length r = 4%nat -> psd2 r ->
  obicall_kalman_update_position params time_ns zx zy r s = (OBICALL_OK, s') ->
  psd (ks_covariance s') /\
  exists m1 p1,
    let dt := IZR (i64 (time_ns - ks_last_update_time_ns s)) / 1000000000 in
    0 <= dt /\ predicted params dt (mean_of s) (cov_of s) m1 p1 /\
    corrected zx zy (fun i j => at1 r (i * 2 + j)) m1 p1 (mean_of s') (cov_of s').
Proof.
  intros Hn Hpsd (r0 & r1 & r2 & r3 & ->)%list4 Hr. unfold obicall_kalman_update_position.
  destruct (_ || _); [done|]. destruct (existsb _ _); [done|].
  destruct (obicall_kalman_predict params time_ns s) as [sp s1] eqn:E.
  destruct sp; try done. destruct (negb _ || _) eqn:Ed; [done|]. intros Es. apply (f_equal snd) in Es.
  unfold snd in Es. subst s'. pose proof (predict_keeps_psd _ _ _ _ Hn Hpsd E) as Hpsd1.
  apply determinant_not_zero in Ed. pose proof (psd_length _ Hpsd1) as Hl1.
  split; [apply joseph_psd; [apply gain_has_shape|done..]|].
  destruct (predict_predicted _ _ _ _ (psd_length _ Hpsd) E) as [Hdt Hp].
  exists (mean_of s1), (cov_of s1). split; [exact Hdt|]. split; [exact Hp|].
  apply update_corrected; [done..|]. apply joseph_short; [apply gain_has_shape|done|].
  intros i Hi. exact (gain_solves (cov_matrix (ks_covariance s1)) _ _ _ _ i Ed Hi).
Qed.

(** The covariance of a binary64 update is not symmetric: from the initial
    covariance [diag(10, 10, 1, 1)] and the symmetric positive definite
    measurement covariance [[4, 1], [1, 3]] it has [P[0][1] <> P[1][0]]. *)
Theorem kalman_binary64_asymmetric :
  let bits := f64_of_bits in
  let params := KalmanParams f64_zero f64_zero (bits 4621819117588971520%Z) f64_one f64_zero in
  let r := [bits 4616189618054758400%Z; f64_one; f64_one; bits 4613937818241073152%Z] in
  let s := obicall_kalman_init params f64_zero f64_zero 0%Z in
  exists s', obicall_kalman_update_position params 0%Z f64_one f64_one r s = (OBICALL_OK, s') /\
    at1 r 1 = at1 r 2 /\ f64_ltb (at1 (ks_covariance s') 1) (at1 (ks_covariance s') 4) = true.
Proof. eexists. split; [vm_compute; reflexivity|]. split; vm_compute; reflexivity. Qed.

(** Static fusion in exact arithmetic: over a non-empty list of estimates with
    positive variances it succeeds, with the inverse-variance weighted mean,
    whose variance is at most each input's and which lies between any bounds of
    the inputs; a non-positive variance anywhere is refused. *)
Theorem static_fuse_correct mv lo hi :
  mv <> [] ->
  (Exists (fun p => p.2 <= 0) mv -> obicall_static_fuse_1d mv = Err OBICALL_ERR_VALIDATION_NON_FINITE) /\
  (Forall (fun p => lo <= p.1 <= hi /\ 0 < p.2) mv ->
   exists m v, obicall_static_fuse_1d mv = Ok (m, v) /\
     v = / inverse_sum mv /\ m = v * weighted_sum mv /\
     0 < v /\ Forall (fun p => v <= p.2) mv /\ lo <= m <= hi).
Proof.
  intros Hne. unfold obicall_static_fuse_1d.
  destruct (length mv =? 0)%nat eqn:El; [by apply Nat.eqb_eq, length_zero_iff_nil in El|].
  split; [intros He; by rewrite fuse_loop_refuses|]. intros Hall.
  assert (Hv : Forall (fun p => 0 < p.2) mv) by (eapply Forall_impl; [exact Hall|by intros ? []]).
  rewrite fuse_loop_sums by done. cbn. rewrite !Rplus_0_l.
  assert (Hpos : 0 < inverse_sum mv).
  { destruct mv as [|p mv]; [done|]. eapply Rlt_le_trans; [|apply (inverse_sum_member _ p Hv); left].
    apply Rinv_0_lt_compat. by inversion Hv. }
  do 2 eexists. split; [done|]. split; [field; lra|]. split; [field; lra|].
  pose proof (weighted_sum_between _ _ _ Hall) as Hw.
  split; [apply Rdiv_lt_0_compat; lra|]. split.
  - apply Forall_forall. intros p Hp. pose proof (inverse_sum_member _ _ Hv Hp) as Hle.
    rewrite Forall_forall in Hv. specialize (Hv p Hp). unfold Rdiv. rewrite Rmult_1_l.
    rewrite <- (Rinv_inv p.2). apply Rinv_le_contravar; [by apply Rinv_0_lt_compat|done].
  - split; apply (Rmult_le_reg_r (inverse_sum mv)); try done; unfold Rdiv;
      rewrite Rmult_assoc, Rinv_l; lra.
Qed.

(** * Witnesses *)

Definition sample_kalman : obicall_kalman_state R :=
  obicall_kalman_init (KalmanParams 1 1 10 1 0) 0 0 0%Z.

Lemma sample_kalman_psd : psd (ks_covariance sample_kalman).
Proof.
  split; [done| |].
  - intros i j [-> | [-> | [-> | ->]]]%lt4 [-> | [-> | [-> | ->]]]%lt4; done.
  - intros x (x0 & x1 & x2 & x3 & ->)%list4.
    replace (quad _ _) with (10 * x0 ^ 2 + 10 * x1 ^ 2 + x2 ^ 2 + x3 ^ 2) by (unfold quad, sum_R; cbn; ring).
    pose proof (pow2_ge_0 x0). pose proof (pow2_ge_0 x1). pose proof (pow2_ge_0 x2).
    pose proof (pow2_ge_0 x3). lra.
Qed.

Lemma sample_r_psd : psd2 [4; 1; 1; 3].
Proof. split; [done|]. intros u v.
  replace (quad2 _ u v) with ((u + v) ^ 2 + 3 * u ^ 2 + 2 * v ^ 2) by (reals; ring).
  pose proof (pow2_ge_0 (u + v)). pose proof (pow2_ge_0 u). pose proof (pow2_ge_0 v). lra.
Qed.

(** At the filter's own time the prediction is the identity, and [det S] is
    [14 * 13 - 1]. *)
Lemma sample_update :
  exists s', obicall_kalman_update_position (KalmanParams 1 1 10 1 0) 0%Z 1 1 [4; 1; 1; 3] sample_kalman = (OBICALL_OK, s').
Proof.
  unfold obicall_kalman_update_position, obicall_kalman_predict. cbn -[Rabs gain joseph update_mean].
  destruct (Rlt_dec _ _) as [Hlt|_]; [|by eexists]. exfalso. revert Hlt. apply Rle_not_lt.
  rewrite Rabs_pos_eq; lra.
Qed.

Lemma kalman_correct_witness :
  exists s', psd (ks_covariance s') /\
    obicall_kalman_update_position (KalmanParams 1 1 10 1 0) 0%Z 1 1 [4; 1; 1; 3] sample_kalman = (OBICALL_OK, s').
Proof.
  destruct sample_update as [s' Hs']. exists s'. split; [|exact Hs'].
  assert (Hn : noise_ok (KalmanParams 1 1 10 1 0)) by (split; cbn; lra).
  destruct (kalman_update_correct _ _ _ _ [4; 1; 1; 3] _ _ Hn sample_kalman_psd eq_refl sample_r_psd Hs') as [H _]. exact H.
Defined.

Lemma kalman_outcome_witness :
  exists s', obicall_kalman_update_position (KalmanParams 1 1 10 1 0) 0%Z 1 1 [4; 1; 1; 3] sample_kalman = (OBICALL_OK, s') /\
    ks_last_update_time_ns s' = 0%Z.
Proof.
  destruct sample_update as [s' Hs']. exists s'. split; [exact Hs'|].
  exact (proj1 (kalman_update_outcome _ _ _ _ _ _ _ _ Hs')).
Defined.

(** Two estimates of the same quantity. *)
Lemma static_fuse_witness :
  exists m v, obicall_static_fuse_1d [(10, 4); (12, 4)] = Ok (m, v) /\ v = / inverse_sum [(10, 4); (12, 4)] /\
    10 <= m <= 12.
Proof.
  assert (Hne : [(10, 4); (12, 4)] <> []) by done.
  destruct (proj2 (static_fuse_correct _ 10 12 Hne)) as (m & v & E & Hv & _ & _ & _ & Hm).
  - repeat constructor; cbn; lra.
  - exists m, v. split; [exact E|]. split; [exact Hv|exact Hm].
Defined.
