(* ===== verification/BrokerQueue.v ===== *)
(** * BrokerQueue: the broker's input (src/broker/broker_main.c)

    The ring buffer between the broker's two threads, the reader thread that
    fills it from the journal's stream and the loop of [main] that empties it.
    The ring refines a bounded queue that drops the newest entry; composed with
    the journal daemon's sender and the framed transport, it holds the journal's
    decisions in window order. *)

From Stdlib Require Import (notations) Strings.String.
From S2P Require Import Prelude Types Samples Digest Cursor Wire WireMsg Binary64.
From S2P Require Import Observation Stdio Journal Ipc JournalDaemon.
#[local] Delimit Scope string_scope with string.

Definition QUEUE_CAP : Z := 512.

Record queue_entry := QueueEntry {
  qe_window_seq : Z;
  qe_obs : obicall_observation;
  qe_admitted : Z
}.

(** [g_ctx.queue], [qhead] and [qtail]. *)
Record queue := Queue {
  q_ring : list queue_entry;   (* [512] *)
  q_head : Z;
  q_tail : Z
}.

(** What [memset] leaves in a slot. *)
Definition zero_queue_entry : queue_entry := QueueEntry 0 (re_obs zero_entry) 0.
Definition queue_init : queue := Queue (replicate (Z.to_nat QUEUE_CAP) zero_queue_entry) 0 0.

Definition queue_at (q : queue) (i : Z) : queue_entry :=
  default zero_queue_entry (q_ring q !! Z.to_nat i).

(** The locked block of the reader thread: when the ring is full the new entry is
    dropped. *)
Definition enqueue (e : queue_entry) (q : queue) : queue :=
  let next_tail := u32 (q_tail q + 1) mod QUEUE_CAP in
  if negb (next_tail =? q_head q)
  then Queue (<[Z.to_nat (q_tail q) := e]> (q_ring q)) (q_head q) next_tail
  else q.

(** [while (qhead != qtail && batch_n < QUEUE_CAP)], [room] being what is left of
    the batch. *)
Fixpoint drain_loop (room : nat) (q : queue) : list queue_entry * queue :=
  match room with
  | O => ([], q)
  | S room =>
      if q_head q =? q_tail q then ([], q)
      else
      let e := queue_at q (q_head q) in
      let '(batch, q') := drain_loop room (Queue (q_ring q) (u32 (q_head q + 1) mod QUEUE_CAP) (q_tail q)) in
      (e :: batch, q')
  end.
Definition drain (q : queue) : list queue_entry * queue := drain_loop (Z.to_nat QUEUE_CAP) q.

(** ** The reader thread *)

Record reader := Reader {
  rd_alive : bool;                             (* g_ctx.reader_alive *)
  rd_pending : option obicall_observation;     (* have_pending, pending_obs *)
  rd_queue : queue
}.

(** The bytes of the replay request it opens with; [None] ends the thread. *)
Definition reader_request (pipeline_id : list Z) (tx : list tx_event) : option (list Z * list tx_event) :=
  match obicall_wire_encode_replay_request
          (ReplayRequest (strncpy_zeroed OBICALL_PIPELINE_ID_LEN pipeline_id) 1) 128 with
  | Err _ => None
  | Ok buf =>
      let '(ok, out, tx) := osal_send_frame OBICALL_MSG_REPLAY_REQUEST buf tx in
      if ok then Some (out, tx) else None
  end.

Section reader.
(** What a decoder that fails leaves in the observation it was given. *)
Variable torn : list Z -> obicall_observation -> obicall_observation.

(** The body of the loop, on what [osal_recv_frame] returned. *)
Definition reader_turn (rx : frame_result) (r : reader) : reader :=
  match rx with
  | FrameError => Reader false (rd_pending r) (rd_queue r)
  | NoFrame => r
  | Frame msg_type payload =>
      if msg_type =? OBICALL_MSG_REPLAY_DATA then
        match obicall_wire_decode_observation payload with
        | Ok obs => Reader (rd_alive r) (Some obs) (rd_queue r)
        | Err _ => Reader (rd_alive r) (torn payload <$> rd_pending r) (rd_queue r)
        end
      else
      match rd_pending r with
      | Some pending_obs =>
          if msg_type =? OBICALL_MSG_ADMISSION_DECISION then
            Reader (rd_alive r) None
              (match obicall_wire_decode_admission_decision payload with
               | Ok dec => enqueue (QueueEntry (ad_window_seq dec) pending_obs (ad_admitted dec)) (rd_queue r)
               | Err _ => rd_queue r
               end)
          else r
      | None => r
      end
  end.

(** [n] turns of the loop, which ends when the connection fails. *)
Fixpoint reader_loop (n : nat) (rx : list rx_event) (r : reader) : reader * list rx_event :=
  match n with
  | O => (r, rx)
  | S n =>
      if rd_alive r then
        let '(fr, rx) := osal_recv_frame 2048 rx in reader_loop n rx (reader_turn fr r)
      else (r, rx)
  end.
End reader.

(** ** The bounded queue the ring implements *)

(** What waits between head and tail. *)
Definition queue_len (q : queue) : nat := Z.to_nat ((q_tail q - q_head q) mod QUEUE_CAP).
Definition contents (q : queue) : list queue_entry :=
  (fun i => queue_at q ((q_head q + Z.of_nat i) mod QUEUE_CAP)) <$> seq 0 (queue_len q).

Record queue_inv (q : queue) : Prop := {
  qi_ring : length (q_ring q) = Z.to_nat QUEUE_CAP;
  qi_head : 0 <= q_head q < QUEUE_CAP;
  qi_tail : 0 <= q_tail q < QUEUE_CAP
}.

Inductive queue_op := Arrive (e : queue_entry) | Drain.

Fixpoint run_ring (ops : list queue_op) (q : queue) : list (list queue_entry) * queue :=
  match ops with
  | [] => ([], q)
  | Arrive e :: ops => run_ring ops (enqueue e q)
  | Drain :: ops =>
      let '(batch, q) := drain q in
      let '(batches, q) := run_ring ops q in (batch :: batches, q)
  end.

(** The specification: a list of at most [cap] entries. *)
Definition fifo_put (cap : nat) (e : queue_entry) (l : list queue_entry) : list queue_entry :=
  if (length l <? cap)%nat then l ++ [e] else l.
Fixpoint run_fifo (cap : nat) (ops : list queue_op) (l : list queue_entry)
    : list (list queue_entry) * list queue_entry :=
  match ops with
  | [] => ([], l)
  | Arrive e :: ops => run_fifo cap ops (fifo_put cap e l)
  | Drain :: ops => let '(batches, l') := run_fifo cap ops [] in (l :: batches, l')
  end.

Definition arrivals (ops : list queue_op) : list queue_entry :=
  omap (fun op => match op with Arrive e => Some e | Drain => None end) ops.

(** * Lemmas *)

Definition QUEUE_ROOM : nat := 511.

Lemma queue_init_inv : queue_inv queue_init.
Proof. split; [apply length_replicate|done..]. Qed.

Lemma length_contents q : length (contents q) = queue_len q.
Proof. unfold contents. by rewrite length_fmap, length_seq. Qed.

Lemma contents_empty ring i : contents (Queue ring i i) = [].
Proof. unfold contents, queue_len. cbn. by rewrite Z.sub_diag. Qed.

Lemma queue_len_bound q : (queue_len q <= QUEUE_ROOM)%nat.
Proof. unfold queue_len, QUEUE_ROOM, QUEUE_CAP. mlia. Qed.

Lemma queue_at_insert ring h t i j e h' t' :
  0 <= i -> 0 <= j -> i <> j ->
  queue_at (Queue (<[Z.to_nat i := e]> ring) h t) j = queue_at (Queue ring h' t') j.
Proof. intros Hi Hj Hne. unfold queue_at. cbn. rewrite list_lookup_insert_ne by lia. done. Qed.

Lemma enqueue_spec e q :
  queue_inv q -> queue_inv (enqueue e q) /\ contents (enqueue e q) = fifo_put QUEUE_ROOM e (contents q).
Proof.
  intros [Hr Hh Ht]. destruct q as [ring h t]. cbn in Hr, Hh, Ht. unfold enqueue, fifo_put.
  rewrite length_contents. cbn [q_head q_tail q_ring].
  rewrite u32_id by (unfold QUEUE_CAP in *; unfold is_u32; lia).
  set (t' := (t + 1) mod QUEUE_CAP). destruct (Z.eqb_spec t' h) as [Heq|Hne]; cbn [negb].
  - split; [by split|]. replace (_ <? _)%nat with false; [done|].
    symmetry. apply Nat.ltb_ge. unfold t', queue_len, QUEUE_ROOM, QUEUE_CAP in *. cbn [q_head q_tail q_ring]. clear Hr. mlia.
  - assert (Hl : queue_len (Queue (<[Z.to_nat t:=e]> ring) h t') = S (queue_len (Queue ring h t))).
    { unfold t', queue_len, QUEUE_CAP in *. cbn [q_head q_tail q_ring]. clear Hr. mlia. }
    assert (Hlt : (queue_len (Queue ring h t) < QUEUE_ROOM)%nat).
    { pose proof (queue_len_bound (Queue (<[Z.to_nat t:=e]> ring) h t')). lia. }
    split.
    { split; cbn; [by rewrite length_insert|done|]. unfold t', QUEUE_CAP. lia. }
    replace (_ <? _)%nat with true by (symmetry; by apply Nat.ltb_lt).
    unfold contents at 1. rewrite Hl, seq_S, fmap_app. f_equal.
    + apply list_fmap_ext. intros k i Hi. apply lookup_seq in Hi as [-> Hi].
      unfold queue_len in Hi. cbn [q_head q_tail q_ring] in *. unfold QUEUE_CAP in *.
      apply queue_at_insert; clear Hr Hl Hlt; mlia.
    + cbn [fmap list_fmap]. f_equal. unfold queue_at, queue_len. cbn [q_head q_tail q_ring].
      replace ((h + _) mod QUEUE_CAP) with t by (unfold QUEUE_CAP in *; clear Hr Hl Hlt; mlia).
      rewrite list_lookup_insert_eq; [done|]. rewrite Hr. unfold QUEUE_CAP in *. lia.
Qed.

Lemma contents_pop ring h t :
  queue_inv (Queue ring h t) -> h <> t ->
  let q' := Queue ring ((h + 1) mod QUEUE_CAP) t in
  queue_inv q' /\ contents (Queue ring h t) = queue_at (Queue ring h t) h :: contents q'.
Proof.
  intros [Hr Hh Ht] Hne q'. cbn in Hr, Hh, Ht. unfold QUEUE_CAP in Hh, Ht.
  split; [split; cbn; [done|unfold QUEUE_CAP; lia|done]|].
  unfold contents. assert (queue_len (Queue ring h t) = S (queue_len q')) as ->.
  { unfold queue_len, q', QUEUE_CAP. cbn [q_head q_tail q_ring]. clear Hr. mlia. }
  cbn [seq fmap list_fmap]. f_equal.
  - cbn [q_head]. f_equal. unfold QUEUE_CAP. rewrite Z.add_0_r. apply Z.mod_small. lia.
  - rewrite <- fmap_S_seq, <- list_fmap_compose. apply list_fmap_ext. intros k i _. unfold compose.
    cbn [q_head q']. unfold queue_at. cbn [q_ring]. do 3 f_equal.
    rewrite Z.add_mod_idemp_l by done. f_equal. lia.
Qed.

(** Draining returns all that waits and leaves the queue empty. *)
Lemma drain_loop_spec room q :
  queue_inv q -> (queue_len q <= room)%nat ->
  drain_loop room q = (contents q, Queue (q_ring q) (q_tail q) (q_tail q)).
Proof.
  revert q. induction room as [|room IH]; intros [ring h t] Hq Hlen; cbn [drain_loop q_head q_tail q_ring].
  - pose proof (length_contents (Queue ring h t)) as Hc. destruct (contents _); [|cbn in Hc; lia].
    destruct Hq as [_ Hh Ht]. unfold queue_len, QUEUE_CAP in *. cbn [q_head q_tail q_ring] in *.
    assert (h = t) as -> by (clear Hc; mlia). done.
  - destruct (Z.eqb_spec h t) as [->|Hne]; [by rewrite contents_empty|].
    destruct (contents_pop ring h t Hq Hne) as [Hq' Hc].
    rewrite u32_id by (destruct Hq as [_ Hh _]; unfold QUEUE_CAP in *; unfold is_u32; cbn in *; lia).
    apply (f_equal length) in Hc as Hlc. cbn [length] in Hlc. rewrite !length_contents in Hlc.
    rewrite IH by (done || lia). by rewrite Hc.
Qed.

Lemma drain_spec q : queue_inv q -> drain q = (contents q, Queue (q_ring q) (q_tail q) (q_tail q)).
Proof.
  intros Hq. apply drain_loop_spec; [done|]. pose proof (queue_len_bound q).
  unfold QUEUE_ROOM, QUEUE_CAP in *. lia.
Qed.

(** The ring does what the bounded queue does. *)
Lemma run_ring_fifo ops q :
  queue_inv q ->
  let '(batches, q') := run_ring ops q in
  queue_inv q' /\ run_fifo QUEUE_ROOM ops (contents q) = (batches, contents q').
Proof.
  revert q. induction ops as [|[e|] ops IH]; intros q Hq; cbn [run_ring run_fifo]; [done| |].
  - destruct (enqueue_spec e q Hq) as [Hq' <-]. by apply IH.
  - rewrite drain_spec by done.
    assert (Hq' : queue_inv (Queue (q_ring q) (q_tail q) (q_tail q))) by (destruct Hq; by split).
    specialize (IH _ Hq'). rewrite contents_empty in IH.
    destruct (run_ring ops _) as [batches q2]. destruct IH as [Hq2 ->]. done.
Qed.

Lemma run_fifo_sublist cap ops l batches l' :
  run_fifo cap ops l = (batches, l') -> concat batches ++ l' `sublist_of` l ++ arrivals ops.
Proof.
  revert l batches l'. induction ops as [|[e|] ops IH]; intros l batches l'; cbn [run_fifo].
  - intros [= <- <-]. by rewrite app_nil_r.
  - intros H%IH. etrans; [exact H|]. unfold fifo_put, arrivals. cbn [omap list_omap].
    destruct (_ <? _)%nat; [by rewrite <- app_assoc|].
    apply sublist_app; [done|]. by apply sublist_cons.
  - destruct (run_fifo cap ops []) as [bs l2] eqn:E. intros [= <- <-]. cbn [concat].
    rewrite <- app_assoc. apply sublist_app; [done|]. by apply (IH [] bs l2).
Qed.

Lemma run_fifo_lossless cap ops l batches l' :
  (length l + length (arrivals ops) <= cap)%nat ->
  run_fifo cap ops l = (batches, l') -> concat batches ++ l' = l ++ arrivals ops.
Proof.
  revert l batches l'. induction ops as [|[e|] ops IH]; intros l batches l' Hc; cbn [run_fifo].
  - intros [= <- <-]. by rewrite app_nil_r.
  - unfold arrivals in *. cbn [omap list_omap length] in *. unfold fifo_put.
    destruct (Nat.ltb_spec (length l) cap); [|lia]. intros H1%IH.
    + by rewrite H1, <- app_assoc.
    + rewrite length_app. cbn [length]. lia.
  - destruct (run_fifo cap ops []) as [bs l2] eqn:E. intros [= <- <-]. cbn [concat].
    rewrite <- app_assoc. f_equal. apply (IH [] bs l2); [|done]. cbn [length]. unfold arrivals in *. cbn in Hc. lia.
Qed.

(** ** What the journal sends for one entry *)

Definition decision_payload (pipeline_id : list Z) (now : Z) (e : ring_entry) : list Z :=
  admission_decision_wire (admission_decision_of pipeline_id now e).
Definition entry_frames (pipeline_id : list Z) (now : Z) (e : ring_entry) : list Z :=
  frame_bytes OBICALL_MSG_REPLAY_DATA (observation_wire (re_obs e)) ++
  frame_bytes OBICALL_MSG_ADMISSION_DECISION (decision_payload pipeline_id now e).

(** A journal entry as the daemon holds it, and the time it is sent at. *)
Record sendable_entry (now : Z) (e : ring_entry) : Prop := {
  se_obs : valid_observation (re_obs e);
  se_window : is_u64 (re_window_seq e);
  se_reason : is_u32 (re_admission_reason e);
  se_now : is_i64 now
}.

(** The socket took every byte. *)
Definition fully_sent (pipeline_id : list Z) (now : Z) (e : ring_entry) (out : list Z) : Prop :=
  exists tx tx', send_ring_entry pipeline_id now e tx = (out, tx') /\
    length out = length (entry_frames pipeline_id now e).

Definition received (e : ring_entry) : queue_entry :=
  QueueEntry (re_window_seq e) (canon_observation (re_obs e))
    (if re_admission_reason e =? admission_code OBICALL_ADMIT_OK then 1 else 0).

Lemma admission_decision_wf pipeline_id now e :
  bytes pipeline_id -> sendable_entry now e -> wf_admission_decision (admission_decision_of pipeline_id now e).
Proof.
  intros Hp [[Ho _ _] Hw Hr Hn]. split; cbn; try done.
  - by apply strncpy_zeroed_chars; [unfold OBICALL_PIPELINE_ID_LEN; lia|].
  - apply strncpy_zeroed_chars; [unfold OBICALL_SENSOR_ID_LEN; lia|]. apply (wfo_sensor_id _ Ho).
  - apply (wfo_sequence _ Ho).
  - by destruct (_ =? _).
Qed.

Lemma decision_payload_length pipeline_id now e :
  bytes pipeline_id -> sendable_entry now e -> length (decision_payload pipeline_id now e) = 96%nat.
Proof.
  intros Hp He. destruct (admission_decision_wf _ _ _ Hp He) as [[H1 _] _ [H2 _] _ _ _ _].
  unfold decision_payload, admission_decision_wire. rewrite !length_app, !length_le_bytes, H1, H2. done.
Qed.

Lemma prefix_app_length {A} (p1 p2 f1 f2 : list A) :
  p1 `prefix_of` f1 -> p2 `prefix_of` f2 -> length (p1 ++ p2) = length (f1 ++ f2) -> p1 ++ p2 = f1 ++ f2.
Proof.
  intros [k1 ->] [k2 ->]. rewrite !length_app. intros H.
  destruct k1; [|cbn [length] in H; lia]. destruct k2; [|cbn [length] in H; lia]. by rewrite !app_nil_r.
Qed.

Lemma fully_sent_frames pipeline_id now e out :
  bytes pipeline_id -> sendable_entry now e -> fully_sent pipeline_id now e out ->
  out = entry_frames pipeline_id now e.
Proof.
  intros Hp He (tx & tx' & E & Hl). pose proof (observation_wire_length _ (se_obs _ _ He)) as Hol.
  unfold send_ring_entry in E. rewrite enc_spec in E by (done || apply He).
  destruct (_ <=? 1200) eqn:E1; [|lia]. unfold entry_frames in *.
  destruct (osal_send_frame _ _ tx) as [[ok1 out1] tx1] eqn:Es1.
  apply send_frame_spec in Es1 as [Hp1 _].
  rewrite enc_spec in E by (done || by apply admission_decision_wf).
  fold (decision_payload pipeline_id now e) in E. rewrite decision_payload_length in E by done.
  change (Z.of_nat 96 <=? 256) with true in E. cbn match in E.
  destruct (osal_send_frame _ _ tx1) as [[ok2 out2] tx2] eqn:Es2.
  apply send_frame_spec in Es2 as [Hp2 _]. injection E as <- <-. by apply prefix_app_length.
Qed.

(** ** The reader puts the two frames of an entry together *)

Lemma observation_frame_sendable o :
  valid_observation o -> sendable 2048 OBICALL_MSG_REPLAY_DATA (observation_wire o).
Proof.
  intros Ho. pose proof (observation_wire_length o Ho).
  split; unfold is_u8, OBICALL_MSG_REPLAY_DATA, OBICALL_WIRE_MAX_PAYLOAD; lia.
Qed.

Lemma decision_frame_sendable pipeline_id now e :
  bytes pipeline_id -> sendable_entry now e ->
  sendable 2048 OBICALL_MSG_ADMISSION_DECISION (decision_payload pipeline_id now e).
Proof.
  intros Hp He. pose proof (decision_payload_length pipeline_id now e Hp He).
  split; unfold is_u8, OBICALL_MSG_ADMISSION_DECISION, OBICALL_WIRE_MAX_PAYLOAD; lia.
Qed.

Lemma decode_observation_wire o :
  valid_observation o -> obicall_wire_decode_observation (observation_wire o) = Ok (canon_observation o).
Proof. intros Ho. rewrite <- (app_nil_r (observation_wire o)). by rewrite dec_wire. Qed.

Lemma decode_decision_payload pipeline_id now e :
  bytes pipeline_id -> sendable_entry now e ->
  obicall_wire_decode_admission_decision (decision_payload pipeline_id now e) =
    Ok (admission_decision_of pipeline_id now e).
Proof.
  intros Hp He. unfold decision_payload. rewrite <- (app_nil_r (admission_decision_wire _)).
  rewrite dec_wire by by apply admission_decision_wf. done.
Qed.

Lemma reader_turn_data torn o r :
  valid_observation o ->
  reader_turn torn (Frame OBICALL_MSG_REPLAY_DATA (observation_wire o)) r =
    Reader (rd_alive r) (Some (canon_observation o)) (rd_queue r).
Proof. intros Ho. unfold reader_turn. by rewrite Z.eqb_refl, decode_observation_wire. Qed.

Lemma reader_turn_decision torn pipeline_id now e q :
  bytes pipeline_id -> sendable_entry now e ->
  reader_turn torn (Frame OBICALL_MSG_ADMISSION_DECISION (decision_payload pipeline_id now e))
    (Reader true (Some (canon_observation (re_obs e))) q) = Reader true None (enqueue (received e) q).
Proof.
  intros Hp He. unfold reader_turn. cbn [rd_alive rd_pending rd_queue].
  change (OBICALL_MSG_ADMISSION_DECISION =? OBICALL_MSG_REPLAY_DATA) with false.
  by rewrite Z.eqb_refl, decode_decision_payload.
Qed.

Lemma reader_entry torn pipeline_id now e rx rest r :
  bytes pipeline_id -> sendable_entry now e -> rd_alive r = true ->
  rx_chunks rx -> rx_stream rx = entry_frames pipeline_id now e ++ rest ->
  exists rx', reader_loop torn 2 rx r = (Reader true None (enqueue (received e) (rd_queue r)), rx') /\
    rx_chunks rx' /\ rx_stream rx' = rest.
Proof.
  intros Hp He Ha Hrx Hst. unfold entry_frames in Hst. rewrite <- app_assoc in Hst.
  destruct (recv_frame_chunks 2048 _ _ rx _ (observation_frame_sendable _ (se_obs _ _ He)) Hrx Hst)
    as (rx1 & E1 & Hrx1 & Hst1).
  destruct (recv_frame_chunks 2048 _ _ rx1 _ (decision_frame_sendable _ _ _ Hp He) Hrx1 Hst1)
    as (rx2 & E2 & Hrx2 & Hst2).
  exists rx2. split; [|done]. cbn [reader_loop]. rewrite Ha, E1.
  rewrite reader_turn_data by apply He. cbn [rd_alive rd_queue]. rewrite Ha, E2.
  by rewrite reader_turn_decision.
Qed.

Lemma reader_loop_add torn n m rx r :
  reader_loop torn (n + m) rx r = let '(r1, rx1) := reader_loop torn n rx r in reader_loop torn m rx1 r1.
Proof.
  revert rx r. induction n as [|n IH]; intros rx r; [done|]. cbn [Nat.add reader_loop].
  destruct (rd_alive r) eqn:Ha.
  - destruct (osal_recv_frame 2048 rx). apply IH.
  - destruct m; cbn [reader_loop]; by rewrite ?Ha.
Qed.

Lemma reader_entries torn pipeline_id (es : list (Z * ring_entry)) outs rx r :
  bytes pipeline_id -> Forall (fun p => sendable_entry p.1 p.2) es ->
  Forall2 (fun p out => fully_sent pipeline_id p.1 p.2 out) es outs ->
  rx_chunks rx -> rx_stream rx = concat outs ->
  rd_alive r = true -> rd_pending r = None ->
  exists rx', reader_loop torn (2 * length es) rx r =
    (Reader true None (foldl (fun q p => enqueue (received p.2) q) (rd_queue r) es), rx') /\
    rx_stream rx' = [].
Proof.
  intros Hp Hes Hs. revert rx r. induction Hs as [|[now e] out es outs Hout Hs IH]; intros rx r Hrx Hst Ha Hn.
  - exists rx. split; [|done]. destruct r as [a p q]. cbn in *. by subst.
  - apply Forall_cons in Hes as [He Hes]. cbn [fst snd] in *.
    apply fully_sent_frames in Hout; [|done..]. subst out.
    destruct (reader_entry torn pipeline_id now e rx (concat outs) r) as (rx1 & E1 & Hrx1 & Hst1); try done.
    destruct (IH Hes rx1 (Reader true None (enqueue (received e) (rd_queue r)))) as (rx' & E & Hst'); try done.
    exists rx'. split; [|done].
    replace (2 * length ((now, e) :: es))%nat with (2 + 2 * length es)%nat by (cbn [length]; lia).
    by rewrite reader_loop_add, E1, E.
Qed.

Lemma enqueue_all_spec (es : list (Z * ring_entry)) q :
  queue_inv q -> (length (contents q) + length es <= QUEUE_ROOM)%nat ->
  let q' := foldl (fun q p => enqueue (received p.2) q) q es in
  queue_inv q' /\ contents q' = contents q ++ ((fun p => received p.2) <$> es).
Proof.
  revert q. induction es as [|p es IH]; intros q Hq Hl; cbn [foldl fmap list_fmap].
  - by rewrite app_nil_r.
  - destruct (enqueue_spec (received p.2) q Hq) as [Hq' Hc]. unfold fifo_put in Hc. cbn [length] in Hl.
    destruct (Nat.ltb_spec (length (contents q)) QUEUE_ROOM); [|lia].
    destruct (IH _ Hq') as [Hq2 Hc2]; [rewrite Hc, length_app; cbn [length]; lia|].
    split; [done|]. by rewrite Hc2, Hc, <- app_assoc.
Qed.

(** * The claims *)

(** The ring buffer refines a queue bounded at 511 entries that drops the newest:
    under any interleaving of the reader's arrivals and the main loop's drains the
    batches handed over and what remains are those of the bounded queue; so they
    are the arrivals in their order with some left out, none left out unless more
    than 511 come in. *)
Theorem broker_queue_refines_fifo ops q :
  queue_inv q ->
  let '(batches, q') := run_ring ops q in
  queue_inv q' /\ run_fifo QUEUE_ROOM ops (contents q) = (batches, contents q') /\
  concat batches ++ contents q' `sublist_of` contents q ++ arrivals ops /\
  ((length (contents q) + length (arrivals ops) <= QUEUE_ROOM)%nat ->
   concat batches ++ contents q' = contents q ++ arrivals ops).
Proof.
  intros Hq.
  pose proof (run_ring_fifo ops q Hq) as Href.
  destruct (run_ring ops q) as [batches q']. destruct Href as [Hq' E].
  split; [done|]. split; [done|]. split; [exact (run_fifo_sublist _ _ _ _ _ E)|].
  intros Hl. exact (run_fifo_lossless _ _ _ _ _ Hl E).
Qed.

(** C12: The journal's stream arrives: whatever entries the journal daemon sent over
    the connection, if the socket took the bytes, and however the network chunks
    them, the reader thread pairs each observation with its decision and appends
    exactly these windows, in order, to the queue (as long as it has room), and is
    left between two entries with nothing unread. *)
Theorem broker_reads_journal torn pipeline_id es outs rx r :
  bytes pipeline_id -> Forall (fun p => sendable_entry p.1 p.2) es ->
  Forall2 (fun p out => fully_sent pipeline_id p.1 p.2 out) es outs ->
  rx_chunks rx -> rx_stream rx = concat outs ->
  rd_alive r = true -> rd_pending r = None -> queue_inv (rd_queue r) ->
  (length (contents (rd_queue r)) + length es <= QUEUE_ROOM)%nat ->
  exists r' rx', reader_loop torn (2 * length es) rx r = (r', rx') /\ rx_stream rx' = [] /\
    rd_alive r' = true /\ rd_pending r' = None /\ queue_inv (rd_queue r') /\
    contents (rd_queue r') = contents (rd_queue r) ++ ((fun p => received p.2) <$> es).
Proof.
  intros Hp Hes Hs Hrx Hst Ha Hn Hq Hl.
  destruct (reader_entries torn pipeline_id es outs rx r) as (rx' & E & Hst'); try done.
  destruct (enqueue_all_spec es _ Hq Hl) as [Hq' Hc]. eauto 10.
Qed.

(** Whatever arrives on the journal connection, the ring stays well formed, and a
    connection once failed is never read again. *)
Theorem broker_reader_safe torn n rx r :
  queue_inv (rd_queue r) ->
  let '(r', rx') := reader_loop torn n rx r in
  queue_inv (rd_queue r') /\ (rd_alive r = false -> r' = r /\ rx' = rx).
Proof.
  revert rx r. induction n as [|n IH]; intros rx r Hq; cbn [reader_loop]; [done|].
  destruct (rd_alive r); [|done]. destruct (osal_recv_frame 2048 rx) as [fr rx1].
  assert (Hq1 : queue_inv (rd_queue (reader_turn torn fr r))).
  { unfold reader_turn. repeat (case_match; try done). by apply enqueue_spec. }
  specialize (IH rx1 _ Hq1). destruct (reader_loop _ _ _ _). by split; [apply IH|].
Qed.

(** * Witnesses *)

Lemma broker_queue_witness :
  let e := received zero_entry in
  let '(batches, q') := run_ring [Arrive e; Drain; Arrive e] queue_init in
  concat batches ++ contents q' = [e; e].
Proof.
  cbv zeta. pose proof (broker_queue_refines_fifo [Arrive (received zero_entry); Drain; Arrive (received zero_entry)] queue_init queue_init_inv) as H.
  destruct (run_ring _ queue_init) as [batches q']. destruct H as (_ & _ & _ & H).
  refine (H _). apply Nat.leb_le. vm_compute. reflexivity.
Defined.

Definition sample_entry : ring_entry := RingEntry 7 0 sample_observation.
Definition open_tx : list tx_event := replicate 8 (TxAccept 4096).
Definition sample_pipeline : list Z := chars 32 "nav"%string.

Lemma sample_entry_sendable : sendable_entry 1000 sample_entry.
Proof.
  split; [split; [apply sample_observation_wf|done..]|done..].
Qed.

Lemma sample_pipeline_bytes : bytes sample_pipeline.
Proof. by apply forallb_bytes. Qed.

Lemma sample_fully_sent :
  fully_sent sample_pipeline 1000 sample_entry (send_ring_entry sample_pipeline 1000 sample_entry open_tx).1.
Proof.
  exists open_tx, (send_ring_entry sample_pipeline 1000 sample_entry open_tx).2.
  split; [apply surjective_pairing|]. vm_compute. reflexivity.
Qed.

(** One entry, arriving a byte at a time. *)
Lemma broker_reads_witness :
  let out := (send_ring_entry sample_pipeline 1000 sample_entry open_tx).1 in
  exists r' rx', reader_loop (fun _ o => o) 2 (dribble out) (Reader true None queue_init) = (r', rx') /\
    contents (rd_queue r') = [received sample_entry].
Proof.
  intros out.
  destruct (broker_reads_journal (fun _ o => o) sample_pipeline [(1000, sample_entry)] [out] (dribble out)
    (Reader true None queue_init)) as (r' & rx' & E & _ & _ & _ & _ & Hc).
  - exact sample_pipeline_bytes.
  - constructor; [exact sample_entry_sendable|constructor].
  - constructor; [exact sample_fully_sent|constructor].
  - apply dribble_chunks.
  - rewrite (proj2 (dribble_chunks out)). cbn [concat]. symmetry. apply app_nil_r.
  - reflexivity.
  - reflexivity.
  - exact queue_init_inv.
  - apply Nat.leb_le. vm_compute. reflexivity.
  - exists r', rx'. split; [exact E|exact Hc].
Defined.

Lemma broker_reader_witness :
  let '(r', _) := reader_loop (fun _ o => o) 3 [RxError] (Reader true None queue_init) in queue_inv (rd_queue r').
Proof.
  pose proof (broker_reader_safe (fun _ o => o) 3 [RxError] (Reader true None queue_init) queue_init_inv) as H.
  destruct (reader_loop _ _ _ _) as [r' rx']. exact (proj1 H).
Defined.
