(* ===== verification/BrokerThreads.v ===== *)
(** * BrokerThreads: the broker's queue a statement at a time (src/broker/broker_main.c)

    [BrokerQueue] takes the locked block of the reader thread and the one of the main
    loop for one step each.  Here both run statement by statement, interleaved in any
    way the mutex of [Threads] allows, an entry being written member by member. *)

From S2P Require Import Prelude Types Samples Stdio Journal Ipc JournalDaemon BrokerQueue Threads.

(** ** The statements *)

Inductive queue_stmt :=
| NextTail
| TestRoom (e : queue_entry)
| PutWindow (seq : Z) | PutObs (obs : obicall_observation) | PutAdmitted (admitted : Z)
| SetTail
| DrainTest | DrainTake | DrainHead.

(** [next_tail] of the reader, [batch] and [batch_n] of the main loop. *)
Record queue_vars := QueueVars { qv_next_tail : Z; qv_batch : list queue_entry }.

Definition put_entry (f : queue_entry -> queue_entry) (q : queue) : queue :=
  Queue (<[Z.to_nat (q_tail q) := f (queue_at q (q_tail q))]> (q_ring q)) (q_head q) (q_tail q).

(** With the statements a test leads into. *)
Definition exec_queue (s : queue_stmt) (q : queue) (v : queue_vars) : queue * queue_vars * list queue_stmt :=
  match s with
  | NextTail => (q, QueueVars (u32 (q_tail q + 1) mod QUEUE_CAP) (qv_batch v), [])
  | TestRoom e =>
      (q, v, if negb (qv_next_tail v =? q_head q)
             then [PutWindow (qe_window_seq e); PutObs (qe_obs e); PutAdmitted (qe_admitted e); SetTail] else [])
  | PutWindow seq => (put_entry (fun e => QueueEntry seq (qe_obs e) (qe_admitted e)) q, v, [])
  | PutObs obs => (put_entry (fun e => QueueEntry (qe_window_seq e) obs (qe_admitted e)) q, v, [])
  | PutAdmitted admitted => (put_entry (fun e => QueueEntry (qe_window_seq e) (qe_obs e) admitted) q, v, [])
  | SetTail => (Queue (q_ring q) (q_head q) (qv_next_tail v), v, [])
  | DrainTest =>
      (q, v, if negb (q_head q =? q_tail q) && (Z.of_nat (length (qv_batch v)) <? QUEUE_CAP)
             then [DrainTake; DrainHead; DrainTest] else [])
  | DrainTake => (q, QueueVars (qv_next_tail v) (qv_batch v ++ [queue_at q (q_head q)]), [])
  | DrainHead => (Queue (q_ring q) (u32 (q_head q + 1) mod QUEUE_CAP) (q_tail q), v, [])
  end.

Definition queue_local : Type := queue_vars * list queue_stmt.
Definition queue_enter (op : queue_op) : queue_local :=
  (QueueVars 0 [], match op with Arrive e => [NextTail; TestRoom e] | Drain => [DrainTest] end).
Definition queue_statement (op : queue_op) (q : queue) (l : queue_local) : option (queue * queue_local) :=
  match l.2 with
  | [] => None
  | s :: ss => let '(q, v, into) := exec_queue s q l.1 in Some (q, (v, into ++ ss))
  end.

Definition any_op (op : queue_op) : Prop := True.
Abbreviation queue_reach := (reach any_op queue_enter queue_statement).

(** The batches handed over by the drains among some blocks. *)
Definition batches_of (h : list (queue_op * queue_local)) : list (list queue_entry) :=
  omap (fun '(op, l) => match op with Drain => Some (qv_batch l.1) | Arrive _ => None end) h.

(** * Lemmas *)

Lemma put_entry_again f g q :
  (Z.to_nat (q_tail q) < length (q_ring q))%nat -> put_entry g (put_entry f q) = put_entry (fun e => g (f e)) q.
Proof.
  intros Hl. unfold put_entry, queue_at. cbn [q_ring q_head q_tail].
  by rewrite list_lookup_insert_eq, list_insert_insert_eq.
Qed.

(** The reader's block by itself is [enqueue]. *)
Lemma arrive_runs e q :
  queue_inv q -> exists l, runs queue_statement (Arrive e) q (queue_enter (Arrive e)) (enqueue e q) l /\ l.2 = [].
Proof.
  intros [Hr Hh Ht]. unfold enqueue. cbv zeta. set (next_tail := u32 (q_tail q + 1) mod QUEUE_CAP).
  exists (QueueVars next_tail [], []). split; [|done].
  do 2 (eapply runs_cons; [reflexivity|]; cbn [exec_queue fst snd queue_enter qv_next_tail qv_batch app]).
  fold next_tail. destruct (negb (next_tail =? q_head q)); [|constructor]. cbn [app].
  do 4 (eapply runs_cons; [reflexivity|]; cbn [exec_queue fst snd qv_next_tail app]).
  rewrite !put_entry_again by (rewrite ?put_entry_again; cbn [put_entry q_ring q_tail]; rewrite ?length_insert, Hr; unfold QUEUE_CAP in *; lia).
  destruct e. constructor.
Qed.

(** The main loop's block by itself is [drain]. *)
Lemma drain_runs room q v :
  Z.of_nat (length (qv_batch v)) + Z.of_nat room = QUEUE_CAP ->
  runs queue_statement Drain q (v, [DrainTest]) (drain_loop room q).2
    (QueueVars (qv_next_tail v) (qv_batch v ++ (drain_loop room q).1), []).
Proof.
  revert q v. induction room as [|room IH]; intros q [nt batch] Hl; cbn [qv_batch] in Hl;
    (eapply runs_cons; [reflexivity|]); cbn [exec_queue drain_loop qv_batch qv_next_tail fst snd].
  - destruct (Z.ltb_spec (Z.of_nat (length batch)) QUEUE_CAP); [lia|]. rewrite andb_false_r. cbn [app]. rewrite app_nil_r. constructor.
  - destruct (Z.ltb_spec (Z.of_nat (length batch)) QUEUE_CAP); [|lia]. rewrite andb_true_r.
    destruct (q_head q =? q_tail q); cbn [negb app fst snd]; [rewrite app_nil_r; constructor|].
    do 2 (eapply runs_cons; [reflexivity|]; cbn [exec_queue app qv_next_tail qv_batch fst snd]).
    specialize (IH (Queue (q_ring q) (u32 (q_head q + 1) mod QUEUE_CAP) (q_tail q)) (QueueVars nt (batch ++ [queue_at q (q_head q)]))).
    destruct (drain_loop room _) as [more q']. cbn [fst snd qv_batch qv_next_tail] in *.
    rewrite length_app, <- app_assoc in IH. apply IH. cbn [length]. lia.
Qed.

Lemma run_ring_app ops1 ops2 q :
  run_ring (ops1 ++ ops2) q =
  let '(batches1, q) := run_ring ops1 q in let '(batches2, q) := run_ring ops2 q in (batches1 ++ batches2, q).
Proof.
  revert q. induction ops1 as [|[e|] ops1 IH]; intros q; cbn [app run_ring].
  - by destruct (run_ring ops2 q).
  - apply IH.
  - destruct (drain q) as [batch q1]. rewrite IH. destruct (run_ring ops1 q1) as [bs1 q2], (run_ring ops2 q2). done.
Qed.

(** Blocks one after the other are the operations of [run_ring]. *)
Lemma blocks_run_ring h q q' :
  queue_inv q -> blocks queue_enter queue_statement q h q' -> run_ring h.*1 q = (batches_of h, q').
Proof.
  intros Hq. induction 1 as [|h q1 op l q2 _ IH Hc]; [done|].
  assert (Hq1 : queue_inv q1) by (pose proof (run_ring_fifo h.*1 q Hq) as H; rewrite IH in H; apply H).
  unfold batches_of. rewrite fmap_app, run_ring_app, IH, omap_app. cbn [fmap list_fmap fst]. destruct op as [e|]; cbn [run_ring omap list_omap].
  - destruct (arrive_runs e q1 Hq1) as (l' & Hr & Hl'). destruct l' as [v' ss]. cbn in Hl'. subst ss.
    by destruct (completes_unique _ _ _ _ _ _ _ _ Hc Hr eq_refl) as [-> _].
  - pose proof (drain_runs (Z.to_nat QUEUE_CAP) q1 (QueueVars 0 []) eq_refl) as Hr.
    destruct (completes_unique _ _ _ _ _ _ _ _ Hc Hr eq_refl) as [-> ->]. unfold drain.
    destruct (drain_loop _ q1) as [batch q3]. done.
Qed.

(** * The claim *)

(** C13: the queue between the broker's threads is linearizable: whatever the interleaving
    of the statements of its readers and drainers, what the drains hand over is what a
    queue bounded at 511 entries that drops the newest would, taking the blocks in the
    order they ended, and while nobody is in one the ring holds what that queue holds;
    so no entry is ever seen half written, lost among others, repeated or reordered, and
    none is dropped unless more than 511 come in; and every drain that ended returns its
    batch to the caller, once. *)
Theorem broker_queue_linearizable m ended returned :
  queue_reach queue_init m ended returned ->
  let '(batches, waiting) := run_fifo QUEUE_ROOM ended.*1 [] in
  batches_of ended = batches /\ (mc_mutex m = None -> contents (mc_shared m) = waiting) /\
  concat batches ++ waiting `sublist_of` arrivals ended.*1 /\
  ((length (arrivals ended.*1) <= QUEUE_ROOM)%nat -> concat batches ++ waiting = arrivals ended.*1) /\
  batches_of (returned ++ pending m) ≡ₚ batches.
Proof.
  intros Hr. destruct (mutex_atomic _ _ _ _ _ _ _ Hr) as (q & Hb & Hh & Hp).
  pose proof (run_ring_fifo ended.*1 queue_init queue_init_inv) as Hf.
  rewrite (blocks_run_ring _ _ _ queue_init_inv Hb) in Hf. destruct Hf as [_ Hf].
  unfold queue_init in Hf. rewrite contents_empty in Hf. rewrite Hf.
  split; [done|]. split.
  { intros Hmu. unfold held in Hh. rewrite Hmu in Hh. by destruct Hh as [-> _]. }
  split; [exact (run_fifo_sublist _ _ _ _ _ Hf)|]. split.
  - intros Hl. by apply (run_fifo_lossless QUEUE_ROOM ended.*1 [] _ _ Hl).
  - unfold batches_of. by rewrite Hp.
Qed.

(** * Witness *)

Definition ended_ops (h : list (queue_op * queue_local)) : list queue_op := h.*1.

(** A reader puts an entry in, another is half way through when the main loop, which had
    asked for the mutex before, is still waiting. *)
Definition queue_commands (e e' : queue_entry) : list (command (Request := queue_op)) :=
  [Spawn; Spawn; Ask 0 (Arrive e)] ++ replicate 9 (Go 0) ++ [Ask 0 (Arrive e'); Ask 1 Drain] ++ replicate 4 (Go 0).

Lemma queue_linearizable_witness :
  exists m ended returned,
    obey_all queue_enter queue_statement (queue_commands (received zero_entry) zero_queue_entry) (Machine queue_init osal_mutex_init [], [], [])
    = Some (m, ended, returned) /\
    mc_mutex m = Some 0%nat /\ length returned = 1%nat /\
    batches_of ended = (run_fifo QUEUE_ROOM ended.*1 []).1 /\ (run_fifo QUEUE_ROOM ended.*1 []).2 = [received zero_entry].
Proof.
  set (run := obey_all _ _ _ _).
  assert (H : (fun c => (mc_mutex c.1.1, length c.2, ended_ops c.1.2)) <$> run = Some (Some 0%nat, 1%nat, [Arrive (received zero_entry)]))
    by (vm_compute; reflexivity).
  destruct run as [[[m ended] returned]|] eqn:E; [|discriminate H]. injection H as H1 H2 H3.
  exists m, ended, returned. split; [reflexivity|]. split; [exact H1|]. split; [exact H2|].
  assert (Hr : queue_reach queue_init m ended returned)
    by (eapply obey_all_reach; [constructor| |exact E]; repeat constructor).
  pose proof (broker_queue_linearizable m ended returned Hr) as Hq. unfold ended_ops in H3. rewrite H3 in Hq |- *.
  destruct Hq as (Hq & _). split; [exact Hq|reflexivity].
Defined.
