(* ===== verification/Broker.v ===== *)
(** * Broker: the window loop (src/broker/broker_main.c)

    For each queued window the broker notes which sensors are fresh, lets the
    decision table choose the sensors to use, feeds the estimator, and publishes a
    result to the gate; between batches it sends a heartbeat and takes its belief
    about epoch and owner from the reply.  The two threads share only the queue
    ([BrokerQueue]); what follows is the loop of [main], with the clock and the
    gate connection as inputs. *)

From Stdlib Require Import (notations) Strings.String.
From S2P Require Import Prelude Types Samples Digest Cursor Wire WireMsg Binary64.
From S2P Require Import Observation Stdio Journal Ipc JournalDaemon Gate GateDaemon Dgt Estimator BrokerQueue.
#[local] Delimit Scope string_scope with string.

Definition MAX_TRACKED_SENSORS : Z := 8.

Record sensor_freshness := SensorFreshness {
  sf_sensor_id : list Z;    (* char[32] *)
  sf_last_seen_ns : Z
}.

(** The part of [g_ctx] that [main] sets once, and its [dgt_enabled]. *)
Record broker_config := BrokerConfig {
  bc_broker_id : Z;
  bc_pipeline_id : list Z;             (* char[32] *)
  bc_config_digest : list Z;
  bc_result_validity_ns : Z;
  bc_sensor_fresh_window_ns : Z;
  bc_sensor_names : list (list Z);     (* the configured ones, char[32] each *)
  bc_kf_params : obicall_kalman_params f64;
  bc_dgt : obicall_dgt_policy_table;
  bc_dgt_hysteresis_margin : f64;
  bc_dgt_enabled : bool
}.

(** The part that changes, and the loop's local variables. *)
Record broker_state := BrokerState {
  bs_sensors : list sensor_freshness;  (* the first [sensor_count] of 8 *)
  bs_kf : obicall_kalman_state f64;
  bs_kf_ready : bool;
  bs_last_processed_window_seq : Z;
  bs_dgt_hyst : option obicall_dgt_hysteresis_state;   (* dgt_has_hyst, dgt_hyst *)
  bs_last_heartbeat : Z;
  bs_epoch_belief : Z;
  bs_owner_belief : Z
}.

(** ** Configuration *)

(** [--sensor-ids]: at most eight names, of the first 255 bytes. *)
Definition sensor_names_of (sensor_ids_csv : list Z) : list (list Z) :=
  strncpy_zeroed OBICALL_SENSOR_ID_LEN <$>
    take (Z.to_nat MAX_TRACKED_SENSORS) (strtok 44 [] (take 255 (c_str sensor_ids_csv))).

(** ** The default decision table *)

Definition c10 : f64 := f64_of_bits 4591870180066957722.  (* 0.10 *)
Definition c15 : f64 := f64_of_bits 4594572339843380019.  (* 0.15 *)
Definition c20 : f64 := f64_of_bits 4596373779694328218.  (* 0.20 *)
Definition c30 : f64 := f64_of_bits 4599075939470750515.  (* 0.30 *)
Definition c35 : f64 := f64_of_bits 4599976659396224614.  (* 0.35 *)
Definition c40 : f64 := f64_of_bits 4600877379321698714.  (* 0.40 *)
Definition c50 : f64 := f64_of_bits 4602678819172646912.  (* 0.50 *)
Definition c60 : f64 := f64_of_bits 4603579539098121011.  (* 0.60 *)
Definition c90 : f64 := f64_of_bits 4606281698874543309.  (* 0.90 *)

Definition name64 (s : String.string) : list Z := pad 64 0 (ascii_bytes s).
Definition kalman_mode : Z := 0.  (* OBICALL_ESTIMATOR_MODE_KALMAN_CV *)
Definition zero_scenario : obicall_dgt_scenario := DgtScenario 0 (replicate 64 0).
Definition zero_dgt_action : obicall_dgt_action :=
  DgtAction 0 (replicate 64 0) 0 0 (replicate 64 0).

Definition default_actions : list obicall_dgt_action :=
  [DgtAction 0 (name64 "position_only"%string) 1 kalman_mode (replicate 64 0);
   DgtAction 1 (name64 "inertial_only"%string) 2 kalman_mode (replicate 64 0);
   DgtAction 2 (name64 "balanced"%string) 3 kalman_mode (replicate 64 0)].

Definition default_scenarios : list obicall_dgt_scenario :=
  [DgtScenario 0 (name64 "nominal"%string); DgtScenario 1 (name64 "position_dropout"%string);
   DgtScenario 2 (name64 "inertial_bias"%string); DgtScenario 3 (name64 "processing_delay"%string)].

Definition default_costs : list (list obicall_dgt_cost_components) :=
  [[CostComponents c20 c10 c30 c10; CostComponents c90 c10 c90 c10; CostComponents c20 c10 c30 c10; CostComponents c30 c60 c30 c10];
   [CostComponents c35 c10 c30 c10; CostComponents c35 c10 c30 c10; CostComponents c90 c10 c30 c10; CostComponents c35 c10 c30 c10];
   [CostComponents c15 c10 c10 c20; CostComponents c40 c10 c50 c20; CostComponents c40 c10 c20 c20; CostComponents c30 c35 c15 c20]].

Definition init_default_dgt_table : obicall_dgt_policy_table :=
  let zero := CostComponents f64_zero f64_zero f64_zero f64_zero in
  PolicyTable sizeof_policy_table OBICALL_DGT_POLICY_SCHEMA_VERSION 1
    3 (pad 16 zero_dgt_action default_actions) 4 (pad 16 zero_scenario default_scenarios)
    (DgtWeights (f64_of_bits 4602678819172646912) (f64_of_bits 4596373779694328218) (f64_of_bits 4596373779694328218)
       (f64_of_bits 4591870180066957722))
    (pad 16 (replicate 16 zero) (pad 16 zero <$> default_costs))
    f64_one f64_one f64_one f64_one.

(** ** Sensors *)

(** [sensor_names[i]] named by [sensor_id]: bit [i], or no bit. *)
Definition sensor_index (names : list (list Z)) (sensor_id : list Z) : option nat :=
  fst <$> list_find (fun nm => strncmp_eq OBICALL_SENSOR_ID_LEN nm sensor_id = true) names.
Definition sensor_bit (names : list (list Z)) (sensor_id : list Z) : Z :=
  match sensor_index names sensor_id with
  | Some i => u32 (Z.shiftl 1 (Z.of_nat i))
  | None => 0
  end.

Definition find_sensor (sensors : list sensor_freshness) (sensor_id : list Z)
    : option (nat * sensor_freshness) :=
  list_find (fun s => strncmp_eq OBICALL_SENSOR_ID_LEN (sf_sensor_id s) sensor_id = true) sensors.

Definition touch_sensor_locked (sensor_id : list Z) (now : Z) (sensors : list sensor_freshness)
    : list sensor_freshness :=
  match find_sensor sensors sensor_id with
  | Some (i, s) => <[i := SensorFreshness (sf_sensor_id s) now]> sensors
  | None =>
      if Z.of_nat (length sensors) <? MAX_TRACKED_SENSORS
      then sensors ++ [SensorFreshness (strncpy_zeroed OBICALL_SENSOR_ID_LEN sensor_id) now]
      else sensors
  end.

Definition sensor_observable_locked (fresh_window now : Z) (sensors : list sensor_freshness)
    (sensor_id : list Z) : bool :=
  match find_sensor sensors sensor_id with
  | Some (_, s) => i64 (now - sf_last_seen_ns s) <=? fresh_window
  | None => false
  end.

(** ** One window *)

(** Whether every configured sensor of [mask] is observable. *)
Definition mask_observable (cfg : broker_config) (now : Z) (sensors : list sensor_freshness) (mask : Z)
    : bool :=
  forallb (fun b =>
    negb (Z.testbit mask (Z.of_nat b)) ||
    sensor_observable_locked (bc_sensor_fresh_window_ns cfg) now sensors (default [] (bc_sensor_names cfg !! b)))
    (seq 0 (length (bc_sensor_names cfg))).

Definition eligibility (cfg : broker_config) (now : Z) (sensors : list sensor_freshness) : list Z :=
  pad 16 0 ((fun a =>
    let mask := da_sensor_subset_mask (action_at (bc_dgt cfg) a) in
    if mask_observable cfg now sensors mask && negb (mask =? 0) then 1 else 0)
    <$> upto (pt_action_count (bc_dgt cfg))).

Definition zero_decision : obicall_dgt_decision := DgtDecision 0 0 f64_zero 0 0 0.

(** The sensors to use, the decision, and the hysteresis state. *)
Definition select_sensors (cfg : broker_config) (now : Z) (st : broker_state)
    : Z * obicall_dgt_decision * option obicall_dgt_hysteresis_state :=
  let n := Z.of_nat (length (bc_sensor_names cfg)) in
  let all := if n >? 0 then u32 (u32 (Z.shiftl 1 n) - 1) else 4294967295 in
  if bc_dgt_enabled cfg && (n >? 0) then
    match obicall_dgt_select_action (Some (bc_dgt cfg)) (eligibility cfg now (bs_sensors st))
            (bs_dgt_hyst st) (bc_dgt_hysteresis_margin cfg) 0 with
    | Ok (decision, hout) =>
        (u32 (da_sensor_subset_mask (action_at (bc_dgt cfg) (dd_selected_action_index decision))),
         decision, Some hout)
    | Err _ => (all, zero_decision, bs_dgt_hyst st)
    end
  else (all, zero_decision, bs_dgt_hyst st).

(** [used_in_estimator], the filter and [kf_ready]. *)
Definition estimate (cfg : broker_config) (selected_mask : Z) (e : queue_entry) (st : broker_state)
    : bool * obicall_kalman_state f64 * bool :=
  let obs := qe_obs e in
  if negb (qe_admitted e =? 0)
     && negb (Z.land selected_mask (sensor_bit (bc_sensor_names cfg) (obs_sensor_id obs)) =? 0)
     && (obs_payload_shape obs =? OBICALL_SHAPE_POSITION_2D)
  then
    let payload i := f64_of_bits (default 0 (obs_payload obs !! i)) in
    let cov2x2 := (fun i => f64_of_bits (default 0 (obs_covariance obs !! i))) <$> seq 0 4 in
    if negb (bs_kf_ready st) then
      (true, obicall_kalman_init (bc_kf_params cfg) (payload 0%nat) (payload 1%nat) (obs_sample_time_ns obs), true)
    else
      let '(s, kf) := obicall_kalman_update_position (bc_kf_params cfg) (obs_sample_time_ns obs)
                        (payload 0%nat) (payload 1%nat) cov2x2 (bs_kf st) in
      (bool_decide (s = OBICALL_OK), kf, bs_kf_ready st)
  else (false, bs_kf st, bs_kf_ready st).

Definition compute_result_digest_from_obs (junk : list Z) (obs : obicall_observation) : list Z :=
  match obicall_wire_encode_observation obs 1200 with
  | Ok buf => obicall_sha256 junk buf
  | Err _ => replicate OBICALL_DIGEST_LEN 0
  end.

Definition f64_4 : f64 := f64_of_bits 4616189618054758400.

(** [pos_cov_trace > 4.0], or a decision among fewer than all actions. *)
Definition degraded (cfg : broker_config) (kf : obicall_kalman_state f64) (decision : obicall_dgt_decision) : bool :=
  (at1 (ks_covariance kf) 0 + at1 (ks_covariance kf) 5 >? f64_4)%f64
  || (bc_dgt_enabled cfg && (dd_eligible_count decision >? 0)
      && (dd_eligible_count decision <? pt_action_count (bc_dgt cfg))).

(** The result of a window; [nan] is the bit pattern of a NaN the filter made. *)
Definition build_result (cfg : broker_config) (junk : list Z) (nan now epoch : Z) (e : queue_entry)
    (used kf_ready : bool) (kf : obicall_kalman_state f64) (decision : obicall_dgt_decision) : obicall_result :=
  let bits x := bits_of_f64 nan x in
  let mean i := bits (at1 (ks_mean kf) i) in
  let cov i := bits (at1 (ks_covariance kf) i) in
  Result sizeof_result OBICALL_RESULT_SCHEMA_VERSION
    (strncpy_zeroed OBICALL_PIPELINE_ID_LEN (bc_pipeline_id cfg)) (qe_window_seq e)
    (bc_broker_id cfg) epoch
    (if negb kf_ready then OBICALL_RESULT_INVALID
     else if degraded cfg kf decision then OBICALL_RESULT_DEGRADED else OBICALL_RESULT_VALID)
    (if kf_ready then OBICALL_SHAPE_POSITION_2D else 0)
    (if kf_ready then 2 else 0)
    (if kf_ready then pad 6 0 [mean 0%nat; mean 1%nat] else replicate 6 0)
    (if kf_ready then 4 else 0)
    (if kf_ready then pad 36 0 [cov 0%nat; cov 1%nat; cov 4%nat; cov 5%nat] else replicate 36 0)
    (compute_result_digest_from_obs junk (qe_obs e)) (bc_config_digest cfg)
    now (i64 (now + bc_result_validity_ns cfg))
    (if used then 1 else 0)
    (if used then pad 8 (replicate 32 0) [strncpy_zeroed OBICALL_SENSOR_ID_LEN (obs_sensor_id (qe_obs e))]
     else replicate 8 (replicate 32 0))
    (if bc_dgt_enabled cfg then dd_selected_action_id decision else 4294967295).

(** The locked part of the loop over a batch. *)
Definition process_entry (cfg : broker_config) (junk : list Z) (nan now : Z) (e : queue_entry) (st : broker_state)
    : obicall_result * broker_state :=
  let sensors := if negb (qe_admitted e =? 0)
                 then touch_sensor_locked (obs_sensor_id (qe_obs e)) now (bs_sensors st) else bs_sensors st in
  let st := BrokerState sensors (bs_kf st) (bs_kf_ready st) (bs_last_processed_window_seq st)
              (bs_dgt_hyst st) (bs_last_heartbeat st) (bs_epoch_belief st) (bs_owner_belief st) in
  let '(selected_mask, decision, hyst) := select_sensors cfg now st in
  let '(used, kf, kf_ready) := estimate cfg selected_mask e st in
  (build_result cfg junk nan now (bs_epoch_belief st) e used kf_ready kf decision,
   BrokerState sensors kf kf_ready (qe_window_seq e) hyst (bs_last_heartbeat st)
     (bs_epoch_belief st) (bs_owner_belief st)).

(** ** The gate connection *)

(** The rest of the loop's body: bytes out, and the two scripts after it. *)
Definition publish_result (result : obicall_result) (tx : list tx_event) (rx : list rx_event)
    : list Z * list tx_event * list rx_event :=
  match obicall_wire_encode_result result 2048 with
  | Err _ => ([], tx, rx)
  | Ok rbuf =>
      let '(ok, out, tx) := osal_send_frame OBICALL_MSG_RESULT_PUBLISH rbuf tx in
      (out, tx, if ok then (osal_recv_frame 64 rx).2 else rx)
  end.

Definition heartbeat_period_ns : Z := 150 * 1000000.

Definition broker_heartbeat (cfg : broker_config) (now : Z) (reader_alive : bool) (st : broker_state)
    : obicall_msg_heartbeat :=
  Heartbeat (bc_broker_id cfg) (bs_epoch_belief st) (bs_last_processed_window_seq st) (bc_config_digest cfg)
    OBICALL_CHECKPOINT_SCHEMA_VERSION (if reader_alive then 1 else 0) now.

(** What the reply to a heartbeat does to the beliefs. *)
Definition take_reply (fr : frame_result) (st : broker_state) : broker_state :=
  match fr with
  | Frame mt payload =>
      if mt =? OBICALL_MSG_STATUS_REPLY then
        match obicall_wire_decode_status_reply payload with
        | Ok reply =>
            BrokerState (bs_sensors st) (bs_kf st) (bs_kf_ready st) (bs_last_processed_window_seq st)
              (bs_dgt_hyst st) (bs_last_heartbeat st) (sr_gate_epoch reply) (sr_owner_broker_id reply)
        | Err _ => st
        end
      else st
  | _ => st
  end.

Definition heartbeat_turn (cfg : broker_config) (now : Z) (reader_alive : bool) (st : broker_state)
    (tx : list tx_event) (rx : list rx_event) : list Z * broker_state * list tx_event * list rx_event :=
  if i64 (now - bs_last_heartbeat st) >=? heartbeat_period_ns then
    let st := BrokerState (bs_sensors st) (bs_kf st) (bs_kf_ready st) (bs_last_processed_window_seq st)
                (bs_dgt_hyst st) now (bs_epoch_belief st) (bs_owner_belief st) in
    match obicall_wire_encode_heartbeat (broker_heartbeat cfg now reader_alive st) 128 with
    | Err _ => ([], st, tx, rx)
    | Ok hbuf =>
        let '(ok, out, tx) := osal_send_frame OBICALL_MSG_HEARTBEAT hbuf tx in
        if ok then let '(fr, rx) := osal_recv_frame 64 rx in (out, take_reply fr st, tx, rx)
        else (out, st, tx, rx)
    end
  else ([], st, tx, rx).

(** ** The loop of [main] *)

Fixpoint process_batch (cfg : broker_config) (junk : list Z) (nan : Z) (batch : list (Z * queue_entry))
    (st : broker_state) (tx : list tx_event) (rx : list rx_event)
    : list obicall_result * list Z * broker_state * list tx_event * list rx_event :=
  match batch with
  | [] => ([], [], st, tx, rx)
  | (now, e) :: batch =>
      let '(result, st) := process_entry cfg junk nan now e st in
      let '(out, tx, rx) := publish_result result tx rx in
      let '(results, outs, st, tx, rx) := process_batch cfg junk nan batch st tx rx in
      (result :: results, out ++ outs, st, tx, rx)
  end.

(** One turn: the batch in hand (each entry with the time it is looked at), then
    the heartbeat. *)
Definition broker_turn (cfg : broker_config) (junk : list Z) (nan : Z) (clock : nat -> Z) (now : Z)
    (rd : reader) (st : broker_state) (tx : list tx_event) (rx : list rx_event)
    : list obicall_result * list Z * reader * broker_state * list tx_event * list rx_event :=
  let '(batch, q) := drain (rd_queue rd) in
  let '(results, out, st, tx, rx) :=
    process_batch cfg junk nan (imap (fun i e => (clock i, e)) batch) st tx rx in
  let '(out', st, tx, rx) := heartbeat_turn cfg now (rd_alive rd) st tx rx in
  (results, out ++ out', Reader (rd_alive rd) (rd_pending rd) q, st, tx, rx).

Definition broker_init : broker_state :=
  BrokerState [] (KalmanState 0 (replicate 4 f64_zero) (replicate 16 f64_zero) 0) false 0 None 0 0
    OBICALL_BROKER_NONE.

(** The two connections [main] opens before the loop, each [None] when it cannot be
    established; the bytes sent on both, or the exit code. *)
Definition broker_connect (token : list Z) (journal gate : option (list tx_event))
    : result Z ((list Z * list tx_event) * (list Z * list tx_event)) :=
  let connect conn := match conn with None => None | Some tx => procutil_client_connect token OBICALL_ROLE_BROKER tx end in
  match connect journal with
  | None => Err 3
  | Some j => match connect gate with None => Err 4 | Some g => Ok (j, g) end
  end.

(** * Lemmas *)

(** ** Results are well formed *)

Lemma obicall_sha256_chars junk data : is_chars OBICALL_DIGEST_LEN (obicall_sha256 junk data).
Proof.
  unfold obicall_sha256, obicall_sha256_final, sha256_output, be_bytes4.
  split; [done|]. repeat constructor; apply u8_range.
Qed.

Lemma result_digest_chars junk obs : is_chars OBICALL_DIGEST_LEN (compute_result_digest_from_obs junk obs).
Proof.
  unfold compute_result_digest_from_obs. case_match; [apply obicall_sha256_chars|].
  split; [by rewrite length_replicate|by apply Forall_replicate].
Qed.
#[global] Opaque compute_result_digest_from_obs.

(** What [main] sets up. *)
Record wf_config (cfg : broker_config) : Prop := {
  wc_broker : is_u32 (bc_broker_id cfg);
  wc_pipeline : is_chars OBICALL_PIPELINE_ID_LEN (bc_pipeline_id cfg);
  wc_digest : is_chars OBICALL_DIGEST_LEN (bc_config_digest cfg);
  wc_names : Z.of_nat (length (bc_sensor_names cfg)) <= MAX_TRACKED_SENSORS;
  wc_actions : forall a, is_u32 (da_action_id (action_at (bc_dgt cfg) a))
}.

Record wf_entry (e : queue_entry) : Prop := {
  we_window : is_u64 (qe_window_seq e);
  we_obs : valid_observation (qe_obs e)
}.

(** The hysteresis state is one the selection wrote. *)
Record wf_state (cfg : broker_config) (st : broker_state) : Prop := {
  ws_epoch : is_u64 (bs_epoch_belief st);
  ws_hyst : forall h, bs_dgt_hyst st = Some h -> 0 <= hs_previous_action_index h
}.

Lemma zero_chars n : is_chars n (replicate n 0).
Proof. split; [apply length_replicate|by apply Forall_replicate]. Qed.

Lemma build_result_valid cfg junk nan now epoch e used kf_ready kf decision :
  wf_config cfg -> wf_entry e -> is_u64 epoch -> is_i64 now -> is_u32 (dd_selected_action_id decision) ->
  valid_result (build_result cfg junk nan now epoch e used kf_ready kf decision).
Proof.
  intros [Hb Hp Hd _ _] [Hw Ho] He Hn Ha.
  assert (H6 : forall l : list Z, (length l <= 6)%nat -> Forall is_u64 l ->
    length (pad 6 0 l) = 6%nat /\ Forall is_u64 (pad 6 0 l)) by (by intros; split; [apply length_pad|apply Forall_pad]).
  assert (H36 : forall l : list Z, (length l <= 36)%nat -> Forall is_u64 l ->
    length (pad 36 0 l) = 36%nat /\ Forall is_u64 (pad 36 0 l)) by (by intros; split; [apply length_pad|apply Forall_pad]).
  assert (Hz : forall n, Forall is_u64 (replicate n 0)) by (intros; by apply Forall_replicate).
  split; [split| | |]; unfold build_result; cbn [res_struct_size res_schema_version res_pipeline_id res_window_seq
    res_broker_id res_epoch res_status res_payload_shape res_payload_count res_payload res_covariance_count
    res_covariance res_input_digest res_config_digest res_timestamp_ns res_valid_until_ns res_source_count
    res_sources res_dgt_action_id]; try done.
  - apply strncpy_zeroed_chars; [unfold OBICALL_PIPELINE_ID_LEN; lia|by destruct Hp].
  - destruct kf_ready; [|done]. cbn [negb]. by destruct (degraded _ _ _).
  - by destruct kf_ready.
  - by destruct kf_ready.
  - destruct kf_ready; [|apply length_replicate]. apply H6; [cbn; lia|]. repeat constructor; apply bits_of_f64_u64.
  - destruct kf_ready; [|done]. apply H6; [cbn; lia|]. repeat constructor; apply bits_of_f64_u64.
  - by destruct kf_ready.
  - destruct kf_ready; [|apply length_replicate]. apply H36; [cbn; lia|]. repeat constructor; apply bits_of_f64_u64.
  - destruct kf_ready; [|done]. apply H36; [cbn; lia|]. repeat constructor; apply bits_of_f64_u64.
  - apply result_digest_chars.
  - apply i64_range.
  - by destruct used.
  - destruct used; [by rewrite length_pad by (cbn; lia)|apply length_replicate].
  - destruct used; [|apply Forall_replicate, zero_chars]. apply Forall_pad; [apply zero_chars|].
    constructor; [|done]. apply strncpy_zeroed_chars; [unfold OBICALL_SENSOR_ID_LEN; lia|].
    apply (wfo_sensor_id _ (vo_wf _ Ho)).
  - by destruct (bc_dgt_enabled cfg).
  - by destruct kf_ready.
  - by destruct kf_ready.
  - by destruct used.
Qed.

(** ** The selection *)

Lemma elem_eligible cfg now sensors a :
  0 <= a < pt_action_count (bc_dgt cfg) -> eligible_at (eligibility cfg now sensors) a = true ->
  mask_observable cfg now sensors (da_sensor_subset_mask (action_at (bc_dgt cfg) a)) = true /\
  da_sensor_subset_mask (action_at (bc_dgt cfg) a) <> 0.
Proof.
  intros Ha. unfold eligible_at, eligibility, pad. rewrite lookup_app_l.
  2:{ unfold upto. rewrite !length_fmap, length_seq. lia. }
  rewrite list_lookup_fmap. unfold upto. rewrite list_lookup_fmap, lookup_seq_lt by lia.
  cbn [fmap option_fmap option_map default from_option]. rewrite Nat.add_0_l, Z2Nat.id by lia.
  destruct (mask_observable _ _ _ _); [|done]. destruct (Z.eqb_spec (da_sensor_subset_mask (action_at (bc_dgt cfg) a)) 0); done.
Qed.

Definition all_sensors (cfg : broker_config) : Z :=
  let n := Z.of_nat (length (bc_sensor_names cfg)) in
  if n >? 0 then u32 (u32 (Z.shiftl 1 n) - 1) else 4294967295.

(** What the selection returns: the mask of an action whose sensors are all
    observable, or every sensor (the table disabled or without eligible action). *)
Lemma select_sensors_spec cfg now st mask decision hyst :
  wf_state cfg st -> select_sensors cfg now st = (mask, decision, hyst) ->
  (forall h, hyst = Some h -> 0 <= hs_previous_action_index h) /\
  ((exists a, 0 <= a < pt_action_count (bc_dgt cfg) /\ bc_dgt_enabled cfg = true /\
      mask = u32 (da_sensor_subset_mask (action_at (bc_dgt cfg) a)) /\
      dd_selected_action_id decision = da_action_id (action_at (bc_dgt cfg) a) /\
      mask_observable cfg now (bs_sensors st) (da_sensor_subset_mask (action_at (bc_dgt cfg) a)) = true) \/
   (mask = all_sensors cfg /\ decision = zero_decision /\ hyst = bs_dgt_hyst st /\
    (bc_dgt_enabled cfg = false \/ bc_sensor_names cfg = [] \/
     exists err, obicall_dgt_select_action (Some (bc_dgt cfg)) (eligibility cfg now (bs_sensors st))
       (bs_dgt_hyst st) (bc_dgt_hysteresis_margin cfg) 0 = Err err))).
Proof.
  intros [_ Hh]. unfold select_sensors, all_sensors. cbv zeta.
  destruct (bc_dgt_enabled cfg && _) eqn:Een.
  2:{ intros [= <- <- <-]. split; [done|]. right. split_and!; try done.
      apply andb_false_iff in Een as [|]; [by left|right; left]. destruct (bc_sensor_names cfg); [done|cbn in *; lia]. }
  apply andb_true_iff in Een as [Een _].
  destruct (obicall_dgt_select_action _ _ _ _ _) as [[d h]|err] eqn:Es; intros [= <- <- <-];
    [|split; [done|right; eauto 10]].
  destruct (select_eligible_spec _ _ _ _ _ _ _ (Z.le_refl 0) Hh Es) as (Hi & Hel & _ & Hid & Hprev).
  split; [intros h' Eh; injection Eh as <-; rewrite Hprev; exact (proj1 Hi)|]. left. exists (dd_selected_action_index d).
  split_and!; try done; try lia. by apply elem_eligible.
Qed.

Lemma select_all cfg now st :
  bc_dgt_enabled cfg = false -> select_sensors cfg now st = (all_sensors cfg, zero_decision, bs_dgt_hyst st).
Proof. intros H. unfold select_sensors. by rewrite H. Qed.

(** ** Runs *)

(** Windows one after the other, with the time each is looked at. *)
Fixpoint process_all (cfg : broker_config) (junk : list Z) (nan : Z) (hist : list (Z * queue_entry))
    (st : broker_state) : list obicall_result * broker_state :=
  match hist with
  | [] => ([], st)
  | (now, e) :: hist =>
      let '(r, st) := process_entry cfg junk nan now e st in
      let '(rs, st) := process_all cfg junk nan hist st in (r :: rs, st)
  end.

(** What the connection does has no influence on results and state. *)
Lemma process_batch_all cfg junk nan batch st tx rx :
  let '(results, _, st', _, _) := process_batch cfg junk nan batch st tx rx in
  process_all cfg junk nan batch st = (results, st').
Proof.
  revert st tx rx. induction batch as [|[now e] batch IH]; intros st tx rx; [done|].
  cbn [process_batch process_all]. destruct (process_entry _ _ _ _ _ _) as [r st1].
  destruct (publish_result r tx rx) as [[out tx1] rx1]. specialize (IH st1 tx1 rx1).
  destruct (process_batch _ _ _ _ _ _ _) as [[[[rs outs] st2] tx2] rx2]. by rewrite IH.
Qed.

Lemma process_all_snoc cfg junk nan hist now e st :
  (process_all cfg junk nan (hist ++ [(now, e)]) st).2 =
  (process_entry cfg junk nan now e (process_all cfg junk nan hist st).2).2.
Proof.
  revert st. induction hist as [|[t e'] hist IH]; intros st; cbn [app process_all].
  - by destruct (process_entry _ _ _ _ _ _).
  - destruct (process_entry _ _ _ _ _ _) as [r st1]. specialize (IH st1).
    destruct (process_all _ _ _ (hist ++ _) st1), (process_all _ _ _ hist st1). exact IH.
Qed.

(** An admitted observation of the sensor called [id] was processed at [t]. *)
Definition seen (hist : list (Z * queue_entry)) (id : list Z) (t : Z) : Prop :=
  exists e, (t, e) ∈ hist /\ qe_admitted e <> 0 /\ key (obs_sensor_id (qe_obs e)) = key id.

(** The names the journal admits are terminated ([validated_id_ok]). *)
Definition wf_hist (hist : list (Z * queue_entry)) : Prop :=
  Forall (fun p => qe_admitted p.2 <> 0 -> id_ok (obs_sensor_id (qe_obs p.2))) hist.

Definition sensors_ok (hist : list (Z * queue_entry)) (sensors : list sensor_freshness) : Prop :=
  Forall (fun s => length (sf_sensor_id s) = OBICALL_SENSOR_ID_LEN /\
                   seen hist (sf_sensor_id s) (sf_last_seen_ns s)) sensors.

Lemma seen_app hist p id t : seen hist id t -> seen (hist ++ [p]) id t.
Proof. intros (e & Hin & H). exists e. split; [|done]. apply elem_of_app. by left. Qed.

Lemma touch_sensor_ok hist now e sensors :
  id_ok (obs_sensor_id (qe_obs e)) -> qe_admitted e <> 0 -> sensors_ok hist sensors ->
  sensors_ok (hist ++ [(now, e)]) (touch_sensor_locked (obs_sensor_id (qe_obs e)) now sensors).
Proof.
  intros [Hl Ht] Ha Hs.
  assert (Hs' : sensors_ok (hist ++ [(now, e)]) sensors).
  { eapply Forall_impl; [exact Hs|]. intros s [? ?]. split; [done|by apply seen_app]. }
  assert (Hnew : forall id, key (obs_sensor_id (qe_obs e)) = key id -> seen (hist ++ [(now, e)]) id now).
  { intros id Hk. exists e. split; [|done]. apply elem_of_app. right. constructor. }
  unfold touch_sensor_locked, find_sensor. destruct (list_find _ sensors) as [[i s]|] eqn:Ef.
  - apply list_find_Some in Ef as (Hi & Heq & _). unfold sensors_ok in Hs'.
    pose proof (Forall_lookup_1 _ _ _ _ Hs' Hi) as [Hsl _].
    apply (strncmp_eq_c_str _ _ _ Hsl Hl) in Heq.
    apply Forall_insert; [done|]. split; [done|]. by apply Hnew.
  - destruct (_ <? _); [|done]. apply Forall_app. split; [done|]. constructor; [|done].
    destruct (strncpy_zeroed_spec OBICALL_SENSOR_ID_LEN (obs_sensor_id (qe_obs e))) as (Hzl & Hk & _);
      [unfold OBICALL_SENSOR_ID_LEN; lia|].
    split; [done|]. apply Hnew. unfold key. cbn [sf_sensor_id]. rewrite Hk. symmetry. apply take_ge.
    pose proof (c_str_terminated _ Ht). lia.
Qed.

Lemma observable_seen hist window now sensors id :
  length id = OBICALL_SENSOR_ID_LEN -> sensors_ok hist sensors ->
  sensor_observable_locked window now sensors id = true ->
  exists t, seen hist id t /\ i64 (now - t) <= window.
Proof.
  intros Hl Hs. unfold sensor_observable_locked, find_sensor.
  destruct (list_find _ sensors) as [[i s]|] eqn:Ef; [|done]. intros Hw.
  apply list_find_Some in Ef as (Hi & Heq & _).
  pose proof (Forall_lookup_1 _ _ _ _ Hs Hi) as [Hsl (e & Hin & Ha & Hk)].
  apply (strncmp_eq_c_str _ _ _ Hsl Hl) in Heq. unfold key in Hk.
  exists (sf_last_seen_ns s). split; [|lia]. exists e. split_and!; [done|done|]. unfold key. congruence.
Qed.

(** The sensors after the touch of a window. *)
Definition touched (now : Z) (e : queue_entry) (sensors : list sensor_freshness) : list sensor_freshness :=
  if negb (qe_admitted e =? 0) then touch_sensor_locked (obs_sensor_id (qe_obs e)) now sensors else sensors.

Lemma touched_ok hist now e sensors :
  (qe_admitted e <> 0 -> id_ok (obs_sensor_id (qe_obs e))) -> sensors_ok hist sensors ->
  sensors_ok (hist ++ [(now, e)]) (touched now e sensors).
Proof.
  intros Hid Hs. unfold touched. destruct (Z.eqb_spec (qe_admitted e) 0); cbn [negb].
  - eapply Forall_impl; [exact Hs|]. intros s [? ?]. split; [done|by apply seen_app].
  - apply touch_sensor_ok; auto.
Qed.

(** The shape of [process_entry]. *)
Definition with_sensors (st : broker_state) (sensors : list sensor_freshness) : broker_state :=
  BrokerState sensors (bs_kf st) (bs_kf_ready st) (bs_last_processed_window_seq st)
    (bs_dgt_hyst st) (bs_last_heartbeat st) (bs_epoch_belief st) (bs_owner_belief st).

Lemma process_entry_eq cfg junk nan now e st :
  process_entry cfg junk nan now e st =
  let st1 := with_sensors st (touched now e (bs_sensors st)) in
  let '(mask, decision, hyst) := select_sensors cfg now st1 in
  let '(used, kf, kf_ready) := estimate cfg mask e st1 in
  (build_result cfg junk nan now (bs_epoch_belief st) e used kf_ready kf decision,
   BrokerState (bs_sensors st1) kf kf_ready (qe_window_seq e) hyst (bs_last_heartbeat st)
     (bs_epoch_belief st) (bs_owner_belief st)).
Proof. done. Qed.

Lemma process_all_inv cfg junk nan hist :
  wf_hist hist -> let st := (process_all cfg junk nan hist broker_init).2 in
  wf_state cfg st /\ sensors_ok hist (bs_sensors st).
Proof.
  induction hist as [|[now e] hist IH] using rev_ind; intros Hh; [by split; [|constructor]|].
  apply Forall_app in Hh as [Hh He]. apply Forall_inv in He. cbn [snd] in He.
  cbv zeta. rewrite process_all_snoc. destruct (IH Hh) as [Hw Hs]. clear IH.
  generalize dependent (process_all cfg junk nan hist broker_init).2. intros st Hw Hs.
  rewrite process_entry_eq. cbv zeta.
  destruct (select_sensors _ _ _) as [[mask decision] hyst] eqn:Es.
  apply (select_sensors_spec cfg) in Es as [Hhyst _]; [|by destruct Hw].
  destruct (estimate _ _ _ _) as [[used kf] ready]. cbn [snd].
  split; [|by apply touched_ok]. destruct Hw. by split.
Qed.

(** ** When the filter is touched *)

Lemma sensor_bit_spec names id m :
  Z.of_nat (length names) <= 8 -> Z.land m (sensor_bit names id) <> 0 ->
  exists i nm, names !! i = Some nm /\ strncmp_eq OBICALL_SENSOR_ID_LEN nm id = true /\
    Z.testbit m (Z.of_nat i) = true.
Proof.
  intros Hl. unfold sensor_bit, sensor_index. destruct (list_find _ names) as [[i nm]|] eqn:Ef; cbn.
  2:{ by rewrite Z.land_0_r. }
  apply list_find_Some in Ef as (Hi & Heq & _). intros Hne. exists i, nm. split; [done|]. split; [done|].
  apply lookup_lt_Some in Hi. rewrite u32_id in Hne.
  2:{ rewrite Z.shiftl_1_l. split; [by apply Z.pow_nonneg|].
      change 4294967296 with (2 ^ 32). apply Z.pow_lt_mono_r; lia. }
  apply not_false_iff_true. intros Hb. apply Hne. apply Z.bits_inj'. intros k Hk.
  rewrite Z.land_spec, Z.bits_0, Z.shiftl_1_l, Z.pow2_bits_eqb by lia.
  destruct (Z.eqb_spec (Z.of_nat i) k) as [<-|]; [by rewrite Hb|by rewrite andb_false_r].
Qed.

Lemma estimate_used cfg mask e st used kf ready :
  estimate cfg mask e st = (used, kf, ready) ->
  (used = true -> qe_admitted e <> 0 /\ obs_payload_shape (qe_obs e) = OBICALL_SHAPE_POSITION_2D /\
     Z.land mask (sensor_bit (bc_sensor_names cfg) (obs_sensor_id (qe_obs e))) <> 0) /\
  (qe_admitted e = 0 \/ Z.land mask (sensor_bit (bc_sensor_names cfg) (obs_sensor_id (qe_obs e))) = 0 ->
     kf = bs_kf st /\ ready = bs_kf_ready st) /\
  (bs_kf_ready st = true -> ready = true).
Proof.
  unfold estimate. cbv zeta. destruct (negb _ && _ && _) eqn:E.
  - apply andb_true_iff in E as [E E3]. apply andb_true_iff in E as [E1 E2].
    apply negb_true_iff, Z.eqb_neq in E1, E2. apply Z.eqb_eq in E3.
    destruct (bs_kf_ready st) eqn:Er; cbn [negb].
    + destruct (obicall_kalman_update_position _ _ _ _ _ _) as [s kf']. intros H. injection H as <- <- <-.
      split; [done|]. split; [by intros []|done].
    + intros H. injection H as <- <- <-. split; [done|]. split; [by intros []|done].
  - intros H. injection H as <- <- <-. done.
Qed.

(** ** Publishing, and the gate's side of it *)

Lemma result_wire_length r : valid_result r -> (length (result_wire r) <= 756)%nat.
Proof.
  intros [[] Hp Hc Hs]. unfold result_wire. rewrite !length_app, !length_le_bytes.
  rewrite !length_concat_le_bytes, !length_take.
  repeat match goal with H : is_chars _ _ |- _ => destruct H as [-> _] end.
  assert (Hcat : forall l : list (list Z), Forall (is_chars OBICALL_SENSOR_ID_LEN) l ->
    length (concat l) = (32 * length l)%nat).
  { induction 1 as [|x l [Hx _] _ IH]; [done|]. cbn [concat]. rewrite length_app, IH, Hx.
    unfold OBICALL_SENSOR_ID_LEN. cbn [length]. lia. }
  rewrite Hcat by (by apply Forall_fmap, Forall_take). rewrite length_fmap, length_take.
  unfold OBICALL_MAX_PAYLOAD_DOUBLES, OBICALL_MAX_COV_DOUBLES, OBICALL_MAX_SOURCES,
    OBICALL_PIPELINE_ID_LEN, OBICALL_DIGEST_LEN in *. lia.
Qed.

Lemma encode_result_wire r : valid_result r -> obicall_wire_encode_result r 2048 = Ok (result_wire r).
Proof.
  intros Hr. pose proof (result_wire_length r Hr). rewrite enc_spec by done.
  destruct (_ <=? 2048) eqn:E; [done|lia].
Qed.

Lemma decode_result_wire r : valid_result r -> obicall_wire_decode_result (result_wire r) = Ok (canon_result r).
Proof. intros Hr. rewrite <- (app_nil_r (result_wire r)). by rewrite dec_wire. Qed.

Lemma heartbeat_wf cfg now alive st :
  wf_config cfg -> is_i64 now -> is_u64 (bs_epoch_belief st) -> is_u64 (bs_last_processed_window_seq st) ->
  wf_heartbeat (broker_heartbeat cfg now alive st).
Proof. intros [? ? ? ? ?] ? ? ?. split; try done. by destruct alive. Qed.

Lemma heartbeat_wire_length m : wf_heartbeat m -> length (heartbeat_wire m) = 68%nat.
Proof.
  intros []. unfold heartbeat_wire. rewrite !length_app, !length_le_bytes.
  match goal with H : is_chars _ (hb_config_digest m) |- _ => destruct H as [-> _] end. done.
Qed.

(** ** A window's result *)

(** What the result says of the window and of its maker. *)
Record result_of (cfg : broker_config) (junk : list Z) (now epoch : Z) (e : queue_entry) (r : obicall_result) : Prop := {
  ro_struct_size : res_struct_size r = sizeof_result;
  ro_schema : res_schema_version r = OBICALL_RESULT_SCHEMA_VERSION;
  ro_pipeline : res_pipeline_id r = strncpy_zeroed OBICALL_PIPELINE_ID_LEN (bc_pipeline_id cfg);
  ro_window : res_window_seq r = qe_window_seq e;
  ro_broker : res_broker_id r = bc_broker_id cfg;
  ro_epoch : res_epoch r = epoch;
  ro_valid_until : res_valid_until_ns r = i64 (now + bc_result_validity_ns cfg);
  ro_digest : res_input_digest r = compute_result_digest_from_obs junk (qe_obs e)
}.

Lemma process_entry_spec cfg junk nan now e st r st' :
  wf_config cfg -> wf_entry e -> wf_state cfg st -> is_i64 now ->
  process_entry cfg junk nan now e st = (r, st') ->
  valid_result r /\ wf_state cfg st' /\ bs_epoch_belief st' = bs_epoch_belief st /\
  result_of cfg junk now (bs_epoch_belief st) e r.
Proof.
  intros Hc He Hs Hn. rewrite process_entry_eq. cbv zeta. set (st1 := with_sensors _ _).
  destruct (select_sensors cfg now st1) as [[mask decision] hyst] eqn:Es.
  apply select_sensors_spec in Es as [Hhyst Hsel]; [|destruct Hs; by split].
  destruct (estimate cfg mask e st1) as [[used kf] ready]. intros [= <- <-]. split_and!; [|destruct Hs; by split|done|by split].
  apply build_result_valid; try done; [by destruct Hs|].
  destruct Hsel as [(a & _ & _ & _ & -> & _)|(_ & -> & _)]; [by apply wc_actions|done].
Qed.

Lemma result_committable cfg junk now epoch e r s gnow :
  result_of cfg junk now epoch e r -> bc_broker_id cfg = gs_owner_broker_id s ->
  bc_broker_id cfg <> OBICALL_BROKER_NONE -> epoch = gs_epoch s -> gnow < i64 (now + bc_result_validity_ns cfg) ->
  (In (res_pipeline_id r) (gp_pipeline_id <$> active s) \/ gs_pipeline_count s < 8) ->
  (forall w, committed s (res_pipeline_id r) = Some w -> w < res_window_seq r) ->
  committable s (canon_result r) gnow.
Proof.
  intros [] Hb Hn He Hg Hs Hw. split; cbn [canon_result res_struct_size res_schema_version res_valid_until_ns
    res_pipeline_id res_broker_id res_epoch res_window_seq]; try done; by congruence || lia.
Qed.

(** A committable result that reaches the gate is committed. *)
Lemma publish_commits gjunk gnow r ctx :
  valid_result r -> gate_inv (gc_state ctx) -> committable (gc_state ctx) (canon_result r) gnow ->
  exists ack ctx', handle_result_publish gjunk disk_ok gnow (result_wire r) ctx = (Some ack, ctx') /\
    ra_accepted ack = 1 /\ ra_window_seq ack = res_window_seq r /\
    gate_inv (gc_state ctx') /\ gs_epoch (gc_state ctx') = gs_epoch (gc_state ctx) /\
    gs_owner_broker_id (gc_state ctx') = gs_owner_broker_id (gc_state ctx) /\
    forall id, committed (gc_state ctx') id =
      if decide (id = res_pipeline_id r) then Some (res_window_seq r) else committed (gc_state ctx) id.
Proof.
  intros Hv Hg Hcom. unfold handle_result_publish. rewrite decode_result_wire by done.
  destruct (obicall_gate_decide_publish gjunk (gc_state ctx) (canon_result r) gnow) as [[o s'] i] eqn:Ed.
  destruct (publish_spec _ _ _ _ _ _ _ Hg (canon_result_wf _ Hv) Ed) as [Hg' Hep Hown Hcommit Hcommitted].
  apply Hcommit in Hcom. subst o.
  destruct (persist_locked disk_ok (with_state ctx s')) as [ok ctx'] eqn:Ep.
  pose proof (persist_disk_ok (with_state ctx s') Hg') as Hok. rewrite Ep in Hok. cbn [fst] in Hok. subst ok.
  pose proof (persist_locked_state disk_ok (with_state ctx s')) as Hst. rewrite Ep in Hst. cbn [snd] in Hst.
  eexists _, ctx'. split; [done|]. rewrite Hst. cbn [gc_state with_state]. split_and!; try done.
  intros id. rewrite Hcommitted. by destruct (decide (id = res_pipeline_id r)) as [->|Hne];
    [rewrite decide_True|rewrite decide_False by (by intros [_ ?])].
Qed.

(** ** The default table *)

Definition flags (b0 b1 : bool) : list Z :=
  pad 16 0 [if b0 then 1 else 0; if b1 then 1 else 0; if b0 && b1 then 1 else 0].

Lemma default_eligibility cfg now sensors n0 n1 :
  bc_dgt cfg = init_default_dgt_table -> bc_sensor_names cfg = [n0; n1] ->
  let observable := sensor_observable_locked (bc_sensor_fresh_window_ns cfg) now sensors in
  eligibility cfg now sensors = flags (observable n0) (observable n1).
Proof.
  intros Ht Hn observable. unfold eligibility, flags. rewrite Ht. f_equal.
  unfold mask_observable. rewrite Hn. cbn. fold observable.
  by destruct (observable n0), (observable n1).
Qed.

Definition default_choice (b0 b1 : bool) : option (Z * Z) :=
  match obicall_dgt_select_action (Some init_default_dgt_table) (flags b0 b1) None f64_zero 0 with
  | Ok (d, _) => Some (dd_selected_action_id d, da_sensor_subset_mask (action_at init_default_dgt_table (dd_selected_action_index d)))
  | Err _ => None
  end.

Lemma default_choice_margin b0 b1 margin :
  obicall_dgt_select_action (Some init_default_dgt_table) (flags b0 b1) None margin 0 =
  obicall_dgt_select_action (Some init_default_dgt_table) (flags b0 b1) None f64_zero 0.
Proof.
  assert (Hv : (obicall_dgt_validate_table (Some init_default_dgt_table)).1 = OBICALL_OK) by (vm_compute; reflexivity).
  rewrite !select_valid by exact Hv. reflexivity.
Qed.

Lemma default_choices :
  default_choice true true = Some (2, 3) /\ default_choice true false = Some (0, 1) /\
  default_choice false true = Some (1, 2) /\ default_choice false false = None.
Proof. split_and!; vm_compute; reflexivity. Qed.

(** * The claims *)

(** What one window does to the filter, and what the result says of it.  [used] is read
    off the result: it names one source or none. *)
Record estimated (cfg : broker_config) (nan : Z) (e : queue_entry) (st : broker_state) (r : obicall_result)
    (st' : broker_state) : Prop := {
  et_sources : res_source_count r = 0 \/ res_source_count r = 1;
  et_used : res_source_count r = 1 ->
    qe_admitted e <> 0 /\ obs_payload_shape (qe_obs e) = OBICALL_SHAPE_POSITION_2D /\
    head (res_sources r) = Some (strncpy_zeroed OBICALL_SENSOR_ID_LEN (obs_sensor_id (qe_obs e)));
  et_ready : bs_kf_ready st' = true <-> bs_kf_ready st = true \/ res_source_count r = 1;
  et_first : bs_kf_ready st = false -> res_source_count r = 1 -> bs_kf st' =
    obicall_kalman_init (bc_kf_params cfg) (f64_of_bits (default 0 (obs_payload (qe_obs e) !! 0%nat)))
      (f64_of_bits (default 0 (obs_payload (qe_obs e) !! 1%nat))) (obs_sample_time_ns (qe_obs e));
  et_next : bs_kf_ready st = true -> res_source_count r = 1 ->
    obicall_kalman_update_position (bc_kf_params cfg) (obs_sample_time_ns (qe_obs e))
      (f64_of_bits (default 0 (obs_payload (qe_obs e) !! 0%nat))) (f64_of_bits (default 0 (obs_payload (qe_obs e) !! 1%nat)))
      (f64_of_bits <$> [default 0 (obs_covariance (qe_obs e) !! 0%nat); default 0 (obs_covariance (qe_obs e) !! 1%nat);
                        default 0 (obs_covariance (qe_obs e) !! 2%nat); default 0 (obs_covariance (qe_obs e) !! 3%nat)])
      (bs_kf st) = (OBICALL_OK, bs_kf st');
  et_rejected : qe_admitted e = 0 -> bs_kf st' = bs_kf st /\ res_source_count r = 0;
  et_invalid : bs_kf_ready st' = false -> res_status r = OBICALL_RESULT_INVALID /\ res_payload_count r = 0;
  et_valid : bs_kf_ready st' = true -> res_status r <> OBICALL_RESULT_INVALID /\
    res_payload_shape r = OBICALL_SHAPE_POSITION_2D /\ res_payload_count r = 2 /\ res_covariance_count r = 4 /\
    take 2 (res_payload r) = (fun i => bits_of_f64 nan (at1 (ks_mean (bs_kf st')) i)) <$> [0; 1]%nat /\
    take 4 (res_covariance r) = (fun i => bits_of_f64 nan (at1 (ks_covariance (bs_kf st')) i)) <$> [0; 1; 4; 5]%nat
}.

(** The sensor of an observation is one of the broker's. *)
Definition configured (cfg : broker_config) (id : list Z) : Prop :=
  exists nm, nm ∈ bc_sensor_names cfg /\ strncmp_eq OBICALL_SENSOR_ID_LEN nm id = true.

Lemma all_sensors_bit cfg id :
  Z.of_nat (length (bc_sensor_names cfg)) <= MAX_TRACKED_SENSORS -> configured cfg id ->
  Z.land (all_sensors cfg) (sensor_bit (bc_sensor_names cfg) id) <> 0.
Proof.
  intros Hl (nm & Hin & Heq). unfold sensor_bit, sensor_index.
  destruct (list_find_elem_of (fun nm => strncmp_eq OBICALL_SENSOR_ID_LEN nm id = true) _ _ Hin Heq) as [[i nm'] Hf].
  rewrite Hf. cbn [fst fmap option_fmap option_map]. apply list_find_Some in Hf as (Hi & _ & _). apply lookup_lt_Some in Hi.
  unfold all_sensors, MAX_TRACKED_SENSORS in *. set (n := length (bc_sensor_names cfg)) in *.
  destruct (Z.gtb_spec (Z.of_nat n) 0); [|lia]. assert (Hn : (n <= 8)%nat) by lia. clear -Hi Hn.
  do 9 (destruct n as [|n]; [do 9 (destruct i as [|i]; [first [lia|vm_compute; discriminate]|]); lia|]). lia.
Qed.

Ltac estimated_fields :=
  cbn [build_result res_source_count res_sources res_status res_payload_count res_payload_shape
    res_covariance_count res_payload res_covariance negb].

Lemma estimate_estimated cfg junk nan now e st mask decision epoch used kf ready st' :
  estimate cfg mask e st = (used, kf, ready) -> bs_kf st' = kf -> bs_kf_ready st' = ready ->
  estimated cfg nan e st (build_result cfg junk nan now epoch e used ready kf decision) st'.
Proof.
  intros Ee Hk Hr. unfold estimate in Ee. cbv zeta in Ee.
  assert (Hstatus : (if degraded cfg kf decision then OBICALL_RESULT_DEGRADED else OBICALL_RESULT_VALID) <> OBICALL_RESULT_INVALID)
    by by destruct (degraded _ _ _).
  destruct (negb _ && _ && _) eqn:E.
  - apply andb_true_iff in E as [E E3]. apply andb_true_iff in E as [E1 E2].
    apply negb_true_iff, Z.eqb_neq in E1. apply Z.eqb_eq in E3.
    destruct (bs_kf_ready st) eqn:Er; cbn [negb] in Ee.
    + destruct (obicall_kalman_update_position _ _ _ _ _ _) as [s kf'] eqn:Eu. injection Ee as <- -> <-.
      split; rewrite ?Hk, ?Hr, ?Er; estimated_fields; try done; try (by case_bool_decide; auto).
      * split; auto.
      * intros _ Hu. case_bool_decide as Hok; [|done]. subst s. exact Eu.
    + injection Ee as <- <- <-. split; rewrite ?Hk, ?Hr, ?Er; estimated_fields; try done; auto.
      split; auto.
  - injection Ee as <- <- <-. split; rewrite ?Hk, ?Hr; estimated_fields; try done; auto.
    + split; [by left|by intros [|]].
    + intros H. by rewrite H.
    + intros H. by rewrite H.
Qed.



(** The default table's policy for a position and an inertial sensor, decided
    afresh: it is valid, the selected sensors are exactly the observable ones
    (both sensors: the balanced action), and with neither it selects nothing, in
    which case the broker falls back to both. *)
Theorem broker_default_policy cfg now st n0 n1 :
  bc_dgt cfg = init_default_dgt_table -> bc_sensor_names cfg = [n0; n1] -> bc_dgt_enabled cfg = true ->
  bs_dgt_hyst st = None ->
  let observable := sensor_observable_locked (bc_sensor_fresh_window_ns cfg) now (bs_sensors st) in
  (obicall_dgt_validate_table (Some (bc_dgt cfg))).1 = OBICALL_OK /\
  let '(mask, decision, hyst) := select_sensors cfg now st in
  match observable n0, observable n1 with
  | true, true => mask = 3 /\ dd_selected_action_id decision = 2
  | true, false => mask = 1 /\ dd_selected_action_id decision = 0
  | false, true => mask = 2 /\ dd_selected_action_id decision = 1
  | false, false => mask = 3 /\ decision = zero_decision /\ hyst = None
  end.
Proof.
  intros Ht Hn He Hh observable. split; [rewrite Ht; vm_compute; reflexivity|].
  unfold select_sensors. rewrite (default_eligibility cfg now _ n0 n1 Ht Hn), Ht, Hn, He, Hh. fold observable.
  rewrite default_choice_margin. clear Hh.
  destruct (observable n0), (observable n1); vm_compute; by split_and!.
Qed.

(** With no sensor configured the mask selects every sensor, but no sensor has a
    bit: the broker never uses an observation, and every result of every run is
    invalid. *)
Theorem broker_without_sensors_never_estimates cfg junk nan hist :
  bc_sensor_names cfg = [] ->
  let '(results, st) := process_all cfg junk nan hist broker_init in
  all_sensors cfg = 4294967295 /\ bs_kf_ready st = false /\
  Forall (fun r => res_status r = OBICALL_RESULT_INVALID /\ res_source_count r = 0) results.
Proof.
  intros Hn. assert (Hr : bs_kf_ready broker_init = false) by done. revert Hr.
  generalize broker_init. induction hist as [|[now e] hist IH]; intros st Hr; cbn [process_all].
  { unfold all_sensors. by rewrite Hn. }
  rewrite process_entry_eq. cbv zeta. set (st1 := with_sensors _ _).
  destruct (select_sensors cfg now st1) as [[mask decision] hyst].
  destruct (estimate cfg mask e st1) as [[used kf] ready] eqn:Ee.
  apply estimate_used in Ee as (Hused & Hun & _).
  assert (Hz : Z.land mask (sensor_bit (bc_sensor_names cfg) (obs_sensor_id (qe_obs e))) = 0)
    by (rewrite Hn; apply Z.land_0_r).
  destruct (Hun (or_intror Hz)) as [_ Hready]. change (bs_kf_ready st1) with (bs_kf_ready st) in Hready.
  assert (used = false) as -> by (destruct used; [by destruct (Hused eq_refl) as (_ & _ & ?)|done]).
  rewrite Hr in Hready. subst ready.
  specialize (IH (BrokerState (bs_sensors st1) kf false (qe_window_seq e) hyst (bs_last_heartbeat st)
     (bs_epoch_belief st) (bs_owner_belief st)) eq_refl).
  destruct (process_all _ _ _ _ _) as [rs st2]. destruct IH as (? & ? & ?). split_and!; try done. by constructor.
Qed.

(** Broker and gate together: the result the owner computes for a new window,
    with its belief up to date and before the result expires, is committed by the
    gate, acknowledged as accepted, and is then the pipeline's last committed
    window, when the gate's file operations succeed. *)
Theorem broker_owner_commits cfg junk nan now e st r st' gjunk gnow ctx :
  wf_config cfg -> wf_entry e -> wf_state cfg st -> is_i64 now ->
  process_entry cfg junk nan now e st = (r, st') ->
  gate_inv (gc_state ctx) -> gs_owner_broker_id (gc_state ctx) = bc_broker_id cfg ->
  bc_broker_id cfg <> OBICALL_BROKER_NONE -> bs_epoch_belief st = gs_epoch (gc_state ctx) ->
  gnow < i64 (now + bc_result_validity_ns cfg) ->
  (In (res_pipeline_id r) (gp_pipeline_id <$> active (gc_state ctx)) \/ gs_pipeline_count (gc_state ctx) < 8) ->
  (forall w, committed (gc_state ctx) (res_pipeline_id r) = Some w -> w < qe_window_seq e) ->
  exists ack ctx', handle_result_publish gjunk disk_ok gnow (result_wire r) ctx = (Some ack, ctx') /\
    ra_accepted ack = 1 /\ ra_window_seq ack = qe_window_seq e /\
    committed (gc_state ctx') (res_pipeline_id r) = Some (qe_window_seq e).
Proof.
  intros Hc He Hs Hn E Hg Hown Hne Hep Hexp Hslot Hwin.
  destruct (process_entry_spec _ _ _ _ _ _ _ _ Hc He Hs Hn E) as (Hv & _ & _ & Ho).
  assert (Hcom : committable (gc_state ctx) (canon_result r) gnow)
    by (apply (result_committable cfg junk now (bs_epoch_belief st) e); [done..|by rewrite (ro_window _ _ _ _ _ _ Ho)]).
  destruct (publish_commits gjunk gnow r ctx Hv Hg Hcom) as (ack & ctx' & Eh & Ha & Hw & _ & _ & _ & Hcd).
  exists ack, ctx'. rewrite <- (ro_window _ _ _ _ _ _ Ho). split_and!; [done..|]. by rewrite Hcd, decide_True.
Qed.

(** ** Beliefs *)

Lemma status_reply_sendable m : wf_status_reply m -> sendable 64 OBICALL_MSG_STATUS_REPLY (status_reply_wire m).
Proof.
  intros []. split; unfold status_reply_wire; rewrite ?length_app, ?length_le_bytes;
    unfold is_u8, OBICALL_MSG_STATUS_REPLY, OBICALL_WIRE_MAX_PAYLOAD; lia.
Qed.

Lemma result_ack_sendable m : wf_result_ack m -> sendable 64 OBICALL_MSG_RESULT_ACK (result_ack_wire m).
Proof.
  intros [[H _]]. split; unfold result_ack_wire; rewrite ?length_app, ?length_le_bytes, ?H;
    unfold is_u8, OBICALL_MSG_RESULT_ACK, OBICALL_WIRE_MAX_PAYLOAD, OBICALL_PIPELINE_ID_LEN; lia.
Qed.

Lemma take_status_reply m st :
  wf_status_reply m ->
  take_reply (Frame OBICALL_MSG_STATUS_REPLY (status_reply_wire m)) st =
    BrokerState (bs_sensors st) (bs_kf st) (bs_kf_ready st) (bs_last_processed_window_seq st)
      (bs_dgt_hyst st) (bs_last_heartbeat st) (sr_gate_epoch m) (sr_owner_broker_id m).
Proof.
  intros Hm. unfold take_reply. rewrite Z.eqb_refl, <- (app_nil_r (status_reply_wire m)).
  by rewrite dec_wire.
Qed.

(** A heartbeat that is due and goes out whole. *)
Lemma heartbeat_sent cfg now alive st tx out tx1 rx :
  wf_config cfg -> is_i64 now -> is_u64 (bs_epoch_belief st) -> is_u64 (bs_last_processed_window_seq st) ->
  heartbeat_period_ns <= i64 (now - bs_last_heartbeat st) ->
  osal_send_frame OBICALL_MSG_HEARTBEAT (heartbeat_wire (broker_heartbeat cfg now alive st)) tx = (true, out, tx1) ->
  heartbeat_turn cfg now alive st tx rx =
    let st1 := BrokerState (bs_sensors st) (bs_kf st) (bs_kf_ready st) (bs_last_processed_window_seq st)
                 (bs_dgt_hyst st) now (bs_epoch_belief st) (bs_owner_belief st) in
    (out, take_reply (osal_recv_frame 64 rx).1 st1, tx1, (osal_recv_frame 64 rx).2).
Proof.
  intros Hc Hn He Hw Hdue Hsend. unfold heartbeat_turn.
  replace (i64 _ >=? _) with true by lia. cbv zeta.
  set (st1 := BrokerState _ _ _ _ _ _ _ _).
  change (broker_heartbeat cfg now alive st1) with (broker_heartbeat cfg now alive st).
  pose proof (heartbeat_wf cfg now alive st Hc Hn He Hw) as Hwf.
  rewrite enc_spec by done. rewrite (heartbeat_wire_length _ Hwf). change (Z.of_nat 68 <=? 128) with true. cbn match.
  rewrite Hsend. by destruct (osal_recv_frame 64 rx).
Qed.

(** A heartbeat whose reply is next on the connection: broker and gate then agree,
    the broker's belief being the epoch and owner the gate holds after it handled
    that very heartbeat (a promotion included). *)
Theorem broker_learns_epoch cfg now alive st tx out tx1 rx env gnow ctx reply ctx' rest :
  wf_config cfg -> is_i64 now -> is_u64 (bs_epoch_belief st) -> is_u64 (bs_last_processed_window_seq st) ->
  bc_broker_id cfg = OBICALL_BROKER_A \/ bc_broker_id cfg = OBICALL_BROKER_B ->
  heartbeat_period_ns <= i64 (now - bs_last_heartbeat st) ->
  osal_send_frame OBICALL_MSG_HEARTBEAT (heartbeat_wire (broker_heartbeat cfg now alive st)) tx = (true, out, tx1) ->
  handle_heartbeat env gnow (heartbeat_wire (broker_heartbeat cfg now alive st)) ctx = (Some reply, ctx') ->
  wf_status_reply reply -> rx_chunks rx ->
  rx_stream rx = frame_bytes OBICALL_MSG_STATUS_REPLY (status_reply_wire reply) ++ rest ->
  exists st' rx', heartbeat_turn cfg now alive st tx rx = (out, st', tx1, rx') /\
    bs_epoch_belief st' = gs_epoch (gc_state ctx') /\
    bs_owner_belief st' = gs_owner_broker_id (gc_state ctx') /\
    bs_last_heartbeat st' = now /\ rx_chunks rx' /\ rx_stream rx' = rest.
Proof.
  intros Hc Hn He Hw Hid Hdue Hsend Hgate Hr Hrx Hst.
  pose proof (heartbeat_wf cfg now alive st Hc Hn He Hw) as Hwf.
  assert (Hreply : reply = status_reply gnow ctx').
  { revert Hgate. set (hb := broker_heartbeat cfg now alive st) in *.
    unfold handle_heartbeat. rewrite <- (app_nil_r (heartbeat_wire hb)), dec_wire by done.
    change (id hb) with hb. change (hb_broker_id hb) with (bc_broker_id cfg).
    replace (negb (bc_broker_id cfg =? OBICALL_BROKER_A) && negb (bc_broker_id cfg =? OBICALL_BROKER_B)) with false
      by (destruct Hid as [-> | ->]; done).
    intros E. injection E as <- <-. done. }
  destruct (recv_frame_chunks 64 _ _ rx rest (status_reply_sendable _ Hr) Hrx Hst) as (rx' & Er & Hrx' & Hst').
  rewrite (heartbeat_sent cfg now alive st tx out tx1 rx) by done. cbv zeta. rewrite Er. cbn [fst snd].
  eexists _, rx'. split; [reflexivity|]. rewrite take_status_reply, Hreply by done. by split_and!.
Qed.

(** One reply that comes too late is never made up for: with an acknowledgement
    still unread when the heartbeat is sent, the heartbeat takes that for its
    reply and ignores it, its own reply stays unread in turn, and epoch and owner
    keep their old values. *)
Theorem broker_late_ack_desyncs cfg now alive st tx out tx1 rx ack rest :
  wf_config cfg -> is_i64 now -> is_u64 (bs_epoch_belief st) -> is_u64 (bs_last_processed_window_seq st) ->
  heartbeat_period_ns <= i64 (now - bs_last_heartbeat st) ->
  osal_send_frame OBICALL_MSG_HEARTBEAT (heartbeat_wire (broker_heartbeat cfg now alive st)) tx = (true, out, tx1) ->
  wf_result_ack ack -> rx_chunks rx ->
  rx_stream rx = frame_bytes OBICALL_MSG_RESULT_ACK (result_ack_wire ack) ++ rest ->
  exists st' rx', heartbeat_turn cfg now alive st tx rx = (out, st', tx1, rx') /\
    bs_epoch_belief st' = bs_epoch_belief st /\ bs_owner_belief st' = bs_owner_belief st /\
    rx_chunks rx' /\ rx_stream rx' = rest.
Proof.
  intros Hc Hn He Hw Hdue Hsend Hack Hrx Hst.
  destruct (recv_frame_chunks 64 _ _ rx rest (result_ack_sendable _ Hack) Hrx Hst) as (rx' & Er & Hrx' & Hst').
  rewrite (heartbeat_sent cfg now alive st tx out tx1 rx) by done. cbv zeta. rewrite Er. cbn [fst snd].
  eexists _, rx'. split; [reflexivity|]. unfold take_reply.
  change (OBICALL_MSG_RESULT_ACK =? OBICALL_MSG_STATUS_REPLY) with false. by split_and!.
Qed.

(** One turn of the loop empties the queue and publishes one result per entry that
    waited, in the queue's order, in the windows' numbers. *)
Theorem broker_turn_order cfg junk nan clock now rd st tx rx :
  queue_inv (rd_queue rd) ->
  let '(results, _, rd', _, _, _) := broker_turn cfg junk nan clock now rd st tx rx in
  res_window_seq <$> results = qe_window_seq <$> contents (rd_queue rd) /\
  contents (rd_queue rd') = [] /\ queue_inv (rd_queue rd').
Proof.
  intros Hq. unfold broker_turn. rewrite drain_spec by done.
  assert (Hall : forall batch st, res_window_seq <$> (process_all cfg junk nan batch st).1 = (fun p => qe_window_seq p.2) <$> batch).
  { clear. induction batch as [|[t e] batch IH]; intros st; [done|]. cbn [process_all].
    rewrite process_entry_eq. cbv zeta. destruct (select_sensors _ _ _) as [[mask decision] hyst].
    destruct (estimate _ _ _ _) as [[used kf] ready]. specialize (IH (BrokerState (bs_sensors (with_sensors st
      (touched t e (bs_sensors st)))) kf ready (qe_window_seq e) hyst (bs_last_heartbeat st)
      (bs_epoch_belief st) (bs_owner_belief st))).
    destruct (process_all _ _ _ _ _) as [rs st2]. cbn [fst fmap list_fmap snd] in IH |- *. by rewrite IH. }
  pose proof (process_batch_all cfg junk nan (imap (fun i e => (clock i, e)) (contents (rd_queue rd))) st tx rx) as Hb.
  destruct (process_batch _ _ _ _ _ _ _) as [[[[results out] st2] tx2] rx2].
  specialize (Hall (imap (fun i e => (clock i, e)) (contents (rd_queue rd))) st). rewrite Hb in Hall. cbn [fst] in Hall.
  destruct (heartbeat_turn _ _ _ _ _ _) as [[[out' st3] tx3] rx3]. cbn [rd_queue].
  split; [|split; [apply contents_empty|destruct Hq; by split]].
  rewrite Hall, fmap_imap. apply list_eq. intros i. rewrite list_lookup_imap, list_lookup_fmap.
  by destruct (contents (rd_queue rd) !! i).
Qed.

(** * Witnesses *)

Definition sample_cfg : broker_config :=
  BrokerConfig OBICALL_BROKER_A (chars 32 "nav"%string) (replicate 32 2) 500000000 1000000000
    [chars 32 "gnss"%string; chars 32 "imu"%string]
    (KalmanParams f64_zero f64_zero f64_4 f64_one f64_zero) init_default_dgt_table f64_zero true.

Definition sample_window : queue_entry := QueueEntry 7 sample_observation 1.
Definition believing : broker_state :=
  BrokerState [] (bs_kf broker_init) false 0 None 0 1 OBICALL_BROKER_A.

Lemma action_ids_u32 t :
  forallb (fun x => (0 <=? da_action_id x) && (da_action_id x <? 4294967296)) (pt_actions t) = true ->
  forall a, is_u32 (da_action_id (action_at t a)).
Proof.
  rewrite forallb_forall. intros H a. unfold action_at. destruct (_ !! _) as [x|] eqn:E; [|done].
  specialize (H x (proj1 (list_elem_of_In _ _) (list_elem_of_lookup_2 _ _ _ E))). cbn. unfold is_u32. lia.
Qed.

Lemma sample_cfg_wf : wf_config sample_cfg.
Proof.
  split; [done|by apply is_chars_eval|by apply is_chars_eval|done|].
  apply action_ids_u32. vm_compute. reflexivity.
Qed.

Lemma sample_window_wf : wf_entry sample_window.
Proof. split; [done|]. split; [apply sample_observation_wf|done..]. Qed.

Lemma believing_wf cfg : wf_state cfg believing.
Proof. by split. Qed.

Definition sample_step := process_entry sample_cfg sample_junk 0 1000 sample_window believing.


Lemma sample_gnss_id : id_ok (chars 32 "gnss"%string).
Proof. split; vm_compute; reflexivity. Qed.


(** Only the first sensor was heard of, within its window. *)
Lemma broker_policy_witness :
  (select_sensors sample_cfg 1000 (with_sensors believing [SensorFreshness (chars 32 "gnss"%string) 900])).1.1 = 1.
Proof.
  pose proof (broker_default_policy sample_cfg 1000 (with_sensors believing [SensorFreshness (chars 32 "gnss"%string) 900])
    (chars 32 "gnss"%string) (chars 32 "imu"%string) eq_refl eq_refl eq_refl eq_refl) as [_ H].
  destruct (select_sensors _ _ _) as [[mask decision] hyst].
  match type of H with context [sensor_observable_locked ?a ?b ?c (chars 32 "gnss"%string)] =>
    change (sensor_observable_locked a b c (chars 32 "gnss"%string)) with true in H;
    change (sensor_observable_locked a b c (chars 32 "imu"%string)) with false in H end.
  exact (proj1 H).
Defined.

Definition blind_cfg : broker_config :=
  BrokerConfig OBICALL_BROKER_A (chars 32 "nav"%string) (replicate 32 2) 500000000 1000000000 []
    (KalmanParams f64_zero f64_zero f64_4 f64_one f64_zero) init_default_dgt_table f64_zero false.

Lemma broker_blind_witness :
  let '(_, st) := process_all blind_cfg sample_junk 0 [(1000, sample_window)] broker_init in bs_kf_ready st = false.
Proof.
  pose proof (broker_without_sensors_never_estimates blind_cfg sample_junk 0 [(1000, sample_window)] eq_refl) as H.
  destruct (process_all _ _ _ _ _) as [rs st]. exact (proj1 (proj2 H)).
Defined.

Lemma broker_commits_witness :
  exists ack ctx', handle_result_publish sample_junk disk_ok 2000 (result_wire sample_step.1) sample_ctx = (Some ack, ctx') /\
    ra_accepted ack = 1.
Proof.
  destruct (broker_owner_commits sample_cfg sample_junk 0 1000 sample_window believing sample_step.1 sample_step.2
    sample_junk 2000 sample_ctx sample_cfg_wf sample_window_wf (believing_wf _) ltac:(done) (surjective_pairing _))
    as (ack & ctx' & E & Ha & _).
  - apply sample_gate_inv. done.
  - reflexivity.
  - discriminate.
  - reflexivity.
  - vm_compute. reflexivity.
  - right. vm_compute. reflexivity.
  - intros w Hw. vm_compute in Hw. discriminate.
  - exists ack, ctx'. split; [exact E|exact Ha].
Defined.

Definition hb_now : Z := 200000000.
Definition hb_tx : list tx_event := replicate 2 (TxAccept 4096).
Definition hb_out : list Z :=
  frame_bytes OBICALL_MSG_HEARTBEAT (heartbeat_wire (broker_heartbeat sample_cfg hb_now true believing)).

Lemma hb_sent :
  osal_send_frame OBICALL_MSG_HEARTBEAT (heartbeat_wire (broker_heartbeat sample_cfg hb_now true believing)) hb_tx =
    (true, hb_out, []).
Proof. vm_compute. reflexivity. Qed.

Definition learned := handle_heartbeat disk_ok 300 (heartbeat_wire (broker_heartbeat sample_cfg hb_now true believing)) sample_ctx.
Definition learned_reply : obicall_msg_status_reply := default (StatusReply 0 0 0 0 0) learned.1.

Lemma broker_learns_witness :
  exists st' rx', heartbeat_turn sample_cfg hb_now true believing hb_tx
      (dribble (frame_bytes OBICALL_MSG_STATUS_REPLY (status_reply_wire learned_reply))) = (hb_out, st', [], rx') /\
    bs_epoch_belief st' = gs_epoch (gc_state learned.2).
Proof.
  destruct (broker_learns_epoch sample_cfg hb_now true believing hb_tx hb_out []
    (dribble (frame_bytes OBICALL_MSG_STATUS_REPLY (status_reply_wire learned_reply))) disk_ok 300 sample_ctx
    learned_reply learned.2 [] sample_cfg_wf ltac:(done) ltac:(done) ltac:(done) (or_introl eq_refl)
    ltac:(by vm_compute) hb_sent ltac:(vm_compute; reflexivity) ltac:(by vm_compute) (proj1 (dribble_chunks _)))
    as (st' & rx' & E & He & _).
  - rewrite (proj2 (dribble_chunks _)). symmetry. apply app_nil_r.
  - exists st', rx'. split; [exact E|exact He].
Defined.

Definition late_ack : obicall_msg_result_ack := ResultAck (chars 32 "nav"%string) 7 1 0.

Lemma late_ack_wf : wf_result_ack late_ack.
Proof. split; [by apply is_chars_eval|done..]. Qed.

Lemma broker_desync_witness :
  exists st' rx', heartbeat_turn sample_cfg hb_now true believing hb_tx
      (dribble (frame_bytes OBICALL_MSG_RESULT_ACK (result_ack_wire late_ack))) = (hb_out, st', [], rx') /\
    bs_epoch_belief st' = 1.
Proof.
  destruct (broker_late_ack_desyncs sample_cfg hb_now true believing hb_tx hb_out []
    (dribble (frame_bytes OBICALL_MSG_RESULT_ACK (result_ack_wire late_ack))) late_ack []
    sample_cfg_wf ltac:(done) ltac:(done) ltac:(done) ltac:(by vm_compute) hb_sent late_ack_wf
    (proj1 (dribble_chunks _)))
    as (st' & rx' & E & He & _).
  - rewrite (proj2 (dribble_chunks _)). symmetry. apply app_nil_r.
  - exists st', rx'. split; [exact E|exact He].
Defined.

Lemma broker_turn_witness :
  let rd := Reader true None (enqueue sample_window queue_init) in
  let '(results, _, _, _, _, _) := broker_turn sample_cfg sample_junk 0 (fun _ => 1000) 1000 rd believing [] [] in
  res_window_seq <$> results = [7].
Proof.
  cbv zeta. pose proof (broker_turn_order sample_cfg sample_junk 0 (fun _ => 1000) 1000
    (Reader true None (enqueue sample_window queue_init)) believing [] []
    (proj1 (enqueue_spec sample_window queue_init queue_init_inv))) as H.
  destruct (broker_turn _ _ _ _ _ _ _ _ _) as [[[[[results out] rd'] st'] tx'] rx']. destruct H as [H _].
  rewrite H. vm_compute. reflexivity.
Defined.
