(* ===== verification/Pipeline.v ===== *)
(** * Pipeline: journal, broker and gate, connected

    The three daemons are modelled on their own; here their connections are put
    together.  What the journal sent reaches the broker's reader, the window loop turns
    the queue into results, and the bytes it publishes reach a connection of the gate. *)

From S2P Require Import Prelude Types Samples Digest Cursor Wire WireMsg Binary64 Stdio Journal Ipc JournalDaemon.
From S2P Require Import Gate GateDaemon GateServe Dgt Estimator BrokerQueue Broker.

(** The frame a result is published in. *)
Definition publish_frame (r : obicall_result) : list Z := frame_bytes OBICALL_MSG_RESULT_PUBLISH (result_wire r).

(** The turns of one connection of the gate, one after the other. *)
Fixpoint serve_turns (junk token : list Z) (envs : list turn_env) (ctx : gate_ctx) (c : gate_conn)
    : gate_ctx * gate_conn :=
  match envs with
  | [] => (ctx, c)
  | env :: envs =>
      let '(ctx, c) := connection_turn junk token env ctx c in serve_turns junk token envs ctx c
  end.

(** The result of each window is handed to the gate at the time of its turn. *)
Definition publish_event (env : turn_env) (r : obicall_result) : gate_event :=
  EvResult (tn_persist env) (tn_now env) (result_wire r).

(** ** What the broker publishes *)

Lemma publish_result_prefix r tx rx : valid_result r -> (publish_result r tx rx).1.1 `prefix_of` publish_frame r.
Proof.
  intros Hr. unfold publish_result. rewrite encode_result_wire by done.
  destruct (osal_send_frame _ _ tx) as [[ok out] tx'] eqn:E. apply send_frame_spec in E as [H _]. exact H.
Qed.

Lemma process_batch_results cfg junk nan batch st tx rx :
  wf_config cfg -> wf_state cfg st -> Forall (fun p => is_i64 p.1 /\ wf_entry p.2) batch ->
  let '(results, out, st', _, _) := process_batch cfg junk nan batch st tx rx in
  Forall valid_result results /\
  Forall2 (fun p r => result_of cfg junk p.1 (bs_epoch_belief st) p.2 r) batch results /\
  (length out <= length (concat (publish_frame <$> results)))%nat /\
  (length out = length (concat (publish_frame <$> results)) -> out = concat (publish_frame <$> results)).
Proof.
  intros Hc. revert st tx rx. induction batch as [|[now e] batch IH]; intros st tx rx Hs Hb; [by split_and!; try constructor|].
  apply Forall_cons in Hb as [[Hn He] Hb]. cbn [fst snd] in Hn, He. cbn [process_batch].
  destruct (process_entry cfg junk nan now e st) as [r st1] eqn:E.
  destruct (process_entry_spec _ _ _ _ _ _ _ _ Hc He Hs Hn E) as (Hv & Hs1 & Hep & Ho).
  pose proof (publish_result_prefix r tx rx Hv) as Hp.
  destruct (publish_result r tx rx) as [[out tx1] rx1]. cbn [fst] in Hp.
  specialize (IH st1 tx1 rx1 Hs1 Hb). rewrite Hep in IH.
  destruct (process_batch cfg junk nan batch st1 tx1 rx1) as [[[[rs outs] st2] tx2] rx2].
  destruct IH as (IH1 & IH2 & IH3 & IH4). cbn [fmap list_fmap concat]. rewrite !length_app.
  pose proof (prefix_length _ _ Hp) as Hl. split_and!; [by constructor|by constructor|lia|].
  intros Hlen. rewrite IH4 by lia. f_equal. by apply prefix_length_eq; [|lia].
Qed.

(** ** What the gate does with it *)

(** A result of broker [b] for the pipeline [id] in epoch [ep], on time. *)
Record on_time (b ep : Z) (id : list Z) (r : obicall_result) (env : turn_env) : Prop := {
  ot_struct_size : res_struct_size r = sizeof_result;
  ot_schema : res_schema_version r = OBICALL_RESULT_SCHEMA_VERSION;
  ot_pipeline : res_pipeline_id r = id;
  ot_broker : res_broker_id r = b;
  ot_epoch : res_epoch r = ep;
  ot_unexpired : tn_now env < res_valid_until_ns r;
  ot_persist : tn_persist env = disk_ok
}.

Lemma committed_active s id w : committed s id = Some w -> In id (gp_pipeline_id <$> active s).
Proof.
  unfold committed, committed_in. destruct (list_find _ _) as [[i p]|] eqn:E; [|done]. intros _.
  apply list_find_Some in E as (Hp & <- & _). apply list_elem_of_In, list_elem_of_fmap. exists p.
  split; [done|by eapply list_elem_of_lookup_2].
Qed.

Lemma result_frame_sendable r : valid_result r -> sendable 4096 OBICALL_MSG_RESULT_PUBLISH (result_wire r).
Proof.
  intros Hr. pose proof (result_wire_length r Hr) as Hl.
  split; unfold is_u8, OBICALL_MSG_RESULT_PUBLISH, OBICALL_WIRE_MAX_PAYLOAD; [lia| |]; clear -Hl; lia.
Qed.

(** One result arrives and is committed. *)
Lemma serve_result junk token env role ctx gs gtx gout rest r b id w :
  valid_result r -> on_time b (gs_epoch (gc_state ctx)) id r env -> role <> OBICALL_ROLE_CLI ->
  gate_inv (gc_state ctx) -> gs_owner_broker_id (gc_state ctx) = b -> b <> OBICALL_BROKER_NONE ->
  (In id (gp_pipeline_id <$> active (gc_state ctx)) \/ gs_pipeline_count (gc_state ctx) < 8) ->
  (forall w', committed (gc_state ctx) id = Some w' -> w' <= w) -> w < res_window_seq r ->
  rx_chunks gs -> rx_stream gs = publish_frame r ++ rest ->
  exists ctx' gs' gtx' gout', connection_turn junk token env ctx (GateConn (PhServe role) gs gtx gout) =
      (ctx', GateConn (PhServe role) gs' gtx' gout') /\ rx_chunks gs' /\ rx_stream gs' = rest /\
    gate_step junk ctx (publish_event env r) = (Some (canon_result r), ctx') /\
    gate_inv (gc_state ctx') /\ gs_epoch (gc_state ctx') = gs_epoch (gc_state ctx) /\
    gs_owner_broker_id (gc_state ctx') = b /\ committed (gc_state ctx') id = Some (res_window_seq r).
Proof.
  intros Hv [H1 H2 H3 H4 H5 H6 H7] Hrole Hg Hown Hb Hslot Hw Hlt Hgs Hst.
  assert (Hcom : committable (gc_state ctx) (canon_result r) (tn_now env)).
  { split; cbn [canon_result res_struct_size res_schema_version res_valid_until_ns res_pipeline_id res_broker_id
      res_epoch res_window_seq]; rewrite ?H3; try done; try congruence.
    intros w' H%Hw. lia. }
  destruct (publish_commits junk (tn_now env) r ctx Hv Hg Hcom) as (ack & ctx' & E & Hacc & _ & Hg' & He' & Ho' & Hc').
  destruct (recv_frame_chunks 4096 _ _ gs rest (result_frame_sendable r Hv) Hgs Hst) as (gs' & Er & Hgs' & Hst').
  unfold connection_turn. cbn [gn_phase gn_rx gn_tx gn_out]. rewrite Er. unfold serve_message.
  cbn [Z.eqb OBICALL_MSG_RESULT_PUBLISH OBICALL_MSG_HEARTBEAT Pos.eqb]. rewrite H7, E.
  destruct (send_reply _ _ gtx) as [out gtx'] eqn:Es. exists ctx', gs', gtx', (gout ++ out).
  rewrite (proj2 (Z.eqb_neq role _) Hrole). split; [done|]. split; [done|]. split; [done|]. split.
  { unfold publish_event. cbn [gate_step]. rewrite H7, E, decode_result_wire, Hacc by done. done. }
  split_and!; [done|done|congruence|]. by rewrite Hc', decide_True by done.
Qed.

Lemma serve_results junk token envs role ep ctx gs gtx gout results rest b id w :
  Forall2 (on_time b ep id) results envs -> Forall valid_result results ->
  role <> OBICALL_ROLE_CLI -> b <> OBICALL_BROKER_NONE ->
  gs_epoch (gc_state ctx) = ep -> gate_inv (gc_state ctx) -> gs_owner_broker_id (gc_state ctx) = b ->
  (In id (gp_pipeline_id <$> active (gc_state ctx)) \/ gs_pipeline_count (gc_state ctx) < 8) ->
  (forall w', committed (gc_state ctx) id = Some w' -> w' <= w) ->
  res_window_seq <$> results = seqZ (w + 1) (Z.of_nat (length results)) ->
  rx_chunks gs -> rx_stream gs = concat (publish_frame <$> results) ++ rest ->
  let '(ctx', c') := serve_turns junk token envs ctx (GateConn (PhServe role) gs gtx gout) in
  gate_trace junk ctx (zip_with publish_event envs results) = (canon_result <$> results, ctx') /\
  gn_phase c' = PhServe role /\ rx_stream (gn_rx c') = rest /\
  (results <> [] -> committed (gc_state ctx') id = Some (w + Z.of_nat (length results))).
Proof.
  intros Ht Hv Hrole Hb. revert ctx gs gtx gout w Hv.
  induction Ht as [|r env results envs Hr Ht IH]; intros ctx gs gtx gout w Hv He Hg Ho Hslot Hw Hseq Hgs Hst; [done|].
  apply Forall_cons in Hv as [Hvr Hv]. cbn [fmap list_fmap length concat] in Hseq, Hst.
  rewrite Nat2Z.inj_succ, <- Z.add_1_l, seqZ_app in Hseq by lia.
  change (seqZ (w + 1) 1) with [w + 1] in Hseq. injection Hseq as Hrw Hseq.
  rewrite <- app_assoc in Hst. rewrite <- He in Hr.
  destruct (serve_result junk token env role ctx gs gtx gout _ r b id w Hvr Hr Hrole Hg Ho Hb Hslot Hw ltac:(lia) Hgs Hst)
    as (ctx1 & gs1 & gtx1 & gout1 & E & Hgs1 & Hst1 & Estep & Hg1 & He1 & Ho1 & Hc1).
  cbn [serve_turns]. rewrite E.
  specialize (IH ctx1 gs1 gtx1 gout1 (w + 1) Hv ltac:(congruence) Hg1 Ho1 (or_introl (committed_active _ _ _ Hc1))).
  specialize (IH ltac:(intros w'; rewrite Hc1; intros [= <-]; lia) Hseq Hgs1 Hst1).
  destruct (serve_turns junk token envs ctx1 _) as [ctx' c']. destruct IH as (IH1 & IH2 & IH3 & IH4).
  cbn [zip_with gate_trace fmap list_fmap length]. rewrite Estep, IH1. split_and!; [done|done|done|].
  intros _. destruct results as [|r' results]; [|rewrite IH4 by done; f_equal; cbn [length]; lia].
  cbn [length]. inversion Ht. subst envs. rewrite Hrw in Hc1. cbn in IH1. injection IH1 as <-. rewrite Hc1. f_equal; lia.
Qed.

(** ** What the journal sent *)

(** A subscriber that began with the first window was sent the front of the journal's
    history, while the ring still holds all of it. *)
Lemma sent_history base y i :
  sys_inv base y -> Z.of_nat (length (jd_log y)) < RING_CAPACITY ->
  (forall c e, sent_at y i !! 0%nat = Some (c, e) -> c = 1) ->
  let n := length (sent_at y i) in
  (n <= length (jd_log y))%nat /\ (sent_at y i).*2 = entry_of <$> take n (jd_log y) /\
  sr_window_seq <$> take n (jd_log y) = seqZ 1 (Z.of_nat n).
Proof.
  intros Hinv Hring Hfirst n. destruct (sent_entries _ _ i Hinv) as (start & Hs).
  assert (Hk : forall k c e, sent_at y i !! k = Some (c, e) ->
    exists d, jd_log y !! k = Some d /\ e = entry_of d /\ sr_window_seq d = Z.of_nat k + 1).
  { intros k c e Hk. assert (Hstart : start = 1).
    { destruct (lookup_lt_is_Some_2 (sent_at y i) 0) as [[c0 e0] H0]; [apply lookup_lt_Some in Hk; lia|].
      destruct (Hs _ _ _ H0) as (Hc0 & _). rewrite (Hfirst _ _ H0) in Hc0. lia. }
    destruct (Hs _ _ _ Hk) as (Hc & _ & Hd). destruct Hd as (d & Hd & -> & Hw & _); [lia|].
    exists d. split_and!; [rewrite <- Hd; f_equal; lia|done|lia]. }
  assert (Hn : (n <= length (jd_log y))%nat).
  { destruct (decide (n = 0%nat)); [lia|]. destruct (lookup_lt_is_Some_2 (sent_at y i) (n - 1)) as [[c e] Hl]; [lia|].
    destruct (Hk _ _ _ Hl) as (d & Hd & _). apply lookup_lt_Some in Hd. lia. }
  split; [done|]. split; apply list_eq_same_length with (n := n).
  1, 4: by rewrite ?length_fmap, ?length_take, ?length_seqZ; lia.
  1, 3: by rewrite ?length_fmap, ?length_take, ?length_seqZ; lia.
  - intros k x z Hlt Hx Hz. rewrite list_lookup_fmap, lookup_take_lt in Hz by lia.
    rewrite list_lookup_fmap in Hx. destruct (sent_at y i !! k) as [[c e]|] eqn:E; [|done].
    destruct (Hk _ _ _ E) as (d & Hd & -> & _). rewrite Hd in Hz. cbn in Hx, Hz. congruence.
  - intros k x z Hlt Hx Hz. rewrite list_lookup_fmap, lookup_take_lt in Hx by lia.
    rewrite lookup_seqZ_lt in Hz by lia. injection Hz as <-.
    destruct (lookup_lt_is_Some_2 (sent_at y i) k) as [[c e] Hl]; [lia|].
    destruct (Hk _ _ _ Hl) as (d & Hd & _ & Hw). rewrite Hd in Hx. cbn in Hx. injection Hx as <-. lia.
Qed.

(** A broker's connections open as broker connections, and its reader's request makes
    the journal begin with the first window, while the ring holds everything. *)
Lemma broker_subscribes token jtx gtx hello jtx1 ghello gtx1 pid out jtx2 jrx rx grx rest i y :
  is_chars OBICALL_RUN_TOKEN_LEN token -> bytes pid ->
  broker_connect token (Some jtx) (Some gtx) = Ok ((hello, jtx1), (ghello, gtx1)) ->
  reader_request pid jtx1 = Some (out, jtx2) ->
  rx_chunks jrx -> rx_stream jrx = hello -> rx_chunks rx -> rx_stream rx = out ++ rest ->
  rx_chunks grx -> rx_stream grx = ghello ->
  0 <= js_ring_head (jd_state y) < RING_CAPACITY -> js_run_token (jd_state y) = token ->
  verify_turn jrx i y = set_slot y i
    (ConnSlot (cs_in_use (conn_at y i)) OBICALL_ROLE_BROKER (cs_next_seq_to_send (conn_at y i)) (cs_caught_up (conn_at y i)))
    ThReplayRequest (sent_at y i) /\
  (procutil_server_verify_hello token grx).1 = Some OBICALL_ROLE_BROKER /\
  exists c, request_turn rx i y = set_slot y i c (ThFetch 1) (sent_at y i).
Proof.
  intros Htok Hpid Hc Hreq Hjrx Hjst Hrx Hst Hgrx Hgst Hhead Hyt. unfold broker_connect in Hc.
  destruct (procutil_client_connect token OBICALL_ROLE_BROKER jtx) as [[h t]|] eqn:Ej; [|done].
  destruct (procutil_client_connect token OBICALL_ROLE_BROKER gtx) as [[h' t']|] eqn:Eg; [|done].
  injection Hc as -> -> -> ->.
  destruct (hello_handshake token token OBICALL_ROLE_BROKER _ _ _ jrx [] Htok ltac:(done) Ej Hjrx) as (j' & Ejv & _); [by rewrite app_nil_r|].
  destruct (hello_handshake token token OBICALL_ROLE_BROKER _ _ _ grx [] Htok ltac:(done) Eg Hgrx) as (g' & Egv & _); [by rewrite app_nil_r|].
  split; [unfold verify_turn; by rewrite Hyt, Ejv, decide_True|]. split; [by rewrite Egv, decide_True|].
  unfold reader_request in Hreq. set (m := ReplayRequest _ 1) in Hreq.
  assert (Hm : wf_replay_request m).
  { split; [|done]. apply strncpy_zeroed_chars; [unfold OBICALL_PIPELINE_ID_LEN; lia|done]. }
  assert (Hlen : length (replay_request_wire m) = 40%nat).
  { destruct Hm as [[Hl _] _]. unfold replay_request_wire. by rewrite length_app, length_le_bytes, Hl. }
  rewrite enc_spec, Hlen in Hreq by done. change (Z.of_nat 40 <=? 128) with true in Hreq. cbn match in Hreq.
  destruct (osal_send_frame _ _ jtx1) as [[[] o] tx'] eqn:Es; [|done]. injection Hreq as -> ->.
  apply send_frame_spec in Es as [_ Es]. destruct (Es eq_refl) as [-> _].
  destruct (recv_frame_chunks 2048 OBICALL_MSG_REPLAY_REQUEST (replay_request_wire m) rx rest) as (rx' & Er & _);
    [split; unfold is_u8, OBICALL_MSG_REPLAY_REQUEST, OBICALL_WIRE_MAX_PAYLOAD; lia|done|done|].
  unfold request_turn. rewrite Er. cbn [fst]. rewrite Z.eqb_refl. cbn [negb].
  rewrite <- (app_nil_r (replay_request_wire m)), dec_wire by done. change (id m) with m. cbn [rq_from_window_seq m].
  assert (Hcur : replay_cursor 1 (js_ring_head (jd_state y)) = 1).
  { unfold replay_cursor, RING_CAPACITY in *. rewrite u64_id by (unfold is_u64; lia).
    repeat case_match; lia. }
  rewrite Hcur. by eexists.
Qed.

(** The entries of a stretch of history, each sent at its time. *)
Lemma entries_sendable (times : list Z) (ds : list segment_record) :
  Forall is_i64 times -> Forall valid_record ds ->
  Forall (fun p => sendable_entry p.1 p.2) (zip times (entry_of <$> ds)).
Proof.
  intros Ht. revert ds. induction Ht as [|t times Ht _ IH]; [constructor|].
  intros [|d ds] Hds; [constructor|]. apply Forall_cons in Hds as [(Hw & _ & Ho) Hds]. cbn [fmap list_fmap zip_with]. constructor; [|by apply IH].
  split; [done|done| |done]. cbn [entry_of re_admission_reason snd]. by destruct (sr_reason d).
Qed.

Lemma history_entries (clock : nat -> Z) (ds : list segment_record) :
  (forall k, is_i64 (clock k)) -> Forall valid_record ds ->
  Forall (fun p => is_i64 p.1 /\ wf_entry p.2) (imap (fun k e => (clock k, e)) ((fun d => received (entry_of d)) <$> ds)).
Proof.
  intros Hc Hds. apply Forall_lookup. intros k [t e]. rewrite list_lookup_imap, list_lookup_fmap.
  destruct (ds !! k) as [d|] eqn:E; [|done]. cbn [fmap option_fmap option_map fst snd]. intros H. injection H as <- <-. split; [apply Hc|].
  destruct (Forall_lookup_1 _ _ _ _ Hds E) as (Hw & _ & Ho). split; [exact Hw|exact (canon_observation_valid _ Ho)].
Qed.

(** What the reader hands to the window loop. *)
Lemma reader_batch torn jpid times ds outs rx :
  bytes jpid -> Forall is_i64 times -> length times = length ds -> Forall valid_record ds ->
  Forall2 (fun p out => fully_sent jpid p.1 p.2 out) (zip times (entry_of <$> ds)) outs ->
  rx_chunks rx -> rx_stream rx = concat outs -> (length ds <= QUEUE_ROOM)%nat ->
  (drain (rd_queue (reader_loop torn (2 * length ds) rx (Reader true None queue_init)).1)).1 =
    (fun d => received (entry_of d)) <$> ds.
Proof.
  intros Hjp Htimes Htl Hds Hsent Hrx Hrs Hroom. pose proof (entries_sendable times ds Htimes Hds) as Hse.
  assert (Hzl : length (zip times (entry_of <$> ds)) = length ds) by (rewrite length_zip, length_fmap; lia).
  destruct (reader_entries torn jpid _ outs rx (Reader true None queue_init) Hjp Hse Hsent Hrx Hrs eq_refl eq_refl)
    as (rx' & Erd & _). rewrite Hzl in Erd.
  destruct (enqueue_all_spec (zip times (entry_of <$> ds)) queue_init queue_init_inv) as [Hq Hcont];
    [change (contents queue_init) with (@nil queue_entry); rewrite Hzl; exact Hroom|].
  rewrite Erd. cbn [fst rd_queue]. rewrite drain_spec by exact Hq. cbn [fst].
  rewrite Hcont. change (contents queue_init) with (@nil queue_entry). cbn [app].
  change (fun p : Z * ring_entry => received p.2) with (compose received (@snd Z ring_entry)).
  rewrite list_fmap_compose, snd_zip by (rewrite length_fmap; lia). by rewrite <- list_fmap_compose.
Qed.

(** The results of a batch, each handed over in time. *)
Lemma batch_on_time cfg junk ep batch results envs :
  Forall2 (fun p r => result_of cfg junk p.1 ep p.2 r) batch results -> length envs = length batch ->
  (forall k env p, envs !! k = Some env -> batch !! k = Some p ->
     tn_persist env = disk_ok /\ tn_now env < i64 (p.1 + bc_result_validity_ns cfg)) ->
  Forall2 (on_time (bc_broker_id cfg) ep (strncpy_zeroed OBICALL_PIPELINE_ID_LEN (bc_pipeline_id cfg))) results envs /\
  res_window_seq <$> results = qe_window_seq <$> batch.*2.
Proof.
  intros Hof Hel Henv. pose proof (Forall2_length _ _ _ Hof) as Hl. split.
  - apply Forall2_same_length_lookup. split; [lia|]. intros k r env Hr He.
    destruct (lookup_lt_is_Some_2 batch k) as [p Hp]; [apply lookup_lt_Some in Hr; lia|].
    destruct (Henv _ _ _ He Hp) as [Hper Hnow], (Forall2_lookup_lr _ _ _ _ _ _ Hof Hp Hr). split; try done. congruence.
  - clear -Hof. induction Hof as [|p r batch rs Hpr _ IH]; [done|]. cbn [fmap list_fmap]. by rewrite IH, (ro_window _ _ _ _ _ _ Hpr).
Qed.

(** A result is of its record, and on time. *)
Definition result_for (junk : list Z) (d : segment_record) (r : obicall_result) : Prop :=
  res_window_seq r = sr_window_seq d /\
  res_input_digest r = compute_result_digest_from_obs junk (canon_observation (sr_obs d)).

Lemma results_on_time cfg junk clock ep ds results envs :
  Forall2 (fun p r => result_of cfg junk p.1 ep p.2 r)
    (imap (fun k e => (clock k, e)) ((fun d => received (entry_of d)) <$> ds)) results ->
  length envs = length ds ->
  (forall k env, envs !! k = Some env ->
     tn_persist env = disk_ok /\ tn_now env < i64 (clock k + bc_result_validity_ns cfg)) ->
  Forall2 (result_for junk) ds results /\
  Forall2 (on_time (bc_broker_id cfg) ep (strncpy_zeroed OBICALL_PIPELINE_ID_LEN (bc_pipeline_id cfg))) results envs.
Proof.
  intros Hof Hel Henv. split.
  - apply Forall2_same_length_lookup. split; [apply Forall2_length in Hof; by rewrite length_imap, length_fmap in Hof|].
    intros k d r Hd Hr. eapply Forall2_lookup_lr in Hof; [|rewrite list_lookup_imap, list_lookup_fmap, Hd; reflexivity|exact Hr].
    destruct Hof. by split.
  - apply (batch_on_time cfg junk ep _ results envs Hof); [by rewrite length_imap, length_fmap|].
    intros k env p He Hp. rewrite list_lookup_imap in Hp.
    apply fmap_Some in Hp as (e & _ & ->). by apply Henv.
Qed.

(** * The claim *)

(** C7: from the journal to the committed result.  Let a broker have subscribed from the
    first window, and the journal's log fit its ring of 4096 and its stream to the
    broker so far be at most 511 windows, what the broker's queue holds without dropping
    any (a full queue drops silently), all taken by the socket.  Then however the
    network cuts the bytes up, the broker turns every window of the journal's history
    sent so far into one result, in order, each for the observation the journal recorded
    under that number.  If moreover the broker owns the gate's epoch, its pipeline has a
    slot or finds one and nothing committed yet, and every result reaches the gate
    whole and before it expires, and the gate's file operations succeed, then the gate
    accepts every one of them, and the pipeline's last committed window is the last one
    sent. *)
Theorem pipeline_commits_every_window
    jpid jcfg segment jtoken y i times outs rx torn
    cfg junk nan clock st tx grx gjunk gtoken ctx gs gtx envs :
  (* the journal, and its connection to the broker *)
  journald_reach (journald_init jpid jcfg segment jtoken) y -> log_fits y ->
  Z.of_nat (length (jd_log y)) < RING_CAPACITY ->
  (forall c e, sent_at y i !! 0%nat = Some (c, e) -> c = 1) ->
  bytes jpid -> Forall is_i64 times -> length times = length (sent_at y i) ->
  Forall2 (fun p out => fully_sent jpid p.1 p.2 out) (zip times (sent_at y i).*2) outs ->
  rx_chunks rx -> rx_stream rx = concat outs -> (length (sent_at y i) <= QUEUE_ROOM)%nat ->
  (* the broker *)
  wf_config cfg -> wf_state cfg st -> (forall k, is_i64 (clock k)) ->
  (* the gate *)
  gate_inv (gc_state ctx) -> gs_owner_broker_id (gc_state ctx) = bc_broker_id cfg ->
  bc_broker_id cfg <> OBICALL_BROKER_NONE -> bs_epoch_belief st = gs_epoch (gc_state ctx) ->
  let id := strncpy_zeroed OBICALL_PIPELINE_ID_LEN (bc_pipeline_id cfg) in
  (In id (gp_pipeline_id <$> active (gc_state ctx)) \/ gs_pipeline_count (gc_state ctx) < 8) ->
  committed (gc_state ctx) id = None ->
  length envs = length (sent_at y i) ->
  (forall k env, envs !! k = Some env ->
     tn_persist env = disk_ok /\ tn_now env < i64 (clock k + bc_result_validity_ns cfg)) ->
  let n := length (sent_at y i) in
  let rd := (reader_loop torn (2 * n) rx (Reader true None queue_init)).1 in
  let batch := imap (fun k e => (clock k, e)) (drain (rd_queue rd)).1 in
  let '(results, out, _, _, _) := process_batch cfg junk nan batch st tx grx in
  length out = length (concat (publish_frame <$> results)) -> rx_chunks gs -> rx_stream gs = out ->
  let '(ctx', c') := serve_turns gjunk gtoken envs ctx (GateConn (PhServe OBICALL_ROLE_BROKER) gs gtx []) in
  Forall2 (result_for junk) (take n (jd_log y)) results /\
  length results = n /\
  gate_trace gjunk ctx (zip_with publish_event envs results) = (canon_result <$> results, ctx') /\
  rx_stream (gn_rx c') = [] /\
  (n <> 0%nat -> committed (gc_state ctx') id = Some (Z.of_nat n)).
Proof.
  intros Hr Hf Hring Hfirst Hjp Htimes Htl Hsent Hrx Hrs Hroom Hc Hs Hclk Hg Hown Hnone Hep id Hslot Hcom Hel Henv n rd batch.
  pose proof (reach_inv _ _ _ (init_inv jpid jcfg segment jtoken) Hr Hf) as Hinv.
  destruct (sent_history _ _ i Hinv Hring Hfirst) as (Hn & He & Hwin). fold n in Hn, He, Hwin, Htl, Hroom, Hel.
  set (ds := take n (jd_log y)) in *. assert (Hdl : length ds = n) by (unfold ds; rewrite length_take; lia).
  assert (Hds : Forall valid_record ds) by (apply Forall_take, (si_valid _ _ Hinv)).
  rewrite He in Hsent. unfold batch, rd. rewrite <- Hdl in Htl, Hroom |- *.
  rewrite (reader_batch torn jpid times ds outs rx Hjp Htimes Htl Hds Hsent Hrx Hrs Hroom).
  pose proof (process_batch_results cfg junk nan _ st tx grx Hc Hs (history_entries clock ds Hclk Hds)) as Hres.
  destruct (process_batch _ _ _ _ _ _ _) as [[[[results out] st'] tx'] grx'].
  destruct Hres as (Hv & Hof & _ & Hout). intros Hlen Hgs Hgst. rewrite (Hout Hlen) in Hgst.
  destruct (results_on_time cfg junk clock _ ds results envs Hof ltac:(lia) Henv) as [Hpair Hot].
  pose proof (Forall2_length _ _ _ Hpair) as Hrl.
  assert (Hws : res_window_seq <$> results = seqZ (0 + 1) (Z.of_nat (length results))).
  { rewrite <- Hrl, Hdl, Z.add_0_l, <- Hwin. symmetry. clear -Hpair. induction Hpair as [|d r ds rs [Hw _] _ IH]; [done|].
    cbn [fmap list_fmap]. by rewrite Hw, IH. }
  pose proof (serve_results gjunk gtoken envs OBICALL_ROLE_BROKER (bs_epoch_belief st) ctx gs gtx [] results []
    (bc_broker_id cfg) id 0 Hot Hv ltac:(done) Hnone (eq_sym Hep) Hg Hown Hslot) as H.
  destruct (serve_turns _ _ _ _ _) as [ctx' c']. rewrite app_nil_r in H.
  destruct H as (H1 & _ & H3 & H4); try done; [intros w'; rewrite Hcom; discriminate|].
  split_and!; try done. intros Hn0. rewrite H4, <- Hrl; [done|]. by intros ->.
Qed.

(** * Witness *)

(** One observation: submitted, sent to the broker, fused, published, committed. *)
#[local] Notation one_out := (send_ring_entry sample_pipeline 1000 sample_fetched open_tx).1.
#[local] Notation one_turn := (TurnEnv false disk_ok 2000).
#[local] Notation one_batch :=
  (imap (fun (k : nat) e => (1000, e))
    (drain (rd_queue (reader_loop (fun _ o => o) 2 (dribble one_out) (Reader true None queue_init)).1)).1).
#[local] Notation one_published := (process_batch sample_cfg sample_junk 0 one_batch believing open_tx []).
#[local] Notation one_gate_rx := (dribble (one_published.1.1.1.2)).

Lemma one_fully_sent : Forall2 (fun p out => fully_sent sample_pipeline p.1 p.2 out)
  (zip [1000] (sent_at sample_j8 1).*2) [one_out].
Proof.
  replace ((sent_at sample_j8 1).*2) with [sample_fetched] by (vm_compute; reflexivity).
  constructor; [|constructor]. exists open_tx, (send_ring_entry sample_pipeline 1000 sample_fetched open_tx).2.
  split; [apply surjective_pairing|]. vm_compute. reflexivity.
Qed.

Lemma pipeline_witness :
  let '(ctx', _) := serve_turns sample_junk sample_token [one_turn] sample_ctx
    (GateConn (PhServe OBICALL_ROLE_BROKER) one_gate_rx eager_tx []) in
  committed (gc_state ctx') (bc_pipeline_id sample_cfg) = Some 1.
Proof.
  assert (Hsent : length (sent_at sample_j8 1) = 1%nat) by (vm_compute; reflexivity).
  assert (Hid : strncpy_zeroed OBICALL_PIPELINE_ID_LEN (bc_pipeline_id sample_cfg) = bc_pipeline_id sample_cfg)
    by (vm_compute; reflexivity).
  assert (Hlen : length one_published.1.1.1.2 = length (concat (publish_frame <$> one_published.1.1.1.1)))
    by (vm_compute; reflexivity).
  pose proof (pipeline_commits_every_window sample_pipeline sample_config (Some (CFile [] 0)) sample_token sample_j8 1 [1000]
    [one_out] (dribble one_out) (fun _ o => o) sample_cfg sample_junk 0 (fun _ => 1000) believing open_tx []
    sample_junk sample_token sample_ctx one_gate_rx eager_tx [one_turn] sample_reach8 sample_fits8) as H.
  cbv zeta in H. rewrite Hsent, Hid in H. specialize (H ltac:(vm_compute; reflexivity)).
  specialize (H ltac:(intros c e Hc; vm_compute in Hc; by injection Hc as <- _) sample_pipeline_bytes).
  specialize (H ltac:(by repeat constructor) eq_refl one_fully_sent (proj1 (dribble_chunks _))).
  specialize (H ltac:(rewrite (proj2 (dribble_chunks _)); cbn [concat]; symmetry; apply app_nil_r)).
  specialize (H ltac:(apply Nat.leb_le; reflexivity) sample_cfg_wf (believing_wf _) ltac:(intros; split; [discriminate|reflexivity])).
  specialize (H ltac:(apply sample_gate_inv; split; [discriminate|reflexivity]) eq_refl ltac:(discriminate) eq_refl).
  specialize (H ltac:(right; vm_compute; reflexivity) ltac:(vm_compute; reflexivity) eq_refl).
  specialize (H ltac:(intros [|k] env He; [injection He as <-; split; reflexivity|discriminate])).
  match type of H with context [process_batch ?x1 ?x2 ?x3 ?x4 ?x5 ?x6 ?x7] =>
    change (process_batch x1 x2 x3 x4 x5 x6 x7) with one_published in H end.
  destruct one_published as [[[[results out] st'] tx'] grx']. cbn [fst snd] in *.
  specialize (H Hlen (proj1 (dribble_chunks _)) (proj2 (dribble_chunks _))).
  destruct (serve_turns _ _ _ _ _) as [ctx' c']. destruct H as (_ & _ & _ & _ & H). apply H. discriminate.
Defined.
