(* ===== verification/Failover.v ===== *)
(** * Failover: the two brokers as replicas

    No code of its own: what makes the shadow a replacement for the owner.  The brokers
    compute the same estimates from the same windows, at whatever times they look at
    them, when the decision table, which looks at the clock, is off; and when the owner
    falls silent the shadow takes its place and goes on from where it is. *)

From Stdlib Require Import (notations) Strings.String.
From Stdlib Require Import Floats.SpecFloat.
From S2P Require Import Prelude Types Samples Digest Cursor Wire WireMsg Binary64 Stdio Journal Ipc JournalDaemon.
From S2P Require Import Gate GateDaemon GateServe Dgt Estimator BrokerQueue Broker Pipeline.
#[local] Delimit Scope string_scope with string.

(** ** Replicas *)

(** Two brokers of one pipeline: everything but the broker id and the time limits. *)
Record replicas (a b : broker_config) : Prop := {
  rc_pipeline : bc_pipeline_id a = bc_pipeline_id b;
  rc_digest : bc_config_digest a = bc_config_digest b;
  rc_names : bc_sensor_names a = bc_sensor_names b;
  rc_params : bc_kf_params a = bc_kf_params b;
  rc_table_a : bc_dgt_enabled a = false;
  rc_table_b : bc_dgt_enabled b = false
}.

Record same_estimator (a b : broker_state) : Prop := {
  sm_kf : bs_kf a = bs_kf b;
  sm_ready : bs_kf_ready a = bs_kf_ready b;
  sm_window : bs_last_processed_window_seq a = bs_last_processed_window_seq b
}.

(** The results differ in their maker, epoch and times only. *)
Record same_estimate (a b : obicall_result) : Prop := {
  sr_pipeline : res_pipeline_id a = res_pipeline_id b;
  sr_window : res_window_seq a = res_window_seq b;
  sr_status : res_status a = res_status b;
  sr_shape : res_payload_shape a = res_payload_shape b;
  sr_payload_count : res_payload_count a = res_payload_count b;
  sr_payload : res_payload a = res_payload b;
  sr_covariance_count : res_covariance_count a = res_covariance_count b;
  sr_covariance : res_covariance a = res_covariance b;
  sr_input : res_input_digest a = res_input_digest b;
  sr_config : res_config_digest a = res_config_digest b;
  sr_sources : res_sources a = res_sources b;
  sr_source_count : res_source_count a = res_source_count b
}.

Lemma all_sensors_names a b : bc_sensor_names a = bc_sensor_names b -> all_sensors a = all_sensors b.
Proof. intros H. unfold all_sensors. by rewrite H. Qed.

Lemma estimate_replica a b mask e st st' :
  replicas a b -> same_estimator st st' -> estimate a mask e st = estimate b mask e st'.
Proof. intros [_ _ Hn Hk _ _] [Hf Hr _]. unfold estimate. by rewrite Hn, Hk, Hf, Hr. Qed.

Lemma replica_step a b junk nan ta tb e sa sb :
  replicas a b -> same_estimator sa sb ->
  let '(ra, sa') := process_entry a junk nan ta e sa in
  let '(rb, sb') := process_entry b junk nan tb e sb in
  same_estimate ra rb /\ same_estimator sa' sb'.
Proof.
  intros Hr Hs. rewrite !process_entry_eq. cbv zeta. destruct (Hr) as [Hp Hd Hn Hk Ha Hb].
  rewrite !select_all, (all_sensors_names a b Hn) by done.
  assert (Hs1 : same_estimator (with_sensors sa (touched ta e (bs_sensors sa))) (with_sensors sb (touched tb e (bs_sensors sb))))
    by (destruct Hs; by split).
  rewrite (estimate_replica a b _ e _ _ Hr Hs1). destruct (estimate _ _ _ _) as [[used kf] ready].
  split; [|by split]. unfold build_result, degraded. rewrite Hp, Hd, Ha, Hb. by split.
Qed.

Lemma replica_run a b junk nan ha hb sa sb :
  replicas a b -> same_estimator sa sb -> ha.*2 = hb.*2 ->
  let '(ras, sa') := process_all a junk nan ha sa in
  let '(rbs, sb') := process_all b junk nan hb sb in
  Forall2 same_estimate ras rbs /\ same_estimator sa' sb'.
Proof.
  intros Hr. revert hb sa sb. induction ha as [|[ta e] ha IH]; intros [|[tb e'] hb] sa sb Hs; try done.
  cbn [fmap list_fmap snd process_all]. intros [= <- Hh].
  pose proof (replica_step a b junk nan ta tb e sa sb Hr Hs) as H.
  destruct (process_entry a _ _ _ _ _) as [ra sa1], (process_entry b _ _ _ _ _) as [rb sb1]. destruct H as [H1 H2].
  specialize (IH hb sa1 sb1 H2 Hh).
  destruct (process_all a _ _ ha sa1), (process_all b _ _ hb sb1). destruct IH. split; [by constructor|done].
Qed.

(** ** Agreement *)

Lemma f64_sub_self x : (x - x)%f64 = f64_zero \/ (x - x)%f64 = S754_nan.
Proof.
  destruct x as [[]|[]| |s m e]; try (by right); [by left..|]. left.
  unfold f64_sub, SFsub. rewrite Z.sub_diag. reflexivity.
Qed.

Lemma payload_agrees_self tol x : (f64_zero >? tol)%f64 = false -> payload_agrees tol x x = true.
Proof.
  intros Ht. unfold payload_agrees. destruct (f64_sub_self (f64_of_bits x)) as [-> | ->]; [by apply negb_true_iff|].
  by destruct tol.
Qed.

Lemma covariance_agrees_self tol x : (f64_zero >? tol)%f64 = false -> covariance_agrees tol x x = true.
Proof.
  intros Ht. unfold covariance_agrees. generalize (f64_of_bits x). intros v. cbv zeta.
  assert (Hd : (if (fabs v >? fabs v)%f64 then fabs v else fabs v) = fabs v) by (by destruct (fabs v >? fabs v)%f64).
  assert (Hz : negb (f64_zero >? tol)%f64 = true) by (by rewrite Ht).
  rewrite Hd. destruct (fabs v >? f64_zero)%f64 eqn:Ep; [|exact Hz].
  destruct (f64_sub_self v) as [-> | ->].
  - destruct v as [s|s| |s m e]; [discriminate Ep|exact Hz|discriminate Ep|exact Hz].
  - by destruct v, tol.
Qed.

Lemma forall2b_self {A} (f : A -> A -> bool) n l : (forall x, f x x = true) -> forall2b f n l l = true.
Proof. intros Hf. revert l. induction n as [|n IH]; intros [|x l]; try done. cbn. by rewrite Hf, IH. Qed.

Lemma same_estimate_agrees ra rb ptol ctol :
  same_estimate ra rb -> (f64_zero >? ptol)%f64 = false -> (f64_zero >? ctol)%f64 = false ->
  obicall_gate_results_agree ra rb ptol ctol = true.
Proof.
  intros [] Hp Hc. unfold obicall_gate_results_agree.
  replace (res_payload_count rb) with (res_payload_count ra) by done.
  replace (res_covariance_count rb) with (res_covariance_count ra) by done.
  replace (res_payload rb) with (res_payload ra) by done. replace (res_covariance rb) with (res_covariance ra) by done.
  rewrite !Z.eqb_refl. cbn [negb orb]. rewrite (forall2b_self (payload_agrees ptol)) by (intros; by apply payload_agrees_self).
  cbn [negb]. apply forall2b_self. intros. by apply covariance_agrees_self.
Qed.

(** ** Taking over *)

Lemma take_reply_keeps fr st : same_estimator st (take_reply fr st) /\ bs_dgt_hyst (take_reply fr st) = bs_dgt_hyst st.
Proof.
  unfold take_reply. destruct fr as [mt payload| |]; [|by split..]. destruct (mt =? _); [|by split].
  destruct (obicall_wire_decode_status_reply payload); by split.
Qed.

Lemma heartbeat_turn_keeps cfg now alive st tx rx :
  let '(_, st', _, _) := heartbeat_turn cfg now alive st tx rx in
  same_estimator st st' /\ bs_dgt_hyst st' = bs_dgt_hyst st.
Proof.
  unfold heartbeat_turn. destruct (_ >=? heartbeat_period_ns); [|by split].
  set (st1 := BrokerState _ _ _ _ _ _ _ _). destruct (obicall_wire_encode_heartbeat _ _); [|by split].
  destruct (osal_send_frame _ _ tx) as [[[] out] tx1]; [|by split]. destruct (osal_recv_frame 64 rx) as [fr rx1].
  destruct (take_reply_keeps fr st1) as [[] Hh]. by split; [split|].
Qed.

(** The gate has not heard the owner A for too long, and the heartbeat of B, with this
    state, finds it ready. *)
Record takes_over (cfg : broker_config) (st : broker_state) (gnow : Z) (ctx : gate_ctx) : Prop := {
  to_brokers : length (gc_brokers ctx) = 3%nat;
  to_owner : gs_owner_broker_id (gc_state ctx) = OBICALL_BROKER_A;
  to_known : bv_known (broker_at ctx OBICALL_BROKER_A) = true;
  to_silent : gc_confirm_timeout_ns ctx < i64 (gnow - bv_last_heartbeat_ns (broker_at ctx OBICALL_BROKER_A));
  to_digest : bc_config_digest cfg = gc_required_config_digest ctx;
  to_schema : gc_required_checkpoint_schema_version ctx = OBICALL_CHECKPOINT_SCHEMA_VERSION;
  to_window : committed_high_water (gc_state ctx)
              <= u64 (bs_last_processed_window_seq st + gc_max_allowed_replay_gap ctx);
  to_epoch : is_u64 (gs_epoch (gc_state ctx) + 1)
}.

Lemma shadow_promoted cfg st env gnow now ctx :
  wf_config cfg -> bc_broker_id cfg = OBICALL_BROKER_B -> is_i64 now -> is_u64 (bs_epoch_belief st) ->
  is_u64 (bs_last_processed_window_seq st) -> takes_over cfg st gnow ctx ->
  exists ctx', handle_heartbeat env gnow (heartbeat_wire (broker_heartbeat cfg now true st)) ctx =
      (Some (status_reply gnow ctx'), ctx') /\
    gc_state ctx' = (obicall_gate_promote (gc_state ctx) OBICALL_BROKER_B).2.
Proof.
  intros Hc Hb Hn He Hw []. pose proof (heartbeat_wf cfg now true st Hc Hn He Hw) as Hwf.
  apply (silent_owner_replaced env gnow _ (broker_heartbeat cfg now true st)); try done.
  - rewrite <- (app_nil_r (heartbeat_wire _)). by rewrite dec_wire.
  - unfold obicall_gate_shadow_promotable, broker_heartbeat.
    cbn [hb_healthy hb_config_digest hb_checkpoint_schema_version hb_last_window_seq rd_healthy rd_config_digest
      rd_checkpoint_schema_version rd_last_processed_window_seq rq_required_config_digest
      rq_required_checkpoint_schema_version rq_max_allowed_replay_gap].
    rewrite to_digest0, bool_decide_eq_true_2, to_schema0, Z.eqb_refl by done. cbn [negb].
    destruct (Z.ltb_spec (u64 (bs_last_processed_window_seq st + gc_max_allowed_replay_gap ctx))
                (committed_high_water (gc_state ctx))); [lia|done].
Qed.

(** * The claims *)

(** C9: the brokers are replicas: with the same configuration and the decision table off,
    two brokers that processed the same windows have the same estimate of each, to the
    last bit and with the same sources and digests, at whatever times they looked at
    them; so the gate's comparison of replicas finds them in agreement. *)
Theorem replicas_agree a b junk nan ha hb ptol ctol :
  replicas a b -> ha.*2 = hb.*2 ->
  (f64_zero >? ptol)%f64 = false -> (f64_zero >? ctol)%f64 = false ->
  Forall2 (fun ra rb => same_estimate ra rb /\ obicall_gate_results_agree ra rb ptol ctol = true)
    (process_all a junk nan ha broker_init).1 (process_all b junk nan hb broker_init).1.
Proof.
  intros Hr Hh Hp Hc. pose proof (replica_run a b junk nan ha hb broker_init broker_init Hr ltac:(by split) Hh) as H.
  destruct (process_all a _ _ _ _) as [ras sa], (process_all b _ _ _ _) as [rbs sb]. destruct H as [H _]. cbn [fst].
  eapply Forall2_impl; [exact H|]. intros ra rb Hs. split; [done|by apply same_estimate_agrees].
Qed.

(** C8: failover.  Let two brokers be replicas (same parameters and sensors, decision
    table off on both), B a ready shadow that has processed window m, the gate's owner A
    be known to the gate and silent beyond the confirm timeout, B's configuration digest
    and schema the required ones, B no further behind than the replay gap, and nothing
    beyond m committed for its pipeline, which has a slot or finds one.  Then B's next
    heartbeat makes it the owner of the next epoch, and B learns it from the reply.
    From then on, while the gate runs, whatever arrives and whatever becomes of its
    files, it accepts no result of the old epoch.  And if B goes on with window m + 1,
    the sockets take what is sent, the gate's file operations succeed and the results
    reach it before they expire, then every window of B's batch, of any length, is
    accepted in order, up to the last one, each with the estimate A would have
    computed. *)
Theorem failover_continues
    cfgA cfgB junk nan histA stB now tx out tx1 rx rest env gnow ctx reply ctx1 m :
  replicas cfgA cfgB -> bc_broker_id cfgB = OBICALL_BROKER_B -> wf_config cfgB -> wf_state cfgB stB ->
  let stA := (process_all cfgA junk nan histA broker_init).2 in
  same_estimator stA stB -> bs_last_processed_window_seq stB = m -> is_u64 m ->
  let id := strncpy_zeroed OBICALL_PIPELINE_ID_LEN (bc_pipeline_id cfgB) in
  (* the gate *)
  gate_inv (gc_state ctx) -> takes_over cfgB stB gnow ctx ->
  (In id (gp_pipeline_id <$> active (gc_state ctx)) \/ gs_pipeline_count (gc_state ctx) < 8) ->
  (forall w, committed (gc_state ctx) id = Some w -> w <= m) ->
  (* the heartbeat and its reply *)
  is_i64 now -> heartbeat_period_ns <= i64 (now - bs_last_heartbeat stB) ->
  let payload := heartbeat_wire (broker_heartbeat cfgB now true stB) in
  osal_send_frame OBICALL_MSG_HEARTBEAT payload tx = (true, out, tx1) ->
  handle_heartbeat env gnow payload ctx = (Some reply, ctx1) ->
  rx_chunks rx -> rx_stream rx = frame_bytes OBICALL_MSG_STATUS_REPLY (status_reply_wire reply) ++ rest ->
  let epoch := gs_epoch (gc_state ctx) in
  gs_owner_broker_id (gc_state ctx1) = OBICALL_BROKER_B /\ gs_epoch (gc_state ctx1) = epoch + 1 /\
  (forall gjunk evs, Forall valid_event evs -> Forall no_restart evs ->
     epoch + 1 + Z.of_nat (length evs) < 18446744073709551616 ->
     Forall (fun r => res_epoch r <> epoch) (gate_trace gjunk ctx1 evs).1) /\
  exists st1 rx1, heartbeat_turn cfgB now true stB tx rx = (out, st1, tx1, rx1) /\
    bs_epoch_belief st1 = epoch + 1 /\ rx_stream rx1 = rest /\
    forall gjunk gtoken tx2 rx2 gs gtx envs batch histA',
      qe_window_seq <$> batch.*2 = seqZ (m + 1) (Z.of_nat (length batch)) ->
      Forall (fun p => is_i64 p.1 /\ wf_entry p.2) batch -> length envs = length batch ->
      (forall k env p, envs !! k = Some env -> batch !! k = Some p ->
         tn_persist env = disk_ok /\ tn_now env < i64 (p.1 + bc_result_validity_ns cfgB)) ->
      histA'.*2 = batch.*2 ->
      let '(results, out2, _, _, _) := process_batch cfgB junk nan batch st1 tx2 rx2 in
      length out2 = length (concat (publish_frame <$> results)) -> rx_chunks gs -> rx_stream gs = out2 ->
      let '(ctx2, _) := serve_turns gjunk gtoken envs ctx1 (GateConn (PhServe OBICALL_ROLE_BROKER) gs gtx []) in
      gate_trace gjunk ctx1 (zip_with publish_event envs results) = (canon_result <$> results, ctx2) /\
      (batch <> [] -> committed (gc_state ctx2) id = Some (m + Z.of_nat (length batch))) /\
      Forall2 same_estimate (process_all cfgA junk nan histA' stA).1 results.
Proof.
  intros Hrep Hb Hc Hs stA Hsame Hm Hmu id Hg Hto Hslot Hcom Hn Hdue payload Hsend Hgate Hrx Hst epoch.
  assert (Hbu : is_u32 OBICALL_BROKER_B) by done.
  destruct (shadow_promoted cfgB stB env gnow now ctx Hc Hb Hn (ws_epoch _ _ Hs) ltac:(by rewrite Hm) Hto)
    as (ctx' & E & Hstate). fold payload in E. rewrite E in Hgate. injection Hgate as <- <-.
  pose proof (promote_inv _ OBICALL_BROKER_B Hbu Hg) as Hg1. rewrite <- Hstate in Hg1.
  assert (Hep : gs_epoch (gc_state ctx') = epoch + 1) by (rewrite Hstate; cbn; apply u64_id, (to_epoch _ _ _ _ Hto)).
  assert (Hown : gs_owner_broker_id (gc_state ctx') = OBICALL_BROKER_B) by (by rewrite Hstate).
  split; [done|]. split; [done|]. split.
  { intros gjunk evs Hv Hnr Hw. pose proof (gate_trace_running gjunk evs ctx' Hg1 Hv Hnr ltac:(lia)) as Hr.
    eapply Forall_impl; [exact Hr|]. intros r. cbn. lia. }
  pose proof (heartbeat_turn_keeps cfgB now true stB tx rx) as Hkeep.
  destruct (broker_learns_epoch cfgB now true stB tx out tx1 rx env gnow ctx _ ctx' rest Hc Hn (ws_epoch _ _ Hs)
    ltac:(by rewrite Hm) (or_intror Hb) Hdue Hsend E (status_reply_wf _ _ Hg1) Hrx Hst)
    as (st1 & rx1 & Eh & Hbel & _ & _ & _ & Hst1).
  rewrite Eh in Hkeep. destruct Hkeep as [Hk1 Hyst]. exists st1, rx1. rewrite Hbel.
  split; [done|]. split; [done|]. split; [done|].
  intros gjunk gtoken tx2 rx2 gs gtx envs batch histA' Hseq Hbatch Hel Henv HA.
  assert (Hs1 : wf_state cfgB st1) by (split; [rewrite Hbel, Hstate; apply u64_range|rewrite Hyst; apply (ws_hyst _ _ Hs)]).
  pose proof (process_batch_results cfgB junk nan batch st1 tx2 rx2 Hc Hs1 Hbatch) as Hres.
  pose proof (process_batch_all cfgB junk nan batch st1 tx2 rx2) as Hall.
  destruct (process_batch _ _ _ _ _ _ _) as [[[[results out2] st2] tx3] rx3].
  destruct Hres as (Hv & Hof & _ & Hout). intros Hlen Hgs Hgst. rewrite (Hout Hlen), <- (app_nil_r (concat _)) in Hgst.
  destruct (batch_on_time cfgB junk _ batch results envs Hof Hel Henv) as [Hot Hws].
  pose proof (Forall2_length _ _ _ Hof) as Hrl. rewrite Hseq, Hrl in Hws.
  pose proof (serve_results gjunk gtoken envs OBICALL_ROLE_BROKER _ ctx' gs gtx [] results [] (bc_broker_id cfgB) id m
    Hot Hv ltac:(done) ltac:(by rewrite Hb) (eq_sym Hbel) Hg1 ltac:(by rewrite Hb)) as H.
  rewrite Hstate in H. specialize (H Hslot Hcom Hws Hgs Hgst).
  destruct (serve_turns _ _ _ _ _) as [ctx2 c']. destruct H as (H1 & _ & _ & H4).
  split; [done|]. split.
  - intros Hne. rewrite H4, Hrl; [done|]. intros ->. by destruct batch.
  - assert (Hs12 : same_estimator stA st1) by (destruct Hsame, Hk1; split; congruence).
    pose proof (replica_run cfgA cfgB junk nan histA' batch stA st1 Hrep Hs12 HA) as Hrun.
    destruct (process_all cfgA junk nan histA' stA) as [ras sa]. rewrite Hall in Hrun. apply Hrun.
Qed.

(** * Witnesses *)

(** Two brokers that fuse one sensor, and two windows of it. *)
Definition replica (id : Z) : broker_config :=
  BrokerConfig id sample_pipeline (replicate 32 2) 500000000 1000000000 [obs_sensor_id sample_observation]
    (KalmanParams f64_one f64_one f64_4 f64_4 f64_4) init_default_dgt_table f64_zero false.
Definition window_at (seq : Z) : queue_entry := QueueEntry seq sample_observation 1.

Lemma replica_ok : replicas (replica OBICALL_BROKER_A) (replica OBICALL_BROKER_B).
Proof. by split. Qed.

Lemma replicas_witness :
  let run id t := process_all (replica id) sample_junk 0 [(t, window_at 1); (t, window_at 2)] broker_init in
  forallb (fun p => obicall_gate_results_agree p.1 p.2 f64_zero f64_zero)
    (zip (run OBICALL_BROKER_A 1000).1 (run OBICALL_BROKER_B 900000).1) = true /\
  bs_kf_ready (run OBICALL_BROKER_A 1000).2 = true.
Proof.
  intros run. split; [|vm_compute; reflexivity].
  pose proof (replicas_agree (replica OBICALL_BROKER_A) (replica OBICALL_BROKER_B) sample_junk 0
    [(1000, window_at 1); (1000, window_at 2)] [(900000, window_at 1); (900000, window_at 2)] f64_zero f64_zero
    replica_ok eq_refl eq_refl eq_refl) as H.
  change (process_all (replica OBICALL_BROKER_A) _ _ _ _) with (run OBICALL_BROKER_A 1000) in H.
  change (process_all (replica OBICALL_BROKER_B) _ _ _ _) with (run OBICALL_BROKER_B 900000) in H.
  destruct (run OBICALL_BROKER_A 1000) as [ras sa], (run OBICALL_BROKER_B 900000) as [rbs sb]. cbn [fst] in *.
  induction H as [|ra rb ras' rbs' [_ Ha] _ IH]; [reflexivity|]. cbn [zip_with forallb fst snd]. rewrite Ha. exact IH.
Defined.

(** Broker B has processed the first window when the gate gives up waiting for A. *)
Definition shadow : broker_state :=
  (process_all (replica OBICALL_BROKER_B) sample_junk 0 [(900, window_at 1)] broker_init).2.
#[local] Notation beat := (heartbeat_wire (broker_heartbeat (replica OBICALL_BROKER_B) hb_now true shadow)).
#[local] Notation promoted := (handle_heartbeat disk_ok 2000 beat sample_ctx).
#[local] Notation promoted_reply := (default (StatusReply 0 0 0 0 0) promoted.1).
#[local] Notation beat_rx := (dribble (frame_bytes OBICALL_MSG_STATUS_REPLY (status_reply_wire promoted_reply))).
#[local] Notation taught := (heartbeat_turn (replica OBICALL_BROKER_B) hb_now true shadow hb_tx beat_rx).1.1.2.
#[local] Notation taken_over :=
  (process_batch (replica OBICALL_BROKER_B) sample_junk 0 [(3000, window_at 2)] taught open_tx []).

Lemma failover_witness :
  bs_epoch_belief taught = 2 /\
  let '(ctx2, _) := serve_turns sample_junk sample_token [TurnEnv false disk_ok 4000] promoted.2
    (GateConn (PhServe OBICALL_ROLE_BROKER) (dribble taken_over.1.1.1.2) eager_tx []) in
  committed (gc_state ctx2) sample_pipeline = Some 2.
Proof.
  assert (Hw1 : forall w, is_u64 w -> wf_entry (window_at w)) by (split; [done|split; [apply sample_observation_wf|done..]]).
  assert (Hcfg : wf_config (replica OBICALL_BROKER_B)).
  { split; [done|by apply is_chars_eval|by apply is_chars_eval|done|]. apply action_ids_u32. vm_compute. reflexivity. }
  assert (Hto : takes_over (replica OBICALL_BROKER_B) shadow 2000 sample_ctx)
    by (split; try reflexivity; try (vm_compute; (reflexivity || discriminate || (split; [discriminate|reflexivity])))).
  assert (Hid : strncpy_zeroed OBICALL_PIPELINE_ID_LEN (bc_pipeline_id (replica OBICALL_BROKER_B)) = sample_pipeline)
    by (vm_compute; reflexivity).
  assert (Hlen : length taken_over.1.1.1.2 = length (concat (publish_frame <$> taken_over.1.1.1.1)))
    by (vm_compute; reflexivity).
  assert (Hbatch : Forall (fun p => is_i64 p.1 /\ wf_entry p.2) [(3000, window_at 2)])
    by (constructor; [split; [split; [discriminate|reflexivity]|apply Hw1; split; [discriminate|reflexivity]]|constructor]).
  assert (Henvs : forall k env p, [TurnEnv false disk_ok 4000] !! k = Some env -> [(3000, window_at 2)] !! k = Some p ->
      tn_persist env = disk_ok /\ tn_now env < i64 (p.1 + bc_result_validity_ns (replica OBICALL_BROKER_B))).
  { intros [|k] env p He Hp; [|discriminate]. injection He as <-. injection Hp as <-. split; [reflexivity|vm_compute; reflexivity]. }
  pose proof (failover_continues (replica OBICALL_BROKER_A) (replica OBICALL_BROKER_B) sample_junk 0 [(500, window_at 1)]
    shadow hb_now hb_tx
    (frame_bytes OBICALL_MSG_HEARTBEAT beat) [] beat_rx [] disk_ok 2000 sample_ctx promoted_reply promoted.2 1
    replica_ok eq_refl Hcfg) as H.
  cbv zeta in H. rewrite Hid in H.
  specialize (H ltac:(split; [split; [discriminate|reflexivity]|intros h; vm_compute; discriminate])).
  assert (Hsame : same_estimator (process_all (replica OBICALL_BROKER_A) sample_junk 0 [(500, window_at 1)] broker_init).2 shadow)
    by (split; vm_compute; reflexivity).
  specialize (H Hsame). specialize (H ltac:(vm_compute; reflexivity)). specialize (H ltac:(split; [discriminate|reflexivity])).
  specialize (H ltac:(apply sample_gate_inv; split; [discriminate|reflexivity]) Hto ltac:(right; vm_compute; reflexivity)).
  specialize (H ltac:(intros w Hw; vm_compute in Hw; discriminate) ltac:(split; [discriminate|reflexivity])).
  specialize (H ltac:(vm_compute; discriminate) ltac:(vm_compute; reflexivity) ltac:(vm_compute; reflexivity)).
  specialize (H (proj1 (dribble_chunks _)) ltac:(rewrite (proj2 (dribble_chunks _)); symmetry; apply app_nil_r)).
  destruct H as (_ & _ & _ & st1 & rx1 & Eh & Hbel & _ & H).
  assert (Est : st1 = taught) by (by rewrite Eh). subst st1. split; [exact Hbel|].
  specialize (H sample_junk sample_token open_tx [] (dribble taken_over.1.1.1.2) eager_tx [TurnEnv false disk_ok 4000]
    [(3000, window_at 2)] [(3000, window_at 2)] eq_refl).
  specialize (H Hbatch eq_refl Henvs eq_refl).
  destruct taken_over as [[[[results out2] st2] tx3] rx3]. cbn [fst snd] in *.
  specialize (H Hlen (proj1 (dribble_chunks _)) (proj2 (dribble_chunks _))).
  destruct (serve_turns _ _ _ _ _) as [ctx2 c']. destruct H as (_ & H & _). apply H. discriminate.
Defined.

(** With the decision table on, freshness is measured by each broker's own clock.  Here
    the owner looks at the second window at once, keeps to the action it took for the
    first and leaves the window out; a shadow that gets to it five seconds later finds
    the first sensor stale, changes its action and feeds the filter. *)
Definition deciding (id : Z) : broker_config :=
  BrokerConfig id sample_pipeline (replicate 32 2) 500000000 1000000000
    [obs_sensor_id sample_observation; chars 32 "imu"%string]
    (KalmanParams f64_zero f64_zero f64_one f64_one f64_4) init_default_dgt_table f64_one true.
Definition imu_window : queue_entry :=
  QueueEntry 2
    (let o := sample_observation in
     Observation (obs_struct_size o) (obs_schema_version o) (chars 32 "imu"%string) (obs_source_boot_id o) (obs_sequence o)
       (obs_sample_time_ns o) (obs_arrival_time_ns o) (obs_clock_domain o) (obs_time_uncertainty_s o)
       (obs_coordinate_frame o) (obs_units o) (obs_calibration_version o) (obs_payload_shape o) (obs_payload_count o)
       (obs_payload o) (obs_covariance_count o) (obs_covariance o)) 1.

Example table_breaks_replicas :
  let used id t := res_source_count <$>
    (process_all (deciding id) sample_junk 0 [(1000, window_at 1); (t, imu_window)] broker_init).1 in
  used OBICALL_BROKER_A 2000 = [1; 0] /\ used OBICALL_BROKER_B 5000000000 = [1; 1].
Proof. split; vm_compute; reflexivity. Qed.
