(* ===== verification/Json.v ===== *)
(** * Json: the minimal JSON reader (src/core/json_min.c)

    A position in a text is the suffix that starts there; a span is the pair of
    offset and length the C functions hand out.  The reader is proved against a
    grammar of JSON texts ([value_text] and its lists of elements and members): on
    every well-formed text it finds exactly what the grammar says is there, on
    every input whatever its spans cover lies inside it. *)

From Stdlib Require Import (notations) Strings.String.
From S2P Require Import Prelude Types Binary64.
#[local] Delimit Scope string_scope with string.

Definition is_ws (c : Z) : bool := (c =? 32) || (c =? 9) || (c =? 10) || (c =? 13).

(** [while (pos < len && is_ws(buf[pos])) pos++] *)
Fixpoint skip_ws (s : list Z) : list Z :=
  match s with
  | [] => []
  | c :: s' => if is_ws c then skip_ws s' else s
  end.

(** The loop of [skip_string]: what follows the closing quote. *)
Fixpoint string_end (s : list Z) : option (list Z) :=
  match s with
  | [] => None
  | ch :: s =>
      if ch =? 34 (* quote *) then Some s
      else if ch =? 92 (* backslash *) then
        match s with
        | [] => None
        | c :: s =>
            if c =? 117 (* u *) then match s with _ :: _ :: _ :: _ :: s => string_end s | _ => None end
            else string_end s
        end
      else string_end s
  end.
Definition skip_string (s : list Z) : option (list Z) :=
  match s with
  | ch :: s => if ch =? 34 then string_end s else None
  | [] => None
  end.

(** The bracket loop of [scan_value], from after the opening bracket; every turn
    consumes a byte, so [fuel = length s] is enough. *)
Fixpoint scan_nested (fuel : nat) (open close : Z) (depth : nat) (s : list Z) : option (list Z) :=
  match depth, s with
  | O, _ => Some s
  | _, [] => None
  | S d, c :: s' =>
      match fuel with
      | O => None
      | S fuel =>
          if c =? 34 then
            match skip_string s with
            | None => None
            | Some s => scan_nested fuel open close depth s
            end
          else scan_nested fuel open close
                 (if c =? open then S depth else if c =? close then d else depth) s'
      end
  end.

Definition is_digit (c : Z) : bool := (c >=? 48) && (c <=? 57).
Fixpoint skip_digits (s : list Z) : list Z :=
  match s with
  | [] => []
  | c :: s' => if is_digit c then skip_digits s' else s
  end.

(** The number branch, on a text that starts with a minus sign or a digit. *)
Definition scan_sign (s : list Z) : list Z :=
  match s with c :: s' => if c =? 45 (* minus *) then s' else s | [] => s end.
Definition scan_fraction (s : list Z) : list Z :=
  match s with c :: s' => if c =? 46 (* dot *) then skip_digits s' else s | [] => s end.
Definition scan_exponent (s : list Z) : list Z :=
  match s with
  | c :: s' =>
      if (c =? 101 (* e *)) || (c =? 69 (* E *)) then
        skip_digits (match s' with
                     | c :: s'' => if (c =? 43 (* plus *)) || (c =? 45) then s'' else s'
                     | [] => s'
                     end)
      else s
  | [] => s
  end.
Definition scan_number (s : list Z) : list Z := scan_exponent (scan_fraction (skip_digits (scan_sign s))).

(** [memcmp(buf + pos, lit, n) == 0] with room for it, then the position after. *)
Fixpoint skip_literal (lit s : list Z) : option (list Z) :=
  match lit, s with
  | [], _ => Some s
  | l :: lit, c :: s => if l =? c then skip_literal lit s else None
  | _ :: _, [] => None
  end.

(** [*is_string] and what follows the value. *)
Definition scan_value (s : list Z) : option (bool * list Z) :=
  let s := skip_ws s in
  match s with
  | [] => None
  | ch :: s' =>
      if ch =? 34 then pair true <$> skip_string s
      else if ch =? 123 (* open brace *) then pair false <$> scan_nested (length s') 123 125 1 s'
      else if ch =? 91 (* open bracket *) then pair false <$> scan_nested (length s') 91 93 1 s'
      else if ch =? 116 then pair false <$> skip_literal (ascii_bytes "true"%string) s
      else if ch =? 102 then pair false <$> skip_literal (ascii_bytes "false"%string) s
      else if ch =? 110 then pair false <$> skip_literal (ascii_bytes "null"%string) s
      else if (ch =? 45) || is_digit ch then Some (false, scan_number s)
      else None
  end.

Record json_span := JsonSpan { sp_off : nat; sp_len : nat; sp_is_string : bool }.

(** The value between the positions [value_start] and [value_end]. *)
Definition span_from_value (json value_start value_end : list Z) (is_str : bool) : json_span :=
  let off := (length json - length value_start)%nat in
  let fin := (length json - length value_end)%nat in
  if is_str then JsonSpan (off + 1) (fin - 1 - (off + 1)) true else JsonSpan off (fin - off) false.

(** [json + sp.off], [sp.len] bytes of it. *)
Definition span_bytes (json : list Z) (sp : json_span) : list Z := take (sp_len sp) (drop (sp_off sp) json).

(** The loop over members; each turn consumes at least a key, so
    [fuel = length json] is enough. *)
Fixpoint find_member (fuel : nat) (json key s : list Z) : option json_span :=
  match fuel with
  | O => None
  | S fuel =>
      let s := skip_ws s in
      match skip_string s with
      | None => None
      | Some s1 =>
          let key_str := take (length s - length s1 - 2) (tail s) in
          match skip_ws s1 with
          | c :: s2 =>
              if c =? 58 (* colon *) then
                let value_start := skip_ws s2 in
                match scan_value value_start with
                | None => None
                | Some (is_str, value_end) =>
                    if bool_decide (key_str = key)
                    then Some (span_from_value json value_start value_end is_str)
                    else
                      match skip_ws value_end with
                      | c :: s3 => if c =? 44 (* comma *) then find_member fuel json key s3 else None
                      | [] => None
                      end
                end
              else None
          | [] => None
          end
      end
  end.

(** [key] is a C string: its bytes without the NUL. *)
Definition json_object_find (json key : list Z) : option json_span :=
  match skip_ws json with
  | c :: s => if c =? 123 then find_member (length json) json key s else None
  | [] => None
  end.

Definition array_open (json : list Z) : option (list Z) :=
  match skip_ws json with
  | c :: s => if c =? 91 then Some s else None
  | [] => None
  end.

(** [None] is the C return value -1. *)
Fixpoint count_elements (fuel : nat) (s : list Z) (count : nat) : option nat :=
  match fuel with
  | O => None
  | S fuel =>
      match skip_ws s with
      | [] => None
      | (c :: _) as s =>
          if c =? 93 then Some count
          else
          match scan_value s with
          | None => None
          | Some (_, s) =>
              match skip_ws s with
              | c :: s => if c =? 44 then count_elements fuel s (S count)
                          else if c =? 93 then Some (S count) else None
              | [] => None
              end
          end
      end
  end.
Definition json_array_count (json : list Z) : option nat :=
  match array_open json with None => None | Some s => count_elements (length json) s 0 end.

Fixpoint get_element (fuel : nat) (json s : list Z) (i index : nat) : option json_span :=
  match fuel with
  | O => None
  | S fuel =>
      match skip_ws s with
      | [] => None
      | (c :: _) as s =>
          if c =? 93 then None
          else
          match scan_value s with
          | None => None
          | Some (is_str, value_end) =>
              if (i =? index)%nat then Some (span_from_value json s value_end is_str)
              else
              match skip_ws value_end with
              | c :: s => if c =? 44 then get_element fuel json s (S i) index else None
              | [] => None
              end
          end
      end
  end.
Definition json_array_get (json : list Z) (index : nat) : option json_span :=
  match array_open json with None => None | Some s => get_element (length json) json s 0 index end.

(** ** Strings *)

Definition unescape (esc : Z) : option Z :=
  if esc =? 34 then Some 34
  else if esc =? 92 then Some 92
  else if esc =? 47 then Some 47       (* slash *)
  else if esc =? 110 then Some 10      (* n *)
  else if esc =? 116 then Some 9       (* t *)
  else if esc =? 114 then Some 13      (* r *)
  else if esc =? 98 then Some 8        (* b *)
  else if esc =? 102 then Some 12      (* f *)
  else None.

(** The bytes stored in [out], in order, and whether the call succeeded: a call
    that fails has already stored a prefix.  [room] is [out_cap - oi]. *)
Fixpoint json_decode_string (json : list Z) (room : nat) : list Z * bool :=
  match json with
  | [] => match room with O => ([], false) | S _ => ([0], true) end
  | ch :: s =>
      let store (b : Z) (rest : nat -> list Z * bool) :=
        match room with
        | O => ([], false)
        | S room => let '(out, ok) := rest room in (b :: out, ok)
        end in
      if ch =? 92 then
        match s with
        | [] => ([], false)
        | esc :: s =>
            if esc =? 117 then
              match s with
              | _ :: _ :: _ :: _ :: s => store 63 (* ? *) (json_decode_string s)
              | _ => ([], false)
              end
            else
              match unescape esc with
              | None => ([], false)
              | Some decoded => store decoded (json_decode_string s)
              end
        end
      else store ch (json_decode_string s)
  end.

Definition json_span_is_true (json : list Z) : bool := bool_decide (json = ascii_bytes "true"%string).
Definition json_span_is_false (json : list Z) : bool := bool_decide (json = ascii_bytes "false"%string).

(** ** Numbers *)

Fixpoint take_digits (s : list Z) : list Z :=
  match s with
  | c :: s => if is_digit c then c :: take_digits s else []
  | [] => []
  end.
Definition digits_value (ds : list Z) : Z := fold_left (fun v d => 10 * v + (d - 48)) ds 0.

(** The binary64 nearest to [(-1)^neg * m * 10^e]. *)
Definition f64_of_decimal (neg : bool) (m e : Z) : f64 :=
  match m with
  | Zpos p =>
      if e >=? 0 then binary_normalize 53 1024 (if neg then - (m * 10 ^ e) else m * 10 ^ e) 0 neg
      else SFdiv 53 1024 (S754_finite neg p 0) (S754_finite false (Z.to_pos (10 ^ (- e))) 0)
  | _ => S754_zero neg
  end.

(** [strtod] on the texts it is given here: a span that is not a string starts with
    a bracket, a letter of a literal (neither converts), a minus sign or a digit, so
    the hexadecimal, infinity and NaN forms do not arise.  [None] when nothing is
    converted. *)
Definition strtod (s : list Z) : option f64 :=
  let neg := match s with c :: _ => c =? 45 | [] => false end in
  let s := match s with c :: s' => if (c =? 45) || (c =? 43) then s' else s | [] => s end in
  let ip := take_digits s in
  let s := skip_digits s in
  let '(fp, s) := match s with
                  | c :: s' => if c =? 46 then (take_digits s', skip_digits s') else ([], s)
                  | [] => ([], s)
                  end in
  match ip ++ fp with
  | [] => None
  | ds =>
      let ex := match s with
                | c :: s' =>
                    if (c =? 101) || (c =? 69) then
                      let eneg := match s' with c :: _ => c =? 45 | [] => false end in
                      let s' := match s' with c :: s'' => if (c =? 45) || (c =? 43) then s'' else s' | [] => s' end in
                      let v := digits_value (take_digits s') in if eneg then - v else v
                    else 0
                | [] => 0
                end in
      Some (f64_of_decimal neg (digits_value ds) (ex - Z.of_nat (length fp)))
  end.

(** [char buf[64]]. *)
Definition json_parse_number (json : list Z) : option f64 :=
  if (64 <=? length json)%nat then None else strtod (c_str json).

(** The result of converting a [double] to an integer type: truncation when the
    integer part is in range, else undefined in C ([ub]). *)
Definition f64_trunc (x : f64) : option Z :=
  match x with
  | S754_zero _ => Some 0
  | S754_finite s m e =>
      let v := if e >=? 0 then Zpos m * 2 ^ e else Z.shiftr (Zpos m) (- e) in
      Some (if s then - v else v)
  | _ => None
  end.
Definition f64_to_int (lo hi : Z) (ub : f64 -> Z) (x : f64) : Z :=
  match f64_trunc x with
  | Some v => if (lo <=? v) && (v <=? hi) then v else ub x
  | None => ub x
  end.
Definition f64_to_u32 (ub : f64 -> Z) : f64 -> Z := f64_to_int 0 4294967295 (fun x => u32 (ub x)).
Definition f64_to_u64 (ub : f64 -> Z) : f64 -> Z := f64_to_int 0 18446744073709551615 (fun x => u64 (ub x)).
Definition f64_to_i64 (ub : f64 -> Z) : f64 -> Z := f64_to_int INT64_MIN INT64_MAX (fun x => i64 (ub x)).

Example strtod_examples :
  (fun s => bits_of_f64 0 <$> strtod (ascii_bytes s)) <$>
    ["0.1"; "-1.5e1"; "5e-324"; "1e400"; "9007199254740993"; "-."; "7e"]%string
  = [Some 4591870180066957722; Some 13848005904210853888; Some 1; Some 9218868437227405312;
     Some 4845873199050653696; None; Some 4619567317775286272].
Proof. by vm_compute. Qed.

(** * Lemmas *)

(** ** Whatever the text, positions move forward *)

Lemma skip_ws_length s : (length (skip_ws s) <= length s)%nat.
Proof. induction s as [|c s IH]; cbn; [done|]. destruct (is_ws c); cbn; lia. Qed.

Lemma skip_digits_length s : (length (skip_digits s) <= length s)%nat.
Proof. induction s as [|c s IH]; cbn; [done|]. destruct (is_digit c); cbn; lia. Qed.

Lemma string_end_length s r : string_end s = Some r -> (length r < length s)%nat.
Proof.
  remember (length s) as n eqn:Hn. assert (Hle : (length s <= n)%nat) by lia. clear Hn.
  revert s Hle. induction n as [|n IH]; intros [|ch s] Hle; cbn in *; try done; [lia|].
  destruct (ch =? 34); [intros [= <-]; lia|]. destruct (ch =? 92).
  - destruct s as [|c s]; [done|]. cbn in Hle. destruct (c =? 117).
    + destruct s as [|? [|? [|? [|? s]]]]; try done. cbn in Hle. intros H%IH; lia.
    + intros H%IH; lia.
  - intros H%IH; lia.
Qed.

Lemma skip_string_length s r : skip_string s = Some r -> (S (length r) < length s)%nat.
Proof. destruct s as [|ch s]; cbn; [done|]. destruct (ch =? 34); [|done]. intros H%string_end_length. lia. Qed.

Lemma skip_literal_length lit s r : skip_literal lit s = Some r -> length s = (length lit + length r)%nat.
Proof.
  revert s. induction lit as [|l lit IH]; intros [|c s]; cbn; try done; [by intros [= <-]|by intros [= <-]|].
  destruct (l =? c); [|done]. intros H%IH. lia.
Qed.

Lemma scan_nested_length fuel o c d s r : scan_nested fuel o c d s = Some r -> (length r <= length s)%nat.
Proof.
  revert d s. induction fuel as [|fuel IH]; intros [|d] [|ch s]; cbn [scan_nested]; try done;
    try (intros [= <-]; cbn; lia).
  destruct (ch =? 34).
  - destruct (skip_string (ch :: s)) as [s2|] eqn:E; [|done]. apply skip_string_length in E. cbn in *.
    intros H%IH. lia.
  - intros H%IH. cbn. lia.
Qed.

Lemma scan_tail_length s : (length (scan_exponent (scan_fraction (skip_digits s))) <= length s)%nat.
Proof.
  transitivity (length (scan_fraction (skip_digits s))); [|transitivity (length (skip_digits s)); [|apply skip_digits_length]].
  - generalize (scan_fraction (skip_digits s)). intros [|c s']; [done|]. unfold scan_exponent.
    destruct (_ || _); [|done]. etrans; [apply skip_digits_length|].
    destruct s' as [|c' s'']; cbn; [lia|]. destruct (_ || _); cbn; lia.
  - generalize (skip_digits s). intros [|c s']; [done|]. unfold scan_fraction. destruct (c =? 46); [|done].
    etrans; [apply skip_digits_length|]. cbn. lia.
Qed.

Lemma scan_number_length ch s :
  (ch =? 45) || is_digit ch = true -> (length (scan_number (ch :: s)) <= length s)%nat.
Proof.
  intros H. unfold scan_number, scan_sign. destruct (ch =? 45); cbn [orb] in H; [apply scan_tail_length|].
  cbn [skip_digits]. rewrite H. apply scan_tail_length.
Qed.

Lemma scan_value_length s b r :
  scan_value s = Some (b, r) -> ((if b then 2 else 1) + length r <= length (skip_ws s))%nat.
Proof.
  unfold scan_value. generalize (skip_ws s). clear s. intros [|ch s]; [done|].
  assert (Hf : forall (o : option (list Z)) b', pair b' <$> o = Some (b, r) -> b' = b /\ o = Some r).
  { intros [x|] b' E; [|done]. by injection E as -> ->. }
  destruct (ch =? 34).
  { intros [<- H%skip_string_length]%Hf. lia. }
  destruct (ch =? 123); [intros [<- H%scan_nested_length]%Hf; cbn; lia|].
  destruct (ch =? 91); [intros [<- H%scan_nested_length]%Hf; cbn; lia|].
  destruct (ch =? 116); [intros [<- H%skip_literal_length]%Hf; cbn in *; lia|].
  destruct (ch =? 102); [intros [<- H%skip_literal_length]%Hf; cbn in *; lia|].
  destruct (ch =? 110); [intros [<- H%skip_literal_length]%Hf; cbn in *; lia|].
  destruct (_ || _) eqn:E; [|done]. intros [= <- <-]. pose proof (scan_number_length _ s E). cbn. lia.
Qed.

(** ** Fuel *)

Lemma scan_nested_fuel fuel o c d s :
  (length s <= fuel)%nat -> scan_nested fuel o c d s = scan_nested (length s) o c d s.
Proof.
  remember (length s) as n eqn:Hn. assert (Hle : (length s <= n)%nat) by lia. clear Hn.
  intros Hf. revert d s fuel Hle Hf.
  induction n as [|n IH]; intros [|d] [|ch s] [|fuel] Hle Hf; cbn [scan_nested length] in *; try done; try lia.
  destruct (ch =? 34).
  - destruct (skip_string (ch :: s)) as [s2|] eqn:E; [|done]. apply skip_string_length in E. cbn in E.
    apply IH; lia.
  - apply IH; lia.
Qed.

(** The loop without its fuel. *)
Definition scan (o c : Z) (d : nat) (s : list Z) : option (list Z) := scan_nested (length s) o c d s.

Lemma scan_string o c d b s2 :
  skip_string (34 :: b) = Some s2 -> scan o c (S d) (34 :: b) = scan o c (S d) s2.
Proof.
  intros E. unfold scan. cbn [length scan_nested]. rewrite Z.eqb_refl, E.
  apply skip_string_length in E. cbn in E. apply scan_nested_fuel. lia.
Qed.

Lemma scan_char o c d ch s :
  ch <> 34 ->
  scan o c (S d) (ch :: s) = scan o c (if ch =? o then S (S d) else if ch =? c then d else S d) s.
Proof. intros H. unfold scan. cbn [length scan_nested]. by rewrite (proj2 (Z.eqb_neq ch 34) H). Qed.

(** ** The grammar *)

(** What is between the quotes. *)
Inductive string_body : list Z -> Prop :=
| sb_nil : string_body []
| sb_char c s : c <> 34 -> c <> 92 -> string_body s -> string_body (c :: s)
| sb_escape c s : c <> 117 -> string_body s -> string_body (92 :: c :: s)
| sb_unicode a b c d s : string_body s -> string_body (92 :: 117 :: a :: b :: c :: d :: s).

Definition blank (w : list Z) : Prop := forallb is_ws w = true.
Definition digits (ds : list Z) : Prop := forallb is_digit ds = true.

Inductive exponent_text : list Z -> Prop :=
| ex_none : exponent_text []
| ex_some e sgn ds : e = 101 \/ e = 69 -> sgn = [] \/ sgn = [43] \/ sgn = [45] -> digits ds -> ds <> [] ->
    exponent_text (e :: sgn ++ ds).
Inductive fraction_text : list Z -> Prop :=
| fr_none : fraction_text []
| fr_some ds : digits ds -> ds <> [] -> fraction_text (46 :: ds).
Inductive number_text : list Z -> Prop :=
| number_intro sgn ip fr ex : sgn = [] \/ sgn = [45] -> digits ip -> ip <> [] -> fraction_text fr -> exponent_text ex ->
    number_text (sgn ++ ip ++ fr ++ ex).

(** JSON values, the elements of an array with their texts, and the members of an
    object with the texts of their keys (between the quotes) and values.  Every JSON
    text is one of these; a comma before the closing bracket is one too. *)
Inductive value_text : list Z -> Prop :=
| vt_string b : string_body b -> value_text (34 :: b ++ [34])
| vt_true : value_text (ascii_bytes "true"%string)
| vt_false : value_text (ascii_bytes "false"%string)
| vt_null : value_text (ascii_bytes "null"%string)
| vt_number n : number_text n -> value_text n
| vt_array vs s : elements_text vs s -> value_text (91 :: s ++ [93])
| vt_object ms s : members_text ms s -> value_text (123 :: s ++ [125])
with elements_text : list (list Z) -> list Z -> Prop :=
| et_none w : blank w -> elements_text [] w
| et_one w v w' : blank w -> value_text v -> blank w' -> elements_text [v] (w ++ v ++ w')
| et_more w v w' vs s : blank w -> value_text v -> blank w' -> elements_text vs s ->
    elements_text (v :: vs) (w ++ v ++ w' ++ 44 :: s)
with members_text : list (list Z * list Z) -> list Z -> Prop :=
| mt_none w : blank w -> members_text [] w
| mt_one w k w1 w2 v w3 : blank w -> string_body k -> blank w1 -> blank w2 -> value_text v -> blank w3 ->
    members_text [(k, v)] (w ++ 34 :: k ++ 34 :: w1 ++ 58 :: w2 ++ v ++ w3)
| mt_more w k w1 w2 v w3 ms s : blank w -> string_body k -> blank w1 -> blank w2 -> value_text v -> blank w3 ->
    members_text ms s ->
    members_text ((k, v) :: ms) (w ++ 34 :: k ++ 34 :: w1 ++ 58 :: w2 ++ v ++ w3 ++ 44 :: s).

Scheme value_text_mut := Minimality for value_text Sort Prop
  with elements_text_mut := Minimality for elements_text Sort Prop
  with members_text_mut := Minimality for members_text Sort Prop.

(** ** Scanning what the grammar generates *)

Lemma string_end_body b r : string_body b -> string_end (b ++ 34 :: r) = Some r.
Proof.
  induction 1 as [|c s H1 H2 _ IH|c s H1 _ IH|]; cbn; try done.
  - by rewrite (proj2 (Z.eqb_neq c 34) H1), (proj2 (Z.eqb_neq c 92) H2).
  - by rewrite (proj2 (Z.eqb_neq c 117) H1).
Qed.

Lemma skip_string_body b r : string_body b -> skip_string (34 :: b ++ 34 :: r) = Some r.
Proof. apply string_end_body. Qed.

Lemma skip_ws_blank w s : blank w -> skip_ws (w ++ s) = skip_ws s.
Proof.
  unfold blank. induction w as [|c w IH]; cbn; [done|]. intros [Hc Hw]%andb_true_iff. rewrite Hc. by apply IH.
Qed.

Lemma skip_ws_head c s : is_ws c = false -> skip_ws (c :: s) = c :: s.
Proof. cbn. by intros ->. Qed.

(** What may follow a value. *)
Definition stops (r : list Z) : Prop :=
  match r with [] => True | c :: _ => is_ws c || (c =? 44) || (c =? 93) || (c =? 125) = true end.

Lemma stops_blank w r : blank w -> stops r -> stops (w ++ r).
Proof. destruct w as [|c w]; [done|]. unfold blank. cbn. by intros [-> _]%andb_true_iff _. Qed.

Lemma skip_digits_app ds r :
  digits ds -> match r with [] => True | c :: _ => is_digit c = false end -> skip_digits (ds ++ r) = r.
Proof.
  unfold digits. induction ds as [|c ds IH]; cbn.
  - intros _. destruct r as [|c r]; [done|]. cbn. by intros ->.
  - intros [Hc Hd]%andb_true_iff Hr. rewrite Hc. by apply IH.
Qed.

Lemma digits_head ds : digits ds -> ds <> [] -> exists c ds', ds = c :: ds' /\ is_digit c = true.
Proof. unfold digits. destruct ds as [|c ds]; [done|]. cbn. intros [Hc _]%andb_true_iff _. by exists c, ds. Qed.

Lemma stops_head r : stops r -> match r with [] => True | c :: _ =>
  is_digit c = false /\ (c =? 46) = false /\ (c =? 101) || (c =? 69) = false end.
Proof. destruct r as [|c r]; [done|]. unfold stops, is_ws, is_digit. intros H. lia. Qed.

Lemma scan_exponent_text ex r : exponent_text ex -> stops r -> scan_exponent (ex ++ r) = r.
Proof.
  intros [|e sgn ds He Hs Hd Hne] Hr; cbn [app].
  - apply stops_head in Hr. destruct r as [|c r]; [done|]. destruct Hr as (_ & _ & He). unfold scan_exponent. by rewrite He.
  - unfold scan_exponent. replace ((e =? 101) || (e =? 69)) with true by lia.
    destruct (digits_head ds Hd Hne) as (c & ds' & -> & Hc).
    assert (Hskip : skip_digits ((c :: ds') ++ r) = r).
    { apply skip_digits_app; [done|]. apply stops_head in Hr. destruct r; [done|]. by destruct Hr. }
    rewrite <- app_assoc. destruct Hs as [->|[->| ->]]; cbn [app]; try (exact Hskip).
    replace ((c =? 43) || (c =? 45)) with false by (unfold is_digit in Hc; lia). exact Hskip.
Qed.

Lemma scan_fraction_text fr ex r :
  fraction_text fr -> exponent_text ex -> stops r -> scan_fraction (fr ++ ex ++ r) = ex ++ r.
Proof.
  intros Hf He Hr.
  assert (Hh : match ex ++ r with [] => True | c :: _ => is_digit c = false /\ (c =? 46) = false end).
  { destruct He as [|e sgn ds He _ _ _]; cbn [app]; [|unfold is_digit; lia]. apply stops_head in Hr.
    destruct r; [done|]. by destruct Hr as (? & ? & _). }
  destruct Hf as [|ds Hd Hne]; cbn [app].
  - unfold scan_fraction. destruct (ex ++ r) as [|c s]; [done|]. by destruct Hh as [_ ->].
  - cbn [scan_fraction Z.eqb]. apply skip_digits_app; [done|]. destruct (ex ++ r); [done|]. by destruct Hh.
Qed.

Lemma scan_number_text n r : number_text n -> stops r -> scan_number (n ++ r) = r.
Proof.
  intros [sgn ip fr ex Hs Hd Hne Hf He] Hr. rewrite <- !app_assoc. unfold scan_number.
  destruct (digits_head ip Hd Hne) as (c & ds' & -> & Hc).
  assert (Hsign : scan_sign (sgn ++ (c :: ds') ++ fr ++ ex ++ r) = (c :: ds') ++ fr ++ ex ++ r).
  { destruct Hs as [->| ->]; [|done]. cbn. replace (c =? 45) with false by (unfold is_digit in Hc; lia). done. }
  rewrite Hsign, skip_digits_app; [|done|].
  - by rewrite scan_fraction_text, scan_exponent_text.
  - destruct Hf as [|ds]; [|done]. destruct He as [|e sgn' ds He]; cbn; [|unfold is_digit; lia].
    apply stops_head in Hr. destruct r; [done|]. by destruct Hr.
Qed.

Lemma number_text_head n :
  number_text n -> exists c n', n = c :: n' /\ (c =? 45) || is_digit c = true.
Proof.
  intros [sgn ip fr ex Hs Hd Hne _ _]. destruct (digits_head ip Hd Hne) as (c & ds & -> & Hc).
  destruct Hs as [->| ->]; eexists _, _; (split; [reflexivity|]); [|done]. by rewrite Hc, orb_true_r.
Qed.

(** A text the bracket loop runs over without a change of depth. *)
Definition bracket (o c : Z) : Prop := (o = 123 /\ c = 125) \/ (o = 91 /\ c = 93).
Definition passes (s : list Z) : Prop :=
  forall o c d r, bracket o c -> scan o c (S d) (s ++ r) = scan o c (S d) r.

Lemma passes_nil : passes [].
Proof. by intros o c d r _. Qed.

Lemma passes_app s1 s2 : passes s1 -> passes s2 -> passes (s1 ++ s2).
Proof. intros H1 H2 o c d r Hb. by rewrite <- app_assoc, H1, H2. Qed.

Definition plain (ch : Z) : bool :=
  negb ((ch =? 34) || (ch =? 123) || (ch =? 125) || (ch =? 91) || (ch =? 93)).
Lemma passes_plain s : forallb plain s = true -> passes s.
Proof.
  induction s as [|ch s IH]; cbn [forallb]; intros H; [apply passes_nil|]. apply andb_true_iff in H as [Hc Hs].
  unfold plain in Hc. intros o c d r Hb. cbn [app]. rewrite scan_char by lia.
  replace (ch =? o) with false by (destruct Hb; lia). replace (ch =? c) with false by (destruct Hb; lia). by apply IH.
Qed.

Lemma forallb_plain (f : Z -> bool) s :
  (forall ch, f ch = true -> plain ch = true) -> forallb f s = true -> forallb plain s = true.
Proof.
  intros Hf. induction s as [|ch s IH]; cbn; [done|]. intros [Hc Hs]%andb_true_iff. by rewrite Hf, IH.
Qed.

Lemma passes_blank w : blank w -> passes w.
Proof. intros H. apply passes_plain, (forallb_plain is_ws); [|done]. unfold is_ws, plain. intros ch. lia. Qed.
Lemma passes_digits ds : digits ds -> passes ds.
Proof. intros H. apply passes_plain, (forallb_plain is_digit); [|done]. unfold is_digit, plain. intros ch. lia. Qed.

Lemma passes_string b : string_body b -> passes (34 :: b ++ [34]).
Proof.
  intros Hb o c d r _. cbn [app]. rewrite <- app_assoc. cbn [app]. apply scan_string, (skip_string_body b r Hb).
Qed.

Lemma passes_number n : number_text n -> passes n.
Proof.
  intros [sgn ip fr ex Hs Hd _ Hf He]. apply passes_app; [|apply passes_app; [by apply passes_digits|apply passes_app]].
  - apply passes_plain. by destruct Hs as [->| ->].
  - destruct Hf as [|ds Hds _]; [apply passes_nil|]. apply (passes_app [46]); [by apply passes_plain|by apply passes_digits].
  - destruct He as [|e sgn' ds He Hs' Hds _]; [apply passes_nil|].
    apply (passes_app [e]); [apply passes_plain; cbn; unfold plain; lia|].
    apply passes_app; [|by apply passes_digits]. apply passes_plain. by destruct Hs' as [->|[->| ->]].
Qed.

Lemma scan_open o c d s r :
  bracket o c -> passes s -> scan o c (S d) (s ++ [c] ++ r) = scan o c d r.
Proof.
  intros Hb Hp. rewrite Hp by done. cbn [app]. rewrite scan_char by (destruct Hb; lia).
  replace (c =? o) with false by (destruct Hb; lia). by rewrite Z.eqb_refl.
Qed.

Lemma passes_bracketed o c s : bracket o c -> passes s -> passes (o :: s ++ [c]).
Proof.
  intros Hb Hs o' c' d r Hb'. cbn [app]. rewrite <- app_assoc. rewrite scan_char by (destruct Hb; lia).
  destruct (decide (o' = o)) as [->|Hne].
  - assert (c' = c) as -> by (destruct Hb, Hb'; lia). rewrite Z.eqb_refl. by apply scan_open.
  - replace (o =? o') with false by lia. replace (o =? c') with false by (destruct Hb, Hb'; lia).
    rewrite Hs by done. cbn [app]. rewrite scan_char by (destruct Hb; lia).
    replace (c =? o') with false by (destruct Hb, Hb'; lia). by replace (c =? c') with false by (destruct Hb, Hb'; lia).
Qed.

#[local] Hint Resolve passes_blank passes_string passes_app passes_nil : obicall.

Lemma passes_all :
  (forall v, value_text v -> passes v) /\
  (forall vs s, elements_text vs s -> passes s) /\ (forall ms s, members_text ms s -> passes s).
Proof.
  assert (Hcons : forall ch s, plain ch = true -> passes s -> passes (ch :: s)).
  { intros ch s Hc Hs. apply (passes_app [ch]); [|done]. apply passes_plain. cbn. by rewrite Hc. }
  assert (Hkey : forall k w1 w2 v s, string_body k -> blank w1 -> blank w2 -> passes v -> passes s ->
    passes (34 :: k ++ 34 :: w1 ++ 58 :: w2 ++ v ++ s)).
  { intros k w1 w2 v s Hk H1 H2 Hv Hs.
    replace (34 :: k ++ 34 :: w1 ++ 58 :: w2 ++ v ++ s) with ((34 :: k ++ [34]) ++ w1 ++ [58] ++ w2 ++ v ++ s)
      by (cbn; by rewrite <- app_assoc).
    apply passes_app; [by apply passes_string|]. apply passes_app; [by apply passes_blank|].
    apply passes_app; [by apply passes_plain|]. apply passes_app; [by apply passes_blank|]. by apply passes_app. }
  assert (Hcat3 : forall s1 s2 s3, passes s1 -> passes s2 -> passes s3 -> passes (s1 ++ s2 ++ s3)).
  { intros s1 s2 s3 H1 H2 H3. by apply passes_app, passes_app. }
  assert (H : forall v, value_text v -> passes v).
  { intros v Hv. revert v Hv. apply (value_text_mut passes (fun _ => passes) (fun _ => passes));
      try (by intros; apply passes_plain); try (by apply passes_blank); try (by apply passes_string).
    - by apply passes_number.
    - intros _ s _ Hs. apply passes_bracketed; [by right|done].
    - intros _ s _ Hs. apply passes_bracketed; [by left|done].
    - intros w v w' Hw _ Hv Hw'. apply Hcat3; auto with obicall.
    - intros w v w' vs s Hw _ Hv Hw' _ Hs. apply Hcat3; auto with obicall.
    - intros w k w1 w2 v w3 Hw Hk H1 H2 _ Hv H3. apply passes_app; auto with obicall.
    - intros w k w1 w2 v w3 ms s Hw Hk H1 H2 _ Hv H3 _ Hs. apply passes_app; auto 8 with obicall. }
  split; [done|]. split.
  - induction 1; [auto with obicall|apply Hcat3; auto with obicall..].
  - induction 1; [auto with obicall|apply passes_app; auto 8 with obicall..].
Qed.

(** ** Values, members and elements *)

Definition is_str (v : list Z) : bool := bool_decide (head v = Some 34).
(** What a span of the value covers: a string without its quotes. *)
Definition content (v : list Z) : list Z := if is_str v then take (length v - 2) (tail v) else v.

Lemma value_head v : value_text v -> exists c v', v = c :: v' /\ is_ws c = false.
Proof.
  intros [b Hb| | | |n [sgn ip fr ex Hs Hd Hne _ _]|vs s _|ms s _]; try (by eexists _, _).
  destruct (digits_head ip Hd Hne) as (c & ds & -> & Hc).
  destruct Hs as [->| ->]; eexists _, _; (split; [reflexivity|]); [|done].
  unfold is_digit in Hc. unfold is_ws. lia.
Qed.

Lemma skip_ws_value w v r : blank w -> value_text v -> skip_ws (w ++ v ++ r) = v ++ r.
Proof.
  intros Hw (c & v' & -> & Hc)%value_head. rewrite skip_ws_blank by done. by apply skip_ws_head.
Qed.

Lemma scan_value_text v r : value_text v -> stops r -> scan_value (v ++ r) = Some (is_str v, r).
Proof.
  intros Hv Hr. unfold scan_value. rewrite <- (app_nil_l (v ++ r)), (skip_ws_value [] v r) by done.
  destruct Hv as [b Hb| | | |n Hn|vs s Hs|ms s Hs]; try done.
  - cbn [app]. rewrite <- app_assoc. cbn [app Z.eqb Pos.eqb]. by rewrite skip_string_body.
  - destruct (number_text_head n Hn) as (c & n' & -> & Hc). cbn [app].
    replace (c =? 34) with false by (unfold is_digit in Hc; lia).
    replace (c =? 123) with false by (unfold is_digit in Hc; lia).
    replace (c =? 91) with false by (unfold is_digit in Hc; lia).
    replace (c =? 116) with false by (unfold is_digit in Hc; lia).
    replace (c =? 102) with false by (unfold is_digit in Hc; lia).
    replace (c =? 110) with false by (unfold is_digit in Hc; lia).
    rewrite Hc. rewrite (app_comm_cons n' r c), scan_number_text by done.
    unfold is_str. rewrite bool_decide_eq_false_2; [done|]. intros [= ->]. by unfold is_digit in Hc.
  - cbn [app Z.eqb Pos.eqb]. rewrite <- app_assoc. fold (scan 91 93 1 (s ++ [93] ++ r)).
    rewrite scan_open; [|by right|by apply (proj1 (proj2 passes_all) vs)].
    unfold scan. by destruct r.
  - cbn [app Z.eqb Pos.eqb]. rewrite <- app_assoc. fold (scan 123 125 1 (s ++ [125] ++ r)).
    rewrite scan_open; [|by left|by apply (proj2 (proj2 passes_all) ms)].
    unfold scan. by destruct r.
Qed.

(** [sp] is a span of the value [v] inside [js]. *)
Record describes (js : list Z) (sp : json_span) (v : list Z) : Prop := {
  ds_is_string : sp_is_string sp = is_str v;
  ds_bytes : span_bytes js sp = content v;
  ds_bound : (sp_off sp + sp_len sp <= length js)%nat
}.

Lemma span_describes js pre v r :
  value_text v -> js = pre ++ v ++ r -> describes js (span_from_value js (v ++ r) r (is_str v)) v.
Proof.
  intros Hv ->.
  assert (Ho : (length (pre ++ v ++ r) - length (v ++ r) = length pre)%nat) by (rewrite !length_app; lia).
  assert (Hf : (length (pre ++ v ++ r) - length r = length pre + length v)%nat) by (rewrite !length_app; lia).
  unfold span_from_value. rewrite Ho, Hf. destruct (is_str v) eqn:E.
  - assert (Hq : exists b, v = 34 :: b ++ [34]).
    { unfold is_str in E. apply bool_decide_eq_true in E.
      destruct Hv as [b Hb| | | |n Hn|vs s Hs|ms s Hs]; try done; [by exists b|].
      destruct (number_text_head n Hn) as (c & n' & -> & Hc). injection E as ->. done. }
    destruct Hq as [b ->]. cbn [length] in *. rewrite length_app in *. cbn [length] in *.
    replace (length pre + S (length b + 1) - 1 - (length pre + 1))%nat with (length b) by lia.
    split; cbn [sp_is_string sp_off sp_len]; [done| |rewrite !length_app; cbn [length]; rewrite length_app; cbn [length]; lia].
    unfold span_bytes, content. cbn [sp_off sp_len]. rewrite E. cbn [length tail app]. rewrite length_app. cbn [length].
    replace (S (length b + 1) - 2)%nat with (length b) by lia. rewrite take_app_length.
    replace (pre ++ 34 :: (b ++ [34]) ++ r) with ((pre ++ [34]) ++ b ++ 34 :: r) by (by rewrite <- !app_assoc).
    replace (length pre + 1)%nat with (length (pre ++ [34])) by (rewrite length_app; done).
    by rewrite drop_app_length, take_app_length.
  - replace (length pre + length v - length pre)%nat with (length v) by lia.
    split; cbn [sp_is_string sp_off sp_len]; [done| |rewrite !length_app; lia].
    unfold span_bytes, content. cbn [sp_off sp_len]. by rewrite E, drop_app_length, take_app_length.
Qed.

Fixpoint first_member (key : list Z) (ms : list (list Z * list Z)) : option (list Z) :=
  match ms with
  | [] => None
  | (k, v) :: ms => if bool_decide (k = key) then Some v else first_member key ms
  end.

(** The loop over the members, at the first of those left. *)
Lemma find_member_step fuel js key w k w1 w2 v w3 r :
  blank w -> string_body k -> blank w1 -> blank w2 -> value_text v -> blank w3 ->
  match r with c :: _ => c = 44 \/ c = 125 | [] => False end ->
  find_member (S fuel) js key (w ++ 34 :: k ++ 34 :: w1 ++ 58 :: w2 ++ v ++ w3 ++ r) =
  if bool_decide (k = key) then Some (span_from_value js (v ++ w3 ++ r) (w3 ++ r) (is_str v))
  else match r with c :: r' => if c =? 44 then find_member fuel js key r' else None | [] => None end.
Proof.
  intros Hw Hk H1 H2 Hv H3 Hr. cbn [find_member]. rewrite skip_ws_blank, skip_ws_head by done.
  rewrite skip_string_body by done.
  assert (Hkey : take (length (34 :: k ++ 34 :: w1 ++ 58 :: w2 ++ v ++ w3 ++ r) -
     length (w1 ++ 58 :: w2 ++ v ++ w3 ++ r) - 2) (tail (34 :: k ++ 34 :: w1 ++ 58 :: w2 ++ v ++ w3 ++ r)) = k).
  { cbn [length tail]. rewrite length_app. cbn [length].
    replace (_ - _ - 2)%nat with (length k) by lia. by rewrite take_app_length. }
  rewrite Hkey. rewrite skip_ws_blank, skip_ws_head by done. cbn [Z.eqb Pos.eqb].
  rewrite skip_ws_value by done.
  assert (Hstop : stops (w3 ++ r)).
  { apply stops_blank; [done|]. destruct r as [|c r]; [done|]. cbn. by destruct Hr as [->| ->]. }
  rewrite scan_value_text by done. case_bool_decide; [done|]. rewrite skip_ws_blank by done.
  destruct r as [|c r]; [done|]. rewrite skip_ws_head by (by destruct Hr as [->| ->]). done.
Qed.

Lemma find_member_members ms s :
  members_text ms s -> forall fuel js key pre tl,
  js = pre ++ s ++ 125 :: tl -> (length s < fuel)%nat ->
  match first_member key ms with
  | Some v => exists sp, find_member fuel js key (s ++ 125 :: tl) = Some sp /\ describes js sp v
  | None => find_member fuel js key (s ++ 125 :: tl) = None
  end.
Proof.
  induction 1 as [w Hw|w k w1 w2 v w3 Hw Hk H1 H2 Hv H3|w k w1 w2 v w3 ms s Hw Hk H1 H2 Hv H3 Hs IH];
    intros [|fuel] js key pre tl Hjs Hf; try lia; cbn [first_member].
  - cbn [find_member]. by rewrite skip_ws_blank, skip_ws_head by done.
  - replace ((w ++ 34 :: k ++ 34 :: w1 ++ 58 :: w2 ++ v ++ w3) ++ 125 :: tl)
      with (w ++ 34 :: k ++ 34 :: w1 ++ 58 :: w2 ++ v ++ w3 ++ 125 :: tl) in *
      by (by rewrite <- !app_assoc, <- app_comm_cons, <- !app_assoc, <- app_comm_cons, <- !app_assoc,
            <- app_comm_cons, <- !app_assoc).
    rewrite find_member_step by auto. case_bool_decide; [|done]. eexists. split; [reflexivity|].
    apply (span_describes js (pre ++ w ++ 34 :: k ++ 34 :: w1 ++ 58 :: w2)); [done|]. rewrite Hjs.
    by rewrite <- !app_assoc, <- app_comm_cons, <- !app_assoc, <- app_comm_cons, <- !app_assoc, <- app_comm_cons.
  - replace ((w ++ 34 :: k ++ 34 :: w1 ++ 58 :: w2 ++ v ++ w3 ++ 44 :: s) ++ 125 :: tl)
      with (w ++ 34 :: k ++ 34 :: w1 ++ 58 :: w2 ++ v ++ w3 ++ 44 :: s ++ 125 :: tl) in *
      by (by rewrite <- !app_assoc, <- app_comm_cons, <- !app_assoc, <- app_comm_cons, <- !app_assoc,
            <- app_comm_cons, <- !app_assoc, <- app_comm_cons).
    rewrite find_member_step by auto. case_bool_decide.
    + eexists. split; [reflexivity|].
      apply (span_describes js (pre ++ w ++ 34 :: k ++ 34 :: w1 ++ 58 :: w2)); [done|]. rewrite Hjs.
      by rewrite <- !app_assoc, <- app_comm_cons, <- !app_assoc, <- app_comm_cons, <- !app_assoc, <- app_comm_cons.
    + cbn [Z.eqb Pos.eqb]. apply (IH fuel js key (pre ++ w ++ 34 :: k ++ 34 :: w1 ++ 58 :: w2 ++ v ++ w3 ++ [44])).
      * rewrite Hjs. by rewrite <- !app_assoc, <- app_comm_cons, <- !app_assoc, <- app_comm_cons, <- !app_assoc,
          <- app_comm_cons, <- !app_assoc.
      * rewrite !length_app in Hf. cbn [length] in Hf. rewrite !length_app in Hf. cbn [length] in Hf.
        rewrite !length_app in Hf. cbn [length] in Hf. rewrite !length_app in Hf. cbn [length] in Hf. lia.
Qed.

Lemma scan_element w v w' r :
  blank w -> value_text v -> blank w' -> match r with c :: _ => c = 44 \/ c = 93 | [] => False end ->
  skip_ws (w ++ v ++ w' ++ r) = v ++ w' ++ r /\ scan_value (v ++ w' ++ r) = Some (is_str v, w' ++ r) /\
  skip_ws (w' ++ r) = r /\ (exists c s, v ++ w' ++ r = c :: s /\ (c =? 93) = false).
Proof.
  intros Hw Hv Hw' Hr. split; [by apply skip_ws_value|].
  assert (Hstop : stops (w' ++ r)).
  { apply stops_blank; [done|]. destruct r as [|c r]; [done|]. cbn. by destruct Hr as [->| ->]. }
  split; [by apply scan_value_text|]. split.
  { rewrite skip_ws_blank by done. destruct r as [|c r]; [done|]. apply skip_ws_head. by destruct Hr as [->| ->]. }
  destruct Hv as [b Hb| | | |n Hn|vs s _|ms s _]; try by (eexists _, _).
  destruct (number_text_head n Hn) as (c & n' & -> & Hc). eexists c, _. split; [reflexivity|].
  unfold is_digit in Hc. lia.
Qed.

Lemma count_elements_text vs s :
  elements_text vs s -> forall fuel tl n, (length s < fuel)%nat ->
  count_elements fuel (s ++ 93 :: tl) n = Some (n + length vs)%nat.
Proof.
  induction 1 as [w Hw|w v w' Hw Hv Hw'|w v w' vs s Hw Hv Hw' Hs IH]; intros [|fuel] tl n Hf; try lia;
    cbn [count_elements].
  - rewrite skip_ws_blank, skip_ws_head by done. cbn. by rewrite Nat.add_0_r.
  - rewrite <- !app_assoc.
    destruct (scan_element w v w' (93 :: tl)) as (-> & Hsc & Hsk & c & s & E & Hc); auto.
    rewrite E in Hsc |- *. cbv beta iota. rewrite Hc, Hsc, Hsk. cbn. by rewrite Nat.add_1_r.
  - rewrite <- !app_assoc, <- app_comm_cons.
    destruct (scan_element w v w' (44 :: s ++ 93 :: tl)) as (-> & Hsc & Hsk & c & s' & E & Hc); auto.
    rewrite E in Hsc |- *. cbv beta iota. rewrite Hc, Hsc, Hsk. cbn [Z.eqb Pos.eqb]. rewrite IH; [by cbn; rewrite Nat.add_succ_r|].
    rewrite !length_app in Hf. cbn [length] in Hf. lia.
Qed.

Lemma get_element_text vs s :
  elements_text vs s -> forall fuel js pre tl i index,
  js = pre ++ s ++ 93 :: tl -> (length s < fuel)%nat -> (i <= index)%nat ->
  match vs !! (index - i)%nat with
  | Some v => exists sp, get_element fuel js (s ++ 93 :: tl) i index = Some sp /\ describes js sp v
  | None => get_element fuel js (s ++ 93 :: tl) i index = None
  end.
Proof.
  induction 1 as [w Hw|w v w' Hw Hv Hw'|w v w' vs s Hw Hv Hw' Hs IH];
    intros [|fuel] js pre tl i index Hjs Hf Hi; try lia; cbn [get_element].
  - by rewrite skip_ws_blank, skip_ws_head by done.
  - rewrite <- !app_assoc in Hjs |- *.
    destruct (scan_element w v w' (93 :: tl)) as (-> & Hsc & Hsk & c & s & E & Hc); auto.
    rewrite E in Hsc |- *. cbv beta iota. rewrite Hc, Hsc, Hsk, <- E. destruct (Nat.eqb_spec i index) as [->|Hne].
    + rewrite Nat.sub_diag. cbn. eexists. split; [reflexivity|]. apply (span_describes js (pre ++ w)); [done|].
      by rewrite Hjs, <- !app_assoc.
    + cbn [Z.eqb Pos.eqb]. by destruct (index - i)%nat eqn:Ed; [lia|].
  - rewrite <- !app_assoc, <- app_comm_cons in Hjs |- *.
    destruct (scan_element w v w' (44 :: s ++ 93 :: tl)) as (-> & Hsc & Hsk & c & s' & E & Hc); auto.
    rewrite E in Hsc |- *. cbv beta iota. rewrite Hc, Hsc, Hsk, <- E. destruct (Nat.eqb_spec i index) as [->|Hne].
    + rewrite Nat.sub_diag. cbn. eexists. split; [reflexivity|]. apply (span_describes js (pre ++ w)); [done|].
      by rewrite Hjs, <- !app_assoc.
    + cbn [Z.eqb Pos.eqb]. replace (index - i)%nat with (S (index - S i)) by lia. cbn [lookup list_lookup].
      apply (IH fuel js (pre ++ w ++ v ++ w' ++ [44])); [|rewrite !length_app in Hf; cbn [length] in Hf; lia|lia].
      by rewrite Hjs, <- !app_assoc.
Qed.

(** ** On every input *)

Lemma span_in_bounds js vs ve (b : bool) :
  (length vs <= length js)%nat -> ((if b then 2 else 1) + length ve <= length vs)%nat ->
  (sp_off (span_from_value js vs ve b) + sp_len (span_from_value js vs ve b) <= length js)%nat.
Proof. unfold span_from_value. destruct b; cbn; lia. Qed.

Lemma skip_ws_idem s : skip_ws (skip_ws s) = skip_ws s.
Proof. induction s as [|c s IH]; cbn; [done|]. destruct (is_ws c) eqn:E; [done|]. cbn. by rewrite E. Qed.

Lemma find_member_bounds fuel js key s sp :
  (length s <= length js)%nat -> find_member fuel js key s = Some sp -> (sp_off sp + sp_len sp <= length js)%nat.
Proof.
  revert s. induction fuel as [|fuel IH]; intros s Hs; cbn [find_member]; [done|].
  pose proof (skip_ws_length s) as H0. destruct (skip_string (skip_ws s)) as [s1|] eqn:E1; [|done].
  apply skip_string_length in E1. pose proof (skip_ws_length s1) as H1. destruct (skip_ws s1) as [|c s2]; [done|].
  cbn in H1. destruct (c =? 58); [|done]. pose proof (skip_ws_length s2) as H2.
  destruct (scan_value (skip_ws s2)) as [[b ve]|] eqn:E2; [|done]. apply scan_value_length in E2.
  rewrite skip_ws_idem in E2. case_bool_decide.
  - intros [= <-]. apply span_in_bounds; lia.
  - pose proof (skip_ws_length ve) as H3. destruct (skip_ws ve) as [|c' s3]; [done|]. cbn in H3.
    destruct (c' =? 44); [|done]. apply IH. destruct b; lia.
Qed.

Lemma get_element_bounds fuel js s i index sp :
  (length s <= length js)%nat -> get_element fuel js s i index = Some sp -> (sp_off sp + sp_len sp <= length js)%nat.
Proof.
  revert s i. induction fuel as [|fuel IH]; intros s i Hs; cbn [get_element]; [done|].
  pose proof (skip_ws_length s) as H0. destruct (skip_ws s) as [|c s1] eqn:E; [done|]. destruct (c =? 93); [done|].
  destruct (scan_value (c :: s1)) as [[b ve]|] eqn:E2; [|done]. apply scan_value_length in E2.
  rewrite <- E, skip_ws_idem, E in E2. destruct (i =? index)%nat.
  - intros [= <-]. apply span_in_bounds; lia.
  - pose proof (skip_ws_length ve) as H3. destruct (skip_ws ve) as [|c' s3]; [done|]. cbn in H3.
    destruct (c' =? 44); [|done]. apply IH. destruct b; lia.
Qed.

Lemma count_get fuel js s k n :
  count_elements fuel s k = Some n -> (k <= n)%nat /\
  forall i index, (i <= index)%nat -> is_Some (get_element fuel js s i index) <-> (index - i < n - k)%nat.
Proof.
  revert s k. induction fuel as [|fuel IH]; intros s k; cbn [count_elements get_element]; [done|].
  destruct (skip_ws s) as [|c s1] eqn:E; [done|]. destruct (c =? 93).
  { intros [= ->]. split; [done|]. intros i index Hi. split; [by intros [? [=]]|lia]. }
  destruct (scan_value (c :: s1)) as [[b ve]|] eqn:E2; [|done].
  destruct (skip_ws ve) as [|c' s3]; [done|]. destruct (c' =? 44).
  - intros [Hk H]%IH. split; [lia|]. intros i index Hi. destruct (Nat.eqb_spec i index) as [->|Hne].
    + split; [lia|]. intros _. by eexists.
    + rewrite H by lia. lia.
  - destruct (c' =? 93); [|done]. intros [= <-]. split; [lia|]. intros i index Hi.
    destruct (Nat.eqb_spec i index) as [->|Hne]; (split; [|intros ?]); [lia|by eexists|by intros [? [=]]|lia].
Qed.

(** ** Escaping *)

Definition escape_byte (b : Z) : list Z :=
  if b =? 34 then [92; 34] else if b =? 92 then [92; 92] else if b =? 10 then [92; 110]
  else if b =? 9 then [92; 116] else if b =? 13 then [92; 114] else if b =? 8 then [92; 98]
  else if b =? 12 then [92; 102] else [b].
Definition escape (s : list Z) : list Z := s ≫= escape_byte.

Lemma escape_byte_cases b :
  (exists esc, escape_byte b = [92; esc] /\ esc <> 117 /\ unescape esc = Some b) \/
  (escape_byte b = [b] /\ b <> 34 /\ b <> 92).
Proof.
  unfold escape_byte. repeat (case_match; [left; eexists; split; [reflexivity|]; split; [done|];
    match goal with H : (_ =? _) = true |- _ => apply Z.eqb_eq in H; by rewrite H end|]).
  right. split; [done|lia].
Qed.

Lemma escape_body s : string_body (escape s).
Proof.
  induction s as [|b s IH]; [constructor|]. cbn.
  destruct (escape_byte_cases b) as [(esc & -> & Hu & _)|(-> & H1 & H2)]; by constructor.
Qed.

(** A string body and the bytes it stands for: any byte but quote and backslash as
    itself, or one of the escapes of two characters. *)
Inductive spells : list Z -> list Z -> Prop :=
| spells_nil : spells [] []
| spells_byte c body s : c <> 34 -> c <> 92 -> spells body s -> spells (c :: body) (c :: s)
| spells_escape e c body s : unescape e = Some c -> spells body s -> spells (92 :: e :: body) (c :: s).

Lemma unescape_not_u e c : unescape e = Some c -> e <> 117.
Proof. by intros H ->. Qed.

Lemma spells_body body s : spells body s -> string_body body.
Proof.
  induction 1 as [| |e c body s H]; [constructor|by constructor|]. apply sb_escape; [by apply (unescape_not_u e c)|done].
Qed.

Lemma escape_spells s : spells (escape s) s.
Proof.
  induction s as [|b s IH]; [constructor|]. change (escape (b :: s)) with (escape_byte b ++ escape s).
  destruct (escape_byte_cases b) as [(esc & -> & _ & Hu)|(-> & H1 & H2)]; by constructor.
Qed.

Lemma decode_spells body s room : spells body s ->
  json_decode_string body room = if bool_decide (length s < room)%nat then (s ++ [0], true) else (take room s, false).
Proof.
  intros H. revert room. induction H as [|c body s H1 H2 _ IH|e c body s Hu _ IH]; intros [|room]; try done;
    cbn [app json_decode_string length take Z.eqb Pos.eqb].
  - by rewrite (proj2 (Z.eqb_neq c 92) H2).
  - rewrite (proj2 (Z.eqb_neq c 92) H2), IH.
    rewrite (bool_decide_ext (S (length s) < S room)%nat (length s < room)%nat) by lia. by case_bool_decide.
  - by rewrite (proj2 (Z.eqb_neq e 117) (unescape_not_u _ _ Hu)), Hu.
  - rewrite (proj2 (Z.eqb_neq e 117) (unescape_not_u _ _ Hu)), Hu, IH.
    rewrite (bool_decide_ext (S (length s) < S room)%nat (length s < room)%nat) by lia. by case_bool_decide.
Qed.

Lemma decode_escape s room :
  json_decode_string (escape s) room =
  if bool_decide (length s < room)%nat then (s ++ [0], true) else (take room s, false).
Proof. apply decode_spells, escape_spells. Qed.

Lemma decode_bound json room : (length (fst (json_decode_string json room)) <= room)%nat.
Proof.
  remember (length json) as n eqn:Hn. assert (Hle : (length json <= n)%nat) by lia. clear Hn.
  revert json room Hle. induction n as [|n IH]; intros [|ch s] room Hle; cbn [json_decode_string];
    try (destruct room; cbn; lia); [cbn in Hle; lia|]. cbn in Hle.
  assert (Hst : forall b s', (length s' <= n)%nat ->
    (length (fst (match room with O => ([], false) | S room =>
       let '(out, ok) := json_decode_string s' room in (b :: out, ok) end)) <= room)%nat).
  { intros b s' Hs'. destruct room as [|room]; [done|]. pose proof (IH s' room Hs') as H.
    destruct (json_decode_string s' room). cbn in *. lia. }
  destruct (ch =? 92); [|by apply Hst; lia]. destruct s as [|esc s]; [cbn; lia|]. cbn in Hle.
  destruct (esc =? 117); [|destruct (unescape esc); [|cbn; lia]; by apply Hst; lia].
  destruct s as [|? [|? [|? [|? s]]]]; try (cbn; lia). apply Hst. cbn in Hle. lia.
Qed.

Lemma unescape_byte esc b : unescape esc = Some b -> is_u8 b.
Proof. unfold unescape. repeat (case_match; [by intros [= <-]|]). done. Qed.

Lemma decode_bytes json room : bytes json -> bytes (fst (json_decode_string json room)).
Proof.
  remember (length json) as n eqn:Hn. assert (Hle : (length json <= n)%nat) by lia. clear Hn.
  revert json room Hle. induction n as [|n IH]; intros [|ch s] room Hle Hb; cbn [json_decode_string];
    try (destruct room; cbn; by repeat constructor); [cbn in Hle; lia|]. cbn in Hle.
  apply Forall_cons in Hb as [Hch Hb].
  assert (Hst : forall b s', is_u8 b -> bytes s' -> (length s' <= n)%nat ->
    bytes (fst (match room with O => ([], false) | S room =>
       let '(out, ok) := json_decode_string s' room in (b :: out, ok) end))).
  { intros b s' Hb' Hs' Hl. destruct room as [|room]; [constructor|]. pose proof (IH s' room Hl Hs') as H.
    destruct (json_decode_string s' room). by constructor. }
  destruct (ch =? 92); [|by apply Hst; [..|lia]]. destruct s as [|esc s]; [constructor|].
  apply Forall_cons in Hb as [_ Hb]. cbn in Hle. destruct (esc =? 117).
  - destruct s as [|? [|? [|? [|? s]]]]; try constructor. cbn in Hle.
    do 4 (apply Forall_cons in Hb as [_ Hb]). apply Hst; [done|done|lia].
  - destruct (unescape esc) as [b|] eqn:E; [|constructor]. apply Hst; [by apply unescape_byte in E|done|lia].
Qed.

(** * What the reader promises *)

(** A text whose value is an object, or an array, whatever follows it. *)
Definition object_text (ms : list (list Z * list Z)) (js : list Z) : Prop :=
  exists w s tl, blank w /\ members_text ms s /\ js = w ++ 123 :: s ++ 125 :: tl.
Definition array_text (vs : list (list Z)) (js : list Z) : Prop :=
  exists w s tl, blank w /\ elements_text vs s /\ js = w ++ 91 :: s ++ 93 :: tl.

Lemma json_object_find_text ms js key :
  object_text ms js ->
  match first_member key ms with
  | Some v => exists sp, json_object_find js key = Some sp /\ describes js sp v
  | None => json_object_find js key = None
  end.
Proof.
  intros (w & s & tl & Hw & Hs & ->). unfold json_object_find.
  rewrite skip_ws_blank, skip_ws_head by done. cbn [Z.eqb Pos.eqb].
  apply (find_member_members ms s Hs _ _ _ (w ++ [123]) tl); [by rewrite <- app_assoc|].
  rewrite length_app. cbn [length]. rewrite length_app. lia.
Qed.

Lemma json_array_text vs js :
  array_text vs js ->
  json_array_count js = Some (length vs) /\
  forall i, match vs !! i with
            | Some v => exists sp, json_array_get js i = Some sp /\ describes js sp v
            | None => json_array_get js i = None
            end.
Proof.
  intros (w & s & tl & Hw & Hs & ->). unfold json_array_count, json_array_get, array_open.
  rewrite skip_ws_blank, skip_ws_head by done. cbn [Z.eqb Pos.eqb].
  set (js := w ++ 91 :: s ++ 93 :: tl).
  assert (Hf : (length s < length js)%nat).
  { unfold js. rewrite length_app. cbn [length]. rewrite length_app. lia. }
  split; [by rewrite (count_elements_text vs s Hs)|]. intros i.
  pose proof (get_element_text vs s Hs (length js) js (w ++ [91]) tl 0 i) as H. rewrite Nat.sub_0_r in H.
  apply H; [unfold js; by rewrite <- app_assoc|done|lia].
Qed.

(** C25: on every JSON object text the reader finds the first member with the given
    key and returns the exact bytes of its value, whatever is nested in the other
    members, and finds nothing when there is no such member. *)
Theorem json_find_correct ms js key :
  object_text ms js ->
  match first_member key ms with
  | Some v => exists sp, json_object_find js key = Some sp /\ describes js sp v
  | None => json_object_find js key = None
  end.
Proof. apply json_object_find_text. Qed.

(** on every JSON array text the count is the number of elements and the
    element returned at an index is the one the text has there. *)
Theorem json_array_correct vs js :
  array_text vs js ->
  json_array_count js = Some (length vs) /\
  forall i, match vs !! i with
            | Some v => exists sp, json_array_get js i = Some sp /\ describes js sp v
            | None => json_array_get js i = None
            end.
Proof. apply json_array_text. Qed.

(** on every input, well formed or not, the results fit the buffers: the spans it
    returns lie in the text, a count that succeeds is the number of
    indices that do, and a decoded string never exceeds the output. *)
Theorem json_reader_in_bounds js :
  (forall key sp, json_object_find js key = Some sp -> (sp_off sp + sp_len sp <= length js)%nat) /\
  (forall i sp, json_array_get js i = Some sp -> (sp_off sp + sp_len sp <= length js)%nat) /\
  (forall n, json_array_count js = Some n -> forall i, is_Some (json_array_get js i) <-> (i < n)%nat) /\
  (forall cap, (length (fst (json_decode_string js cap)) <= cap)%nat).
Proof.
  pose proof (skip_ws_length js) as Hl. unfold json_object_find, json_array_get, json_array_count, array_open.
  destruct (skip_ws js) as [|c s] eqn:E; cbn in Hl.
  { do 3 (split; [done|]). intros cap. apply decode_bound. }
  split; [|split; [|split]].
  - intros key sp. destruct (c =? 123); [|done]. apply find_member_bounds. lia.
  - intros i sp. destruct (c =? 91); [|done]. apply get_element_bounds. lia.
  - intros n. destruct (c =? 91); [|done]. intros Hc i. destruct (count_get _ js _ _ _ Hc) as [_ H].
    rewrite (H 0%nat i) by lia. lia.
  - intros cap. apply decode_bound.
Qed.

(** strings round trip: the reader finds an escaped string in any object and
    decoding what it found gives back the string and a terminator when they fit,
    and fails, having filled the output without a terminator, when they do not. *)
Theorem json_string_roundtrip ms js key s cap :
  object_text ms js -> first_member key ms = Some (34 :: escape s ++ [34]) ->
  exists sp, json_object_find js key = Some sp /\ sp_is_string sp = true /\
    json_decode_string (span_bytes js sp) cap =
    if bool_decide (length s < cap)%nat then (s ++ [0], true) else (take cap s, false).
Proof.
  intros Ho Hm. pose proof (json_object_find_text ms js key Ho) as H. rewrite Hm in H.
  destruct H as (sp & Hf & [Hs Hb _]). exists sp. split; [done|]. split; [done|].
  assert (Hc : content (34 :: escape s ++ [34]) = escape s).
  { unfold content. cbn [is_str head length tail]. rewrite length_app. cbn [length].
    replace (S (length (escape s) + 1) - 2)%nat with (length (escape s)) by lia. by rewrite take_app_length. }
  rewrite Hb, Hc. apply decode_escape.
Qed.

(** ** Witnesses *)

(** The text of the members "n" (the number -1.5e3), "o" (an object whose "n" is an
    array holding a brace in a string) and "s" (a string with escapes). *)
Definition sample_number : list Z := ascii_bytes "-1.5e3"%string.
Definition sample_array : list Z := [91; 34; 125; 34; 44; 32; 49; 93].
Definition sample_inner : list Z := [34; 110; 34; 58] ++ sample_array.
Definition sample_members : list (list Z * list Z) :=
  [([110], sample_number); ([111], 123 :: sample_inner ++ [125]); ([115], 34 :: escape [97; 34; 10] ++ [34])].
Definition sample_object : list Z :=
  [32; 123; 34; 110; 34; 58] ++ sample_number ++ [44; 32; 34; 111; 34; 58; 32] ++
  (123 :: sample_inner ++ [125]) ++ [44; 34; 115; 34; 58] ++ (34 :: escape [97; 34; 10] ++ [34]) ++ [125; 10].

Lemma sample_number_text : number_text sample_number.
Proof.
  apply (number_intro [45] [49] [46; 53] [101; 51]); [by right|done|done|by apply (fr_some [53])|].
  by apply (ex_some 101 [] [51]); [left|left|..].
Qed.

Lemma sample_array_elements : elements_text [[34; 125; 34]; [49]] [34; 125; 34; 44; 32; 49].
Proof.
  apply (et_more [] [34; 125; 34] [] [[49]] [32; 49]); [done|apply (vt_string [125]); by repeat constructor|done|].
  apply (et_one [32] [49] []); [done| |done]. apply vt_number.
  by apply (number_intro [] [49] [] []); [left| | |constructor..].
Qed.

Lemma sample_object_text : object_text sample_members sample_object.
Proof.
  assert (Hi : value_text (123 :: sample_inner ++ [125])).
  { apply (vt_object [([110], sample_array)] sample_inner).
    apply (mt_one [] [110] [] [] sample_array []); [done|by repeat constructor|done|done| |done].
    apply (vt_array [[34; 125; 34]; [49]] [34; 125; 34; 44; 32; 49]), sample_array_elements. }
  eexists [32], _, [10]. split; [done|]. split.
  { apply (mt_more [] [110] [] [] sample_number []); [done|by repeat constructor|done|done| |done|].
    { apply vt_number, sample_number_text. }
    apply (mt_more [32] [111] [] [32] (123 :: sample_inner ++ [125]) []); [done|by repeat constructor|done|done|done|done|].
    apply (mt_one [] [115] [] [] (34 :: escape [97; 34; 10] ++ [34]) []); [done|by repeat constructor|done|done| |done].
    apply vt_string, escape_body. }
  reflexivity.
Qed.

Lemma json_find_witness :
  exists sp, json_object_find sample_object [111] = Some sp /\ describes sample_object sp (123 :: sample_inner ++ [125]).
Proof. exact (json_find_correct sample_members sample_object [111] sample_object_text). Defined.

Lemma json_array_witness :
  json_array_count sample_array = Some 2%nat /\
  exists sp, json_array_get sample_array 0 = Some sp /\ describes sample_array sp [34; 125; 34].
Proof.
  assert (Ha : array_text [[34; 125; 34]; [49]] sample_array).
  { exists [], [34; 125; 34; 44; 32; 49], []. split; [done|]. split; [apply sample_array_elements|reflexivity]. }
  split; [exact (proj1 (json_array_correct _ _ Ha))|exact (proj2 (json_array_correct _ _ Ha) 0%nat)].
Defined.

Lemma json_string_witness :
  exists sp, json_object_find sample_object [115] = Some sp /\ sp_is_string sp = true /\
    json_decode_string (span_bytes sample_object sp) 4 = ([97; 34; 10; 0], true).
Proof. exact (json_string_roundtrip sample_members sample_object [115] [97; 34; 10] 4 sample_object_text eq_refl). Defined.

(** A unicode escape takes the four bytes after it whatever they are, a closing
    quote included. *)
Example json_unicode_swallows_quote :
  skip_string [34; 92; 117; 34; 44; 34; 120; 34] = Some [].
Proof. reflexivity. Qed.
