(* ===== verification/JsonPtr.v ===== *)
(** * JsonPtr: the JSON reader in its buffers (src/core/json_min.c)

    [Json] reads suffixes of a text.  Here is the same code as it is written, on
    [uint32_t] positions in a buffer: every [buf[pos]], [memcmp] and [out[oi]] is an
    access that fails outside its buffer, sums wrap, and what a function returns goes
    through its cast to [int].  [None] is an access outside a buffer, or a loop that
    has not ended after [length buf + 1] turns.  The theorem: on any text shorter than
    2^31 bytes neither happens, and the functions return what those of [Json] do. *)

From Stdlib Require Import (notations) Strings.String.
From S2P Require Import Prelude Types Binary64 Json.
#[local] Delimit Scope string_scope with string.

(** ** Memory *)

Definition fetch (buf : list Z) (pos : Z) : option Z := if 0 <=? pos then buf !! Z.to_nat pos else None.
(** [n] bytes at [pos], as [memcmp] reads them. *)
Definition fetch_block (buf : list Z) (pos n : Z) : option (list Z) :=
  if (0 <=? pos) && (0 <=? n) && (pos + n <=? Z.of_nat (length buf))
  then Some (take (Z.to_nat n) (drop (Z.to_nat pos) buf)) else None.
Definition store (out : list Z) (pos b : Z) : option (list Z) :=
  if (0 <=? pos) && (pos <? Z.of_nat (length out)) then Some (<[Z.to_nat pos := b]> out) else None.

(** ** Scanning: the functions return the C [int], -1 when malformed *)

Section reader.
Context (buf : list Z) (len : Z).

(** [while (pos < len && p(buf[pos])) pos++] *)
Fixpoint skip_while (p : Z -> bool) (fuel : nat) (pos : Z) : option Z :=
  match fuel with
  | O => None
  | S fuel =>
      if pos <? len then
        c ← fetch buf pos;
        if p c then skip_while p fuel (u32 (pos + 1)) else Some pos
      else Some pos
  end.
Definition turns : nat := S (length buf).
Definition skip_ws_at (pos : Z) : option Z := skip_while is_ws turns pos.
Definition skip_digits_at (pos : Z) : option Z := skip_while is_digit turns pos.

(** [pos < len && p(buf[pos])] *)
Definition looking_at (p : Z -> bool) (pos : Z) : option bool :=
  if pos <? len then c ← fetch buf pos; Some (p c) else Some false.

Fixpoint string_end_at (fuel : nat) (pos : Z) : option Z :=
  match fuel with
  | O => None
  | S fuel =>
      if pos <? len then
        ch ← fetch buf pos;
        if ch =? 34 then Some (i32 (u32 (pos + 1)))
        else if ch =? 92 then
          if u32 (pos + 1) >=? len then Some (-1)
          else
            c ← fetch buf (u32 (pos + 1));
            if c =? 117 then
              if u32 (pos + 6) >? len then Some (-1) else string_end_at fuel (u32 (pos + 6))
            else string_end_at fuel (u32 (pos + 2))
        else string_end_at fuel (u32 (pos + 1))
      else Some (-1)
  end.
Definition skip_string_at (pos : Z) : option Z :=
  if pos >=? len then Some (-1)
  else
    ch ← fetch buf pos;
    if negb (ch =? 34) then Some (-1) else string_end_at turns (u32 (pos + 1)).

Fixpoint scan_nested_at (fuel : nat) (open close depth pos : Z) : option Z :=
  match fuel with
  | O => None
  | S fuel =>
      if (pos <? len) && (depth >? 0) then
        c ← fetch buf pos;
        if c =? 34 then
          r ← skip_string_at pos;
          if r <? 0 then Some (-1) else scan_nested_at fuel open close depth (u32 r)
        else scan_nested_at fuel open close
               (if c =? open then i32 (depth + 1) else if c =? close then i32 (depth - 1) else depth) (u32 (pos + 1))
      else Some (if depth =? 0 then i32 pos else -1)
  end.

Definition literal_at (lit : list Z) (pos : Z) : option Z :=
  let n := Z.of_nat (length lit) in
  if u32 (pos + n) <=? len then
    block ← fetch_block buf pos n;
    Some (if bool_decide (block = lit) then i32 (u32 (pos + n)) else -1)
  else Some (-1).

Definition number_at (pos : Z) : option Z :=
  let start := pos in
  c ← fetch buf pos;
  pos ← skip_digits_at (if c =? 45 then u32 (pos + 1) else pos);
  dot ← looking_at (fun c => c =? 46) pos;
  pos ← (if dot : bool then skip_digits_at (u32 (pos + 1)) else Some pos);
  exponent ← looking_at (fun c => (c =? 101) || (c =? 69)) pos;
  pos ← (if exponent : bool then
           sign ← looking_at (fun c => (c =? 43) || (c =? 45)) (u32 (pos + 1));
           skip_digits_at (if sign : bool then u32 (u32 (pos + 1) + 1) else u32 (pos + 1))
         else Some pos);
  Some (if pos =? start then -1 else i32 pos).

(** The return value and [*is_string]; callers have set the latter to 0. *)
Definition scan_value_at (pos : Z) : option (Z * bool) :=
  pos ← skip_ws_at pos;
  if pos >=? len then Some (-1, false)
  else
    ch ← fetch buf pos;
    if ch =? 34 then r ← skip_string_at pos; Some (r, true)
    else if (ch =? 123) || (ch =? 91) then
      r ← scan_nested_at turns ch (if ch =? 123 then 125 else 93) 1 (u32 (pos + 1)); Some (r, false)
    else if ch =? 116 then r ← literal_at (ascii_bytes "true"%string) pos; Some (r, false)
    else if ch =? 102 then r ← literal_at (ascii_bytes "false"%string) pos; Some (r, false)
    else if ch =? 110 then r ← literal_at (ascii_bytes "null"%string) pos; Some (r, false)
    else if (ch =? 45) || is_digit ch then r ← number_at pos; Some (r, false)
    else Some (-1, false).

(** ** The spans handed out *)

Record span := Span { s_off : Z; s_len : Z; s_is_string : bool }.
Definition span_of_value (value_start value_end : Z) (is_str : bool) : span :=
  if is_str then
    let off := u32 (value_start + 1) in Span off (u32 (u32 (u32 value_end - 1) - off)) true
  else Span value_start (u32 (u32 value_end - value_start)) false.

(** The bytes of a key are compared only when the lengths agree. *)
Definition key_matches (key : list Z) (key_start key_str_len : Z) : option bool :=
  if key_str_len =? Z.of_nat (length key) then
    block ← fetch_block buf key_start (Z.of_nat (length key));
    Some (bool_decide (block = key))
  else Some false.

Fixpoint find_member_at (fuel : nat) (key : list Z) (pos : Z) : option (option span) :=
  match fuel with
  | O => None
  | S fuel =>
      pos ← skip_ws_at pos;
      if pos >=? len then Some None
      else
        c ← fetch buf pos;
        if c =? 125 then Some None
        else if negb (c =? 34) then Some None
        else
          key_end ← skip_string_at pos;
          if key_end <? 0 then Some None
          else
            let key_start := u32 (pos + 1) in
            let key_str_len := u32 (u32 (u32 key_end - 1) - key_start) in
            pos ← skip_ws_at (u32 key_end);
            colon ← looking_at (fun c => c =? 58) pos;
            if negb colon then Some None
            else
              pos ← skip_ws_at (u32 (pos + 1));
              value ← scan_value_at pos;
              let '(value_end, is_str) := value in
              if value_end <? 0 then Some None
              else
                found ← key_matches key key_start key_str_len;
                if found : bool then Some (Some (span_of_value pos value_end is_str))
                else
                  pos ← skip_ws_at (u32 value_end);
                  comma ← looking_at (fun c => c =? 44) pos;
                  if comma : bool then find_member_at fuel key (u32 (pos + 1)) else Some None
  end.
Definition json_object_find_at (key : list Z) : option (option span) :=
  pos ← skip_ws_at 0;
  brace ← looking_at (fun c => c =? 123) pos;
  if negb brace then Some None else find_member_at turns key (u32 (pos + 1)).

Definition array_open_at : option (option Z) :=
  pos ← skip_ws_at 0;
  bracket ← looking_at (fun c => c =? 91) pos;
  Some (if bracket : bool then Some (u32 (pos + 1)) else None).

Fixpoint count_elements_at (fuel : nat) (pos count : Z) : option Z :=
  match fuel with
  | O => None
  | S fuel =>
      pos ← skip_ws_at pos;
      if pos >=? len then Some (-1)
      else
        c ← fetch buf pos;
        if c =? 93 then Some count
        else
          value ← scan_value_at pos;
          if value.1 <? 0 then Some (-1)
          else
            let count := i32 (count + 1) in
            pos ← skip_ws_at (u32 value.1);
            comma ← looking_at (fun c => c =? 44) pos;
            if comma : bool then count_elements_at fuel (u32 (pos + 1)) count
            else
              bracket ← looking_at (fun c => c =? 93) pos;
              Some (if bracket : bool then count else -1)
  end.
Definition json_array_count_at : option Z :=
  opened ← array_open_at;
  match opened with None => Some (-1) | Some pos => count_elements_at turns pos 0 end.

Fixpoint get_element_at (fuel : nat) (index pos i : Z) : option (option span) :=
  match fuel with
  | O => None
  | S fuel =>
      pos ← skip_ws_at pos;
      if pos >=? len then Some None
      else
        c ← fetch buf pos;
        if c =? 93 then Some None
        else
          value ← scan_value_at pos;
          if value.1 <? 0 then Some None
          else if i =? index then Some (Some (span_of_value pos value.1 value.2))
          else
            pos ← skip_ws_at (u32 value.1);
            comma ← looking_at (fun c => c =? 44) pos;
            if comma : bool then get_element_at fuel index (u32 (pos + 1)) (u32 (i + 1)) else Some None
  end.
Definition json_array_get_at (index : Z) : option (option span) :=
  opened ← array_open_at;
  match opened with None => Some None | Some pos => get_element_at turns index pos 0 end.

(** ** Decoding: the output and the return value *)

Fixpoint decode_at (fuel : nat) (out : list Z) (out_cap oi i : Z) : option (list Z * Z) :=
  match fuel with
  | O => None
  | S fuel =>
      if i <? len then
        ch ← fetch buf i;
        if ch =? 92 then
          if u32 (i + 1) >=? len then Some (out, -1)
          else
            esc ← fetch buf (u32 (i + 1));
            if esc =? 117 then
              if (u32 (i + 6) >? len) || (oi >=? out_cap) then Some (out, -1)
              else out ← store out oi 63; decode_at fuel out out_cap (u32 (oi + 1)) (u32 (i + 6))
            else
              match unescape esc with
              | None => Some (out, -1)
              | Some decoded =>
                  if oi >=? out_cap then Some (out, -1)
                  else out ← store out oi decoded; decode_at fuel out out_cap (u32 (oi + 1)) (u32 (i + 2))
              end
        else if oi >=? out_cap then Some (out, -1)
        else out ← store out oi ch; decode_at fuel out out_cap (u32 (oi + 1)) (u32 (i + 1))
      else if oi >=? out_cap then Some (out, -1)
      else out ← store out oi 0; Some (out, i32 oi)
  end.
Definition json_decode_string_at (out : list Z) (out_cap : Z) : option (list Z * Z) := decode_at turns out out_cap 0 0.
End reader.

(** * Lemmas *)

Section refines.
Context (buf : list Z).
Notation len := (Z.of_nat (length buf)).
Hypothesis (Hlen : len < 2147483648).

(** The position of a suffix. *)
Definition here (pos : Z) (s : list Z) : Prop := exists pre, buf = pre ++ s /\ pos = Z.of_nat (length pre).

Lemma here_range pos s : here pos s -> 0 <= pos /\ pos + Z.of_nat (length s) = len.
Proof. intros (pre & E & ->). rewrite E, length_app. lia. Qed.

Lemma here_nil pos : here pos [] -> (pos <? len) = false /\ (pos >=? len) = true.
Proof. intros [H1 H2]%here_range. cbn in H2. lia. Qed.

Lemma here_cons pos c s :
  here pos (c :: s) -> (pos <? len) = true /\ (pos >=? len) = false /\ fetch buf pos = Some c /\ here (u32 (pos + 1)) s.
Proof.
  intros H. pose proof (here_range _ _ H) as [H1 H2]. cbn [length] in H2. split; [lia|]. split; [lia|].
  destruct H as (pre & E & ->). split.
  - unfold fetch. rewrite (proj2 (Z.leb_le _ _)), Nat2Z.id, E, lookup_app_r, Nat.sub_diag by lia. done.
  - exists (pre ++ [c]). rewrite <- app_assoc. split; [done|]. rewrite length_app. cbn [length]. mlia.
Qed.

Lemma here_app pos a s n : here pos (a ++ s) -> n = Z.of_nat (length a) -> here (u32 (pos + n)) s.
Proof.
  intros H ->. pose proof (here_range _ _ H) as [H1 H2]. rewrite length_app in H2. destruct H as (pre & E & ->).
  exists (pre ++ a). rewrite <- app_assoc. split; [done|]. rewrite length_app. mlia.
Qed.

Lemma here_int pos s : here pos s -> u32 pos = pos /\ i32 pos = pos /\ (pos <? 0) = false.
Proof. intros [H1 H2]%here_range. split; [mlia|]. split; [|lia]. unfold i32, is_i32 in *. mlia. Qed.

Lemma here_block pos a s : here pos (a ++ s) -> fetch_block buf pos (Z.of_nat (length a)) = Some a.
Proof.
  intros H. pose proof (here_range _ _ H) as [H1 H2]. rewrite length_app in H2. destruct H as (pre & E & ->).
  unfold fetch_block. rewrite !(proj2 (Z.leb_le _ _)) by lia. cbn [andb]. rewrite !Nat2Z.id, E, drop_app_length.
  by rewrite take_app_length.
Qed.

Lemma here_start : here 0 buf.
Proof. by exists []. Qed.

(** What a scanning function returns for an optional suffix. *)
Definition int_of (o : option (list Z)) (r : Z) : Prop :=
  match o with None => r = -1 | Some s => here r s end.

Lemma looking_at_here p pos s :
  here pos s -> looking_at buf len p pos = Some (match s with c :: _ => p c | [] => false end).
Proof.
  unfold looking_at. destruct s as [|c s]; [by intros [-> _]%here_nil|]. by intros (-> & _ & -> & _)%here_cons.
Qed.

Fixpoint drop_while (p : Z -> bool) (s : list Z) : list Z :=
  match s with [] => [] | c :: s' => if p c then drop_while p s' else s end.

Lemma skip_while_here p fuel pos s :
  (length s < fuel)%nat -> here pos s ->
  exists pos', skip_while buf len p fuel pos = Some pos' /\ here pos' (drop_while p s).
Proof.
  revert pos s. induction fuel as [|fuel IH]; intros pos s Hf H; [lia|]. cbn [skip_while].
  destruct s as [|c s]; cbn [drop_while length] in *.
  - destruct (here_nil _ H) as [-> _]. by exists pos.
  - destruct (here_cons _ _ _ H) as (-> & _ & -> & H'). cbn [mbind option_bind].
    destruct (p c); [by apply IH; [lia|]|by exists pos].
Qed.

Lemma turns_enough pos s : here pos s -> (length s < turns buf)%nat.
Proof. intros (pre & E & _). unfold turns. rewrite E, length_app. lia. Qed.

Lemma skip_ws_here pos s : here pos s -> exists pos', skip_ws_at buf len pos = Some pos' /\ here pos' (skip_ws s).
Proof.
  intros H. assert (E : skip_ws s = drop_while is_ws s) by (clear; induction s as [|c s IH]; cbn; [done|]; by rewrite IH).
  rewrite E. apply skip_while_here; [by eapply turns_enough|done].
Qed.

Lemma skip_digits_here pos s : here pos s -> exists pos', skip_digits_at buf len pos = Some pos' /\ here pos' (skip_digits s).
Proof.
  intros H. assert (E : skip_digits s = drop_while is_digit s) by (clear; induction s as [|c s IH]; cbn; [done|]; by rewrite IH).
  rewrite E. apply skip_while_here; [by eapply turns_enough|done].
Qed.

Lemma int_here pos s : here pos s -> i32 pos = pos.
Proof. by intros (_ & H & _)%here_int. Qed.

Lemma string_end_here fuel pos s :
  (length s < fuel)%nat -> here pos s -> exists r, string_end_at buf len fuel pos = Some r /\ int_of (string_end s) r.
Proof.
  revert pos s. induction fuel as [|fuel IH]; intros pos s Hf H; [lia|]. cbn [string_end_at].
  destruct s as [|ch s]; cbn [string_end length] in *.
  { destruct (here_nil _ H) as [-> _]. by eexists. }
  destruct (here_cons _ _ _ H) as (-> & _ & -> & H1). cbn [mbind option_bind].
  destruct (ch =? 34). { eexists. split; [done|]. cbn [int_of]. by rewrite (int_here _ _ H1). }
  destruct (ch =? 92); [|by apply IH; [lia|]].
  destruct s as [|c s]. { destruct (here_nil _ H1) as [_ ->]. by eexists. }
  destruct (here_cons _ _ _ H1) as (_ & -> & -> & H2). cbn [mbind option_bind length] in *.
  destruct (c =? 117).
  2:{ apply IH; [lia|]. by apply (here_app pos [ch; c] s). }
  pose proof (here_range _ _ H) as [Hp0 Hp1]. cbn [length] in Hp1.
  assert (Hu : u32 (pos + 6) = pos + 6) by mlia. rewrite Hu.
  destruct s as [|c1 [|c2 [|c3 [|c4 s]]]]; cbn [length] in *;
    try (rewrite (proj2 (Z.gtb_lt _ _)) by lia; by eexists).
  destruct (Z.gtb_spec (pos + 6) len); [lia|]. apply IH; [lia|]. rewrite <- Hu.
  by apply (here_app pos [ch; c; c1; c2; c3; c4] s).
Qed.

Lemma skip_string_here pos s : here pos s -> exists r, skip_string_at buf len pos = Some r /\ int_of (skip_string s) r.
Proof.
  intros H. unfold skip_string_at. destruct s as [|ch s]; cbn [skip_string].
  { destruct (here_nil _ H) as [_ ->]. by eexists. }
  destruct (here_cons _ _ _ H) as (_ & -> & -> & H1). cbn [mbind option_bind].
  destruct (ch =? 34); [|by eexists]. apply string_end_here; [by eapply turns_enough|done].
Qed.

Lemma int_of_read (o : option (list Z)) r :
  int_of o r -> match o with None => (r <? 0) = true | Some s => (r <? 0) = false /\ here (u32 r) s end.
Proof. destruct o as [s|]; cbn [int_of]; [|by intros ->]. intros H. by destruct (here_int _ _ H) as (-> & _ & ->). Qed.

Lemma scan_nested_here o c fuel d pos s :
  (length s < fuel)%nat -> here pos s -> Z.of_nat d + Z.of_nat (length s) <= len ->
  exists r, scan_nested_at buf len fuel o c (Z.of_nat d) pos = Some r /\ int_of (scan o c d s) r.
Proof.
  revert d pos s. induction fuel as [|fuel IH]; intros d pos s Hf H Hd; [lia|]. cbn [scan_nested_at].
  destruct d as [|d].
  { rewrite andb_false_r. unfold scan. destruct s as [|ch s]; cbn [length scan_nested]; (eexists; split; [reflexivity|]); cbn [int_of];
      by rewrite (int_here _ _ H). }
  destruct s as [|ch s].
  { destruct (here_nil _ H) as [-> _]. cbn [andb]. by eexists. }
  destruct (here_cons _ _ _ H) as (-> & _ & -> & H1). cbn [mbind option_bind length] in *.
  rewrite (proj2 (Z.gtb_lt _ _)) by lia. cbn [andb]. destruct (Z.eqb_spec ch 34) as [->|Hch].
  - destruct (skip_string_here _ _ H) as (r & -> & Hr%int_of_read). cbn [mbind option_bind].
    destruct (skip_string (34 :: s)) as [s2|] eqn:E.
    + destruct Hr as [-> Hr]. rewrite (scan_string _ _ _ _ _ E). apply skip_string_length in E. cbn [length] in E.
      apply IH; [lia|done|lia].
    + rewrite Hr. eexists. split; [done|]. unfold scan. cbn [length scan_nested]. by rewrite E.
  - rewrite scan_char by done.
    assert (Hi : i32 (Z.of_nat (S d) + 1) = Z.of_nat (S (S d)) /\ i32 (Z.of_nat (S d) - 1) = Z.of_nat d) by (unfold i32; mlia).
    destruct Hi as [-> ->]. destruct (ch =? o); [apply IH; [lia|done|lia]|]. destruct (ch =? c); apply IH; first [lia|done].
Qed.

Lemma skip_literal_app lit s r : skip_literal lit s = Some r <-> s = lit ++ r.
Proof.
  revert s. induction lit as [|l lit IH]; intros [|c s]; cbn; [by split; [intros [= <-]|intros <-]..|done|].
  destruct (Z.eqb_spec l c) as [->|Hl]; [|split; [done|by intros [= <- _]]]. rewrite IH. split; [by intros ->|by intros [= ->]].
Qed.

Lemma literal_here lit pos s :
  here pos s -> Z.of_nat (length lit) <= 8 -> exists r, literal_at buf len lit pos = Some r /\ int_of (skip_literal lit s) r.
Proof.
  intros H Hl. unfold literal_at. pose proof (here_range _ _ H) as [Hp0 Hp1].
  assert (Hu : u32 (pos + Z.of_nat (length lit)) = pos + Z.of_nat (length lit)) by mlia. rewrite Hu.
  destruct (Z.leb_spec (pos + Z.of_nat (length lit)) len) as [Hle|Hgt].
  - rewrite <- (take_drop (length lit) s) in H.
    assert (Ht : length (take (length lit) s) = length lit) by (rewrite length_take; lia).
    pose proof (here_block _ _ _ H) as Hb. rewrite Ht in Hb. rewrite Hb. cbn [mbind option_bind].
    eexists. split; [done|]. case_bool_decide as E.
    + assert (Hs : skip_literal lit s = Some (drop (length lit) s)).
      { apply skip_literal_app. rewrite <- (take_drop (length lit) s) at 1. by rewrite E. }
      pose proof (here_app _ _ _ (Z.of_nat (length lit)) H ltac:(by rewrite Ht)) as Ha. rewrite Hu in Ha.
      rewrite Hs. cbn [int_of]. by rewrite (int_here _ _ Ha).
    + destruct (skip_literal lit s) as [r|] eqn:Es; [|done]. apply skip_literal_app in Es as ->. by rewrite take_app_length in E.
  - eexists. split; [done|]. destruct (skip_literal lit s) as [r|] eqn:Es; [|done].
    apply skip_literal_length in Es. lia.
Qed.

(** The optional parts of a number. *)
Lemma scan_fraction_here pos s :
  here pos s -> exists pos', (dot ← looking_at buf len (fun c => c =? 46) pos;
    if dot : bool then skip_digits_at buf len (u32 (pos + 1)) else Some pos) = Some pos' /\ here pos' (scan_fraction s).
Proof.
  intros H. rewrite (looking_at_here _ _ _ H). cbn [mbind option_bind]. unfold scan_fraction. destruct s as [|c s]; [by eexists|].
  destruct (c =? 46); [|by eexists]. destruct (here_cons _ _ _ H) as (_ & _ & _ & H1). by apply skip_digits_here.
Qed.

Lemma scan_exponent_here pos s :
  here pos s -> exists pos', (exponent ← looking_at buf len (fun c => (c =? 101) || (c =? 69)) pos;
    if exponent : bool then
      sign ← looking_at buf len (fun c => (c =? 43) || (c =? 45)) (u32 (pos + 1));
      skip_digits_at buf len (if sign : bool then u32 (u32 (pos + 1) + 1) else u32 (pos + 1))
    else Some pos) = Some pos' /\ here pos' (scan_exponent s).
Proof.
  intros H. rewrite (looking_at_here _ _ _ H). cbn [mbind option_bind]. unfold scan_exponent. destruct s as [|c s]; [by eexists|].
  destruct (_ || _); [|by eexists]. destruct (here_cons _ _ _ H) as (_ & _ & _ & H1).
  rewrite (looking_at_here _ _ _ H1). cbn [mbind option_bind]. destruct s as [|c' s]; [by apply skip_digits_here|].
  destruct (here_cons _ _ _ H1) as (_ & _ & _ & H2). destruct (_ || _); by apply skip_digits_here.
Qed.

Lemma number_here pos c s :
  (c =? 45) || is_digit c = true -> here pos (c :: s) ->
  exists r, number_at buf len pos = Some r /\ here r (scan_number (c :: s)).
Proof.
  intros Hc H. pose proof (scan_number_length c s Hc) as Hl. unfold number_at, scan_number in *.
  destruct (here_cons _ _ _ H) as (_ & _ & -> & H1). cbn [mbind option_bind scan_sign] in *.
  assert (Hs : here (if c =? 45 then u32 (pos + 1) else pos) (if c =? 45 then s else c :: s)) by (by destruct (c =? 45)).
  destruct (skip_digits_here _ _ Hs) as (p1 & -> & H2). cbn [mbind option_bind].
  destruct (scan_fraction_here _ _ H2) as (p2 & E2 & H3). rewrite (looking_at_here _ _ _ H2) in *. cbn [mbind option_bind] in *.
  rewrite E2. cbn [mbind option_bind].
  destruct (scan_exponent_here _ _ H3) as (p3 & E3 & H4). rewrite (looking_at_here _ _ _ H3) in *. cbn [mbind option_bind] in *.
  rewrite E3. cbn [mbind option_bind]. eexists. split; [reflexivity|].
  pose proof (here_range _ _ H) as [_ R0]. pose proof (here_range _ _ H4) as [_ R4]. cbn [length] in *.
  destruct (Z.eqb_spec p3 pos) as [->|]; [lia|]. by rewrite (int_here _ _ H4).
Qed.

(** The value, or -1. *)
Definition value_of (o : option (bool * list Z)) (v : Z * bool) : Prop :=
  match o with None => v.1 = -1 | Some (is_str, s) => here v.1 s /\ v.2 = is_str end.

Lemma value_of_int (b : bool) (e : option Z) o :
  (exists r, e = Some r /\ int_of o r) -> exists v, (r ← e; Some (r, b)) = Some v /\ value_of (pair b <$> o) v.
Proof. intros (r & -> & Hr). exists (r, b). split; [done|]. by destruct o. Qed.

Lemma scan_value_here pos s :
  here pos s -> exists v, scan_value_at buf len pos = Some v /\ value_of (scan_value s) v.
Proof.
  intros H. unfold scan_value_at, scan_value. destruct (skip_ws_here _ _ H) as (p & -> & Hp). cbn [mbind option_bind].
  generalize dependent (skip_ws s). clear pos s H. intros [|ch s] Hp.
  { destruct (here_nil _ Hp) as [_ ->]. by eexists. }
  destruct (here_cons _ _ _ Hp) as (_ & -> & -> & H1). pose proof (here_range _ _ Hp) as [R0 R1]. cbn [length] in R1.
  cbn [mbind option_bind]. destruct (ch =? 34); [by apply value_of_int, skip_string_here|].
  assert (Hn : forall o c, exists r, scan_nested_at buf len (turns buf) o c 1 (u32 (p + 1)) = Some r /\ int_of (scan o c 1 s) r).
  { intros o c. apply (scan_nested_here o c _ 1); [by eapply turns_enough|done|lia]. }
  destruct (Z.eqb_spec ch 123) as [->|]; [apply value_of_int, Hn|].
  destruct (Z.eqb_spec ch 91) as [->|]; [apply value_of_int, Hn|]. cbn [orb].
  destruct (ch =? 116); [by apply value_of_int, literal_here|].
  destruct (ch =? 102); [by apply value_of_int, literal_here|].
  destruct (ch =? 110); [by apply value_of_int, literal_here|].
  destruct (_ || _) eqn:E; [|by eexists]. destruct (number_here _ _ _ E Hp) as (r & -> & Hr). cbn [mbind option_bind]. by eexists.
Qed.

(** ** Members and elements *)

(** A span of [Json] in the code's terms. *)
Definition as_span (sp : json_span) : span :=
  Span (Z.of_nat (sp_off sp)) (Z.of_nat (sp_len sp)) (sp_is_string sp).

Lemma span_here pos s e r (b : bool) :
  here pos s -> here e r -> ((if b then 2 else 1) + length r <= length s)%nat ->
  span_of_value pos e b = as_span (span_from_value buf s r b).
Proof.
  intros Hs He Hl. pose proof (here_range _ _ Hs) as [S0 S1]. pose proof (here_range _ _ He) as [E0 E1].
  unfold span_of_value, span_from_value, as_span. destruct b; cbn [sp_off sp_len sp_is_string]; f_equal; mlia.
Qed.

Lemma key_matches_here key pos t n :
  here pos t -> (n <= length t)%nat ->
  key_matches buf key pos (Z.of_nat n) = Some (bool_decide (take n t = key)).
Proof.
  intros H Hn. unfold key_matches. assert (Ht : length (take n t) = n) by (rewrite length_take; lia).
  destruct (Z.eqb_spec (Z.of_nat n) (Z.of_nat (length key))) as [E|E].
  - rewrite <- E. rewrite <- (take_drop n t) in H. pose proof (here_block _ _ _ H) as Hb. rewrite Ht in Hb.
    by rewrite Hb.
  - rewrite bool_decide_eq_false_2; [done|]. intros <-. by rewrite Ht in E.
Qed.

Lemma find_member_here fuel fuel' key pos s :
  (length s < fuel)%nat -> (length s <= fuel')%nat -> here pos s ->
  find_member_at buf len fuel key pos = Some (as_span <$> find_member fuel' buf key s).
Proof.
  revert fuel' pos s. induction fuel as [|fuel IH]; intros fuel' pos s Hf Hf' H; [lia|]. cbn [find_member_at].
  destruct (skip_ws_here _ _ H) as (p & -> & Hp). cbn [mbind option_bind]. pose proof (skip_ws_length s) as L0.
  destruct fuel' as [|fuel'].
  { destruct s; [|cbn in Hf'; lia]. by destruct (here_nil _ Hp) as [_ ->]. }
  cbn [find_member]. destruct (skip_ws s) as [|c t] eqn:Es.
  { by destruct (here_nil _ Hp) as [_ ->]. }
  destruct (here_cons _ _ _ Hp) as (_ & -> & -> & Ht). cbn [mbind option_bind length] in *.
  destruct (Z.eqb_spec c 125) as [->|]; [done|]. destruct (Z.eqb_spec c 34) as [->|Hc]; cbn [negb].
  2:{ unfold skip_string. by rewrite (proj2 (Z.eqb_neq _ _) Hc). }
  destruct (skip_string_here _ _ Hp) as (e & -> & He%int_of_read). cbn [mbind option_bind].
  destruct (skip_string (34 :: t)) as [s1|] eqn:E1; [|by rewrite He]. destruct He as [-> He].
  apply skip_string_length in E1. cbn [length] in E1.
  pose proof (here_range _ _ Hp) as [P0 P1]. pose proof (here_range _ _ He) as [K0 K1]. cbn [length] in P1.
  assert (Hk : u32 (u32 (u32 e - 1) - u32 (p + 1)) = Z.of_nat (S (length t) - length s1 - 2)) by mlia.
  rewrite Hk. destruct (skip_ws_here _ _ He) as (p1 & -> & H1). cbn [mbind option_bind].
  pose proof (skip_ws_length s1) as L1. rewrite (looking_at_here _ _ _ H1). cbn [mbind option_bind].
  destruct (skip_ws s1) as [|c1 s2]; [done|]. destruct (c1 =? 58); cbn [negb]; [|done]. cbn [length] in L1.
  destruct (here_cons _ _ _ H1) as (_ & _ & _ & H2). destruct (skip_ws_here _ _ H2) as (p2 & -> & H3).
  cbn [mbind option_bind]. pose proof (skip_ws_length s2) as L2.
  destruct (scan_value_here _ _ H3) as ([e2 b2] & -> & Hv). cbn [mbind option_bind].
  destruct (scan_value (skip_ws s2)) as [[b ve]|] eqn:E2; cbn [value_of fst snd] in Hv; [|by subst e2].
  destruct Hv as [Hv ->]. destruct (here_int _ _ Hv) as (Hu & _ & ->). apply scan_value_length in E2. rewrite skip_ws_idem in E2.
  rewrite (key_matches_here key _ t) by (done || lia). cbn [mbind option_bind tail].
  case_bool_decide; [by rewrite (span_here _ _ _ _ _ H3 Hv E2)|].
  rewrite <- Hu in Hv. destruct (skip_ws_here _ _ Hv) as (p3 & -> & H4). cbn [mbind option_bind].
  pose proof (skip_ws_length ve) as L3. rewrite (looking_at_here _ _ _ H4). cbn [mbind option_bind].
  destruct (skip_ws ve) as [|c3 s3]; [done|]. destruct (c3 =? 44); [|done]. cbn [length] in L3.
  destruct (here_cons _ _ _ H4) as (_ & _ & _ & H5). apply IH; [destruct b; lia|destruct b; lia|done].
Qed.

Lemma object_find_here key : json_object_find_at buf len key = Some (as_span <$> json_object_find buf key).
Proof.
  unfold json_object_find_at, json_object_find. destruct (skip_ws_here _ _ here_start) as (p & -> & Hp). cbn [mbind option_bind].
  rewrite (looking_at_here _ _ _ Hp). cbn [mbind option_bind]. pose proof (skip_ws_length buf) as L. destruct (skip_ws buf) as [|c s]; [done|].
  destruct (c =? 123); [|done]. cbn [negb length] in *. destruct (here_cons _ _ _ Hp) as (_ & _ & _ & H1).
  apply find_member_here; [by eapply turns_enough|lia|done].
Qed.

Lemma array_open_here :
  match array_open buf with
  | None => array_open_at buf len = Some None
  | Some s => exists pos, array_open_at buf len = Some (Some pos) /\ here pos s /\ (length s < length buf)%nat
  end.
Proof.
  unfold array_open_at, array_open. destruct (skip_ws_here _ _ here_start) as (p & -> & Hp). cbn [mbind option_bind].
  rewrite (looking_at_here _ _ _ Hp). cbn [mbind option_bind]. pose proof (skip_ws_length buf) as L.
  destruct (skip_ws buf) as [|c s]; [done|]. destruct (c =? 91); [|done]. cbn [length] in L.
  destruct (here_cons _ _ _ Hp) as (_ & _ & _ & H1). eexists. split; [reflexivity|]. split; [done|lia].
Qed.

Definition count_of (o : option nat) : Z := match o with None => -1 | Some n => Z.of_nat n end.

Lemma count_elements_here fuel fuel' pos s n :
  (length s < fuel)%nat -> (length s <= fuel')%nat -> Z.of_nat n + Z.of_nat (length s) <= len -> here pos s ->
  count_elements_at buf len fuel pos (Z.of_nat n) = Some (count_of (count_elements fuel' s n)).
Proof.
  revert fuel' pos s n. induction fuel as [|fuel IH]; intros fuel' pos s n Hf Hf' Hn H; [lia|]. cbn [count_elements_at].
  destruct (skip_ws_here _ _ H) as (p & -> & Hp). cbn [mbind option_bind]. pose proof (skip_ws_length s) as L0.
  destruct fuel' as [|fuel'].
  { destruct s; [|cbn in Hf'; lia]. by destruct (here_nil _ Hp) as [_ ->]. }
  cbn [count_elements]. destruct (skip_ws s) as [|c t] eqn:Es. { by destruct (here_nil _ Hp) as [_ ->]. }
  destruct (here_cons _ _ _ Hp) as (_ & -> & -> & _). cbn [mbind option_bind length] in *.
  destruct (c =? 93); [done|]. destruct (scan_value_here _ _ Hp) as ([e b] & -> & Hv). cbn [mbind option_bind].
  destruct (scan_value (c :: t)) as [[b' ve]|] eqn:E; cbn [value_of fst snd] in *; [|by subst e]. destruct Hv as [Hv _].
  destruct (here_int _ _ Hv) as (Hu & _ & ->). apply scan_value_length in E. rewrite <- Es, skip_ws_idem, Es in E. cbn [length] in E.
  rewrite <- Hu in Hv. destruct (skip_ws_here _ _ Hv) as (p3 & -> & H4). cbn [mbind option_bind].
  pose proof (skip_ws_length ve) as L3. rewrite !(looking_at_here _ _ _ H4). cbn [mbind option_bind].
  assert (Hi : i32 (Z.of_nat n + 1) = Z.of_nat (S n)) by (unfold i32; destruct b'; mlia). rewrite Hi.
  destruct (skip_ws ve) as [|c3 s3]; [done|]. destruct (c3 =? 44); [|by destruct (c3 =? 93)].
  destruct (here_cons _ _ _ H4) as (_ & _ & _ & H5). cbn [length] in L3. apply IH; first [done|destruct b'; lia].
Qed.

Lemma get_element_here fuel fuel' index pos s i :
  (length s < fuel)%nat -> (length s <= fuel')%nat -> Z.of_nat i + Z.of_nat (length s) <= len -> here pos s ->
  get_element_at buf len fuel (Z.of_nat index) pos (Z.of_nat i) = Some (as_span <$> get_element fuel' buf s i index).
Proof.
  revert fuel' pos s i. induction fuel as [|fuel IH]; intros fuel' pos s i Hf Hf' Hn H; [lia|]. cbn [get_element_at].
  destruct (skip_ws_here _ _ H) as (p & -> & Hp). cbn [mbind option_bind]. pose proof (skip_ws_length s) as L0.
  destruct fuel' as [|fuel'].
  { destruct s; [|cbn in Hf'; lia]. by destruct (here_nil _ Hp) as [_ ->]. }
  cbn [get_element]. destruct (skip_ws s) as [|c t] eqn:Es. { by destruct (here_nil _ Hp) as [_ ->]. }
  destruct (here_cons _ _ _ Hp) as (_ & -> & -> & _). cbn [mbind option_bind length] in *.
  destruct (c =? 93); [done|]. destruct (scan_value_here _ _ Hp) as ([e b] & -> & Hv). cbn [mbind option_bind].
  destruct (scan_value (c :: t)) as [[b' ve]|] eqn:E; cbn [value_of fst snd] in *; [|by subst e]. destruct Hv as [Hv ->].
  destruct (here_int _ _ Hv) as (Hu & _ & ->). apply scan_value_length in E. rewrite <- Es, skip_ws_idem, Es in E.
  destruct (Nat.eqb_spec i index) as [->|Hne].
  { rewrite Z.eqb_refl. rewrite (span_here _ _ _ _ _ Hp Hv E). done. }
  rewrite (proj2 (Z.eqb_neq _ _)) by lia. cbn [length] in E.
  rewrite <- Hu in Hv. destruct (skip_ws_here _ _ Hv) as (p3 & -> & H4). cbn [mbind option_bind].
  pose proof (skip_ws_length ve) as L3. rewrite !(looking_at_here _ _ _ H4). cbn [mbind option_bind].
  assert (Hi : u32 (Z.of_nat i + 1) = Z.of_nat (S i)) by (destruct b'; mlia). rewrite Hi.
  destruct (skip_ws ve) as [|c3 s3]; [done|]. destruct (c3 =? 44); [|done].
  destruct (here_cons _ _ _ H4) as (_ & _ & _ & H5). cbn [length] in L3. apply IH; first [done|destruct b'; lia].
Qed.

(** ** Decoding *)

Lemma store_here out oi b :
  (oi < length out)%nat -> exists out', store out (Z.of_nat oi) b = Some out' /\ length out' = length out /\
    take (S oi) out' = take oi out ++ [b] /\ forall n, (S oi <= n)%nat -> drop n out' = drop n out.
Proof.
  intros H. unfold store. rewrite (proj2 (Z.leb_le _ _)), (proj2 (Z.ltb_lt _ _)), Nat2Z.id by lia. cbn [andb].
  eexists. split; [done|]. split; [by rewrite length_insert|]. split.
  - rewrite (take_S_r _ _ b) by by apply list_lookup_insert_eq. by rewrite take_insert_ge by lia.
  - intros n Hn. by rewrite drop_insert_lt by lia.
Qed.

(** What a call leaves in [out] and returns, having decoded [oi] bytes before. *)
Definition decoded_into (out : list Z) (oi : nat) (d : list Z * bool) : list Z * Z :=
  (take oi out ++ d.1 ++ drop (oi + length d.1) out, if d.2 then Z.of_nat (oi + length d.1) - 1 else -1).

Lemma decoded_stop out oi : decoded_into out oi ([], false) = (out, -1).
Proof. unfold decoded_into. cbn [fst snd length app]. by rewrite Nat.add_0_r, take_drop. Qed.

Lemma decode_here fuel out oi pos s :
  (length s < fuel)%nat -> here pos s -> (oi <= length out)%nat -> Z.of_nat oi <= pos ->
  decode_at buf len fuel out (Z.of_nat (length out)) (Z.of_nat oi) pos =
    Some (decoded_into out oi (json_decode_string s (length out - oi))).
Proof.
  revert out oi pos s. induction fuel as [|fuel IH]; intros out oi pos s Hf H Ho Hp; [lia|]. cbn [decode_at].
  pose proof (here_range _ _ H) as [P0 P1].
  (* a byte is stored and the loop goes on, or there is no room for it *)
  assert (Hst : forall b p' s', here p' s' -> (length s' < length s)%nat ->
    (if Z.of_nat oi >=? Z.of_nat (length out) then Some (out, -1)
     else out' ← store out (Z.of_nat oi) b; decode_at buf len fuel out' (Z.of_nat (length out)) (u32 (Z.of_nat oi + 1)) p') =
    Some (decoded_into out oi (match (length out - oi)%nat with
      | O => ([], false)
      | S room => let '(o, ok) := json_decode_string s' room in (b :: o, ok) end))).
  { intros b p' s' H' Hl. pose proof (here_range _ _ H') as [P0' P1'].
    destruct (Nat.eq_dec oi (length out)) as [E|E].
    { rewrite (proj2 (Z.geb_le _ _)) by lia. replace (length out - oi)%nat with 0%nat by lia. by rewrite decoded_stop. }
    destruct (Z.geb_spec (Z.of_nat oi) (Z.of_nat (length out))); [lia|].
    destruct (store_here out oi b) as (out' & -> & L' & Ht & Hd); [lia|]. cbn [mbind option_bind].
    replace (u32 (Z.of_nat oi + 1)) with (Z.of_nat (S oi)) by mlia. rewrite <- L', (IH out' (S oi) p' s') by (done || lia).
    rewrite L'. replace (length out - oi)%nat with (S (length out - S oi)) by lia.
    destruct (json_decode_string s' _) as [o ok]. unfold decoded_into. cbn [fst snd length]. rewrite Ht, Hd by lia.
    rewrite <- app_assoc. cbn [app]. do 2 f_equal.
    - do 3 f_equal. f_equal. lia.
    - destruct ok; lia. }
  destruct s as [|ch s]; cbn [json_decode_string].
  { destruct (here_nil _ H) as [-> _]. cbn [length] in *. destruct (Nat.eq_dec oi (length out)) as [E|E].
    { rewrite (proj2 (Z.geb_le _ _)) by lia. replace (length out - oi)%nat with 0%nat by lia. by rewrite decoded_stop. }
    destruct (Z.geb_spec (Z.of_nat oi) (Z.of_nat (length out))); [lia|].
    destruct (store_here out oi 0) as (out' & -> & L' & Ht & Hd); [lia|]. cbn [mbind option_bind].
    replace (length out - oi)%nat with (S (length out - S oi)) by lia. unfold decoded_into. cbn [fst snd length].
    rewrite <- (Hd (oi + 1)%nat) by lia. rewrite app_assoc, <- Ht. replace (oi + 1)%nat with (S oi) by lia. rewrite take_drop.
    do 2 f_equal. unfold i32. mlia. }
  destruct (here_cons _ _ _ H) as (-> & _ & -> & H1). cbn [mbind option_bind length] in *.
  destruct (ch =? 92); [|apply (Hst ch (u32 (pos + 1)) s); [done|lia]]. destruct s as [|esc s].
  { destruct (here_nil _ H1) as [_ ->]. by rewrite decoded_stop. }
  destruct (here_cons _ _ _ H1) as (_ & -> & -> & _). cbn [mbind option_bind length] in *. destruct (esc =? 117).
  - assert (Hu : u32 (pos + 6) = pos + 6) by mlia. rewrite Hu.
    destruct s as [|c1 [|c2 [|c3 [|c4 s]]]]; cbn [length] in *;
      try (rewrite (proj2 (Z.gtb_lt _ _)) by lia; by rewrite decoded_stop).
    destruct (Z.gtb_spec (pos + 6) len); [lia|]. cbn [orb]. apply (Hst 63 (pos + 6) s); [|lia]. rewrite <- Hu.
    by apply (here_app pos [ch; esc; c1; c2; c3; c4] s).
  - destruct (unescape esc) as [b|]; [|by rewrite decoded_stop]. apply (Hst b (u32 (pos + 2)) s); [|lia]. by apply (here_app pos [ch; esc] s).
Qed.
End refines.

(** * The claim *)

(** C26: the reader never leaves its buffers and always ends: on any text shorter than
    2^31 bytes, well formed or not, every byte it reads lies in the text, every byte it
    stores lies in the output, and every loop stops; no position wraps or overflows its
    cast.  What the functions then return is what the suffix reader of [Json] returns,
    so its theorems hold of them; the spans they hand out lie in the text; decoding
    fills a prefix of the output, leaves the rest of it, and returns the length without
    the terminator, or -1. *)
Theorem json_reader_reads_in_bounds buf :
  let len := Z.of_nat (length buf) in
  len < 2147483648 ->
  (forall key, json_object_find_at buf len key = Some (as_span <$> json_object_find buf key)) /\
  (forall index, is_u32 index ->
     json_array_get_at buf len index = Some (as_span <$> json_array_get buf (Z.to_nat index))) /\
  json_array_count_at buf len = Some (count_of (json_array_count buf)) /\
  (forall sp, (exists key, json_object_find_at buf len key = Some (Some sp)) \/
              (exists index, is_u32 index /\ json_array_get_at buf len index = Some (Some sp)) ->
     0 <= s_off sp /\ 0 <= s_len sp /\ s_off sp + s_len sp <= len) /\
  (forall out, let '(stored, ok) := json_decode_string buf (length out) in
     json_decode_string_at buf len out (Z.of_nat (length out)) =
       Some (stored ++ drop (length stored) out, if ok : bool then Z.of_nat (length stored) - 1 else -1)).
Proof.
  intros len Hlen. subst len. assert (Hget : forall index, is_u32 index ->
    json_array_get_at buf (Z.of_nat (length buf)) index = Some (as_span <$> json_array_get buf (Z.to_nat index))).
  { intros index Hi. unfold json_array_get_at, json_array_get. pose proof (array_open_here buf Hlen) as H.
    destruct (array_open buf) as [s|]; [|by rewrite H]. destruct H as (pos & -> & Hp & Hl). cbn [mbind option_bind].
    pose proof (get_element_here buf Hlen (turns buf) (length buf) (Z.to_nat index) pos s 0) as Hg.
    rewrite Z2Nat.id in Hg by apply Hi. apply Hg; try done; [unfold turns|..]; lia. }
  destruct (json_reader_in_bounds buf) as (Hf & Hg & _ & _).
  split; [intros key; by apply object_find_here|]. split; [done|]. split; [|split].
  - unfold json_array_count_at, json_array_count. pose proof (array_open_here buf Hlen) as H.
    destruct (array_open buf) as [s|]; [|by rewrite H]. destruct H as (pos & -> & Hp & Hl). cbn [mbind option_bind].
    apply (count_elements_here buf Hlen (turns buf) (length buf) pos s 0); try done; [unfold turns|..]; lia.
  - assert (Hin : forall p, (sp_off p + sp_len p <= length buf)%nat ->
      0 <= s_off (as_span p) /\ 0 <= s_len (as_span p) /\ s_off (as_span p) + s_len (as_span p) <= Z.of_nat (length buf))
      by (intros p Hp; cbn [as_span s_off s_len]; lia).
    intros sp [(key & E)|(index & Hi & E)].
    + rewrite object_find_here in E by done. injection E as E. destruct (json_object_find buf key) as [p|] eqn:Ep; [|done].
      injection E as <-. by eapply Hin, Hf.
    + rewrite Hget in E by done. injection E as E. destruct (json_array_get buf _) as [p|] eqn:Ep; [|done].
      injection E as <-. by eapply Hin, Hg.
  - intros out. pose proof (decode_here buf Hlen (turns buf) out 0 0 buf ltac:(unfold turns; lia) (here_start buf)
      ltac:(lia) ltac:(lia)) as H. rewrite Nat.sub_0_r in H. destruct (json_decode_string buf (length out)) as [stored ok].
    exact H.
Qed.

(** A text cut off inside an escape is not found, not read past. *)
Definition cut_text : list Z := [123; 34; 97; 92].
Lemma json_bounds_witness :
  json_object_find_at cut_text 4 [97] = Some None /\
  exists sp, json_object_find_at sample_object (Z.of_nat (length sample_object)) [110] = Some (Some sp) /\
    s_off sp + s_len sp <= Z.of_nat (length sample_object).
Proof.
  destruct (json_reader_reads_in_bounds cut_text) as (Hcut & _); [by vm_compute|].
  destruct (json_reader_reads_in_bounds sample_object) as (Hf & _ & _ & Hin & _); [by vm_compute|].
  split; [exact (Hcut [97])|]. specialize (Hf [110]).
  assert (Hs : exists p, json_object_find sample_object [110] = Some p) by (vm_compute; by eexists).
  destruct Hs as (p & Hp). rewrite Hp in Hf. exists (as_span p). split; [exact Hf|]. apply Hin. left. by exists [110].
Defined.
