(* ===== verification/Procutil.v ===== *)
(** * Procutil: numbers, options and paths (src/common/procutil.c)

    What the processes share besides the transport: how a number becomes text on a
    command line or in a file and is read back ([printf] with %lld, %u and %.9g,
    [strtoll], [strtod], [scanf] with %u), the option lookup, the names of the files
    in the runtime directory, the search for an executable and the random token.  A C
    string is its bytes without the NUL. *)

From Stdlib Require Import (notations) Strings.String.
From Stdlib Require Import Floats.SpecFloat.
From S2P Require Import Prelude Types Samples Cursor Wire Ipc Binary64 Json WireMsg.
#[local] Delimit Scope string_scope with string.

(** ** Printing *)

(** The decimal digits of a natural number, most significant first. *)
Fixpoint dec_digits (fuel : nat) (v : Z) (acc : list Z) : list Z :=
  match fuel with
  | O => acc
  | S fuel =>
      let acc := (48 + v mod 10) :: acc in
      if v <? 10 then acc else dec_digits fuel (v / 10) acc
  end.

(** Twenty digits hold every 64-bit number. *)
Definition show_u64 (v : Z) : list Z := dec_digits 20 v [].
Definition show_i64 (v : Z) : list Z := if v <? 0 then 45 :: show_u64 (- v) else show_u64 v.

(** [10^x <= m * 2^e]. *)
Definition pow10_le (x m e : Z) : bool :=
  10 ^ Z.max x 0 * 2 ^ Z.max (- e) 0 <=? m * 2 ^ Z.max e 0 * 10 ^ Z.max (- x) 0.

(** The decimal exponent of [m * 2^e]; 1233/4096 is a little below log10 2. *)
Definition exponent10 (m e : Z) : Z :=
  let x := Z.shiftr ((Z.log2 m + e) * 1233) 12 in
  if pow10_le (x + 1) m e then x + 1 else if pow10_le x m e then x else x - 1.

Definition round_half_even (num den : Z) : Z :=
  let q := num / den in
  let r := num mod den in
  if 2 * r <? den then q else if den <? 2 * r then q + 1 else if Z.even q then q else q + 1.

(** Nine significant digits of [m * 2^e] as an integer, and the exponent of the first. *)
Definition nine_digits (m e : Z) : Z * Z :=
  let x := exponent10 m e in
  let n := round_half_even (m * 2 ^ Z.max e 0 * 10 ^ Z.max (8 - x) 0)
                           (2 ^ Z.max (- e) 0 * 10 ^ Z.max (x - 8) 0) in
  if n =? 10 ^ 9 then (10 ^ 8, x + 1) else (n, x).

Fixpoint strip_zeros (ds : list Z) : list Z :=
  match ds with
  | [] => []
  | d :: ds => match strip_zeros ds with [] => if d =? 48 then [] else [d] | ds' => d :: ds' end
  end.
Definition with_fraction (ip fp : list Z) : list Z :=
  match strip_zeros fp with [] => ip | fp => ip ++ 46 :: fp end.

(** [snprintf(buf, cap, "%.9g", v)], for a buffer that is large enough. *)
Definition show_g9 (v : f64) : list Z :=
  match v with
  | S754_nan => ascii_bytes "nan"%string
  | S754_infinity neg => (if neg then [45] else []) ++ ascii_bytes "inf"%string
  | S754_zero neg => (if neg then [45] else []) ++ [48]
  | S754_finite neg m e =>
      let '(n, x) := nine_digits (Zpos m) e in
      let ds := dec_digits 9 n [] in
      (if neg then [45] else []) ++
      if (x <? -4) || (9 <=? x) then
        let ex := dec_digits 3 (Z.abs x) [] in
        with_fraction (take 1 ds) (drop 1 ds) ++
        [101; if x <? 0 then 45 else 43] ++ (if Z.abs x <? 10 then 48 :: ex else ex)
      else if 0 <=? x then with_fraction (take (Z.to_nat (x + 1)) ds) (drop (Z.to_nat (x + 1)) ds)
      else with_fraction [48] (replicate (Z.to_nat (- x - 1)) 48 ++ ds)
  end.

(** ** Reading *)

Definition is_space (c : Z) : bool := (c =? 32) || ((9 <=? c) && (c <=? 13)).
Fixpoint skip_space (s : list Z) : list Z :=
  match s with
  | c :: s' => if is_space c then skip_space s' else s
  | [] => []
  end.

(** Whether there is a minus sign, and what follows the sign. *)
Definition take_sign (s : list Z) : bool * list Z :=
  match s with
  | c :: s' => if c =? 45 then (true, s') else if c =? 43 then (false, s') else (false, s)
  | [] => (false, [])
  end.

(** [strtoll(s, NULL, 10)]: 0 when nothing converts, clamped to the type. *)
Definition strtoll (s : list Z) : Z :=
  let '(neg, s) := take_sign (skip_space s) in
  let v := digits_value (take_digits s) in
  Z.max INT64_MIN (Z.min INT64_MAX (if neg then - v else v)).

Definition lower (c : Z) : Z := if (65 <=? c) && (c <=? 90) then c + 32 else c.
Definition starts_with (word s : list Z) : bool := bool_decide (take (length word) (lower <$> s) = word).

Fixpoint take_hex (s : list Z) : list Z :=
  match s with
  | c :: s => if 0 <=? hex_val c then hex_val c :: take_hex s else []
  | [] => []
  end.

(** The digits of a hexadecimal constant after its 0x: [None] if there are none. *)
Definition strtod_hex (neg : bool) (s : list Z) : option f64 :=
  let ip := take_hex s in
  let s := drop (length ip) s in
  let fp := match s with c :: s' => if c =? 46 then take_hex s' else [] | [] => [] end in
  let s := match s with c :: s' => if c =? 46 then drop (length fp) s' else s | [] => [] end in
  match ip ++ fp with
  | [] => None
  | ds =>
      let ex := match s with
                | c :: s' =>
                    if lower c =? 112 then
                      let '(eneg, s') := take_sign s' in
                      let v := digits_value (take_digits s') in if eneg then - v else v
                    else 0
                | [] => 0
                end in
      let m := fold_left (fun v d => 16 * v + d) ds 0 in
      Some (binary_normalize 53 1024 (if neg then - m else m) (ex - 4 * Z.of_nat (length fp)) neg)
  end.

(** [strtod(s, NULL)], every form of it; 0 when nothing converts. *)
Definition strtod_full (s : list Z) : f64 :=
  let s := skip_space s in
  let '(neg, body) := take_sign s in
  if starts_with (ascii_bytes "inf"%string) body then S754_infinity neg
  else if starts_with (ascii_bytes "nan"%string) body then S754_nan
  else if starts_with (ascii_bytes "0x"%string) body
  then default (S754_zero neg) (strtod_hex neg (drop 2 body))
  else default f64_zero (strtod s).

(** [fscanf(f, "%u", &v) == 1], the value. *)
Definition scan_u32 (s : list Z) : option Z :=
  let '(neg, s) := take_sign (skip_space s) in
  match take_digits s with
  | [] => None
  | ds => let v := Z.min (digits_value ds) 18446744073709551615 in Some (u32 (if neg then - v else v))
  end.

(** ** Options *)

Definition procutil_arg_i64 (args : list (list Z)) (name : list Z) (def : Z) : Z :=
  match find_arg args name with Some v => strtoll v | None => def end.
Definition procutil_arg_f64 (args : list (list Z)) (name : list Z) (def : f64) : f64 :=
  match find_arg args name with Some v => strtod_full v | None => def end.

(** ** Paths *)

(** The position of the last separator, [/] or [\\]. *)
Fixpoint last_separator (path : list Z) : option nat :=
  match path with
  | [] => None
  | c :: path =>
      match last_separator path with
      | Some i => Some (S i)
      | None => if (c =? 47) || (c =? 92) then Some O else None
      end
  end.

(** [dirname_of] of the worker and of the supervisor. *)
Definition dirname_of (path : list Z) (out_cap : nat) : list Z :=
  match last_separator path with
  | None => [46]
  | Some len => take (Nat.min len (out_cap - 1)) path
  end.

(** [snprintf(out, cap, ...)] of a text. *)
Definition snprintf (cap : nat) (text : list Z) : list Z := take (cap - 1) text.

(** [runtime_dir/name.suffix], when it fits in 1024 bytes. *)
Definition runtime_file (runtime_dir name suffix : list Z) : option (list Z) :=
  let path := runtime_dir ++ [47] ++ name ++ suffix in
  if (length path <? 1024)%nat then Some path else None.
Definition port_file_path (runtime_dir name : list Z) : option (list Z) :=
  runtime_file runtime_dir name (ascii_bytes ".port"%string).
Definition pid_file_path (runtime_dir name : list Z) : option (list Z) :=
  runtime_file runtime_dir name (ascii_bytes ".pid"%string).

Definition port_file_text (port : Z) : list Z := show_u64 port.

(** [files]: what [fopen] finds, one entry per turn of the loop. *)
Fixpoint procutil_read_port_file (timeout_ms waited : Z) (files : list (option (list Z))) : option Z :=
  match files with
  | [] => None
  | file :: files =>
      match file ≫= scan_u32 with
      | Some v => Some (u16 v)
      | None => if waited >=? timeout_ms then None else procutil_read_port_file timeout_ms (waited + 20) files
      end
  end.

Definition procutil_write_token_file (token : list Z) : list Z :=
  default [] (c_str <$> procutil_hex_encode token 65).
Definition procutil_read_token_file (file : option (list Z)) : option (list Z) :=
  match file with
  | None => None
  | Some data =>
      let hex := take 64 data in
      if (length hex =? 64)%nat then procutil_hex_decode hex 32 else None
  end.

(** [link]: what /proc/self/exe points to. *)
Definition procutil_own_exe_dir (link : option (list Z)) (argv0 : list Z) (out_cap : nat) : list Z :=
  let dir (path : list Z) (last : option nat) : option (list Z) :=
    match last with
    | Some len => if (len <? out_cap)%nat then Some (take len path) else None
    | None => None
    end in
  let slash path := last_separator ((fun c => if c =? 92 then 0 else c) <$> path) in
  match link ≫= (fun path => let path := take 1023 path in dir path (slash path)) with
  | Some d => d
  | None => default [46] (dir argv0 (last_separator argv0))
  end.

Definition procutil_find_on_path (exists_ : list Z -> bool) (path_env : option (list Z)) (name : list Z)
    (out_cap : nat) : option (list Z) :=
  match path_env with
  | None => None
  | Some dirs =>
      let candidate tok := snprintf 1024 (tok ++ [47] ++ name) in
      (fun c => take (out_cap - 1) c.2) <$>
        list_find (fun c => exists_ c = true) (candidate <$> strtok 58 [] (take (Z.to_nat 8191) dirs))
  end.

Example show_g9_examples :
  show_g9 <$> (f64_of_bits <$> [4587366580439587226; 4621819117588971520; 4547007122018943789; 4547007122018648641;
    4599676419421066581; 9218868437227405312; 13830554455654793216; 4728057454380711936; 4728057454313603072;
    4741671816363035853; 4532020583610935537; 4463399334375249557; 9094988921128908188; 1]) =
  ascii_bytes <$> ["0.05"; "10"; "0.0001"; "0.0001"; "0.333333333"; "inf"; "-1"; "123456790"; "123456788"; "1e+09";
    "1e-05"; "2.5e-10"; "1e+300"; "4.94065646e-324"]%string.
Proof. by vm_compute. Qed.

Example strtod_full_examples :
  (fun s => bits_of_f64 0 (strtod_full (ascii_bytes s))) <$>
    ["0.05"; " +1e+300"; "-INFinity"; "0x1.8p1"; "x"; "-0"]%string =
  [4587366580439587226; 9094988921128908188; 18442240474082181120; 4613937818241073152; 0; 9223372036854775808].
Proof. by vm_compute. Qed.

(** ** The token of a run *)

(** The loop over /dev/urandom: [reads] is what the successive calls bring, at most as
    much as is asked for, nothing at the end or on an error. *)
Fixpoint read_token (reads : list (list Z)) (got : list Z) : list Z :=
  if (length got <? OBICALL_RUN_TOKEN_LEN)%nat then
    match reads with
    | [] | [] :: _ => got
    | bs :: reads => read_token reads (got ++ take (OBICALL_RUN_TOKEN_LEN - length got) bs)
    end
  else got.

(** [urandom]: [None] when it cannot be opened; [rand i] the i-th number of [rand]. *)
Definition procutil_random_token (urandom : option (list (list Z))) (rand : nat -> Z) : list Z :=
  let fallback := (fun i => u8 (rand i)) <$> seq 0 OBICALL_RUN_TOKEN_LEN in
  match urandom with
  | None => fallback
  | Some reads =>
      let got := read_token reads [] in
      if (length got =? OBICALL_RUN_TOKEN_LEN)%nat then got else fallback
  end.

(** * Lemmas *)

(** ** A printed integer reads back *)

Lemma dec_digits_acc fuel v acc : dec_digits fuel v acc = dec_digits fuel v [] ++ acc.
Proof.
  revert v acc. induction fuel as [|fuel IH]; intros v acc; cbn [dec_digits]; [done|].
  destruct (v <? 10); [done|]. rewrite IH. rewrite (IH _ [_]). by rewrite <- app_assoc.
Qed.

Lemma digits_value_snoc ds d : digits_value (ds ++ [d]) = 10 * digits_value ds + (d - 48).
Proof. unfold digits_value. by rewrite fold_left_app. Qed.

Lemma dec_digits_spec fuel v :
  0 <= v < 10 ^ Z.of_nat fuel ->
  digits (dec_digits fuel v []) /\ digits_value (dec_digits fuel v []) = v /\
  (fuel <> O -> exists c ds, dec_digits fuel v [] = c :: ds).
Proof.
  revert v. induction fuel as [|fuel IH]; intros v Hv.
  { change (10 ^ Z.of_nat 0) with 1 in Hv. split; [done|]. split; [cbn; lia|done]. }
  assert (Hd : is_digit (48 + v mod 10) = true) by (unfold is_digit; lia).
  cbn [dec_digits]. destruct (Z.ltb_spec v 10).
  - split; [unfold digits; cbn [forallb]; by rewrite Hd|]. split; [|by eexists _, _].
    unfold digits_value. cbn [fold_left]. rewrite Z.mod_small by lia. lia.
  - rewrite dec_digits_acc. rewrite Nat2Z.inj_succ, Z.pow_succ_r in Hv by lia.
    destruct (IH (v / 10)) as (H1 & H2 & H3); [lia|]. split; [|split].
    + unfold digits in *. rewrite forallb_app, H1. cbn [forallb]. by rewrite Hd.
    + rewrite digits_value_snoc, H2. lia.
    + intros _. destruct (dec_digits fuel (v / 10) []); by eexists _, _.
Qed.

Lemma take_digits_app ds r :
  digits ds -> match r with [] => True | c :: _ => is_digit c = false end -> take_digits (ds ++ r) = ds.
Proof.
  unfold digits. induction ds as [|c ds IH]; cbn [app forallb take_digits].
  - intros _. destruct r as [|c r]; [done|]. cbn. by intros ->.
  - intros [-> Hd]%andb_true_iff Hr. by rewrite IH.
Qed.

Lemma show_u64_spec v :
  0 <= v < 10 ^ 20 ->
  exists c ds, show_u64 v = c :: ds /\ is_digit c = true /\ take_digits (show_u64 v) = show_u64 v /\
    digits_value (show_u64 v) = v.
Proof.
  intros Hv. destruct (dec_digits_spec 20 v Hv) as (H1 & H2 & H3). destruct H3 as (c & ds & E); [done|].
  exists c, ds. unfold show_u64. split; [done|]. rewrite <- (app_nil_r (dec_digits 20 v [])) at 1.
  rewrite take_digits_app by done. split_and!; try done. rewrite E in H1. by apply andb_true_iff in H1 as [-> _].
Qed.

Lemma digit_not_space c : is_digit c = true -> is_space c = false /\ (c =? 45) = false /\ (c =? 43) = false.
Proof. unfold is_digit, is_space. lia. Qed.

Lemma strtoll_show v : is_i64 v -> strtoll (show_i64 v) = v.
Proof.
  intros Hv. unfold is_i64 in Hv. unfold strtoll, show_i64.
  destruct (Z.ltb_spec v 0).
  - destruct (show_u64_spec (- v)) as (c & ds & E & Hc & Ht & Hd); [lia|].
    cbn [skip_space is_space Z.eqb Z.leb Z.compare Pos.eqb Pos.compare Pos.compare_cont andb orb take_sign].
    rewrite Ht, Hd. unfold INT64_MIN, INT64_MAX. lia.
  - destruct (show_u64_spec v) as (c & ds & E & Hc & Ht & Hd); [lia|].
    destruct (digit_not_space c Hc) as (H1 & H2 & H3).
    assert (Hs : skip_space (show_u64 v) = show_u64 v) by (rewrite E; cbn; by rewrite H1).
    rewrite Hs. assert (Hsg : take_sign (show_u64 v) = (false, show_u64 v)) by (rewrite E; cbn; by rewrite H2, H3).
    rewrite Hsg, Ht, Hd. unfold INT64_MIN, INT64_MAX. lia.
Qed.

Lemma scan_u32_show v : is_u32 v -> scan_u32 (show_u64 v) = Some v.
Proof.
  intros Hv. unfold is_u32 in Hv. unfold scan_u32.
  destruct (show_u64_spec v) as (c & ds & E & Hc & Ht & Hd); [lia|].
  destruct (digit_not_space c Hc) as (H1 & H2 & H3).
  assert (Hs : skip_space (show_u64 v) = show_u64 v) by (rewrite E; cbn; by rewrite H1).
  rewrite Hs. assert (Hsg : take_sign (show_u64 v) = (false, show_u64 v)) by (rewrite E; cbn; by rewrite H2, H3).
  rewrite Hsg, Ht. rewrite E. cbv iota zeta. rewrite <- E, Hd, Z.min_l by lia. rewrite u32_id; [done|]. exact Hv.
Qed.

(** A port that a server has written is found, whether the file is there at once or
    only after the reader has polled for it, as long as its patience lasts. *)
Lemma port_file_roundtrip port n rest timeout_ms :
  is_u16 port -> 20 * Z.of_nat n < timeout_ms + 20 ->
  procutil_read_port_file timeout_ms 0 (replicate n None ++ Some (port_file_text port) :: rest) = Some port.
Proof.
  intros Hp. assert (H32 : is_u32 port) by (unfold is_u16, is_u32 in *; lia).
  replace (timeout_ms + 20) with (timeout_ms - 0 + 20) by lia. generalize 0 as waited.
  induction n as [|n IH]; intros waited Hn; cbn [replicate app procutil_read_port_file mbind option_bind].
  - unfold port_file_text. by rewrite scan_u32_show, u16_id.
  - destruct (Z.geb_spec waited timeout_ms); [lia|]. apply IH. lia.
Qed.

(** ** Option lookup *)

(** The options of a command line as the processes write them: each name followed by
    its value. *)
Definition option_args (opts : list (list Z * list Z)) : list (list Z) := opts ≫= (fun o => [o.1; o.2]).

Fixpoint option_value (opts : list (list Z * list Z)) (name : list Z) : option (list Z) :=
  match opts with
  | [] => None
  | (n, v) :: opts => if bool_decide (n = name) then Some v else option_value opts name
  end.

(** No value is taken for an option name; the trailing flags are no names either. *)
Lemma find_arg_options opts flags name :
  Forall (fun o => o.2 <> name) opts -> Forall (fun f => f <> name) flags ->
  find_arg (option_args opts ++ flags) name = option_value opts name.
Proof.
  intros Ho Hf. induction Ho as [|[n v] opts Hv Ho IH].
  - cbn [option_args mbind list_bind app option_value]. induction Hf as [|f flags Hn Hf IH]; [done|].
    destruct flags as [|f' flags]; [done|]. cbn [find_arg]. rewrite bool_decide_eq_false_2 by done. exact IH.
  - change (option_args ((n, v) :: opts)) with (n :: v :: option_args opts).
    cbn [app find_arg option_value]. case_bool_decide; [done|]. rewrite <- IH.
    destruct (option_args opts ++ flags) as [|a rest]; [done|]. by rewrite bool_decide_eq_false_2.
Qed.

(** ** The token of a run *)

(** What the calls bring until one of them brings nothing. *)
Fixpoint delivered (reads : list (list Z)) : list Z :=
  match reads with [] | [] :: _ => [] | bs :: reads => bs ++ delivered reads end.

Lemma read_token_spec reads got :
  (length got <= OBICALL_RUN_TOKEN_LEN)%nat ->
  read_token reads got = take OBICALL_RUN_TOKEN_LEN (got ++ delivered reads).
Proof.
  revert got. induction reads as [|bs reads IH]; intros got Hgot; cbn [read_token delivered].
  - rewrite app_nil_r, take_ge by lia. by destruct (_ <? _)%nat.
  - destruct (Nat.ltb_spec (length got) OBICALL_RUN_TOKEN_LEN).
    2:{ by rewrite take_app_ge, (proj2 (Nat.sub_0_le _ _)), take_0, app_nil_r by lia. }
    destruct bs as [|b bs]; [rewrite app_nil_r, take_ge by lia; done|].
    rewrite IH by (rewrite length_app, length_take; lia). rewrite app_assoc.
    set (n := OBICALL_RUN_TOKEN_LEN) in *. clearbody n.
    destruct (Nat.le_gt_cases (length (b :: bs)) (n - length got)).
    + by rewrite (take_ge (b :: bs)).
    + rewrite !(take_app_le (_ ++ _)) by (rewrite length_app, ?length_take; lia).
      rewrite (take_app_ge got (b :: bs)) by lia. apply take_ge. rewrite length_app, length_take. lia.
Qed.

(** However the system cuts the bytes up, the token is the first bytes it delivers, or
    else all of it is the substitute: never a token that is random in part. *)
Theorem random_token_spec urandom rand :
  procutil_random_token urandom rand =
  match urandom with
  | Some reads =>
      if (OBICALL_RUN_TOKEN_LEN <=? length (delivered reads))%nat then take OBICALL_RUN_TOKEN_LEN (delivered reads)
      else (fun i => u8 (rand i)) <$> seq 0 OBICALL_RUN_TOKEN_LEN
  | None => (fun i => u8 (rand i)) <$> seq 0 OBICALL_RUN_TOKEN_LEN
  end.
Proof.
  unfold procutil_random_token. destruct urandom as [reads|]; [|done]. cbv zeta.
  rewrite read_token_spec by (cbn; lia). cbn [app]. rewrite length_take.
  set (n := OBICALL_RUN_TOKEN_LEN). clearbody n.
  by destruct (Nat.eqb_spec (n `min` length (delivered reads)) n), (Nat.leb_spec n (length (delivered reads))); [|lia|lia|].
Qed.
