(* ===== verification/RuntimeFiles.v ===== *)
(** * RuntimeFiles: the files the processes find each other by (src/common/procutil.c)

    Port, pid and token files are written beside their place and renamed into it, while
    other processes may be polling for them.  Here the calls on the file system are made
    one after the other, and a reader looks in between any two of them. *)

From stdpp Require Import gmap.
From Stdlib Require Import (notations) Strings.String.
From S2P Require Import Prelude Types Samples WireMsg Procutil.

(** ** The file system *)

Abbreviation path := (list Z).
Abbreviation files := (gmap path (list Z)).

Inductive file_call :=
| Remove (p : path)
| OpenTrunc (p : path)                (* fopen(p, "wb") *)
| WriteTo (p : path) (text : list Z)  (* what reaches the file by the time it is closed *)
| Rename (p q : path).

Definition make_call (fs : files) (c : file_call) : files :=
  match c with
  | Remove p => delete p fs
  | OpenTrunc p => <[p := []]> fs
  | WriteTo p text => alter (fun old => old ++ text) p fs
  | Rename p q => match fs !! p with Some data => <[q := data]> (delete p fs) | None => fs end
  end.
Definition make_calls (fs : files) (cs : list file_call) : files := foldl make_call fs cs.

(** ** Writing *)

(** The fate of a write: the temporary file opens, so many bytes of the text reach it
    (nobody looks whether all did), it is renamed. *)
Record write_env := WriteEnv {
  we_fopen : bool;
  we_written : nat;
  we_replace : bool
}.

Definition tmp_path (p : path) : path := p ++ ascii_bytes ".tmp"%string.

(** What the three writers share; [true] is the C return value 0. *)
Definition replace_file (env : write_env) (p : path) (text : list Z) : bool * list file_call :=
  if negb (we_fopen env) then (false, [])
  else (we_replace env,
        [OpenTrunc (tmp_path p); WriteTo (tmp_path p) (take (we_written env) text)]
        ++ (if we_replace env then [Rename (tmp_path p) p] else [])).

Definition procutil_write_port_file (env : write_env) (runtime_dir name : list Z) (port : Z) : bool * list file_call :=
  match port_file_path runtime_dir name with
  | None => (false, [])
  | Some p => replace_file env p (port_file_text port)
  end.
Definition procutil_write_pid_file (env : write_env) (runtime_dir name : list Z) (pid : Z) : bool * list file_call :=
  match pid_file_path runtime_dir name with
  | None => (false, [])
  | Some p => replace_file env p (show_i64 pid)
  end.
Definition token_file_path (runtime_dir : list Z) : path := snprintf 1024 (runtime_dir ++ ascii_bytes "/run.token"%string).
Definition write_token_calls (env : write_env) (runtime_dir token : list Z) : bool * list file_call :=
  replace_file env (token_file_path runtime_dir) (procutil_write_token_file token).

Definition procutil_clear_port_file (runtime_dir name : list Z) : list file_call :=
  match port_file_path runtime_dir name with None => [] | Some p => [Remove p] end.

(** ** Reading *)

(** What is at [p] when [n] of the calls have been made. *)
Definition look (fs : files) (cs : list file_call) (p : path) (n : nat) : option (list Z) := make_calls fs (take n cs) !! p.

(** A reader that polls at the given moments. *)
Definition poll_port (timeout_ms : Z) (fs : files) (cs : list file_call) (p : path) (moments : list nat) : option Z :=
  procutil_read_port_file timeout_ms 0 (look fs cs p <$> moments).

(** * Lemmas *)

Lemma tmp_path_ne p : tmp_path p <> p.
Proof. unfold tmp_path. intros H. apply (f_equal length) in H. rewrite length_app in H. cbn in H. lia. Qed.

(** Replacing a file is atomic: at every moment the file is what it was, or all of what
    reached the temporary file; nothing else is touched. *)
Lemma replace_file_atomic env p text fs n :
  let '(ok, cs) := replace_file env p text in
  look fs cs p n = (if ok && (3 <=? n)%nat then Some (take (we_written env) text) else fs !! p) /\
  forall q, q <> p -> q <> tmp_path p -> look fs cs q n = fs !! q.
Proof.
  pose proof (tmp_path_ne p) as Hne. unfold replace_file, look, make_calls.
  destruct (we_fopen env); cbn [negb]; [|by rewrite take_nil].
  destruct (we_replace env); cbn [app andb]; destruct n as [|[|[|n]]]; cbn [take foldl make_call Nat.leb]; rewrite ?take_nil; cbn [foldl];
    rewrite ?lookup_alter_eq, ?lookup_insert_eq; cbn [fmap option_fmap option_map app];
    (split; [|intros q Hq Hqt]);
    by rewrite ?lookup_insert_eq, ?lookup_insert_ne, ?lookup_delete_ne, ?lookup_alter_ne, ?lookup_insert_ne by done.
Qed.


(** A reader that only ever finds nothing or the port comes back with the port or without
    one, and with the port if it finds it while its patience lasts. *)
Lemma read_port_nothing_else port timeout_ms waited seen :
  is_u16 port -> Forall (fun f => f = None \/ f = Some (port_file_text port)) seen ->
  procutil_read_port_file timeout_ms waited seen = None \/ procutil_read_port_file timeout_ms waited seen = Some port.
Proof.
  intros Hp Hs. assert (H32 : is_u32 port) by (unfold is_u16, is_u32 in *; lia).
  revert waited. induction Hs as [|f seen [->| ->] _ IH]; intros waited; cbn [procutil_read_port_file mbind option_bind].
  - by left.
  - destruct (waited >=? timeout_ms); [by left|apply IH].
  - unfold port_file_text. rewrite scan_u32_show, u16_id by done. by right.
Qed.

Lemma read_port_found port timeout_ms seen k :
  is_u16 port -> Forall (fun f => f = None \/ f = Some (port_file_text port)) seen ->
  seen !! k = Some (Some (port_file_text port)) -> 20 * Z.of_nat k < timeout_ms + 20 ->
  procutil_read_port_file timeout_ms 0 seen = Some port.
Proof.
  intros Hp Hs Hk. assert (H32 : is_u32 port) by (unfold is_u16, is_u32 in *; lia).
  replace (timeout_ms + 20) with (timeout_ms - 0 + 20) by lia. revert k Hk. generalize 0 as waited.
  induction Hs as [|f seen Hf _ IH]; intros waited k Hk Hn; [done|]. cbn [procutil_read_port_file].
  destruct Hf as [->| ->]; cbn [mbind option_bind].
  - destruct k as [|k]; [done|]. destruct (Z.geb_spec waited timeout_ms); [lia|]. apply (IH _ k); [done|lia].
  - unfold port_file_text. by rewrite scan_u32_show, u16_id.
Qed.

(** * The handshake *)

(** The launcher clears a port file before it starts the server and polls for it after:
    whatever was left there from an earlier run, wherever the calls of the server and the
    looks of the reader fall, and whether or not the server gets its file in place, the
    reader never takes another port than the server's for it; and it gets that port if
    one of its looks falls behind the renaming while its patience lasts. *)
Theorem port_file_handshake env fs runtime_dir name port moments timeout_ms p :
  port_file_path runtime_dir name = Some p -> is_u16 port ->
  (length (port_file_text port) <= we_written env)%nat -> Forall (fun m => (1 <= m)%nat) moments ->
  let '(ok, cs) := procutil_write_port_file env runtime_dir name port in
  let calls := procutil_clear_port_file runtime_dir name ++ cs in
  let found := poll_port timeout_ms fs calls p moments in
  (found = None \/ found = Some port) /\
  (ok = true -> forall k m, moments !! k = Some m -> (length calls <= m)%nat -> 20 * Z.of_nat k < timeout_ms + 20 ->
     found = Some port).
Proof.
  intros Hp Hport Hw Hm. unfold procutil_write_port_file, procutil_clear_port_file. rewrite Hp.
  assert (Hl : forall m, (1 <= m)%nat -> let '(ok, cs) := replace_file env p (port_file_text port) in
    look fs (Remove p :: cs) p m = if ok && (4 <=? m)%nat then Some (port_file_text port) else None).
  { intros [|m] Hm'; [lia|]. pose proof (replace_file_atomic env p (port_file_text port) (delete p fs) m) as H.
    destruct (replace_file env p _) as [ok cs]. destruct H as [H _]. rewrite take_ge in H by done.
    unfold look, make_calls in *. cbn [take foldl make_call]. rewrite H, lookup_delete_eq.
    by destruct ok, m as [|[|[|m]]]. }
  assert (Hlen : (length (replace_file env p (port_file_text port)).2 <= 3)%nat /\
    ((replace_file env p (port_file_text port)).1 = true -> length (replace_file env p (port_file_text port)).2 = 3%nat)).
  { unfold replace_file. destruct (we_fopen env), (we_replace env); cbn; lia. }
  destruct (replace_file env p (port_file_text port)) as [ok cs]. cbn [fst snd app length] in *.
  assert (Hseen : Forall (fun f => f = None \/ f = Some (port_file_text port)) (look fs (Remove p :: cs) p <$> moments)).
  { apply Forall_fmap. eapply Forall_impl; [exact Hm|]. intros m Hm'. cbn. rewrite Hl by done. destruct (ok && _); auto. }
  unfold poll_port. split; [by apply read_port_nothing_else|].
  intros -> k m Hk Hcm Ht. destruct Hlen as [_ Hlen]. specialize (Hlen eq_refl).
  apply (read_port_found _ _ _ k); [done|done| |done]. rewrite list_lookup_fmap, Hk. cbn [fmap option_fmap option_map].
  rewrite Hl by lia. destruct (Nat.leb_spec 4 m); [done|lia].
Qed.

(** Nobody looks whether all of the text reached the file: with a full disk the server's
    port 4242 is taken for 42. *)
Example short_write_gives_another_port :
  let '(ok, cs) := procutil_write_port_file (WriteEnv true 2 true) (ascii_bytes "run"%string) (ascii_bytes "gate"%string) 4242 in
  ok = true /\ poll_port 5000 ∅ cs (ascii_bytes "run/gate.port"%string) [3%nat] = Some 42.
Proof. split; reflexivity. Qed.

(** Files of different daemons do not get in each other's way. *)
Lemma port_files_apart env fs runtime_dir name name' port n p p' :
  port_file_path runtime_dir name = Some p -> port_file_path runtime_dir name' = Some p' -> name <> name' ->
  let '(_, cs) := procutil_write_port_file env runtime_dir name port in look fs cs p' n = fs !! p'.
Proof.
  intros Hp Hp' Hne. unfold procutil_write_port_file. rewrite Hp.
  pose proof (replace_file_atomic env p (port_file_text port) fs n) as H. destruct (replace_file env p _) as [ok cs].
  apply (proj2 H); clear H; intros ->; revert Hp Hp'; unfold port_file_path, runtime_file;
    destruct (_ <? _)%nat; try done; destruct (_ <? _)%nat; try done; intros [= E1] [= E2].
  - rewrite <- E1 in E2. apply app_inv_head in E2. injection E2 as E2. apply app_inv_tail in E2. by apply Hne.
  - rewrite <- E1 in E2. unfold tmp_path in E2. apply (f_equal (fun l => hd 0 (rev l))) in E2.
    rewrite !rev_app_distr in E2. cbn in E2. rewrite !rev_app_distr in E2. discriminate E2.
Qed.
