(* ===== verification/Manifest.v ===== *)
(** * Manifest: dependency resolution and ranking of providers (src/core/manifest.c)

    A manifest set is the list of its manifests; a name is a [char] array of which
    the text before the first NUL counts.  Resolution marks everything reachable
    from the requested names and orders it by Kahn's algorithm.  It is proved to
    find an order, with dependencies first, exactly when there is one; ranking is
    proved to return the eligible alternatives sorted. *)

From Stdlib Require Import Sorting.Sorted.
From stdpp Require Import sorting.
From S2P Require Import Prelude Types Binary64.

Definition OBICALL_MANIFEST_SCHEMA_VERSION : Z := 1.
Definition OBICALL_MAX_DEPENDENCIES : Z := 8.
Definition OBICALL_MAX_MANIFESTS : nat := 64.
Definition OBICALL_ABI_VERSION_MAJOR : Z := 1.
Definition OBICALL_ABI_VERSION_MINOR : Z := 0.

Record obicall_manifest := Manifest {
  mf_struct_size : Z;
  mf_schema_version : Z;
  mf_name : list Z;
  mf_version : list Z;
  mf_language : Z;
  mf_abi_version_major : Z;
  mf_abi_version_minor : Z;
  mf_architecture : list Z;
  mf_capability_flags : Z;
  mf_capability_slot : list Z;
  mf_preference_score : f64;
  mf_artifact_path : list Z;
  mf_artifact_sha256 : list Z;
  mf_has_artifact_sha256 : Z;
  mf_config_schema_version : Z;
  mf_config_json : list Z;
  mf_dependencies : list (list Z)      (* the first [dependency_count] of 8 *)
}.

(** [items[0 .. count - 1]] *)
Abbreviation manifest_set := (list obicall_manifest) (only parsing).

(** [strcmp(a, b) == 0], and its sign: bytes compared as unsigned. *)
Definition strcmp_eq (a b : list Z) : bool := bool_decide (c_str a = c_str b).
Fixpoint lex_gt (a b : list Z) : bool :=
  match a, b with
  | [], _ => false
  | _ :: _, [] => true
  | x :: a, y :: b => (x >? y) || ((x =? y) && lex_gt a b)
  end.
Definition strcmp_gt (a b : list Z) : bool := lex_gt (c_str a) (c_str b).

Definition find_by_name (set : manifest_set) (name : list Z) : option nat :=
  fst <$> list_find (fun m => strcmp_eq (mf_name m) name = true) set.

Definition deps_of (set : manifest_set) (i : nat) : list (list Z) :=
  default [] (mf_dependencies <$> set !! i).
Definition name_of (set : manifest_set) (i : nat) : list Z := default [] (mf_name <$> set !! i).

(** ** Marking what is needed *)

(** [needed], [stack] (its top first) and [needed_count]. *)
Record marks := Marks {
  mk_needed : list bool;
  mk_stack : list nat;
  mk_count : nat
}.

Definition is_needed (ms : marks) (i : nat) : bool := default false (mk_needed ms !! i).

Definition mark (idx : nat) (ms : marks) : marks :=
  if is_needed ms idx then ms
  else Marks (<[idx := true]> (mk_needed ms)) (idx :: mk_stack ms) (S (mk_count ms)).

(** The loop over the requested names and the one over a manifest's dependencies:
    [None] for a name nobody has. *)
Fixpoint mark_names (set : manifest_set) (names : list (list Z)) (ms : marks) : option marks :=
  match names with
  | [] => Some ms
  | name :: names =>
      match find_by_name set name with
      | None => None
      | Some idx => mark_names set names (mark idx ms)
      end
  end.

(** [while (stack_n > 0)]; each turn pops one entry and every manifest is pushed at
    most once, so [fuel = count] is enough. *)
Fixpoint close_needed (set : manifest_set) (fuel : nat) (ms : marks) : option marks :=
  match mk_stack ms with
  | [] => Some ms
  | idx :: stack =>
      match fuel with
      | O => None
      | S fuel =>
          match mark_names set (deps_of set idx) (Marks (mk_needed ms) stack (mk_count ms)) with
          | None => None
          | Some ms => close_needed set fuel ms
          end
      end
  end.

(** ** Kahn's algorithm *)

(** The pass over [j] for one [i] taken from the queue: the remaining in-degrees and
    the queue. *)
Definition visit (set : manifest_set) (needed : list bool) (i : nat) (st : list nat * list nat) (j : nat)
    : list nat * list nat :=
  let '(indegree, queue) := st in
  let deg := default O (indegree !! j) in
  if negb (default false (needed !! j)) || (deg =? 0)%nat then (indegree, queue)
  else if existsb (fun d => strcmp_eq d (name_of set i)) (deps_of set j) then
    (<[j := (deg - 1)%nat]> indegree, if (deg - 1 =? 0)%nat then queue ++ [j] else queue)
  else (indegree, queue).

(** [while (qi < qn)]: a manifest enters the queue once, so [fuel = count] is
    enough. *)
Fixpoint kahn (set : manifest_set) (needed : list bool) (fuel : nat) (indegree queue order : list nat)
    : list nat * list nat :=
  match queue with
  | [] => (indegree, order)
  | i :: queue =>
      match fuel with
      | O => (indegree, order)
      | S fuel =>
          let '(indegree, queue) := fold_left (visit set needed i) (seq 0 (length set)) (indegree, queue) in
          kahn set needed fuel indegree queue (order ++ [i])
      end
  end.

Definition initial_indegree (set : manifest_set) (needed : list bool) : list nat :=
  (fun i => if default false (needed !! i) then length (deps_of set i) else O) <$> seq 0 (length set).
Definition initial_queue (set : manifest_set) (needed : list bool) (indegree : list nat) : list nat :=
  base.filter (fun i => default false (needed !! i) = true /\ default O (indegree !! i) = O) (seq 0 (length set)).

(** The plan: the indices in load order. *)
Definition obicall_manifest_resolve (set : manifest_set) (requested_names : list (list Z))
    : result status (list nat) :=
  match mark_names set requested_names (Marks (replicate (length set) false) [] 0) with
  | None => Err OBICALL_ERR_DEPENDENCY_MISSING
  | Some ms =>
      match close_needed set (length set) ms with
      | None => Err OBICALL_ERR_DEPENDENCY_MISSING
      | Some ms =>
          let needed := mk_needed ms in
          let indegree := initial_indegree set needed in
          let '(_, order) := kahn set needed (length set) indegree (initial_queue set needed indegree) [] in
          if negb (length order =? mk_count ms)%nat then Err OBICALL_ERR_DEPENDENCY_CYCLE
          else Ok order
      end
  end.

(** ** Ranking *)

(** The conditions of the first loop. *)
Definition eligible_alternative (set : manifest_set) (capability_slot : list Z)
    (host_architecture : option (list Z)) (i : nat) : bool :=
  match set !! i with
  | None => false
  | Some m =>
      negb (bool_decide (c_str (mf_capability_slot m) = []))
      && strcmp_eq (mf_capability_slot m) capability_slot
      && negb (negb (bool_decide (c_str (mf_architecture m) = []))
               && match host_architecture with Some host => negb (strcmp_eq (mf_architecture m) host) | None => false end)
      && (mf_abi_version_major m =? OBICALL_ABI_VERSION_MAJOR)
      && negb (mf_abi_version_minor m >? OBICALL_ABI_VERSION_MINOR)
      && match obicall_manifest_resolve set [mf_name m] with Ok _ => true | Err _ => false end
  end.

Definition score_of (set : manifest_set) (i : nat) : f64 := default f64_zero (mf_preference_score <$> set !! i).

(** [should_shift]: the entry [cur] ranks after [key]. *)
Definition ranks_after (set : manifest_set) (cur key : nat) : bool :=
  (score_of set cur >? score_of set key)%f64
  || ((score_of set cur =? score_of set key)%f64 && strcmp_gt (name_of set cur) (name_of set key)).

(** The inner loop, from the right end of the sorted part. *)
Fixpoint shift_in (set : manifest_set) (key : nat) (rev_sorted : list nat) : list nat :=
  match rev_sorted with
  | [] => [key]
  | cur :: rest => if ranks_after set cur key then cur :: shift_in set key rest else key :: cur :: rest
  end.
Definition insertion_sort (set : manifest_set) (candidates : list nat) : list nat :=
  reverse (fold_left (fun rev_sorted key => shift_in set key rev_sorted) candidates []).

Definition obicall_manifest_rank_alternatives (set : manifest_set) (capability_slot : list Z)
    (host_architecture : option (list Z)) (out_cap : nat) : list nat :=
  let candidates :=
    base.filter (fun i => eligible_alternative set capability_slot host_architecture i = true) (seq 0 (length set)) in
  take out_cap (insertion_sort set candidates).

(** * Lemmas *)

Lemma strcmp_eq_true a b : strcmp_eq a b = true <-> c_str a = c_str b.
Proof. unfold strcmp_eq. by rewrite bool_decide_eq_true. Qed.

(** ** What a resolution is about *)

Definition depends (set : manifest_set) (j i : nat) : Prop :=
  exists d, d ∈ deps_of set j /\ find_by_name set d = Some i.

Inductive reachable (set : manifest_set) (req : list (list Z)) : nat -> Prop :=
| reach_requested name i : name ∈ req -> find_by_name set name = Some i -> reachable set req i
| reach_dependency j i : reachable set req j -> depends set j i -> reachable set req i.

(** A name nobody has, requested or depended upon. *)
Definition missing (set : manifest_set) (req : list (list Z)) : Prop :=
  (exists name, name ∈ req /\ find_by_name set name = None) \/
  (exists i d, reachable set req i /\ d ∈ deps_of set i /\ find_by_name set d = None).

(** Manifests that wait for each other. *)
Definition knot (set : manifest_set) (req : list (list Z)) (l : list nat) : Prop :=
  l <> [] /\ forall j, j ∈ l -> reachable set req j /\ exists i, i ∈ l /\ depends set j i.

(** Names are keys, and nobody lists a dependency twice. *)
Record wf_set (set : manifest_set) : Prop := {
  wms_names : NoDup ((fun m => c_str (mf_name m)) <$> set);
  wms_deps : forall i, NoDup (c_str <$> deps_of set i)
}.

Lemma find_by_name_Some set name i :
  find_by_name set name = Some i -> (i < length set)%nat /\ c_str (name_of set i) = c_str name.
Proof.
  unfold find_by_name. rewrite fmap_Some. intros ([k m] & Hf & ->).
  apply list_find_Some in Hf as (Hk & Hm & _). cbn [fst]. split; [by eapply lookup_lt_Some|].
  unfold name_of. rewrite Hk. cbn. by apply strcmp_eq_true.
Qed.

Lemma find_by_name_unique set name i :
  wf_set set -> (i < length set)%nat -> c_str (name_of set i) = c_str name -> find_by_name set name = Some i.
Proof.
  intros [Hn _] Hi Hname. destruct (lookup_lt_is_Some_2 set i Hi) as [m Hm].
  unfold name_of in Hname. rewrite Hm in Hname. cbn in Hname.
  unfold find_by_name. apply fmap_Some. exists (i, m). split; [|done]. apply list_find_Some.
  split; [done|]. split; [by apply strcmp_eq_true|]. intros k m' Hk Hlt Heq.
  apply strcmp_eq_true in Heq.
  enough (k = i) by lia.
  assert (Hat : forall x mx, set !! x = Some mx -> c_str (mf_name mx) = c_str name ->
    ((fun mm => c_str (mf_name mm)) <$> set) !! x = Some (c_str name)).
  { intros x mx Hx Hc. rewrite list_lookup_fmap, Hx. cbn. by rewrite Hc. }
  by apply (NoDup_lookup _ k i (c_str name) Hn); [apply (Hat k m')|apply (Hat i m)].
Qed.

(** ** Marking *)

Definition needed_at (needed : list bool) (i : nat) : Prop := default false (needed !! i) = true.
#[local] Instance needed_at_dec needed i : Decision (needed_at needed i) := decide (_ = true).
Definition needed_list (needed : list bool) : list nat :=
  base.filter (needed_at needed) (seq 0 (length needed)).

Lemma needed_at_lt needed i : needed_at needed i -> (i < length needed)%nat.
Proof. unfold needed_at. intros H. apply lookup_lt_is_Some. by destruct (needed !! i). Qed.

Lemma elem_of_needed_list needed i : i ∈ needed_list needed <-> needed_at needed i.
Proof.
  unfold needed_list. rewrite list_elem_of_filter, elem_of_seq. split; [by intros [? _]|].
  intros H. split; [done|]. apply needed_at_lt in H. lia.
Qed.

Lemma NoDup_needed_list needed : NoDup (needed_list needed).
Proof. apply NoDup_filter, NoDup_seq. Qed.

Lemma needed_at_insert needed idx i :
  (idx < length needed)%nat -> needed_at (<[idx := true]> needed) i <-> i = idx \/ needed_at needed i.
Proof.
  intros Hl. unfold needed_at. destruct (decide (i = idx)) as [->|Hne].
  - rewrite list_lookup_insert_eq by done. cbn. split; [by left|done].
  - rewrite list_lookup_insert_ne by done. split; [by right|]. by intros [?|?].
Qed.

Lemma needed_list_insert needed idx :
  (idx < length needed)%nat -> ~ needed_at needed idx ->
  length (needed_list (<[idx := true]> needed)) = S (length (needed_list needed)).
Proof.
  intros Hl Hn. change (S (length (needed_list needed))) with (length (idx :: needed_list needed)).
  apply Permutation_length, NoDup_Permutation.
  - apply NoDup_needed_list.
  - constructor; [by rewrite elem_of_needed_list|apply NoDup_needed_list].
  - intros i. rewrite elem_of_needed_list, elem_of_cons, elem_of_needed_list. by apply needed_at_insert.
Qed.

Record marks_ok (set : manifest_set) (req : list (list Z)) (ms : marks) : Prop := {
  mo_length : length (mk_needed ms) = length set;
  mo_count : mk_count ms = length (needed_list (mk_needed ms));
  mo_reach : forall i, needed_at (mk_needed ms) i -> reachable set req i;
  mo_stack : forall i, i ∈ mk_stack ms -> needed_at (mk_needed ms) i
}.

(** What is left to do; every turn of the closing loop takes one off. *)
Definition work (set : manifest_set) (ms : marks) : nat :=
  (length (mk_stack ms) + (length set - mk_count ms))%nat.

Lemma marks_count_le set req ms : marks_ok set req ms -> (mk_count ms <= length set)%nat.
Proof.
  intros [Hl -> _ _]. rewrite <- Hl. unfold needed_list.
  etrans; [apply length_filter|]. by rewrite length_seq.
Qed.

Lemma mark_ok set req idx ms :
  marks_ok set req ms -> (idx < length set)%nat -> reachable set req idx ->
  marks_ok set req (mark idx ms) /\ work set (mark idx ms) = work set ms /\
  (forall i, needed_at (mk_needed (mark idx ms)) i <-> i = idx \/ needed_at (mk_needed ms) i) /\
  (forall i, i ∈ mk_stack ms -> i ∈ mk_stack (mark idx ms)) /\
  (forall i, needed_at (mk_needed (mark idx ms)) i -> needed_at (mk_needed ms) i \/ i ∈ mk_stack (mark idx ms)).
Proof.
  intros Hok Hlt Hr. unfold mark, is_needed. pose proof Hok as [Hl Hc Hre Hst].
  destruct (default false (mk_needed ms !! idx)) eqn:E.
  { split_and!; try done; [|by left]. intros i. split; [by right|]. by intros [->|?]. }
  assert (Hn : ~ needed_at (mk_needed ms) idx) by (unfold needed_at; by rewrite E).
  assert (Hlt' : (idx < length (mk_needed ms))%nat) by lia.
  assert (Hok' : marks_ok set req (Marks (<[idx:=true]> (mk_needed ms)) (idx :: mk_stack ms) (S (mk_count ms)))).
  { split; cbn [mk_needed mk_stack mk_count].
    - by rewrite length_insert.
    - by rewrite needed_list_insert, Hc.
    - intros i. rewrite needed_at_insert by done. intros [->|?]; auto.
    - intros i. rewrite elem_of_cons, needed_at_insert by done. intros [->|?]; auto. }
  split; [done|]. split.
  { apply marks_count_le in Hok'. unfold work. cbn in *. lia. }
  cbn. split; [intros i; by apply needed_at_insert|]. split; [intros i ?; by constructor|].
  intros i. rewrite needed_at_insert by done. intros [->|?]; [right; constructor|by left].
Qed.

Lemma mark_names_ok set req names ms :
  (forall name i, name ∈ names -> find_by_name set name = Some i -> reachable set req i) ->
  marks_ok set req ms ->
  match mark_names set names ms with
  | None => exists name, name ∈ names /\ find_by_name set name = None
  | Some ms' =>
      marks_ok set req ms' /\ work set ms' = work set ms /\
      (forall i, needed_at (mk_needed ms) i -> needed_at (mk_needed ms') i) /\
      (forall i, i ∈ mk_stack ms -> i ∈ mk_stack ms') /\
      (forall i, needed_at (mk_needed ms') i -> needed_at (mk_needed ms) i \/ i ∈ mk_stack ms') /\
      (forall name, name ∈ names -> exists i, find_by_name set name = Some i /\ needed_at (mk_needed ms') i)
  end.
Proof.
  revert ms. induction names as [|name names IH]; intros ms Hreq Hok; cbn [mark_names].
  { split_and!; try done; [by left|]. intros name H. by apply elem_of_nil in H. }
  destruct (find_by_name set name) as [idx|] eqn:Ef; [|exists name; split; [constructor|done]].
  destruct (find_by_name_Some _ _ _ Ef) as [Hlt _].
  assert (Hr : reachable set req idx) by (apply (Hreq name); [constructor|done]).
  destruct (mark_ok _ _ idx ms Hok Hlt Hr) as (Hok1 & Hw1 & Hn1 & Hs1 & Hsub1).
  specialize (IH (mark idx ms)).
  destruct (mark_names set names (mark idx ms)) as [ms'|].
  - destruct IH as (Hok' & Hw & Hmono & Hst & Hsub & Hall); [|done|].
    { intros nm i Hin. apply Hreq. by constructor. }
    split; [done|]. split; [by rewrite Hw|]. split; [intros i Hi; by apply Hmono, Hn1; right|].
    split; [by auto|]. split.
    { intros i Hi. destruct (Hsub i Hi) as [Hi'|?]; [|by right]. destruct (Hsub1 i Hi'); auto. }
    intros nm [->|Hin]%elem_of_cons; [|by apply Hall]. exists idx. split; [done|]. by apply Hmono, Hn1; left.
  - destruct IH as (nm & Hin & Hf); [|done|exists nm; split; [by constructor|done]].
    intros nm i Hin. apply Hreq. by constructor.
Qed.

(** Every needed manifest, unless still on the stack, has its dependencies needed. *)
Definition closed_but (set : manifest_set) (ms : marks) : Prop :=
  forall i, needed_at (mk_needed ms) i -> i ∈ mk_stack ms \/
    forall d, d ∈ deps_of set i -> exists k, find_by_name set d = Some k /\ needed_at (mk_needed ms) k.

Lemma close_needed_ok set req fuel ms :
  marks_ok set req ms -> closed_but set ms -> (work set ms <= fuel)%nat ->
  match close_needed set fuel ms with
  | None => exists i d, reachable set req i /\ d ∈ deps_of set i /\ find_by_name set d = None
  | Some ms' => marks_ok set req ms' /\ closed_but set ms' /\ mk_stack ms' = [] /\
      (forall i, needed_at (mk_needed ms) i -> needed_at (mk_needed ms') i)
  end.
Proof.
  revert ms. induction fuel as [|fuel IH]; intros ms Hok Hcl Hw; cbn [close_needed].
  - destruct (mk_stack ms) as [|idx stack] eqn:Es; [by split_and!|]. unfold work in Hw. rewrite Es in Hw.
    cbn in Hw. lia.
  - destruct (mk_stack ms) as [|idx stack] eqn:Es; [by split_and!|].
    pose proof Hok as [Hl Hc Hre Hst]. set (ms1 := Marks (mk_needed ms) stack (mk_count ms)).
    assert (Hidx : needed_at (mk_needed ms) idx) by (apply Hst; rewrite Es; constructor).
    assert (Hok1 : marks_ok set req ms1).
    { split; try done. cbn. intros i Hi. apply Hst. rewrite Es. by constructor. }
    assert (Hw1 : S (work set ms1) = work set ms) by (unfold work, ms1; rewrite Es; cbn; lia).
    pose proof (mark_names_ok set req (deps_of set idx) ms1) as Hm.
    destruct (mark_names set (deps_of set idx) ms1) as [ms2|].
    + destruct Hm as (Hok2 & Hw2 & Hmono & Hstk & Hsub & Hall).
      { intros name i Hin Hf. apply (reach_dependency _ _ idx); [by apply Hre|by exists name]. }
      { done. }
      assert (Hcl2 : closed_but set ms2).
      { intros i Hi. destruct (Hsub i Hi) as [Hi'|?]; [|by left].
        destruct (Hcl i Hi') as [Hin|Hd].
        - rewrite Es in Hin. apply elem_of_cons in Hin as [->|Hin]; [right; exact Hall|left; by apply Hstk].
        - right. intros d Hin. destruct (Hd d Hin) as (k & ? & ?). exists k. split; [done|]. by apply Hmono. }
      specialize (IH ms2 Hok2 Hcl2 ltac:(lia)). destruct (close_needed set fuel ms2); [|done].
      destruct IH as (? & ? & ? & Hmono2). split_and!; try done. intros i Hi. by apply Hmono2, Hmono.
    + destruct Hm as (d & Hin & Hf); [|done|].
      { intros name i Hin Hf. apply (reach_dependency _ _ idx); [by apply Hre|by exists name]. }
      exists idx, d. split; [by apply Hre|done].
Qed.

(** ** Kahn's algorithm: one turn *)

Lemma filter_ext_elem {A} (P Q : A -> Prop) `{HP : !forall x, Decision (P x), HQ : !forall x, Decision (Q x)} (l : list A) :
  (forall x, x ∈ l -> (P x <-> Q x)) -> base.filter P l = base.filter Q l.
Proof.
  induction l as [|x l IH]; intros H; [done|]. rewrite !filter_cons, IH by (intros; apply H; by constructor).
  by rewrite (decide_ext (P x) (Q x)) by (apply H; constructor).
Qed.

Lemma list_filter_all {A} (P : A -> Prop) `{HP : !forall x, Decision (P x)} (l : list A) :
  (forall x, x ∈ l -> P x) -> base.filter P l = l.
Proof.
  induction l as [|x l IH]; intros H; [done|]. rewrite filter_cons, decide_True by (apply H; constructor).
  f_equal. apply IH. intros. apply H. by constructor.
Qed.

(** Counting the entries with a given key, which occur once. *)
Lemma filter_key_out {A B} (key : A -> B) (P Q : A -> Prop)
    `{DP : !forall x, Decision (P x), DQ : !forall x, Decision (Q x)} (b : B) (l : list A) :
  NoDup (key <$> l) -> (forall x, x ∈ l -> Q x <-> P x /\ key x <> b) ->
  (forall x, x ∈ l -> key x = b -> P x) ->
  (exists x, x ∈ l /\ key x = b) -> length (base.filter P l) = S (length (base.filter Q l)).
Proof.
  induction l as [|y l IH]; intros Hnd HQ HP (x & Hx & Hb); [by apply elem_of_nil in Hx|].
  cbn in Hnd. apply NoDup_cons in Hnd as [Hy Hnd]. rewrite !filter_cons.
  apply elem_of_cons in Hx as [->|Hx].
  - rewrite decide_True by (apply HP; [constructor|done]).
    rewrite decide_False by (rewrite HQ by constructor; intros [_ ?]; auto). cbn. do 2 f_equal.
    apply filter_ext_elem. intros z Hz. rewrite HQ by (by constructor). split; [|by intros [? _]].
    intros ?. split; [done|]. intros Hzb. apply Hy. rewrite Hb, <- Hzb. by apply list_elem_of_fmap_2.
  - assert (Hyb : key y <> b).
    { intros Hyb. apply Hy. rewrite Hyb, <- Hb. by apply list_elem_of_fmap_2. }
    assert (E : length (base.filter P l) = S (length (base.filter Q l))).
    { apply IH; [done|intros; apply HQ; by constructor|intros; apply HP; [by constructor|done]|by exists x]. }
    rewrite (decide_ext (Q y) (P y)) by (rewrite HQ by constructor; tauto).
    case_decide; cbn; by rewrite E.
Qed.

(** [j] lists the name of [i]. *)
Definition hit (set : manifest_set) (i j : nat) : bool :=
  existsb (fun d => strcmp_eq d (name_of set i)) (deps_of set j).
Definition degree (indegree : list nat) (j : nat) : nat := default O (indegree !! j).
Definition lowered (set : manifest_set) (needed : list bool) (i : nat) (indegree : list nat) (j : nat) : nat :=
  if decide (needed_at needed j /\ hit set i j = true) then (degree indegree j - 1)%nat else degree indegree j.
Definition freed (set : manifest_set) (needed : list bool) (i : nat) (indegree : list nat) (j : nat) : Prop :=
  needed_at needed j /\ degree indegree j = 1%nat /\ hit set i j = true.
#[local] Instance freed_dec set needed i indegree j : Decision (freed set needed i indegree j).
Proof. unfold freed. apply _. Defined.

Lemma visit_eq set needed i indegree queue j :
  (j < length indegree)%nat ->
  visit set needed i (indegree, queue) j =
  (<[j := lowered set needed i indegree j]> indegree,
   queue ++ if decide (freed set needed i indegree j) then [j] else []).
Proof.
  intros Hj. destruct (lookup_lt_is_Some_2 _ _ Hj) as [deg Hd].
  assert (Hid : <[j := degree indegree j]> indegree = indegree).
  { apply list_insert_id. unfold degree. by rewrite Hd. }
  unfold visit, lowered. fold (degree indegree j) (hit set i j).
  destruct (decide (needed_at needed j)) as [Hn|Hn].
  2: { assert (En : default false (needed !! j) = false) by (by apply not_true_is_false).
       rewrite En, decide_False by (by intros (? & _)). rewrite decide_False by (by intros (? & _)). cbn.
       by rewrite Hid, app_nil_r. }
  assert (En : default false (needed !! j) = true) by exact Hn. rewrite En. cbn [negb orb].
  destruct (decide (hit set i j = true)) as [Eh|Eh].
  2: { rewrite decide_False by (by intros (_ & ?)). rewrite decide_False by (by intros (_ & _ & ?)).
       apply not_true_is_false in Eh. rewrite Eh, Hid, app_nil_r. by destruct (_ =? _)%nat. }
  rewrite decide_True by done. rewrite Eh.
  destruct (Nat.eqb_spec (degree indegree j) 0) as [Hz|Hz].
  { rewrite decide_False by (intros (_ & ? & _); lia). rewrite app_nil_r. f_equal. symmetry.
    etrans; [|exact Hid]. f_equal. lia. }
  destruct (Nat.eqb_spec (degree indegree j - 1) 0) as [H1|H1].
  - by rewrite decide_True by (split_and!; [done|lia|done]).
  - rewrite decide_False by (intros (_ & ? & _); lia). by rewrite app_nil_r.
Qed.

Lemma fold_visit set needed i js indegree queue :
  NoDup js -> (forall j, j ∈ js -> (j < length indegree)%nat) ->
  let st := fold_left (visit set needed i) js (indegree, queue) in
  length (fst st) = length indegree /\
  (forall k, degree (fst st) k = if decide (k ∈ js) then lowered set needed i indegree k else degree indegree k) /\
  snd st = queue ++ base.filter (freed set needed i indegree) js.
Proof.
  revert indegree queue. induction js as [|j js IH]; intros indegree queue Hnd Hlt; cbn [fold_left].
  { cbn. split; [done|]. split; [|by rewrite app_nil_r]. intros k. rewrite decide_False; [done|].
    by intros ?%elem_of_nil. }
  apply NoDup_cons in Hnd as [Hj Hnd]. assert (Hjl : (j < length indegree)%nat) by (apply Hlt; constructor).
  rewrite visit_eq by done. set (v := lowered set needed i indegree j).
  destruct (IH (<[j := v]> indegree) (queue ++ if decide (freed set needed i indegree j) then [j] else []))
    as (Hl & Hd & Hq); [done| |].
  { intros k Hk. rewrite length_insert. apply Hlt. by constructor. }
  assert (Hsame : forall k, k <> j -> degree (<[j := v]> indegree) k = degree indegree k).
  { intros k Hk. unfold degree. by rewrite list_lookup_insert_ne by done. }
  split; [by rewrite Hl, length_insert|]. split.
  - intros k. rewrite Hd. destruct (decide (k = j)) as [->|Hk].
    + rewrite decide_False by done. rewrite decide_True by constructor. unfold degree at 1.
      by rewrite list_lookup_insert_eq by done.
    + rewrite (decide_ext (k ∈ js) (k ∈ j :: js)) by (rewrite elem_of_cons; tauto).
      unfold lowered. by rewrite Hsame.
  - rewrite Hq, <- app_assoc. f_equal. rewrite filter_cons.
    assert (Hf : base.filter (freed set needed i (<[j:=v]> indegree)) js = base.filter (freed set needed i indegree) js).
    { apply filter_ext_elem. intros k Hk. unfold freed. rewrite Hsame; [done|]. intros ->. done. }
    rewrite Hf. by case_decide.
Qed.

(** ** Kahn's algorithm: the invariant *)

Definition open (set : manifest_set) (order : list nat) (d : list Z) : Prop :=
  Forall (fun i => c_str d <> c_str (name_of set i)) order.
#[local] Instance open_dec set order d : Decision (open set order d).
Proof. unfold open. apply _. Defined.
(** The dependencies of [j] that are not loaded yet. *)
Definition open_deps (set : manifest_set) (order : list nat) (j : nat) : list (list Z) :=
  base.filter (open set order) (deps_of set j).

Lemma hit_spec set i j : hit set i j = true <-> exists d, d ∈ deps_of set j /\ c_str d = c_str (name_of set i).
Proof.
  unfold hit. rewrite existsb_exists. split; intros (d & Hin & Hd); exists d.
  - apply list_elem_of_In in Hin. by apply strcmp_eq_true in Hd.
  - apply list_elem_of_In in Hin. by apply strcmp_eq_true in Hd.
Qed.

Lemma open_snoc set order i d : open set (order ++ [i]) d <-> open set order d /\ c_str d <> c_str (name_of set i).
Proof. unfold open. by rewrite Forall_app, Forall_singleton. Qed.

Lemma open_deps_snoc set order i j :
  wf_set set -> (i < length set)%nat -> i ∉ order -> Forall (fun k => (k < length set)%nat) order ->
  length (open_deps set order j) =
  (length (open_deps set (order ++ [i]) j) + if decide (hit set i j = true) then 1 else 0)%nat.
Proof.
  intros Hwf Hi Hnot Hlt. unfold open_deps. case_decide as Hh.
  - rewrite Nat.add_1_r. apply (filter_key_out c_str _ _ (c_str (name_of set i))).
    + apply (wms_deps _ Hwf).
    + intros d _. apply open_snoc.
    + intros d _ Hd. apply Forall_forall. intros k Hk Hkd. apply Hnot.
      rewrite Forall_forall in Hlt. specialize (Hlt k Hk).
      pose proof (find_by_name_unique set d k Hwf Hlt (eq_sym Hkd)) as H1.
      rewrite (find_by_name_unique set d i Hwf Hi (eq_sym Hd)) in H1. by injection H1 as ->.
    + by apply hit_spec.
  - rewrite Nat.add_0_r. f_equal. apply filter_ext_elem. intros d Hd. rewrite open_snoc.
    split; [|by intros [? _]]. intros ?. split; [done|]. intros Hn. apply Hh, hit_spec. by exists d.
Qed.

(** What holds between two turns: the in-degrees count the open dependencies, the
    queue holds the needed manifests that have none and are not loaded, and every
    entry was loaded after all its dependencies. *)
Record kahn_ok (set : manifest_set) (needed : list bool) (indegree queue order : list nat) : Prop := {
  ko_length : length indegree = length set;
  ko_nodup : NoDup (order ++ queue);
  ko_needed : forall j, j ∈ order ++ queue -> needed_at needed j;
  ko_degree : forall j, needed_at needed j -> degree indegree j = length (open_deps set order j);
  ko_zero : forall j, needed_at needed j -> degree indegree j = O <-> j ∈ order ++ queue;
  ko_after : forall pre j post, order = pre ++ j :: post -> open_deps set pre j = []
}.

Lemma kahn_turn set needed indegree i queue order :
  wf_set set -> length needed = length set -> kahn_ok set needed indegree (i :: queue) order ->
  let st := fold_left (visit set needed i) (seq 0 (length set)) (indegree, queue) in
  kahn_ok set needed (fst st) (snd st) (order ++ [i]).
Proof.
  intros Hwf Hlen [Hl Hnd Hne Hdeg Hz Haft].
  destruct (fold_visit set needed i (seq 0 (length set)) indegree queue) as (Hl' & Hd' & Hq'); [apply NoDup_seq| |].
  { intros j Hj%elem_of_seq. lia. }
  cbn. assert (Hilt : forall j, needed_at needed j -> (j < length set)%nat).
  { intros j Hj%needed_at_lt. lia. }
  assert (Hi : needed_at needed i) by (apply Hne; rewrite elem_of_app, elem_of_cons; auto).
  pose proof Hnd as Hnd0. apply NoDup_app in Hnd0 as (Hno & Hdis & Hnq).
  assert (Hinot : i ∉ order) by (intros Hin; by apply (Hdis i Hin); constructor).
  assert (Hsnoc : forall j, length (open_deps set order j) =
    (length (open_deps set (order ++ [i]) j) + if decide (hit set i j = true) then 1 else 0)%nat).
  { intros j. apply open_deps_snoc; auto. apply Forall_forall. intros k Hk. apply Hilt, Hne.
    rewrite elem_of_app. auto. }
  assert (Hdeg' : forall j, needed_at needed j -> degree (fst (fold_left (visit set needed i)
     (seq 0 (length set)) (indegree, queue))) j = length (open_deps set (order ++ [i]) j)).
  { intros j Hj. rewrite Hd', decide_True by (apply elem_of_seq; specialize (Hilt j Hj); lia).
    unfold lowered. specialize (Hsnoc j). rewrite (Hdeg j Hj).
    destruct (decide (hit set i j = true)).
    - rewrite decide_True by done. lia.
    - rewrite decide_False by (by intros [_ ?]). lia. }
  assert (Hmem : forall j, j ∈ (order ++ [i]) ++ snd (fold_left (visit set needed i)
     (seq 0 (length set)) (indegree, queue)) <->
     j ∈ order ++ i :: queue \/ (freed set needed i indegree j /\ (j < length set)%nat)).
  { intros j. rewrite Hq', !elem_of_app, !elem_of_cons, elem_of_nil, list_elem_of_filter, elem_of_seq.
    split; intuition lia. }
  split.
  - lia.
  - rewrite Hq', <- app_assoc. cbn [app]. rewrite app_comm_cons, app_assoc.
    apply NoDup_app. split; [done|]. split; [|apply NoDup_filter, NoDup_seq].
    intros j Hj (Hf & _)%list_elem_of_filter. destruct Hf as (Hnj & H1 & _).
    apply (Hz j Hnj) in Hj. lia.
  - intros j Hj. apply Hmem in Hj as [Hj|[(Hj & _) _]]; [by apply Hne|done].
  - exact Hdeg'.
  - intros j Hj. rewrite Hmem, <- (Hz j Hj), (Hdeg' j Hj). specialize (Hsnoc j). rewrite <- (Hdeg j Hj) in Hsnoc.
    unfold freed. specialize (Hilt j Hj). case_decide; intuition lia.
  - intros pre j post E. destruct (decide (post = [])) as [->|Hp].
    + apply app_inj_tail in E as [-> ->]. apply nil_length_inv. rewrite <- (Hdeg j Hi). apply (Hz j Hi).
      rewrite elem_of_app, elem_of_cons. auto.
    + destruct (exists_last Hp) as (post' & k & ->). rewrite app_comm_cons, app_assoc in E.
      apply app_inj_tail in E as [E _]. by apply (Haft pre j post').
Qed.

Lemma kahn_ok_bound set needed indegree queue order :
  length needed = length set -> kahn_ok set needed indegree queue order ->
  (length (order ++ queue) <= length set)%nat.
Proof.
  intros Hl [_ Hnd Hne _ _ _]. rewrite <- (length_seq (length set) 0).
  apply submseteq_length, NoDup_submseteq; [done|]. intros j Hj%Hne%needed_at_lt. apply elem_of_seq. lia.
Qed.

Lemma kahn_loop set needed fuel indegree queue order :
  wf_set set -> length needed = length set -> kahn_ok set needed indegree queue order ->
  (length set <= fuel + length order)%nat ->
  let '(indegree', order') := kahn set needed fuel indegree queue order in
  kahn_ok set needed indegree' [] order'.
Proof.
  intros Hwf Hl. revert indegree queue order. induction fuel as [|fuel IH]; intros indegree queue order Hok Hf;
    destruct queue as [|i queue]; cbn [kahn]; try done.
  - apply kahn_ok_bound in Hok; [|done]. rewrite length_app in Hok. cbn in Hok. lia.
  - apply kahn_turn in Hok; [|done..]. destruct (fold_left _ _ _) as [indegree' queue'].
    apply IH; [exact Hok|]. rewrite length_app. cbn. lia.
Qed.

Lemma kahn_start set needed :
  length needed = length set ->
  kahn_ok set needed (initial_indegree set needed) (initial_queue set needed (initial_indegree set needed)) [].
Proof.
  intros Hl.
  assert (Hd : forall j, needed_at needed j -> degree (initial_indegree set needed) j = length (open_deps set [] j)).
  { intros j Hj. pose proof (needed_at_lt _ _ Hj). unfold degree, initial_indegree.
    rewrite list_lookup_fmap, lookup_seq_lt by lia. cbn [fmap option_fmap option_map default id]. rewrite Hj. unfold open_deps.
    f_equal. symmetry. apply list_filter_all. intros d _. constructor. }
  split; cbn [app].
  - unfold initial_indegree. by rewrite length_fmap, length_seq.
  - apply NoDup_filter, NoDup_seq.
  - intros j Hj. by apply list_elem_of_filter in Hj as [[? _] _].
  - exact Hd.
  - intros j Hj. unfold initial_queue. rewrite list_elem_of_filter, elem_of_seq.
    pose proof (needed_at_lt _ _ Hj). split; [intros ?; split; [done|lia]|by intros [[_ ?] _]].
  - intros pre j post E. by destruct pre.
Qed.

(** ** What a plan is *)

(** Exactly the needed manifests, once each, every one after all it depends on, and
    every name somebody's. *)
Record valid_plan (set : manifest_set) (req : list (list Z)) (plan : list nat) : Prop := {
  vp_nodup : NoDup plan;
  vp_exact : forall i, i ∈ plan <-> reachable set req i;
  vp_after : forall pre j post, plan = pre ++ j :: post -> forall i, depends set j i -> i ∈ pre;
  vp_found : ~ missing set req
}.

Lemma open_deps_nil set needed order j d k :
  wf_set set -> length needed = length set -> (forall i, i ∈ order -> needed_at needed i) ->
  d ∈ deps_of set j -> find_by_name set d = Some k -> open set order d <-> k ∉ order.
Proof.
  intros Hwf Hl Hne Hd Hf. unfold open. rewrite Forall_forall. split.
  - intros H Hk. apply (H k Hk). by destruct (find_by_name_Some _ _ _ Hf).
  - intros Hk i Hi Heq. apply Hk.
    assert (Hil : (i < length set)%nat) by (rewrite <- Hl; by apply needed_at_lt, Hne).
    rewrite (find_by_name_unique set d i Hwf Hil (eq_sym Heq)) in Hf. by injection Hf as <-.
Qed.

(** A plan and a knot exclude each other: the first of the knot in the plan would
    need another before it. *)
Lemma plan_no_knot set req plan l : valid_plan set req plan -> knot set req l -> False.
Proof.
  intros [_ Hex Haft _] [Hl Hk].
  assert (Hall : forall n pre post, (length pre <= n)%nat -> plan = pre ++ post -> forall j, j ∈ pre -> j ∉ l).
  { induction n as [|n IH]; intros pre post Hn Hp j Hj Hjl.
    { destruct pre; [by apply elem_of_nil in Hj|cbn in Hn; lia]. }
    apply list_elem_of_split in Hj as (p1 & p2 & ->). destruct (Hk j Hjl) as (_ & i & Hil & Hdep).
    rewrite <- app_assoc in Hp. cbn in Hp. pose proof (Haft p1 j (p2 ++ post) Hp i Hdep) as Hi.
    rewrite length_app in Hn. cbn in Hn. apply (IH p1 (j :: p2 ++ post) ltac:(lia) Hp i Hi Hil). }
  destruct l as [|j l]; [done|]. destruct (Hk j) as (Hr & _); [constructor|].
  apply (Hall (length plan) plan [] ltac:(done) ltac:(by rewrite app_nil_r) j); [by apply Hex|constructor].
Qed.

Lemma marks_start_ok set req : marks_ok set req (Marks (replicate (length set) false) [] 0).
Proof.
  assert (Hn : forall i, ~ needed_at (replicate (length set) false) i).
  { intros i. unfold needed_at. destruct (replicate _ _ !! i) as [b|] eqn:E; cbn; [|done].
    apply lookup_replicate in E as [-> _]. done. }
  split; cbn [mk_needed mk_stack mk_count].
  - apply length_replicate.
  - symmetry. apply length_zero_iff_nil. destruct (needed_list _) as [|i l] eqn:E; [done|].
    exfalso. apply (Hn i), elem_of_needed_list. rewrite E. constructor.
  - intros i Hi. by apply Hn in Hi.
  - intros i Hi. by apply elem_of_nil in Hi.
Qed.

(** The marking phase as a whole. *)
Lemma marking_spec set req :
  match mark_names set req (Marks (replicate (length set) false) [] 0) with
  | None => missing set req
  | Some ms0 =>
      match close_needed set (length set) ms0 with
      | None => missing set req
      | Some ms => marks_ok set req ms /\ (forall i, needed_at (mk_needed ms) i <-> reachable set req i) /\
                   ~ missing set req
      end
  end.
Proof.
  pose proof (marks_start_ok set req) as H0. pose proof (mark_names_ok set req req _ (reach_requested set req) H0) as H1.
  destruct (mark_names set req _) as [ms0|]; [|by left].
  destruct H1 as (Hok & Hw & _ & _ & Hsub & Hall).
  assert (Hcl : closed_but set ms0).
  { intros i Hi. destruct (Hsub i Hi) as [Hi'|?]; [|by left]. exfalso. revert Hi'. unfold needed_at. cbn.
    destruct (replicate _ _ !! i) as [b|] eqn:E; cbn; [|done]. apply lookup_replicate in E as [-> _]. done. }
  pose proof (close_needed_ok set req (length set) ms0 Hok Hcl) as H2.
  destruct (close_needed set (length set) ms0) as [ms|].
  2: { right. apply H2. rewrite Hw. unfold work. cbn. lia. }
  destruct H2 as (Hok' & Hcl' & Hst & Hmono); [rewrite Hw; unfold work; cbn; lia|].
  assert (Hdep : forall i d, needed_at (mk_needed ms) i -> d ∈ deps_of set i ->
     exists k, find_by_name set d = Some k /\ needed_at (mk_needed ms) k).
  { intros i d Hi Hd. destruct (Hcl' i Hi) as [Hin|H]; [|by apply H]. rewrite Hst in Hin.
    by apply elem_of_nil in Hin. }
  assert (Hreach : forall i, reachable set req i -> needed_at (mk_needed ms) i).
  { induction 1 as [name i Hin Hf|j i _ IH (d & Hd & Hf)].
    - destruct (Hall name Hin) as (k & Hk & Hn). rewrite Hf in Hk. injection Hk as <-. by apply Hmono.
    - destruct (Hdep j d IH Hd) as (k & Hk & Hn). rewrite Hf in Hk. by injection Hk as <-. }
  split; [done|]. split; [split; [apply (mo_reach _ _ _ Hok')|apply Hreach]|].
  intros [(name & Hin & Hf)|(i & d & Hi & Hd & Hf)].
  - destruct (Hall name Hin) as (k & Hk & _). by rewrite Hf in Hk.
  - destruct (Hdep i d (Hreach i Hi) Hd) as (k & Hk & _). by rewrite Hf in Hk.
Qed.

Lemma resolve_spec set req :
  wf_set set ->
  match obicall_manifest_resolve set req with
  | Ok plan => valid_plan set req plan
  | Err OBICALL_ERR_DEPENDENCY_MISSING => missing set req
  | Err OBICALL_ERR_DEPENDENCY_CYCLE => ~ missing set req /\ exists l, knot set req l
  | Err _ => False
  end.
Proof.
  intros Hwf. pose proof (marking_spec set req) as Hm. unfold obicall_manifest_resolve.
  destruct (mark_names set req _) as [ms0|]; [|done]. destruct (close_needed set _ ms0) as [ms|]; [|done].
  destruct Hm as (Hok & Hreach & Hfound). pose proof Hok as [Hl Hc _ _].
  pose proof (kahn_loop set (mk_needed ms) (length set) _ _ _ Hwf Hl (kahn_start set _ Hl) ltac:(lia)) as Hk.
  destruct (kahn _ _ _ _ _ _) as [indegree order]. destruct Hk as [_ Hnd Hne Hdeg Hz Haft].
  rewrite app_nil_r in *.
  assert (Hfind : forall j d, needed_at (mk_needed ms) j -> d ∈ deps_of set j ->
     exists k, find_by_name set d = Some k /\ needed_at (mk_needed ms) k).
  { intros j d Hj Hd. destruct (find_by_name set d) as [k|] eqn:Ef.
    - exists k. split; [done|]. apply Hreach, (reach_dependency _ _ j); [by apply Hreach|by exists d].
    - exfalso. apply Hfound. right. exists j, d. split; [by apply Hreach|done]. }
  destruct (Nat.eqb_spec (length order) (mk_count ms)) as [He|He]; cbn [negb].
  - assert (Hp : order ≡ₚ needed_list (mk_needed ms)).
    { apply submseteq_length_Permutation; [|lia]. apply NoDup_submseteq; [done|]. intros j Hj.
      by apply elem_of_needed_list, Hne. }
    split; [done| | |done].
    + intros i. rewrite Hp, elem_of_needed_list. apply Hreach.
    + intros pre j post E i (d & Hd & Hf). pose proof (Haft pre j post E) as Hnil.
      destruct (decide (i ∈ pre)) as [|Hni]; [done|]. exfalso. apply (elem_of_nil d). rewrite <- Hnil.
      apply list_elem_of_filter. split; [|done].
      apply (open_deps_nil set (mk_needed ms) pre j d i); try done.
      intros k Hk. apply Hne. rewrite E, elem_of_app. by left.
  - split; [done|]. exists (base.filter (fun j => j ∉ order) (needed_list (mk_needed ms))).
    split.
    + intros Hnil. apply He. rewrite Hc. apply Permutation_length, NoDup_Permutation;
        [done|apply NoDup_needed_list|]. intros j. rewrite elem_of_needed_list. split; [apply Hne|].
      intros Hj. destruct (decide (j ∈ order)) as [|Hnj]; [done|]. exfalso. apply (elem_of_nil j).
      rewrite <- Hnil. by apply list_elem_of_filter; rewrite elem_of_needed_list.
    + intros j (Hnj & Hj)%list_elem_of_filter. apply elem_of_needed_list in Hj.
      split; [by apply Hreach|].
      destruct (open_deps set order j) as [|d l] eqn:Eo.
      { exfalso. apply Hnj, (Hz j Hj). by rewrite (Hdeg j Hj), Eo. }
      assert (Hd : d ∈ open_deps set order j) by (rewrite Eo; constructor).
      apply list_elem_of_filter in Hd as [Hopen Hd]. destruct (Hfind j d Hj Hd) as (k & Hk & Hkn).
      exists k. split; [|by exists d]. apply list_elem_of_filter. split; [|by apply elem_of_needed_list].
      by apply (open_deps_nil set (mk_needed ms) order j d k).
Qed.

Lemma resolve_total set req plan :
  wf_set set -> valid_plan set req plan -> exists plan', obicall_manifest_resolve set req = Ok plan'.
Proof.
  intros Hwf Hp. pose proof (resolve_spec set req Hwf) as H.
  destruct (obicall_manifest_resolve set req) as [plan'|e]; [by exists plan'|]. exfalso.
  destruct e; try done.
  - destruct H as (_ & l & Hk). by apply (plan_no_knot set req plan l).
  - by apply (vp_found _ _ _ Hp).
Qed.

(** ** Sorting *)

Definition rank_le (set : manifest_set) (i j : nat) : Prop := ranks_after set i j = false.

Lemma lex_gt_asym a b : lex_gt a b = true -> lex_gt b a = false.
Proof.
  revert b. induction a as [|x a IH]; intros [|y b]; cbn; try done. intros H.
  apply orb_true_iff in H as [H|[H Hl]%andb_true_iff].
  - assert (Hf : (y >? x) = false /\ (y =? x) = false) by lia. destruct Hf as [-> ->]. done.
  - rewrite (IH _ Hl), andb_false_r, orb_false_r. lia.
Qed.

Lemma lex_ngt_trans a b c : lex_gt a b = false -> lex_gt b c = false -> lex_gt a c = false.
Proof.
  revert b c. induction a as [|x a IH]; intros [|y b] [|z c]; cbn; try done.
  rewrite !orb_false_iff, !andb_false_iff. intros [H1 H2] [H3 H4]. split; [lia|].
  destruct (Z.eqb_spec x z) as [->|]; [|by left]. right.
  assert (y = z) as -> by lia. apply (IH b); [destruct H2|destruct H4]; first [done|lia].
Qed.

Lemma ranks_after_asym set i j : ranks_after set i j = true -> rank_le set j i.
Proof.
  unfold rank_le, ranks_after, strcmp_gt. intros H. apply orb_false_iff. rewrite andb_false_iff.
  apply orb_true_iff in H as [H|[He Hg]%andb_true_iff].
  - destruct (f64_ltb_not_nan _ _ H) as [Hj Hi]. split; [by apply f64_ltb_asym|]. left.
    rewrite f64_eqb_spec, H by done. done.
  - assert (Hn : is_nan (score_of set i) = false /\ is_nan (score_of set j) = false).
    { by destruct (score_of set i), (score_of set j). }
    destruct Hn as [Hi Hj]. rewrite f64_eqb_spec in He by done.
    apply andb_true_iff in He as [Hl%negb_true_iff Hr%negb_true_iff]. split; [done|]. right. by apply lex_gt_asym.
Qed.

Section no_nan.
Context (set : manifest_set) (Hscores : forall i, is_nan (score_of set i) = false).

Lemma rank_le_trans : Transitive (rank_le set).
Proof using Hscores.
  intros i j k. unfold rank_le, ranks_after, strcmp_gt. rewrite !orb_false_iff, !andb_false_iff.
  intros [H1 H2] [H3 H4].
  assert (Hki : f64_ltb (score_of set k) (score_of set i) = false) by (by apply (f64_nlt_trans _ (score_of set j))).
  split; [done|]. destruct (f64_eqb (score_of set i) (score_of set k)) eqn:E; [|by left]. right.
  rewrite f64_eqb_spec, Hki, andb_true_r in E by done. apply negb_true_iff in E.
  assert (Hij : f64_ltb (score_of set i) (score_of set j) = false).
  { apply not_true_is_false. intros Hlt. pose proof (f64_ltb_lt_nlt _ _ _ (Hscores k) Hlt H3) as Hc.
    by rewrite E in Hc. }
  assert (Hjk : f64_ltb (score_of set j) (score_of set k) = false).
  { apply not_true_is_false. intros Hlt. apply not_true_iff_false in E. apply E.
    rewrite f64_ltb_spec in * by done. apply not_true_iff_false in H1. rewrite f64_ltb_spec in H1 by done.
    unfold lex_lt in *. lia. }
  rewrite f64_eqb_spec in H2 by done. rewrite f64_eqb_spec in H4 by done. rewrite H1, Hij in H2. rewrite H3, Hjk in H4.
  cbn in H2, H4. apply (lex_ngt_trans _ (c_str (name_of set j))); [by destruct H2|by destruct H4].
Qed.

(** The part sorted so far, kept with its last entry first. *)
Lemma shift_in_sorted key rev_sorted :
  StronglySorted (fun i j => rank_le set j i) rev_sorted ->
  StronglySorted (fun i j => rank_le set j i) (shift_in set key rev_sorted).
Proof using Hscores.
  induction 1 as [|cur rest Hs IH Hall]; cbn [shift_in]; [repeat constructor|].
  destruct (ranks_after set cur key) eqn:E.
  - constructor; [done|]. apply Forall_forall. intros x Hx.
    assert (Hin : x = key \/ x ∈ rest).
    { clear -Hx. induction rest as [|c rest IH]; cbn [shift_in] in Hx.
      - apply list_elem_of_singleton in Hx. by left.
      - destruct (ranks_after set c key); apply elem_of_cons in Hx as [->|Hx]; try by auto.
        + right. constructor.
        + destruct (IH Hx) as [->|?]; [by left|right; by constructor]. }
    destruct Hin as [->|Hin]; [by apply ranks_after_asym|]. rewrite Forall_forall in Hall. by apply Hall.
  - constructor; [by constructor|]. constructor; [done|]. eapply Forall_impl; [exact Hall|].
    intros x Hx. cbn. by apply (rank_le_trans x cur key).
Qed.
End no_nan.

Lemma shift_in_perm set key rev_sorted : shift_in set key rev_sorted ≡ₚ key :: rev_sorted.
Proof.
  induction rev_sorted as [|cur rest IH]; cbn [shift_in]; [done|]. destruct (ranks_after _ _ _); [|done].
  rewrite IH. constructor.
Qed.

Lemma insertion_sort_perm set candidates : insertion_sort set candidates ≡ₚ candidates.
Proof.
  unfold insertion_sort. rewrite reverse_Permutation.
  enough (H : forall acc, fold_left (fun rs key => shift_in set key rs) candidates acc ≡ₚ candidates ++ acc).
  { by rewrite H, app_nil_r. }
  induction candidates as [|c cs IH]; intros acc; [done|]. cbn [fold_left]. rewrite IH, shift_in_perm. cbn.
  by rewrite Permutation_middle.
Qed.

Lemma StronglySorted_reverse {A} (R : A -> A -> Prop) l :
  StronglySorted (fun x y => R y x) l -> StronglySorted R (reverse l).
Proof.
  induction 1 as [|x l Hs IH Hall]; [constructor|]. rewrite reverse_cons. apply StronglySorted_app_2; [|done|repeat constructor].
  intros y z Hy Hz. apply list_elem_of_singleton in Hz as ->. rewrite elem_of_reverse in Hy.
  rewrite Forall_forall in Hall. by apply Hall.
Qed.

Lemma insertion_sort_sorted set candidates :
  (forall i, is_nan (score_of set i) = false) -> StronglySorted (rank_le set) (insertion_sort set candidates).
Proof.
  intros Hs. unfold insertion_sort. apply StronglySorted_reverse.
  enough (H : forall acc, StronglySorted (fun i j => rank_le set j i) acc ->
     StronglySorted (fun i j => rank_le set j i) (fold_left (fun rs key => shift_in set key rs) candidates acc)).
  { apply H. constructor. }
  induction candidates as [|c cs IH]; intros acc Ha; [done|]. cbn [fold_left]. apply IH.
  by apply (shift_in_sorted set Hs).
Qed.

(** The conditions on a candidate by itself. *)
Record fits (set : manifest_set) (slot : list Z) (host : option (list Z)) (i : nat) (m : obicall_manifest) : Prop := {
  ft_at : set !! i = Some m;
  ft_slot : c_str (mf_capability_slot m) = c_str slot /\ c_str slot <> [];
  ft_architecture : forall h, host = Some h ->
    c_str (mf_architecture m) = [] \/ c_str (mf_architecture m) = c_str h;
  ft_abi : mf_abi_version_major m = OBICALL_ABI_VERSION_MAJOR /\ mf_abi_version_minor m <= OBICALL_ABI_VERSION_MINOR
}.

Lemma eligible_spec set slot host i :
  eligible_alternative set slot host i = true <->
  exists m, fits set slot host i m /\ exists plan, obicall_manifest_resolve set [mf_name m] = Ok plan.
Proof.
  unfold eligible_alternative. destruct (set !! i) as [m|] eqn:E.
  2: { split; [done|]. intros (m & [Hm _ _ _] & _). by rewrite E in Hm. }
  unfold strcmp_eq. rewrite !andb_true_iff, !negb_true_iff, andb_false_iff, negb_false_iff,
    bool_decide_eq_false, !bool_decide_eq_true, Z.eqb_eq. split.
  - intros (((((Hne & Hslot) & Harch) & Hmaj) & Hmin) & Hres). exists m.
    destruct (obicall_manifest_resolve set [mf_name m]) as [plan|] eqn:Er; [|done]. split; [|by exists plan].
    split; [done|by rewrite <- Hslot|..].
    + intros h ->. destruct Harch as [Ha|Ha]; [by left|]. right. by apply negb_false_iff, bool_decide_eq_true in Ha.
    + split; [done|]. lia.
  - intros (m' & [Hm [Hslot Hne] Harch [Hmaj Hmin]] & plan & Hres). rewrite E in Hm. injection Hm as <-.
    rewrite Hres. split_and!; try done; [by rewrite Hslot| |lia].
    destruct host as [h|]; [|by right]. destruct (Harch h eq_refl) as [Ha|Ha]; [by left|]. right.
    by rewrite Ha, bool_decide_eq_true_2.
Qed.

(** * Resolution and ranking *)

(** C21: on a set of manifests with distinct names, none of which lists a dependency
    twice, resolving a list of requested names does what the dependency graph says:
    success returns a load plan, i.e. exactly the manifests reachable from the
    request, once each, every one after all its dependencies; a missing dependency is
    reported exactly for a name nobody has; a cycle only when some of the needed
    manifests wait for each other, and then no plan exists.  (A dependency listed twice
    is reported as a cycle where a plan exists: [resolve_duplicate_dependency].) *)
Theorem manifest_resolve_correct set req :
  wf_set set ->
  match obicall_manifest_resolve set req with
  | Ok plan => valid_plan set req plan
  | Err OBICALL_ERR_DEPENDENCY_MISSING => missing set req
  | Err OBICALL_ERR_DEPENDENCY_CYCLE =>
      ~ missing set req /\ (exists l, knot set req l) /\ forall plan, ~ valid_plan set req plan
  | Err _ => False
  end.
Proof.
  intros Hwf. pose proof (resolve_spec set req Hwf) as H.
  destruct (obicall_manifest_resolve set req) as [plan|[]]; try done.
  destruct H as (Hm & l & Hk). split; [done|]. split; [by exists l|]. intros plan Hp.
  by apply (plan_no_knot set req plan l).
Qed.

(** C22: on a set of manifests with distinct names, none of which lists a dependency
    twice, resolution terminates with a plan whenever there is one: both loops end
    within as many turns as there are manifests, and no request that can be ordered is
    refused; what is returned is that plan up to the order of its entries. *)
Theorem manifest_resolve_complete set req plan :
  wf_set set -> valid_plan set req plan ->
  exists plan', obicall_manifest_resolve set req = Ok plan' /\ plan' ≡ₚ plan.
Proof.
  intros Hwf Hp. destruct (resolve_total set req plan Hwf Hp) as [plan' E]. exists plan'. split; [done|].
  pose proof (resolve_spec set req Hwf) as H. rewrite E in H.
  apply NoDup_Permutation; [apply H|apply Hp|]. intros i. by rewrite (vp_exact _ _ _ H), (vp_exact _ _ _ Hp).
Qed.

(** the ranking of the alternatives for a capability slot returns the first
    [out_cap] of all the eligible ones (right slot, architecture and ABI, and a
    load plan of their own), every one once, in ascending order of preference
    score with equal scores in the order of their names. *)
Theorem manifest_rank_correct set slot host out_cap :
  wf_set set -> (forall i, is_nan (score_of set i) = false) ->
  exists ranking,
    obicall_manifest_rank_alternatives set slot host out_cap = take out_cap ranking /\
    NoDup ranking /\
    (forall i, i ∈ ranking <->
       exists m, fits set slot host i m /\ exists plan, valid_plan set [mf_name m] plan) /\
    StronglySorted (rank_le set) ranking.
Proof.
  intros Hwf Hs. unfold obicall_manifest_rank_alternatives.
  set (cs := base.filter _ _). exists (insertion_sort set cs). split; [done|].
  split; [rewrite insertion_sort_perm; apply NoDup_filter, NoDup_seq|].
  split; [|by apply insertion_sort_sorted].
  intros i. rewrite insertion_sort_perm. unfold cs. rewrite list_elem_of_filter, elem_of_seq, eligible_spec.
  split.
  - intros [(m & Hf & plan & Hr) _]. exists m. split; [done|]. exists plan.
    pose proof (resolve_spec set [mf_name m] Hwf) as H. by rewrite Hr in H.
  - intros (m & Hf & plan & Hp). pose proof (lookup_lt_Some _ _ _ (ft_at _ _ _ _ _ Hf)). split; [|lia].
    exists m. split; [done|]. by apply (resolve_total set [mf_name m] plan).
Qed.

(** ** Witnesses: three providers, one depending on the two others *)

Definition sample_manifest (name : Z) (score : Z) (deps : list (list Z)) : obicall_manifest := {|
  mf_struct_size := 0; mf_schema_version := 1; mf_name := [112; name]; mf_version := [49]; mf_language := 1;
  mf_abi_version_major := 1; mf_abi_version_minor := 0; mf_architecture := []; mf_capability_flags := 1;
  mf_capability_slot := [115]; mf_preference_score := f64_of_bits score; mf_artifact_path := [97];
  mf_artifact_sha256 := []; mf_has_artifact_sha256 := 0; mf_config_schema_version := 1; mf_config_json := [];
  mf_dependencies := deps |}.

(** Scores 2.0, 1.0, 1.0. *)
Definition sample_set : manifest_set :=
  [sample_manifest 97 4611686018427387904 [[112; 98]; [112; 99]];
   sample_manifest 99 4607182418800017408 [[112; 98]];
   sample_manifest 98 4607182418800017408 []].

Lemma sample_set_wf : wf_set sample_set.
Proof.
  split; [apply (bool_decide_unpack _); by vm_compute|].
  intros [|[|[|i]]]; apply (bool_decide_unpack _); by vm_compute.
Qed.

Lemma sample_scores i : is_nan (score_of sample_set i) = false.
Proof. by destruct i as [|[|[|i]]]. Qed.

Definition sample_valid : valid_plan sample_set [[112; 97]] [2; 1; 0]%nat.
Proof.
  pose proof (resolve_spec sample_set [[112; 97]] sample_set_wf) as H.
  assert (E : obicall_manifest_resolve sample_set [[112; 97]] = Ok [2; 1; 0]%nat) by (by vm_compute).
  by rewrite E in H.
Qed.

Lemma manifest_resolve_witness :
  obicall_manifest_resolve sample_set [[112; 97]] = Ok [2; 1; 0]%nat /\
  valid_plan sample_set [[112; 97]] [2; 1; 0]%nat.
Proof.
  assert (E : obicall_manifest_resolve sample_set [[112; 97]] = Ok [2; 1; 0]%nat) by (by vm_compute).
  split; [exact E|]. pose proof (manifest_resolve_correct sample_set [[112; 97]] sample_set_wf) as H.
  rewrite E in H. exact H.
Defined.

Lemma manifest_complete_witness :
  exists plan', obicall_manifest_resolve sample_set [[112; 97]] = Ok plan' /\ plan' ≡ₚ [2; 1; 0]%nat.
Proof. exact (manifest_resolve_complete sample_set [[112; 97]] [2; 1; 0]%nat sample_set_wf sample_valid). Defined.

Lemma manifest_rank_witness :
  obicall_manifest_rank_alternatives sample_set [115] None 8 = [2; 1; 0]%nat /\
  exists ranking,
    obicall_manifest_rank_alternatives sample_set [115] None 8 = take 8 ranking /\ NoDup ranking /\
    (forall i, i ∈ ranking <->
       exists m, fits sample_set [115] None i m /\ exists plan, valid_plan sample_set [mf_name m] plan) /\
    StronglySorted (rank_le sample_set) ranking.
Proof.
  split; [by vm_compute|]. exact (manifest_rank_correct sample_set [115] None 8 sample_set_wf sample_scores).
Defined.

(** A cycle is found, and a dependency that is listed twice is taken for one. *)
Example resolve_cycle :
  obicall_manifest_resolve [sample_manifest 97 0 [[112; 98]]; sample_manifest 98 0 [[112; 97]]] [[112; 97]]
  = Err OBICALL_ERR_DEPENDENCY_CYCLE.
Proof. by vm_compute. Qed.
Example resolve_duplicate_dependency :
  obicall_manifest_resolve [sample_manifest 97 0 [[112; 98]; [112; 98]]; sample_manifest 98 0 []] [[112; 97]]
  = Err OBICALL_ERR_DEPENDENCY_CYCLE.
Proof. by vm_compute. Qed.
