(* ===== verification/ManifestParse.v ===== *)
(** * ManifestParse: reading provider manifests (src/core/manifest.c)

    The parser of one manifest and the loader of a directory, on top of the JSON
    reader.  The directory's entries and the contents of its files are inputs; so is
    what a conversion of an out-of-range number to an integer gives, which C leaves
    undefined.  What a call that fails leaves in its output is not modelled: its
    callers drop it. *)

From Stdlib Require Import (notations) Strings.String.
From S2P Require Import Prelude Types Binary64 Json Manifest.
#[local] Delimit Scope string_scope with string.

Definition OBICALL_MAX_NAME_LEN : nat := 64.
Definition OBICALL_VERSION_STR_LEN : nat := 32.
Definition OBICALL_MAX_ARCH_LEN : nat := 16.
Definition OBICALL_MAX_PATH_LEN : nat := 260.
Definition OBICALL_MAX_CONFIG_JSON_LEN : nat := 2048.
Definition OBICALL_LANG_UNSPECIFIED : Z := 0.
Definition OBICALL_LANG_C : Z := 1.
Definition OBICALL_LANG_PYTHON : Z := 2.

Definition manifest_members : list c_member :=
  [m_u32; m_u32; m_bytes 64; m_bytes 32; m_u32; m_u32; m_u32; m_bytes 16; m_u64; m_bytes 64; m_f64;
   m_bytes 260; m_bytes 32; m_u32; m_u32; m_bytes 2048; m_u32; m_array 8 (m_bytes 64)].
Definition sizeof_manifest : Z := Eval vm_compute in c_sizeof manifest_members.

Definition capability_flag_from_name (name : list Z) : Z :=
  if strcmp_eq name (ascii_bytes "position_sensor"%string) then Z.shiftl 1 0
  else if strcmp_eq name (ascii_bytes "inertial_sensor"%string) then Z.shiftl 1 1
  else if strcmp_eq name (ascii_bytes "range_sensor"%string) then Z.shiftl 1 2
  else if strcmp_eq name (ascii_bytes "checkpoint"%string) then Z.shiftl 1 3
  else if strcmp_eq name (ascii_bytes "fault_injection"%string) then Z.shiftl 1 4
  else 0.

Definition hex_digit (c : Z) : option Z :=
  if (c >=? 48) && (c <=? 57) then Some (c - 48)
  else if (c >=? 97) && (c <=? 102) then Some (c - 97 + 10)
  else if (c >=? 65) && (c <=? 70) then Some (c - 65 + 10)
  else None.
Fixpoint hex_bytes (hex : list Z) : option (list Z) :=
  match hex with
  | [] => Some []
  | hi :: lo :: hex =>
      match hex_digit hi, hex_digit lo with
      | Some hv, Some lv => cons (u8 (Z.lor (Z.shiftl hv 4) lv)) <$> hex_bytes hex
      | _, _ => None
      end
  | [_] => None
  end.
Definition hex_decode (hex : list Z) (out_cap : nat) : option (list Z) :=
  if negb (length hex =? out_cap * 2)%nat then None else hex_bytes hex.

(** Bytes stored at the start of an array. *)
Definition stored (written field : list Z) : list Z := written ++ drop (length written) field.

(** Whether the field was found and decoded, and what is in [out] after the call. *)
Definition find_field_str (json key field : list Z) : bool * list Z :=
  match json_object_find json key with
  | Some sp =>
      if sp_is_string sp then
        let '(written, ok) := json_decode_string (span_bytes json sp) (length field) in
        (ok, stored written field)
      else (false, field)
  | None => (false, field)
  end.

Definition find_field_num (json key : list Z) : option f64 :=
  match json_object_find json key with
  | Some sp => if sp_is_string sp then None else json_parse_number (span_bytes json sp)
  | None => None
  end.

(** The value of a member that is not a string. *)
Definition find_field_other (json key : list Z) : option (list Z) :=
  match json_object_find json key with
  | Some sp => if sp_is_string sp then None else Some (span_bytes json sp)
  | None => None
  end.

(** One entry of [capability_flags]. *)
Definition capability_flag_at (array : list Z) (flags : Z) (i : nat) : Z :=
  match json_array_get array i with
  | Some elem =>
      if sp_is_string elem then
        let '(name, ok) := json_decode_string (span_bytes array elem) 48 in
        if ok then Z.lor flags (capability_flag_from_name name) else flags
      else flags
  | None => flags
  end.
Definition read_capability_flags (json : list Z) : Z :=
  match find_field_other json (ascii_bytes "capability_flags"%string) with
  | Some array => fold_left (capability_flag_at array) (seq 0 (default O (json_array_count array))) 0
  | None => 0
  end.

Fixpoint read_dependency_list (array : list Z) (indices : list nat) : result status (list (list Z)) :=
  match indices with
  | [] => Ok []
  | i :: indices =>
      match json_array_get array i with
      | Some elem =>
          if sp_is_string elem then
            let '(written, ok) := json_decode_string (span_bytes array elem) OBICALL_MAX_NAME_LEN in
            if ok then
              let! deps := read_dependency_list array indices in
              Ok (stored written (replicate OBICALL_MAX_NAME_LEN 0) :: deps)
            else Err OBICALL_ERR_BUFFER_TOO_SMALL
          else Err OBICALL_ERR_INVALID_ARGUMENT
      | None => Err OBICALL_ERR_INVALID_ARGUMENT
      end
  end.
(** An array that cannot be counted ([-1]) has no entry to read. *)
Definition read_dependencies (json : list Z) : result status (list (list Z)) :=
  match find_field_other json (ascii_bytes "dependencies"%string) with
  | Some array =>
      let n := default O (json_array_count array) in
      if Z.of_nat n >? OBICALL_MAX_DEPENDENCIES then Err OBICALL_ERR_OUT_OF_RANGE
      else read_dependency_list array (seq 0 n)
  | None => Ok []
  end.

Definition read_language (json : list Z) : result status Z :=
  let '(found, lang) := find_field_str json (ascii_bytes "language"%string) (replicate 16 0) in
  if found then
    if strcmp_eq lang (ascii_bytes "c"%string) then Ok OBICALL_LANG_C
    else if strcmp_eq lang (ascii_bytes "python"%string) then Ok OBICALL_LANG_PYTHON
    else Err OBICALL_ERR_UNSUPPORTED
  else Ok OBICALL_LANG_UNSPECIFIED.

(** [artifact_sha256] and [has_artifact_sha256]. *)
Definition read_sha256 (json : list Z) : result status (list Z * Z) :=
  match json_object_find json (ascii_bytes "artifact_sha256"%string) with
  | Some sp =>
      if sp_is_string sp then
        let '(hex, ok) := json_decode_string (span_bytes json sp) (2 * OBICALL_DIGEST_LEN + 1) in
        let n := (length hex - 1)%nat in
        if ok && (n =? 2 * OBICALL_DIGEST_LEN)%nat then
          match hex_decode (take n hex) OBICALL_DIGEST_LEN with
          | Some digest => Ok (digest, 1)
          | None => Err OBICALL_ERR_INVALID_ARGUMENT
          end
        else Err OBICALL_ERR_INVALID_ARGUMENT
      else Ok (replicate OBICALL_DIGEST_LEN 0, 0)
  | None => Ok (replicate OBICALL_DIGEST_LEN 0, 0)
  end.

Definition read_config (json : list Z) : result status (list Z) :=
  let field := replicate OBICALL_MAX_CONFIG_JSON_LEN 0 in
  match find_field_other json (ascii_bytes "config"%string) with
  | Some config =>
      if (OBICALL_MAX_CONFIG_JSON_LEN <=? length config)%nat then Err OBICALL_ERR_BUFFER_TOO_SMALL
      else Ok (stored (config ++ [0]) field)
  | None => Ok (stored [123; 125] field)
  end.

Section parse.
Variable ub : f64 -> Z.

Definition u32_field (json key : list Z) : Z := default 0 (f64_to_u32 ub <$> find_field_num json key).

Definition obicall_manifest_parse_json (json : list Z) : result status obicall_manifest :=
  match find_field_num json (ascii_bytes "schema_version"%string) with
  | None => Err OBICALL_ERR_INVALID_ARGUMENT
  | Some num =>
  let schema_version := f64_to_u32 ub num in
  if negb (schema_version =? OBICALL_MANIFEST_SCHEMA_VERSION) then Err OBICALL_ERR_UNSUPPORTED else
  let '(has_name, name) :=
    find_field_str json (ascii_bytes "name"%string) (replicate OBICALL_MAX_NAME_LEN 0) in
  if negb has_name then Err OBICALL_ERR_INVALID_ARGUMENT else
  let '(_, version) :=
    find_field_str json (ascii_bytes "version"%string) (replicate OBICALL_VERSION_STR_LEN 0) in
  let! language := read_language json in
  let abi_version_major := u32_field json (ascii_bytes "abi_version_major"%string) in
  let abi_version_minor := u32_field json (ascii_bytes "abi_version_minor"%string) in
  let '(_, architecture) :=
    find_field_str json (ascii_bytes "architecture"%string) (replicate OBICALL_MAX_ARCH_LEN 0) in
  let '(_, capability_slot) :=
    find_field_str json (ascii_bytes "capability_slot"%string) (replicate OBICALL_MAX_NAME_LEN 0) in
  let preference_score := default f64_zero (find_field_num json (ascii_bytes "preference_score"%string)) in
  let '(has_path, artifact_path) :=
    find_field_str json (ascii_bytes "artifact_path"%string) (replicate OBICALL_MAX_PATH_LEN 0) in
  if negb has_path then Err OBICALL_ERR_INVALID_ARGUMENT else
  let! (artifact_sha256, has_artifact_sha256) := read_sha256 json in
  let config_schema_version := u32_field json (ascii_bytes "config_schema_version"%string) in
  let capability_flags := read_capability_flags json in
  let! config_json := read_config json in
  let! dependencies := read_dependencies json in
  Ok (Manifest sizeof_manifest schema_version name version language abi_version_major abi_version_minor
        architecture capability_flags capability_slot preference_score artifact_path artifact_sha256
        has_artifact_sha256 config_schema_version config_json dependencies)
  end.

(** ** Files *)

(** [uint8_t buf[8192]] *)
Definition MANIFEST_BUF_LEN : Z := 8192.

(** [None] for a file that cannot be opened. *)
Definition load_one_manifest_file (file : option (list Z)) (set : manifest_set) : result status manifest_set :=
  match file with
  | None => Err OBICALL_ERR_IO
  | Some data =>
      let buf := take (Z.to_nat MANIFEST_BUF_LEN) data in
      let truncated := Z.of_nat (length data) >? MANIFEST_BUF_LEN in
      if truncated then Err OBICALL_ERR_BUFFER_TOO_SMALL
      else if (OBICALL_MAX_MANIFESTS <=? length set)%nat then Err OBICALL_ERR_OUT_OF_RANGE
      else let! m := obicall_manifest_parse_json buf in Ok (set ++ [m])
  end.

Definition has_suffix (s suffix : list Z) : bool :=
  (length suffix <=? length s)%nat && bool_decide (drop (length s - length suffix) s = suffix).

(** The entries that are read, by name and path. *)
Definition manifest_path (dir_path name : list Z) : list Z := dir_path ++ [47] ++ name.
Definition is_manifest_entry (dir_path name : list Z) : bool :=
  has_suffix name (ascii_bytes ".manifest.json"%string)
  && (length (manifest_path dir_path name) <? OBICALL_MAX_PATH_LEN + 256)%nat.

Section directory.
Context (files : list Z -> option (list Z)) (dir_path : list Z).

Fixpoint load_entries (names : list (list Z)) (set : manifest_set) : result status manifest_set :=
  match names with
  | [] => Ok set
  | name :: names =>
      if negb (is_manifest_entry dir_path name) then load_entries names set
      else
        let! set := load_one_manifest_file (files (manifest_path dir_path name)) set in
        load_entries names set
  end.

(** [entries] is what [readdir] returns one after the other, [None] when the
    directory cannot be opened. *)
Definition obicall_manifest_load_dir (entries : option (list (list Z))) : result status manifest_set :=
  match entries with
  | None => Ok []
  | Some names => load_entries names []
  end.
End directory.
End parse.

(** * Lemmas *)

(** A [char] array of [n] bytes with its terminator. *)
Definition terminated (n : nat) (s : list Z) : Prop := length s = n /\ 0 ∈ s.

(** What a manifest that was accepted can be relied upon for. *)
Record wf_manifest (m : obicall_manifest) : Prop := {
  wm_size : mf_struct_size m = sizeof_manifest;
  wm_schema : mf_schema_version m = OBICALL_MANIFEST_SCHEMA_VERSION;
  wm_name : terminated OBICALL_MAX_NAME_LEN (mf_name m);
  wm_path : terminated OBICALL_MAX_PATH_LEN (mf_artifact_path m);
  wm_config : terminated OBICALL_MAX_CONFIG_JSON_LEN (mf_config_json m);
  wm_dependencies : Z.of_nat (length (mf_dependencies m)) <= OBICALL_MAX_DEPENDENCIES /\
    Forall (terminated OBICALL_MAX_NAME_LEN) (mf_dependencies m);
  wm_lengths : length (mf_version m) = OBICALL_VERSION_STR_LEN /\
    length (mf_architecture m) = OBICALL_MAX_ARCH_LEN /\ length (mf_capability_slot m) = OBICALL_MAX_NAME_LEN /\
    length (mf_artifact_sha256 m) = OBICALL_DIGEST_LEN;
  wm_language : mf_language m ∈ [OBICALL_LANG_UNSPECIFIED; OBICALL_LANG_C; OBICALL_LANG_PYTHON]
}.

Lemma length_zeros n : length (replicate n 0) = n.
Proof. apply length_replicate. Qed.

Lemma stored_length written field :
  (length written <= length field)%nat -> length (stored written field) = length field.
Proof. intros H. unfold stored. rewrite length_app, length_drop. lia. Qed.

Lemma decode_terminated json cap written :
  json_decode_string json cap = (written, true) -> 0 ∈ written /\ (length written <= cap)%nat.
Proof.
  intros E. split; [|by pose proof (decode_bound json cap) as H; rewrite E in H].
  remember (length json) as n eqn:Hn. assert (Hle : (length json <= n)%nat) by lia. clear Hn.
  revert json cap written Hle E. induction n as [|n IH]; intros [|ch s] cap written Hle; cbn [json_decode_string];
    try (destruct cap; [done|]; intros [= <-]; constructor); [cbn in Hle; lia|]. cbn in Hle.
  assert (Hst : forall b s', (length s' <= n)%nat ->
    match cap with O => ([], false) | S room => let '(out, ok) := json_decode_string s' room in (b :: out, ok) end
      = (written, true) -> 0 ∈ written).
  { intros b s' Hs'. destruct cap as [|room]; [done|]. destruct (json_decode_string s' room) as [out ok] eqn:E.
    intros [= <- ->]. constructor. by apply (IH s' room). }
  destruct (ch =? 92); [|by apply Hst; lia]. destruct s as [|esc s]; [done|]. cbn in Hle.
  destruct (esc =? 117); [|destruct (unescape esc); [|done]; by apply Hst; lia].
  destruct s as [|? [|? [|? [|? s]]]]; try done. apply Hst. cbn in Hle. lia.
Qed.

Lemma find_field_str_spec json key field ok out :
  find_field_str json key field = (ok, out) ->
  length out = length field /\ (ok = true -> 0 ∈ out).
Proof.
  unfold find_field_str. destruct (json_object_find json key) as [sp|]; [|by intros [= <- <-]].
  destruct (sp_is_string sp); [|by intros [= <- <-]].
  pose proof (decode_bound (span_bytes json sp) (length field)) as Hb.
  destruct (json_decode_string _ _) as [written ok'] eqn:E. intros [= -> <-]. cbn in Hb.
  split; [by apply stored_length|]. intros ->. apply decode_terminated in E as [Hz _].
  unfold stored. rewrite elem_of_app. by left.
Qed.

Lemma find_field_str_terminated json key n out :
  find_field_str json key (replicate n 0) = (true, out) -> terminated n out.
Proof.
  intros [Hl Hz]%find_field_str_spec. split; [|by apply Hz]. by rewrite Hl, length_zeros.
Qed.

Lemma read_dependency_list_spec array indices deps :
  read_dependency_list array indices = Ok deps ->
  Forall2 (fun i dep => exists elem written, json_array_get array i = Some elem /\ sp_is_string elem = true /\
    json_decode_string (span_bytes array elem) OBICALL_MAX_NAME_LEN = (written, true) /\
    dep = stored written (replicate OBICALL_MAX_NAME_LEN 0)) indices deps.
Proof.
  revert deps. induction indices as [|i indices IH]; intros deps; cbn [read_dependency_list].
  { intros [= <-]. constructor. }
  destruct (json_array_get array i) as [elem|] eqn:Eg; [|done]. destruct (sp_is_string elem) eqn:Es; [|done].
  destruct (json_decode_string _ _) as [written ok] eqn:Ed. destruct ok; [|done].
  destruct (read_dependency_list array indices) as [deps'|]; [|done]. intros [= <-].
  constructor; [by exists elem, written|by apply IH].
Qed.

Lemma stored_terminated written n :
  0 ∈ written -> (length written <= n)%nat -> terminated n (stored written (replicate n 0)).
Proof.
  intros Hz Hl. split; [rewrite stored_length; rewrite length_zeros; done|].
  unfold stored. rewrite elem_of_app. by left.
Qed.

Lemma read_dependencies_wf json deps :
  read_dependencies json = Ok deps ->
  Z.of_nat (length deps) <= OBICALL_MAX_DEPENDENCIES /\ Forall (terminated OBICALL_MAX_NAME_LEN) deps.
Proof.
  unfold read_dependencies. destruct (find_field_other _ _) as [array|]; [|by intros [= <-]].
  destruct (_ >? _) eqn:E; [done|]. intros H%read_dependency_list_spec. split.
  - apply Forall2_length in H. rewrite length_seq in H. lia.
  - apply Forall_forall. intros dep [i Hi]%list_elem_of_lookup.
    destruct (Forall2_lookup_r _ _ _ _ _ H Hi) as (k & _ & elem & written & _ & _ & Hd & ->).
    apply decode_terminated in Hd as [Hz Hl]. by apply stored_terminated.
Qed.

Lemma hex_bytes_length hex out : hex_bytes hex = Some out -> (length hex = 2 * length out)%nat.
Proof.
  remember (length hex) as n eqn:Hn. assert (Hle : (length hex <= n)%nat) by lia. rewrite Hn. clear Hn.
  revert hex out Hle. induction n as [|n IH]; intros [|hi [|lo hex]] out Hle; cbn [hex_bytes]; try done;
    try (by intros [= <-]); [cbn in Hle; lia|].
  destruct (hex_digit hi), (hex_digit lo); try done. destruct (hex_bytes hex) as [out'|] eqn:E; [|done].
  intros [= <-]. apply IH in E; [|cbn in Hle; lia]. cbn. lia.
Qed.

Lemma read_sha256_length json digest has : read_sha256 json = Ok (digest, has) -> length digest = OBICALL_DIGEST_LEN.
Proof.
  unfold read_sha256. destruct (json_object_find _ _) as [sp|]; [|by intros [= <- _]].
  destruct (sp_is_string sp); [|by intros [= <- _]]. destruct (json_decode_string _ _) as [hex ok].
  destruct (ok && _); [|done]. destruct (hex_decode _ _) as [d|] eqn:E; [|done]. intros [= <- _].
  unfold hex_decode in E. destruct (_ =? _)%nat eqn:En; [|done]. apply hex_bytes_length in E.
  cbn [negb] in *. apply Nat.eqb_eq in En. lia.
Qed.

Lemma read_config_terminated json config : read_config json = Ok config -> terminated OBICALL_MAX_CONFIG_JSON_LEN config.
Proof.
  unfold read_config. generalize (eq_refl OBICALL_MAX_CONFIG_JSON_LEN).
  generalize OBICALL_MAX_CONFIG_JSON_LEN at 2 3 4 5. intros n Hn. cbv zeta.
  destruct (find_field_other _ _) as [c|].
  - destruct (n <=? length c)%nat eqn:E; [done|]. intros [= <-]. apply Nat.leb_gt in E. rewrite Hn.
    apply stored_terminated; [rewrite elem_of_app, list_elem_of_singleton; by right|].
    rewrite length_app. cbn [length]. lia.
  - intros [= <-]. rewrite Hn. assert (Hlt : (2 < n)%nat) by (rewrite <- Hn; apply Nat.ltb_lt; reflexivity).
    split.
    + rewrite stored_length; rewrite length_zeros; [done|]. cbn. lia.
    + unfold stored. rewrite elem_of_app. right. destruct n as [|[|[|n]]]; try lia. constructor.
Qed.

Lemma read_language_known json language :
  read_language json = Ok language -> language ∈ [OBICALL_LANG_UNSPECIFIED; OBICALL_LANG_C; OBICALL_LANG_PYTHON].
Proof.
  unfold read_language. destruct (find_field_str _ _ _) as [found lang]. destruct found.
  - destruct (strcmp_eq _ _); [intros [= <-]; do 2 constructor|].
    destruct (strcmp_eq _ _); [intros [= <-]; do 3 constructor|done].
  - intros [= <-]. constructor.
Qed.

Lemma manifest_parse_wf ub json m : obicall_manifest_parse_json ub json = Ok m -> wf_manifest m.
Proof.
  unfold obicall_manifest_parse_json. destruct (find_field_num _ _) as [num|]; [|done].
  destruct (_ =? _) eqn:Ev; [|done]. cbn [negb]. apply Z.eqb_eq in Ev.
  destruct (find_field_str json (ascii_bytes "name") _) as [[] name] eqn:En; [|done]. cbn [negb].
  destruct (find_field_str json (ascii_bytes "version") _) as [hv version] eqn:Er.
  destruct (read_language json) as [language|] eqn:El; [|done]. cbn [rbind].
  destruct (find_field_str json (ascii_bytes "architecture") _) as [ha architecture] eqn:Ea.
  destruct (find_field_str json (ascii_bytes "capability_slot") _) as [hs slot] eqn:Es.
  destruct (find_field_str json (ascii_bytes "artifact_path") _) as [[] path] eqn:Ep; [|done]. cbn [negb].
  destruct (read_sha256 json) as [[digest has]|] eqn:Eh; [|done]. cbn [rbind].
  destruct (read_config json) as [config|] eqn:Ec; [|done]. cbn [rbind].
  destruct (read_dependencies json) as [deps|] eqn:Ed; [|done]. cbn [rbind]. intros [= <-].
  split; cbn.
  - done.
  - done.
  - by apply find_field_str_terminated in En.
  - by apply find_field_str_terminated in Ep.
  - by apply read_config_terminated in Ec.
  - by apply read_dependencies_wf in Ed.
  - apply find_field_str_spec in Er as [Hr _], Ea as [Ha _], Es as [Hs _]. apply read_sha256_length in Eh.
    by rewrite Hr, Ha, Hs, Eh, !length_zeros.
  - by apply read_language_known in El.
Qed.

(** ** On a JSON object *)

Definition quoted (s : list Z) : list Z := 34 :: escape s ++ [34].

(** A string token with a given body. *)
Definition token_of_body (body : list Z) : list Z := 34 :: body ++ [34].

Lemma token_content body : is_str (token_of_body body) = true /\ content (token_of_body body) = body.
Proof.
  split; [done|]. unfold content. cbn [is_str token_of_body head length tail]. rewrite length_app. cbn [length].
  replace (S (length body + 1) - 2)%nat with (length body) by lia. by rewrite take_app_length.
Qed.

Lemma quoted_content s : is_str (quoted s) = true /\ content (quoted s) = escape s.
Proof. apply token_content. Qed.

Lemma stored_string s n : (length s < n)%nat -> stored (s ++ [0]) (replicate n 0) = pad n 0 s.
Proof.
  intros H. unfold stored, pad. rewrite length_app, drop_replicate, <- app_assoc. cbn [length app]. f_equal.
  replace (n - length s)%nat with (S (n - (length s + 1))) by lia. done.
Qed.

Section members.
Context (ms : list (list Z * list Z)) (js : list Z) (Hjs : object_text ms js).

Lemma find_absent key : first_member key ms = None -> json_object_find js key = None.
Proof using Hjs. intros H. pose proof (json_object_find_text ms js key Hjs) as Hf. by rewrite H in Hf. Qed.

Lemma find_present key v :
  first_member key ms = Some v -> exists sp, json_object_find js key = Some sp /\ describes js sp v.
Proof using Hjs. intros H. pose proof (json_object_find_text ms js key Hjs) as Hf. by rewrite H in Hf. Qed.

Lemma find_field_str_quoted key s n :
  first_member key ms = Some (quoted s) -> (length s < n)%nat ->
  find_field_str js key (replicate n 0) = (true, pad n 0 s).
Proof using Hjs.
  intros Hm Hl. destruct (find_present _ _ Hm) as (sp & Hf & [Hs Hb _]). destruct (quoted_content s) as [Hq Hc].
  unfold find_field_str. rewrite Hf, Hs, Hq, Hb, Hc, decode_escape, length_zeros, bool_decide_eq_true_2 by done.
  by rewrite stored_string.
Qed.

Lemma find_field_num_text key v :
  first_member key ms = Some v -> is_str v = false -> find_field_num js key = json_parse_number v.
Proof using Hjs.
  intros Hm Hv. destruct (find_present _ _ Hm) as (sp & Hf & [Hs Hb _]). unfold find_field_num.
  rewrite Hf, Hs, Hv, Hb. unfold content. by rewrite Hv.
Qed.

Lemma find_field_other_text key v :
  first_member key ms = Some v -> is_str v = false -> find_field_other js key = Some v.
Proof using Hjs.
  intros Hm Hv. destruct (find_present _ _ Hm) as (sp & Hf & [Hs Hb _]). unfold find_field_other.
  rewrite Hf, Hs, Hv, Hb. unfold content. by rewrite Hv.
Qed.

Lemma read_dependency_list_text array deps :
  array_text (quoted <$> deps) array -> Forall (fun d => (length d < OBICALL_MAX_NAME_LEN)%nat) deps ->
  read_dependency_list array (seq 0 (length deps)) = Ok (pad OBICALL_MAX_NAME_LEN 0 <$> deps).
Proof.
  intros Ha Hl. destruct (json_array_text _ _ Ha) as [_ Hget].
  assert (H : forall post pre, deps = pre ++ post ->
    read_dependency_list array (seq (length pre) (length post)) = Ok (pad OBICALL_MAX_NAME_LEN 0 <$> post)).
  { induction post as [|d post IH]; intros pre E; [done|]. cbn [length seq read_dependency_list fmap list_fmap].
    specialize (Hget (length pre)). rewrite E, fmap_app, fmap_cons, list_lookup_middle in Hget by (by rewrite length_fmap).
    destruct Hget as (sp & -> & [Hs Hb _]). destruct (quoted_content d) as [Hq Hc].
    assert (Hd : (length d < OBICALL_MAX_NAME_LEN)%nat).
    { rewrite Forall_forall in Hl. apply Hl. rewrite E, elem_of_app, elem_of_cons. auto. }
    rewrite Hs, Hq, Hb, Hc, decode_escape, bool_decide_eq_true_2 by done.
    specialize (IH (pre ++ [d])). rewrite length_app, Nat.add_1_r in IH. rewrite IH by (by rewrite <- app_assoc).
    cbn [rbind]. by rewrite stored_string. }
  by apply (H deps []).
Qed.
End members.

Lemma load_entries_spec ub files dir names set set' :
  load_entries ub files dir names set = Ok set' ->
  exists loaded, set' = set ++ loaded /\ ((length set <= OBICALL_MAX_MANIFESTS)%nat -> (length set' <= OBICALL_MAX_MANIFESTS)%nat) /\
  Forall2 (fun name m => exists data, files (manifest_path dir name) = Some data /\
     Z.of_nat (length data) <= MANIFEST_BUF_LEN /\ obicall_manifest_parse_json ub data = Ok m)
    (base.filter (fun name => is_manifest_entry dir name = true) names) loaded.
Proof.
  revert set. induction names as [|name names IH]; intros set; cbn [load_entries].
  { intros [= <-]. exists []. rewrite app_nil_r. by split_and!. }
  rewrite filter_cons. destruct (is_manifest_entry dir name) eqn:Ee; cbn [negb].
  2: { rewrite decide_False by done. apply IH. }
  rewrite decide_True by done. unfold load_one_manifest_file.
  destruct (files (manifest_path dir name)) as [data|] eqn:Ef; [|done].
  destruct (_ >? _) eqn:El; [done|]. destruct (_ <=? length set)%nat eqn:Ec; [done|]. apply Nat.leb_gt in Ec.
  rewrite take_ge by lia. destruct (obicall_manifest_parse_json ub data) as [m|] eqn:Em; [|done]. cbn [rbind].
  intros (loaded & -> & Hlen & Hall)%IH. exists (m :: loaded). rewrite <- app_assoc. split; [done|]. split.
  - intros _. rewrite app_assoc. apply Hlen. rewrite length_app. cbn [length]. lia.
  - constructor; [|done]. exists data. split_and!; [done|lia|done].
Qed.

(** * What the loader promises *)

(** whatever a manifest file holds, a manifest the parser accepts is one the rest
    of the program can rely on: its name, artifact path, configuration and
    dependency names are terminated within their arrays, there are at most eight
    dependencies, schema and language are known ones. *)
Theorem manifest_parse_well_formed ub json m :
  obicall_manifest_parse_json ub json = Ok m -> wf_manifest m.
Proof. apply manifest_parse_wf. Qed.

(** ** Optional members *)

Inductive language_member : option (list Z) -> Z -> Prop :=
| NoLanguage : language_member None OBICALL_LANG_UNSPECIFIED
| LanguageC : language_member (Some (quoted (ascii_bytes "c"%string))) OBICALL_LANG_C
| LanguagePython : language_member (Some (quoted (ascii_bytes "python"%string))) OBICALL_LANG_PYTHON.

(** A digest in lower-case hexadecimal. *)
Definition hex_char (n : Z) : Z := if n <? 10 then 48 + n else 87 + n.
Definition hex_text (data : list Z) : list Z := concat ((fun b => [hex_char (b / 16); hex_char (b mod 16)]) <$> data).

Inductive digest_member : option (list Z) -> list Z -> Z -> Prop :=
| NoDigest : digest_member None (replicate OBICALL_DIGEST_LEN 0) 0
| HexDigest digest : length digest = OBICALL_DIGEST_LEN -> bytes digest ->
    digest_member (Some (quoted (hex_text digest))) digest 1.

(** The text of the object, or of an empty one. *)
Inductive config_member : option (list Z) -> list Z -> Prop :=
| NoConfig : config_member None [123; 125]
| ConfigText v : is_str v = false -> (length v < OBICALL_MAX_CONFIG_JSON_LEN)%nat -> config_member (Some v) v.

Lemma hex_digit_char n : 0 <= n < 16 -> hex_digit (hex_char n) = Some n.
Proof.
  intros Hn. unfold hex_char, hex_digit. destruct (Z.ltb_spec n 10).
  - replace ((48 + n >=? 48) && (48 + n <=? 57)) with true by lia. f_equal. lia.
  - replace ((87 + n >=? 48) && (87 + n <=? 57)) with false by lia.
    replace ((87 + n >=? 97) && (87 + n <=? 102)) with true by lia. f_equal. lia.
Qed.

Lemma hex_bytes_text data : bytes data -> hex_bytes (hex_text data) = Some data.
Proof.
  unfold hex_text. induction 1 as [|b data Hb _ IH]; [done|]. destruct (nibbles b Hb) as (Hhi & Hlo & Hbyte).
  rewrite fmap_cons. set (rest := _ <$> data) in *. rewrite concat_cons. cbn [app hex_bytes].
  change (b / 16) with (b / 2 ^ 4). rewrite <- Z.shiftr_div_pow2 by lia. change (b mod 16) with (b mod 2 ^ 4).
  rewrite <- Z.land_ones by lia. change (Z.ones 4) with 15. rewrite !hex_digit_char, IH by done.
  cbn [fmap option_fmap option_map]. by rewrite Hbyte.
Qed.

Lemma length_hex_text data : length (hex_text data) = (2 * length data)%nat.
Proof. unfold hex_text. induction data as [|b data IH]; [done|]. cbn [fmap list_fmap concat app length]. lia. Qed.

Section optional.
Context (ms : list (list Z * list Z)) (js : list Z) (Hjs : object_text ms js).

Lemma read_language_text lang :
  language_member (first_member (ascii_bytes "language"%string) ms) lang -> read_language js = Ok lang.
Proof using Hjs.
  remember (first_member _ ms) as v eqn:Ev. intros Hl. unfold read_language. destruct Hl; symmetry in Ev.
  - unfold find_field_str. by rewrite (find_absent ms js Hjs _ Ev).
  - by rewrite (find_field_str_quoted ms js Hjs _ _ _ Ev) by (vm_compute; lia).
  - by rewrite (find_field_str_quoted ms js Hjs _ _ _ Ev) by (vm_compute; lia).
Qed.

Lemma read_sha256_text digest has :
  digest_member (first_member (ascii_bytes "artifact_sha256"%string) ms) digest has -> read_sha256 js = Ok (digest, has).
Proof using Hjs.
  remember (first_member _ ms) as v eqn:Ev. intros Hd. unfold read_sha256. destruct Hd as [|digest Hl Hb]; symmetry in Ev.
  - by rewrite (find_absent ms js Hjs _ Ev).
  - destruct (find_present ms js Hjs _ _ Ev) as (sp & -> & [Hs Ht _]). destruct (quoted_content (hex_text digest)) as [Hq Hc].
    assert (Hlen : length (hex_text digest) = 64%nat) by (rewrite length_hex_text, Hl; done).
    rewrite Hs, Hq, Ht, Hc, decode_escape. rewrite bool_decide_eq_true_2 by (rewrite Hlen; unfold OBICALL_DIGEST_LEN; lia).
    rewrite length_app, Hlen. change (64 + length [0] - 1)%nat with 64%nat. cbn [andb Nat.eqb OBICALL_DIGEST_LEN Nat.mul Nat.add].
    rewrite take_app_length' by done. unfold hex_decode. rewrite Hlen. cbn [Nat.eqb negb OBICALL_DIGEST_LEN Nat.mul].
    by rewrite hex_bytes_text.
Qed.

Lemma read_config_text config :
  config_member (first_member (ascii_bytes "config"%string) ms) config ->
  read_config js = Ok (pad OBICALL_MAX_CONFIG_JSON_LEN 0 config).
Proof using Hjs.
  remember (first_member _ ms) as v eqn:Ev. intros Hc. unfold read_config. destruct Hc as [|v Hs Hl]; symmetry in Ev.
  - unfold find_field_other. by rewrite (find_absent ms js Hjs _ Ev).
  - rewrite (find_field_other_text ms js Hjs _ _ Ev Hs). destruct (Nat.leb_spec OBICALL_MAX_CONFIG_JSON_LEN (length v)); [lia|].
    by rewrite stored_string.
Qed.
End optional.


(** C24: loading a directory reads every [.manifest.json] entry whose path fits, in
    the order of the directory, and succeeds only if each of them can be read, fits
    the buffer and parses; the set then holds exactly their manifests, all well
    formed and at most as many as the set has room for. *)
Theorem manifest_load_dir_correct ub files dir names set :
  obicall_manifest_load_dir ub files dir (Some names) = Ok set ->
  Forall2 (fun name m => exists data, files (manifest_path dir name) = Some data /\
     Z.of_nat (length data) <= MANIFEST_BUF_LEN /\ obicall_manifest_parse_json ub data = Ok m)
    (base.filter (fun name => is_manifest_entry dir name = true) names) set /\
  (length set <= OBICALL_MAX_MANIFESTS)%nat /\ Forall wf_manifest set.
Proof.
  unfold obicall_manifest_load_dir. intros (loaded & -> & Hlen & Hall)%load_entries_spec. cbn [app] in *.
  split; [done|]. split; [apply Hlen; cbn; lia|]. apply Forall_forall. intros m [i Hi]%list_elem_of_lookup.
  destruct (Forall2_lookup_r _ _ _ _ _ Hall Hi) as (name & _ & data & _ & _ & Hp).
  by apply manifest_parse_wf in Hp.
Qed.

(** ** Witnesses *)

Definition sample_deps : list Z := quoted [112; 98].
Definition sample_manifest_members : list (list Z * list Z) :=
  [(ascii_bytes "schema_version"%string, [49]); (ascii_bytes "name"%string, quoted [112; 97]);
   (ascii_bytes "artifact_path"%string, quoted [97]); (ascii_bytes "language"%string, quoted [99]);
   (ascii_bytes "dependencies"%string, 91 :: sample_deps ++ [93])].
Definition sample_member (key v : list Z) : list Z := 34 :: key ++ 34 :: [58] ++ v.
Definition sample_manifest_text : list Z :=
  123 :: (sample_member (ascii_bytes "schema_version"%string) [49] ++ [44] ++
   sample_member (ascii_bytes "name"%string) (quoted [112; 97]) ++ [44] ++
   sample_member (ascii_bytes "artifact_path"%string) (quoted [97]) ++ [44] ++
   sample_member (ascii_bytes "language"%string) (quoted [99]) ++ [44] ++
   sample_member (ascii_bytes "dependencies"%string) (91 :: sample_deps ++ [93])) ++ [125].

Lemma plain_body s : forallb (fun c => negb (c =? 34) && negb (c =? 92)) s = true -> string_body s.
Proof.
  induction s as [|c s IH]; cbn [forallb]; [constructor|]. intros [Hc Hs]%andb_true_iff. constructor; [lia|lia|by apply IH].
Qed.

Lemma sample_manifest_object : object_text sample_manifest_members sample_manifest_text.
Proof.
  assert (Hq : forall s, value_text (quoted s)) by (intros s; apply vt_string, escape_body).
  exists [], (sample_member (ascii_bytes "schema_version"%string) [49] ++ [44] ++
   sample_member (ascii_bytes "name"%string) (quoted [112; 97]) ++ [44] ++
   sample_member (ascii_bytes "artifact_path"%string) (quoted [97]) ++ [44] ++
   sample_member (ascii_bytes "language"%string) (quoted [99]) ++ [44] ++
   sample_member (ascii_bytes "dependencies"%string) (91 :: sample_deps ++ [93])), [].
  split; [done|]. split; [|reflexivity].
  apply (mt_more [] (ascii_bytes "schema_version"%string) [] [] [49] []); [done|by apply plain_body|done|done| |done|].
  { apply vt_number. by apply (number_intro [] [49] [] []); [left| | |constructor..]. }
  apply (mt_more [] (ascii_bytes "name"%string) [] [] (quoted [112; 97]) []); [done|by apply plain_body|done|done|done|done|].
  apply (mt_more [] (ascii_bytes "artifact_path"%string) [] [] (quoted [97]) []); [done|by apply plain_body|done|done|done|done|].
  apply (mt_more [] (ascii_bytes "language"%string) [] [] (quoted [99]) []); [done|by apply plain_body|done|done|done|done|].
  apply (mt_one [] (ascii_bytes "dependencies"%string) [] [] (91 :: sample_deps ++ [93]) []); [done|by apply plain_body|done|done| |done].
  apply (vt_array [quoted [112; 98]]). by apply (et_one [] (quoted [112; 98]) []).
Qed.

Definition no_ub (x : f64) : Z := 0.


Definition sample_files (path : list Z) : option (list Z) := Some sample_manifest_text.
Definition sample_entries : list (list Z) := [ascii_bytes "README"%string; ascii_bytes "pa.manifest.json"%string].

Lemma sample_load :
  exists m, obicall_manifest_load_dir no_ub sample_files [100] (Some sample_entries) = Ok [m] /\
    obicall_manifest_parse_json no_ub sample_manifest_text = Ok m.
Proof.
  destruct (obicall_manifest_parse_json no_ub sample_manifest_text) as [m|e] eqn:E; [|by vm_compute in E].
  exists m. split; [|done]. unfold obicall_manifest_load_dir, sample_entries. cbn [load_entries].
  change (is_manifest_entry [100] (ascii_bytes "README"%string)) with false. cbn [negb].
  assert (He : is_manifest_entry [100] (ascii_bytes "pa.manifest.json"%string) = true) by (by vm_compute).
  rewrite He. cbn [negb]. unfold load_one_manifest_file, sample_files.
  assert (Hl : (Z.of_nat (length sample_manifest_text) >? MANIFEST_BUF_LEN) = false) by (by vm_compute).
  rewrite Hl, take_ge by (unfold MANIFEST_BUF_LEN in *; lia). cbn [length Nat.leb OBICALL_MAX_MANIFESTS]. by rewrite E.
Qed.

Lemma manifest_well_formed_witness :
  exists m, obicall_manifest_parse_json no_ub sample_manifest_text = Ok m /\ wf_manifest m.
Proof.
  destruct sample_load as (m & _ & Hp). exists m. split; [exact Hp|].
  exact (manifest_parse_well_formed no_ub sample_manifest_text m Hp).
Defined.

Lemma manifest_load_dir_witness :
  exists set, obicall_manifest_load_dir no_ub sample_files [100] (Some sample_entries) = Ok set /\
    Forall2 (fun name m => exists data, sample_files (manifest_path [100] name) = Some data /\
       Z.of_nat (length data) <= MANIFEST_BUF_LEN /\ obicall_manifest_parse_json no_ub data = Ok m)
      (base.filter (fun name => is_manifest_entry [100] name = true) sample_entries) set /\
    (length set <= OBICALL_MAX_MANIFESTS)%nat /\ Forall wf_manifest set.
Proof.
  destruct sample_load as (m & Hl & _). exists [m]. split; [exact Hl|].
  exact (manifest_load_dir_correct no_ub sample_files [100] sample_entries [m] Hl).
Defined.

(** An architecture that does not fit its field is accepted, and stored without a
    terminator. *)
Definition long_architecture_text : list Z :=
  123 :: (sample_member (ascii_bytes "schema_version"%string) [49] ++ [44] ++
   sample_member (ascii_bytes "name"%string) (quoted [112; 97]) ++ [44] ++
   sample_member (ascii_bytes "artifact_path"%string) (quoted [97]) ++ [44] ++
   sample_member (ascii_bytes "architecture"%string) (quoted (replicate 20 120))) ++ [125].
Lemma parse_unterminated_architecture :
  exists m, obicall_manifest_parse_json no_ub long_architecture_text = Ok m /\ 0 ∉ mf_architecture m.
Proof.
  assert (E : match obicall_manifest_parse_json no_ub long_architecture_text with
    | Ok m => bool_decide (0 ∉ mf_architecture m) | Err _ => false end = true) by (by vm_compute).
  destruct (obicall_manifest_parse_json no_ub long_architecture_text) as [m|]; [|done].
  exists m. split; [done|]. by apply bool_decide_eq_true in E.
Qed.

(** A value of "dependencies" that is not an array is read as no dependency. *)
Definition object_dependencies_text : list Z :=
  123 :: (sample_member (ascii_bytes "schema_version"%string) [49] ++ [44] ++
   sample_member (ascii_bytes "name"%string) (quoted [112; 97]) ++ [44] ++
   sample_member (ascii_bytes "artifact_path"%string) (quoted [97]) ++ [44] ++
   sample_member (ascii_bytes "language"%string) (quoted [99]) ++ [44] ++
   sample_member (ascii_bytes "dependencies"%string) (quoted [112; 98])) ++ [125].
Lemma parse_drops_dependencies :
  exists m, obicall_manifest_parse_json no_ub object_dependencies_text = Ok m /\ mf_dependencies m = [].
Proof.
  assert (E : match obicall_manifest_parse_json no_ub object_dependencies_text with
    | Ok m => bool_decide (mf_dependencies m = []) | Err _ => false end = true) by (by vm_compute).
  destruct (obicall_manifest_parse_json no_ub object_dependencies_text) as [m|]; [|done].
  exists m. split; [done|]. by apply bool_decide_eq_true in E.
Qed.
