(* ===== verification/Supervisor.v ===== *)
(** * Supervisor: starting and restarting the processes (src/supervisor/supervisor.c)

    The supervisor keeps one record per child process.  What the operating system
    answers (is a process alive, when was its heartbeat file touched, did a spawn
    succeed and when) are inputs; what the supervisor asks of it are the actions the
    operations return.  Printing is left out.  The monitor is proved to keep its
    bound on restarts, and what it does with a child it cannot or may not restart is
    stated as it is. *)

From Stdlib Require Import Sorting.Sorted.
From S2P Require Import Prelude Types Manifest.

Definition SUPERVISOR_MAX_CHILDREN : nat := 32.
Definition SUPERVISOR_MAX_ARGV : nat := 40.

Record child_proc := ChildProc {
  cp_name : list Z;
  cp_exe_path : list Z;
  cp_argv : list (list Z);            (* the first [argc] *)
  cp_proc : option Z;                 (* the process, [NULL] for none *)
  cp_restart_count : Z;
  cp_window_start_ns : Z;
  cp_is_worker : bool;
  cp_restart_suspended : bool
}.

(** What is asked of the operating system. *)
Inductive proc_action :=
| Spawn (exe_path : list Z) (argv : list (list Z))
| Kill (proc : Z)
| Terminate (proc : Z)
| Wait (proc : Z) (timeout_ms : Z)
| Close (proc : Z)
| SleepMs (ms : Z).

Definition with_proc (c : child_proc) (proc : option Z) : child_proc :=
  ChildProc (cp_name c) (cp_exe_path c) (cp_argv c) proc (cp_restart_count c) (cp_window_start_ns c)
    (cp_is_worker c) (cp_restart_suspended c).
Definition with_count (c : child_proc) (restart_count window_start_ns : Z) : child_proc :=
  ChildProc (cp_name c) (cp_exe_path c) (cp_argv c) (cp_proc c) restart_count window_start_ns
    (cp_is_worker c) (cp_restart_suspended c).
Definition with_suspended (c : child_proc) (suspended : bool) : child_proc :=
  ChildProc (cp_name c) (cp_exe_path c) (cp_argv c) (cp_proc c) (cp_restart_count c) (cp_window_start_ns c)
    (cp_is_worker c) suspended.

(** ** Children *)

Definition set_argv (argv : list (list Z)) : list (list Z) := take (SUPERVISOR_MAX_ARGV - 1) argv.

Definition add_child (children : list child_proc) (name exe_path : list Z) (argv : list (list Z))
    (is_worker : bool) : option (list child_proc) :=
  if (SUPERVISOR_MAX_CHILDREN <=? length children)%nat then None
  else Some (children ++ [ChildProc (take 63 (c_str name)) (take 511 (c_str exe_path)) (set_argv argv) None 0 0
                            is_worker false]).

(** [spawned] is the new process and the clock after it, [None] when the spawn
    fails; the second component is the C return value 0. *)
Definition spawn_child (spawned : option (Z * Z)) (c : child_proc) : list proc_action * bool * child_proc :=
  let actions := [Spawn (cp_exe_path c) (cp_argv c)] in
  match spawned with
  | None => (actions, false, c)
  | Some (proc, now) => (actions, true, with_count (with_proc c (Some proc)) (cp_restart_count c) now)
  end.

(** ** Monitoring *)

(** What the system answers about one child during a tick. *)
Record child_env := ChildEnv {
  ce_alive : bool;
  ce_mtime_ns : Z;                    (* of the pid file, negative when there is none *)
  ce_realtime_ns : Z;
  ce_spawned : option (Z * Z)
}.

Definition GRACE_NS : Z := 4000000000.
Definition STALE_NS : Z := 5000000000.
Definition RESTART_WINDOW_NS : Z := 60000000000.
Definition MAX_RESTARTS : Z := 5.

Definition is_hung (now : Z) (env : child_env) (c : child_proc) : bool :=
  let past_grace := i64 (now - cp_window_start_ns c) >? GRACE_NS in
  ce_alive env && cp_is_worker c && past_grace
  && ((ce_mtime_ns env <? 0) || (i64 (ce_realtime_ns env - ce_mtime_ns env) >? STALE_NS)).

(** The body of the loop over children. *)
Definition monitor_child (now : Z) (env : child_env) (c : child_proc) : list proc_action * child_proc :=
  match cp_proc c with
  | None => ([], c)
  | Some proc =>
      let hung := is_hung now env c in
      if ce_alive env && negb hung then ([], c)
      else
      let reap := if hung then [Kill proc; Wait proc 2000; Close proc] else [Wait proc 500; Close proc] in
      let c := with_proc c None in
      if cp_restart_suspended c then (reap, c)
      else
      let c := if i64 (now - cp_window_start_ns c) >? RESTART_WINDOW_NS then with_count c 0 now else c in
      if cp_restart_count c >=? MAX_RESTARTS then (reap, c)
      else
      let c := with_count c (cp_restart_count c + 1) (cp_window_start_ns c) in
      let '(actions, _, c) := spawn_child (ce_spawned env) c in
      (reap ++ actions, c)
  end.

Definition supervisor_monitor_tick (now : Z) (envs : list child_env) (children : list child_proc)
    : list proc_action * list child_proc :=
  let turns := zip_with (monitor_child now) envs children in
  (concat (fst <$> turns), snd <$> turns).

(** ** Control *)

Definition named (name : list Z) (c : child_proc) : bool := strcmp_eq (cp_name c) name.
Definition is_running (c : child_proc) : bool := match cp_proc c with Some _ => true | None => false end.

Definition supervisor_kill_child (name : list Z) (children : list child_proc) : option (list proc_action) :=
  match list_find (fun c => named name c && is_running c = true) children with
  | Some (_, c) => Some (Kill <$> option_list (cp_proc c))
  | None => None
  end.

Definition supervisor_kill_child_and_suspend (name : list Z) (children : list child_proc)
    : option (list proc_action * list child_proc) :=
  match list_find (fun c => named name c && is_running c = true) children with
  | Some (i, c) => Some (Kill <$> option_list (cp_proc c), <[i := with_suspended c true]> children)
  | None => None
  end.

Definition supervisor_resume_child (now : Z) (name : list Z) (children : list child_proc) : list child_proc :=
  match list_find (fun c => named name c = true) children with
  | Some (i, c) => <[i := with_suspended (with_count c 0 now) false]> children
  | None => children
  end.

Definition stop_child (c : child_proc) : list proc_action * child_proc :=
  (match cp_proc c with Some proc => [Kill proc; Wait proc 2000; Close proc] | None => [] end,
   ChildProc (cp_name c) (cp_exe_path c) [] None (cp_restart_count c) (cp_window_start_ns c) (cp_is_worker c)
     (cp_restart_suspended c)).
Definition supervisor_stop_all (children : list child_proc) : list proc_action * list child_proc :=
  let terminations := children ≫= (fun c => Terminate <$> option_list (cp_proc c)) in
  let stops := stop_child <$> children in
  (terminations ++ [SleepMs 200] ++ concat (fst <$> stops), snd <$> stops).

(** ** A child under a sequence of ticks *)

Definition is_spawn (a : proc_action) : bool := match a with Spawn _ _ => true | _ => false end.

(** The times of the ticks that tried to restart it, in order, and the child. *)
Fixpoint monitor_run (ticks : list (Z * child_env)) (c : child_proc) : list Z * child_proc :=
  match ticks with
  | [] => ([], c)
  | (now, env) :: ticks =>
      let '(actions, c) := monitor_child now env c in
      let '(restarts, c) := monitor_run ticks c in
      ((if existsb is_spawn actions then [now] else []) ++ restarts, c)
  end.

(** The monotonic clock: ticks in order, the reading after a spawn between its tick
    and the next, everything within 146 years of the clock's origin. *)
Fixpoint clock_ok (t : Z) (ticks : list (Z * child_env)) : Prop :=
  match ticks with
  | [] => True
  | (now, env) :: ticks =>
      t <= now < 2 ^ 62 /\
      match ce_spawned env with
      | Some (_, s) => now <= s < 2 ^ 62 /\ clock_ok s ticks
      | None => clock_ok now ticks
      end
  end.

(** * Lemmas *)

Lemma monitor_child_stopped now env c : cp_proc c = None -> monitor_child now env c = ([], c).
Proof. unfold monitor_child. by intros ->. Qed.

(** One tick either tries to restart the child, or leaves it alone or stopped. *)
Lemma monitor_child_cases now env c actions c' :
  monitor_child now env c = (actions, c') ->
  (existsb is_spawn actions = false /\ (c' = c \/ cp_proc c' = None)) \/
  (existsb is_spawn actions = true /\ cp_proc c <> None /\
   let count := if i64 (now - cp_window_start_ns c) >? RESTART_WINDOW_NS then 0 else cp_restart_count c in
   count < MAX_RESTARTS /\ cp_restart_count c' = count + 1 /\
   match ce_spawned env with
   | Some (proc, s) => cp_proc c' = Some proc /\ cp_window_start_ns c' = s
   | None => cp_proc c' = None
   end).
Proof.
  unfold monitor_child. destruct (cp_proc c) as [proc|] eqn:Ep; [|intros [= <- <-]; left; by split; [|left]].
  destruct (ce_alive env && _); [intros [= <- <-]; left; by split; [|left]|].
  set (reap := if is_hung now env c then _ else _).
  assert (Hreap : existsb is_spawn reap = false) by (subst reap; by destruct (is_hung now env c)).
  clearbody reap. cbn [with_proc cp_restart_suspended]. destruct (cp_restart_suspended c).
  { intros [= <- <-]. left. split; [done|by right]. }
  cbn [cp_window_start_ns].
  set (count := if _ >? RESTART_WINDOW_NS then 0 else cp_restart_count c).
  set (c1 := if _ >? RESTART_WINDOW_NS then _ else _).
  assert (H1 : cp_restart_count c1 = count /\ cp_proc c1 = None).
  { subst c1 count. by destruct (_ >? RESTART_WINDOW_NS). }
  clearbody c1 count. destruct H1 as [Hc1 Hp1]. rewrite Hc1. destruct (count >=? MAX_RESTARTS) eqn:Em.
  { intros [= <- <-]. left. split; [done|by right]. }
  unfold spawn_child. destruct (ce_spawned env) as [[proc' s]|]; intros [= <- <-]; right;
    (split; [by rewrite existsb_app, Hreap|split; [done|split; [lia|done]]]).
Qed.

(** Six restarts in a row take more than the window; [rs] has the latest first. *)
Definition spaced (rs : list Z) : Prop :=
  forall k a b, rs !! k = Some a -> rs !! (k + 5)%nat = Some b -> b + RESTART_WINDOW_NS < a.

Record history_ok (rs : list Z) (c : child_proc) (t : Z) : Prop := {
  ho_now : 0 <= t < 2 ^ 62;
  ho_order : forall i j a b, (i <= j)%nat -> rs !! i = Some a -> rs !! j = Some b -> b <= a;
  ho_past : forall i a, rs !! i = Some a -> a <= t;
  ho_spaced : spaced rs;
  ho_running : cp_proc c <> None ->
    0 <= cp_window_start_ns c <= t /\
    (forall a, rs !! O = Some a -> a <= cp_window_start_ns c) /\
    0 <= cp_restart_count c /\ (cp_restart_count c = 0 -> rs = []) /\
    (forall a b, 0 < cp_restart_count c -> rs !! (Z.to_nat (cp_restart_count c - 1)) = Some a ->
       rs !! Z.to_nat (cp_restart_count c) = Some b -> b + RESTART_WINDOW_NS < a)
}.

(** Time passes. *)
Lemma history_later rs c t t' : history_ok rs c t -> t <= t' < 2 ^ 62 -> history_ok rs c t'.
Proof.
  intros [Hn Ho Hp Hs Hr] Ht. split; [lia|done| |done|].
  - intros i a Hi. specialize (Hp i a Hi). lia.
  - intros (? & ? & ? & ? & ?)%Hr. split_and!; [lia|lia|done..].
Qed.

Lemma history_stopped rs c c' t : history_ok rs c t -> cp_proc c' = None -> history_ok rs c' t.
Proof. intros [Hn Ho Hp Hs _] Hc. by split. Qed.

(** A restart. *)
Lemma history_restart rs c c' now s :
  history_ok rs c now -> cp_proc c <> None -> now <= s < 2 ^ 62 ->
  let count := if i64 (now - cp_window_start_ns c) >? RESTART_WINDOW_NS then 0 else cp_restart_count c in
  count < MAX_RESTARTS -> cp_restart_count c' = count + 1 ->
  (cp_proc c' <> None -> cp_window_start_ns c' = s) ->
  history_ok (now :: rs) c' s.
Proof.
  intros [Hn Ho Hp Hs Hr] Hc Hsn count Hlt Hcount Hws. destruct (Hr Hc) as (Hw & Hhd & Hpos & Hzero & Hlink).
  assert (E : count = if now - cp_window_start_ns c >? RESTART_WINDOW_NS then 0 else cp_restart_count c).
  { unfold count. rewrite i64_id; [done|]. unfold is_i64. lia. }
  clearbody count.
  (* the restart that took the count to one came more than the window after the one before *)
  assert (Hgap : forall a b, (now :: rs) !! Z.to_nat count = Some a -> rs !! Z.to_nat count = Some b ->
     b + RESTART_WINDOW_NS < a).
  { intros a b Ha Hb. rewrite E in Ha, Hb. destruct (_ >? RESTART_WINDOW_NS) eqn:Eg.
    - change (Z.to_nat 0) with O in Ha, Hb. cbn in Ha. injection Ha as <-. apply Hhd in Hb. lia.
    - destruct (decide (cp_restart_count c = 0)) as [Hz|Hz]; [by rewrite (Hzero Hz) in Hb|].
      replace (Z.to_nat (cp_restart_count c)) with (S (Z.to_nat (cp_restart_count c - 1))) in Ha by lia.
      apply (Hlink a b); [lia|done|done]. }
  assert (Hcb : 0 <= count <= 4) by (unfold MAX_RESTARTS in Hlt; rewrite E; destruct (_ >? _) eqn:Eg; rewrite E in Hlt; lia).
  assert (Hord : forall i j a b, (i <= j)%nat -> (now :: rs) !! i = Some a -> (now :: rs) !! j = Some b -> b <= a).
  { intros [|i] [|j] a b Hij Ha Hb; cbn in Ha, Hb;
      [injection Ha as <-; injection Hb as <-; lia|injection Ha as <-; by apply (Hp j)|lia|].
    apply (Ho i j a b); [lia|done|done]. }
  split; [lia|exact Hord| | |].
  - intros [|i] a Ha; cbn in Ha; [injection Ha as <-; lia|]. specialize (Hp i a Ha). lia.
  - intros [|k] a b Ha Hb; [|by apply (Hs k)]. cbn in Ha, Hb.
    injection Ha as <-. 
    assert (Hx : is_Some (rs !! Z.to_nat count)).
    { apply lookup_lt_is_Some. apply lookup_lt_Some in Hb. lia. }
    destruct Hx as [x Hx].
    assert (Hy : exists y, (now :: rs) !! Z.to_nat count = Some y).
    { apply lookup_lt_is_Some. cbn. apply lookup_lt_Some in Hx. lia. }
    destruct Hy as [y Hy]. pose proof (Hgap y x Hy Hx).
    pose proof (Hord 0%nat (Z.to_nat count) now y ltac:(lia) eq_refl Hy).
    pose proof (Ho (Z.to_nat count) 4%nat x b ltac:(lia) Hx Hb). lia.
  - intros Hc'. rewrite (Hws Hc'), Hcount. split; [lia|]. split; [intros a [= <-]; lia|]. split; [lia|].
    split; [lia|]. intros a b _ Ha Hb. replace (Z.to_nat (count + 1 - 1)) with (Z.to_nat count) in Ha by lia.
    replace (Z.to_nat (count + 1)) with (S (Z.to_nat count)) in Hb by lia. by apply (Hgap a b).
Qed.

Lemma monitor_run_spaced ticks rs c t :
  history_ok rs c t -> clock_ok t ticks -> spaced (reverse (monitor_run ticks c).1 ++ rs).
Proof.
  revert rs c t. induction ticks as [|[now env] ticks IH]; intros rs c t Hh Hck; cbn [monitor_run].
  { cbn. apply (ho_spaced _ _ _ Hh). }
  destruct Hck as [Hnow Hck]. destruct (monitor_child now env c) as [actions c'] eqn:Em.
  specialize (IH (if existsb is_spawn actions then now :: rs else rs) c').
  destruct (monitor_run ticks c') as [restarts c''] eqn:Er. cbn [fst] in *.
  assert (Hgoal : reverse ((if existsb is_spawn actions then [now] else []) ++ restarts) ++ rs =
    reverse restarts ++ (if existsb is_spawn actions then now :: rs else rs)).
  { destruct (existsb is_spawn actions); [|done]. cbn [app]. by rewrite reverse_cons, <- app_assoc. }
  rewrite Hgoal. apply (history_later _ _ _ now) in Hh; [|lia].
  destruct (monitor_child_cases _ _ _ _ _ Em) as [[Hs Hc']|(Hs & Hc & Hlt & Hcount & Hsp)]; rewrite Hs in *.
  - assert (Hh' : history_ok rs c' now) by (destruct Hc' as [->|Hc']; [done|by apply (history_stopped rs c)]).
    destruct (ce_spawned env) as [[proc s]|]; [|by apply (IH now)]. destruct Hck as [Hse Hck].
    apply (IH s); [|done]. by apply (history_later _ _ now).
  - destruct (ce_spawned env) as [[proc s]|].
    + destruct Hck as [Hse Hck]. destruct Hsp as [Hp Hw]. apply (IH s); [|done].
      by apply (history_restart rs c c' now s).
    + apply (IH now); [|done]. apply (history_restart rs c c' now now); try done; lia.
Qed.

Lemma monitor_run_stopped ticks c : cp_proc c = None -> monitor_run ticks c = ([], c).
Proof.
  intros Hc. induction ticks as [|[now env] ticks IH]; [done|]. cbn [monitor_run].
  by rewrite monitor_child_stopped, IH.
Qed.

Lemma tick_child now envs children i :
  (snd (supervisor_monitor_tick now envs children)) !! i =
  match envs !! i, children !! i with
  | Some env, Some c => Some (monitor_child now env c).2
  | _, _ => None
  end.
Proof.
  cbn [supervisor_monitor_tick snd]. rewrite list_lookup_fmap, lookup_zip_with.
  destruct (envs !! i) as [env|], (children !! i) as [c|]; done.
Qed.

(** A dead child on hold is reaped. *)
Lemma monitor_suspended now env c :
  cp_restart_suspended c = true -> ce_alive env = false -> cp_proc (monitor_child now env c).2 = None.
Proof.
  intros Hs Ha. unfold monitor_child. destruct (cp_proc c) as [proc|] eqn:Ep; [|done]. rewrite Ha. cbn [andb].
  change (cp_restart_suspended (with_proc c None)) with (cp_restart_suspended c). by rewrite Hs.
Qed.

(** * What the supervisor promises *)

(** C27: restarts are rate limited: however often a child dies or hangs, and however
    often it is looked at, any six successive attempts to restart it span more than
    sixty seconds. *)
Theorem supervisor_restart_bound ticks c t k a b :
  cp_restart_count c = 0 -> 0 <= cp_window_start_ns c <= t -> t < 2 ^ 62 -> clock_ok t ticks ->
  (monitor_run ticks c).1 !! k = Some a -> (monitor_run ticks c).1 !! (k + 5)%nat = Some b ->
  a + RESTART_WINDOW_NS < b.
Proof.
  intros Hc Hw Ht Hck Ha Hb.
  assert (Hh : history_ok [] c t).
  { split; [lia|done|done|done|]. intros _. split_and!; try done; lia. }
  pose proof (monitor_run_spaced ticks [] c t Hh Hck) as Hs. rewrite app_nil_r in Hs.
  set (rs := (monitor_run ticks c).1) in *. clearbody rs.
  pose proof (lookup_lt_Some _ _ _ Hb).
  apply (Hs (length rs - S (k + 5))%nat b a); apply reverse_lookup_Some; (split; [|lia]).
  - by replace (length rs - S (length rs - S (k + 5)))%nat with (k + 5)%nat by lia.
  - by replace (length rs - S (length rs - S (k + 5) + 5))%nat with k by lia.
Qed.

(** a tick tries to start a child again exactly when the child was running, is
    now dead or hung, is not on hold, and either ran for more than a minute since
    its last start or was restarted fewer than five times; a restart that succeeds
    leaves it running as the new process, otherwise it is left stopped. *)
Theorem supervisor_restarts_iff now env c actions c' :
  0 <= cp_window_start_ns c < 2 ^ 62 -> 0 <= now < 2 ^ 62 ->
  monitor_child now env c = (actions, c') ->
  (existsb is_spawn actions = true <->
     is_running c = true /\ (ce_alive env = false \/ is_hung now env c = true) /\
     cp_restart_suspended c = false /\
     (now - cp_window_start_ns c > RESTART_WINDOW_NS \/ cp_restart_count c < MAX_RESTARTS)) /\
  (existsb is_spawn actions = true -> cp_proc c' = fst <$> ce_spawned env) /\
  (existsb is_spawn actions = false -> ce_alive env = true /\ is_hung now env c = false \/ cp_proc c' = None).
Proof.
  intros Hw Hn. unfold monitor_child, is_running. destruct (cp_proc c) as [proc|] eqn:Ep.
  2: { intros [= <- <-]. split; [|split]; [|done|by right]. split; [done|]. by intros (? & _). }
  destruct (ce_alive env) eqn:Ea, (is_hung now env c) eqn:Eh; cbn [andb negb].
  2: { intros [= <- <-]. split; [|split]; [|done|by left]. split; [done|]. by intros (_ & [?|?] & _). }
  all: cbn [with_proc cp_restart_suspended cp_window_start_ns cp_restart_count];
    destruct (cp_restart_suspended c) eqn:Es;
    [intros [= <- <-]; split; [|split]; [|done|by right]; split; [done|]; by intros (_ & _ & ? & _)|].
  all: rewrite i64_id by (unfold is_i64; lia);
    destruct (now - cp_window_start_ns c >? RESTART_WINDOW_NS) eqn:Ew;
    cbn [with_count cp_restart_count cp_window_start_ns];
    [|destruct (cp_restart_count c >=? MAX_RESTARTS) eqn:Em].
  all: unfold spawn_child; destruct (ce_spawned env) as [[proc' s]|]; cbv beta iota zeta;
    change (0 >=? MAX_RESTARTS) with false; change (cp_restart_count (with_proc c None)) with (cp_restart_count c);
    try rewrite Em; cbv beta iota; intros E; injection E as <- <-.
  all: try (split; [|split]; [|done|by right]; split; [done|]; intros (_ & _ & _ & H); lia).
  all:
    (split; [|split; [done|done]]); (split; [intros _|done]);
    (split; [done|split; [auto|split; [done|]]]); lia.
Qed.

(** putting a child on hold and releasing it loses it: once the monitor has seen
    the child killed for a fault injection, [supervisor_resume_child] does not bring
    it back; no later tick ever starts it again. *)
Theorem supervisor_resume_is_lost name children actions children1 :
  supervisor_kill_child_and_suspend name children = Some (actions, children1) ->
  exists i, forall now envs now' ticks env,
    length envs = length children -> envs !! i = Some env -> ce_alive env = false ->
    exists c, supervisor_resume_child now' name (supervisor_monitor_tick now envs children1).2 !! i = Some c /\
      cp_proc c = None /\ monitor_run ticks c = ([], c).
Proof.
  unfold supervisor_kill_child_and_suspend. destruct (list_find _ children) as [[i c0]|] eqn:Ef; [|done].
  intros [= <- <-]. exists i. intros now envs now' ticks env Hlen He Ha.
  apply list_find_Some in Ef as (Hi & _ & _). pose proof (lookup_lt_Some _ _ _ Hi) as Hlt.
  set (ch2 := (supervisor_monitor_tick _ _ _).2).
  assert (H2 : exists c2, ch2 !! i = Some c2 /\ cp_proc c2 = None).
  { unfold ch2. rewrite tick_child, He, list_lookup_insert_eq by done. eexists. split; [reflexivity|].
    by apply monitor_suspended. }
  destruct H2 as (c2 & H2 & Hp2). unfold supervisor_resume_child.
  destruct (list_find _ ch2) as [[j cj]|] eqn:Ej.
  2: { exists c2. split_and!; [done..|]. by apply monitor_run_stopped. }
  apply list_find_Some in Ej as (Hj & _ & _). destruct (decide (j = i)) as [->|Hne].
  - rewrite list_lookup_insert_eq by (by apply lookup_lt_Some in H2). eexists. split; [reflexivity|].
    rewrite H2 in Hj. injection Hj as <-. split; [done|]. by apply monitor_run_stopped.
  - rewrite list_lookup_insert_ne by done. exists c2. split_and!; [done..|]. by apply monitor_run_stopped.
Qed.

(** ** Witnesses *)

Definition sample_child : child_proc := ChildProc [98] [47; 98] [[47; 98]] (Some 7) 0 1000 false false.
Definition dead_at (seconds : Z) : Z * child_env :=
  (seconds * 1000000000, ChildEnv false 0 0 (Some (8, seconds * 1000000000 + 1))).
(** A child that dies every two seconds, then lives for a while. *)
Definition crashes : list (Z * child_env) := dead_at <$> [2; 4; 6; 8; 72; 74].

Lemma supervisor_restart_bound_witness :
  (monitor_run crashes sample_child).1 !! 0%nat = Some 2000000000 /\ 2000000000 + RESTART_WINDOW_NS < 74000000000.
Proof.
  split; [by vm_compute|].
  apply (supervisor_restart_bound crashes sample_child 1000 0 2000000000 74000000000);
    [done|done|done|by repeat split|by vm_compute|by vm_compute].
Defined.

Lemma supervisor_restarts_witness :
  is_running sample_child = true /\ existsb is_spawn (monitor_child 2000000000 (dead_at 2).2 sample_child).1 = true.
Proof.
  split; [done|].
  destruct (monitor_child 2000000000 (dead_at 2).2 sample_child) as [actions c'] eqn:E.
  assert (Hw : 0 <= cp_window_start_ns sample_child < 2 ^ 62) by done.
  assert (Hn : 0 <= 2000000000 < 2 ^ 62) by done.
  apply (proj1 (supervisor_restarts_iff 2000000000 (dead_at 2).2 sample_child actions c' Hw Hn E)).
  split; [done|]. split; [by left|]. split; [done|by right].
Defined.

Lemma supervisor_resume_witness :
  exists children1, supervisor_kill_child_and_suspend [98] [sample_child] = Some ([Kill 7], children1) /\
  exists i, forall now envs now' ticks env,
    length envs = 1%nat -> envs !! i = Some env -> ce_alive env = false ->
    exists c, supervisor_resume_child now' [98] (supervisor_monitor_tick now envs children1).2 !! i = Some c /\
      cp_proc c = None /\ monitor_run ticks c = ([], c).
Proof.
  eexists. split; [by vm_compute|].
  exact (supervisor_resume_is_lost [98] [sample_child] [Kill 7] _ eq_refl).
Defined.

(** Three crashes a minute are within the documented rate of five, but the sixth
    crash in a row leaves the child stopped: every start opens the window anew. *)
Example slow_crashes_stop :
  (monitor_run (dead_at <$> [20; 40; 60; 80; 100; 120]) sample_child).1 =
    (fun s => s * 1000000000) <$> [20; 40; 60; 80; 100] /\
  cp_proc (monitor_run (dead_at <$> [20; 40; 60; 80; 100; 120]) sample_child).2 = None.
Proof. by vm_compute. Qed.

(** A spawn that fails once is not tried again. *)
Example failed_spawn_is_final :
  (monitor_run [(2000000000, ChildEnv false 0 0 None); dead_at 4; dead_at 6] sample_child).1 = [2000000000].
Proof. by vm_compute. Qed.
