(* ===== verification/PipelineConfig.v ===== *)
(** * PipelineConfig: the pipeline configuration (src/supervisor/pipeline_config.c)

    Loading starts from the built-in defaults and overrides what the file names.
    [snprintf] into the sensor list can be asked to write past the end of the field;
    C leaves that undefined, and the loader's model stops there with [Overflowed]. *)

From Stdlib Require Import (notations) Strings.String.
From S2P Require Import Prelude Types Digest Binary64 Broker Json Manifest ManifestParse.
#[local] Delimit Scope string_scope with string.

Definition PIPELINE_MAX_PROVIDERS : nat := 8.
Definition CONFIG_BUF_LEN : Z := 65536.
Definition SENSOR_CSV_LEN : Z := 256.
Definition OBICALL_DGT_DEFAULT_HYSTERESIS_MARGIN : f64 := f64_of_bits 4587366580439587226.

Record provider_ref := ProviderRef {
  pr_manifest : list Z;            (* char[512] *)
  pr_worker_name : list Z;         (* char[64] *)
  pr_instance_seed : Z
}.

Record pipeline_config := PipelineConfig {
  pc_pipeline_id : list Z;
  pc_manifests_dir : list Z;
  pc_journal_reorder_window : Z;
  pc_journal_max_lateness_ms : Z;
  pc_journal_max_pending : Z;
  pc_gate_result_validity_ms : Z;
  pc_gate_suspect_timeout_ms : Z;
  pc_gate_confirm_timeout_ms : Z;
  pc_gate_max_replay_gap : Z;
  pc_est_process_noise_position : f64;
  pc_est_process_noise_velocity : f64;
  pc_est_initial_position_variance : f64;
  pc_est_initial_velocity_variance : f64;
  pc_est_max_prediction_gap_s : f64;
  pc_dgt_enabled : Z;
  pc_dgt_hysteresis_margin : f64;
  pc_sensor_ids_csv : list Z;      (* char[256] *)
  pc_providers : list provider_ref;  (* the first [provider_count] of 8 *)
  pc_config_digest : list Z
}.

Inductive load_outcome :=
| Loaded (cfg : pipeline_config)
| LoadFailed
| Overflowed.   (* undefined behaviour: a write outside [sensor_ids_csv] *)

(** ** Members *)

Definition get_bool (json key : list Z) (old : Z) : Z :=
  match find_field_other json key with
  | Some value => if json_span_is_true value then 1 else if json_span_is_false value then 0 else old
  | None => old
  end.

(** The member [key] of the object member [obj]; its value, or the default. *)
Definition get_sub {A} (conv : f64 -> A) (json obj key : list Z) (dflt : A) : A :=
  match find_field_other json obj with
  | Some jo => default dflt (conv <$> find_field_num jo key)
  | None => dflt
  end.

(** ** The list of sensors *)

(** [snprintf(field + off, sizeof(field) - off, "%s%s", sep, name)]: the field, when
    [off] is inside it; beyond its end the size, a [size_t], wraps around to a huge
    one. *)
Definition snprintf_at (field : list Z) (off : Z) (text : list Z) : option (list Z) :=
  if off >? SENSOR_CSV_LEN then None
  else
  let room := SENSOR_CSV_LEN - off in
  if room =? 0 then Some field
  else
  let written := take (Z.to_nat (room - 1)) text ++ [0] in
  Some (take (Z.to_nat off) field ++ written ++ drop (Z.to_nat off + length written) field).

(** One entry of "sensor_ids": the offset and the field. *)
Definition append_sensor (array : list Z) (st : option (Z * list Z)) (i : nat) : option (Z * list Z) :=
  match st with
  | None => None
  | Some (off, field) =>
      match json_array_get array i with
      | Some elem =>
          if sp_is_string elem then
            let '(name, ok) := json_decode_string (span_bytes array elem) OBICALL_SENSOR_ID_LEN in
            if ok then
              let text := (if off >? 0 then [44] else []) ++ c_str name in
              match snprintf_at field off text with
              | None => None
              | Some field => Some (off + Z.of_nat (length text), field)
              end
            else st
          else st
      | None => st
      end
  end.

Definition read_sensor_ids (json : list Z) : option (list Z) :=
  let field := replicate (Z.to_nat SENSOR_CSV_LEN) 0 in
  match find_field_other json (ascii_bytes "sensor_ids"%string) with
  | Some array =>
      snd <$> fold_left (append_sensor array) (seq 0 (default O (json_array_count array))) (Some (0, field))
  | None => Some field
  end.

(** ** Providers and the whole *)

Section load.
Variable ub : f64 -> Z.

Definition zero_provider_ref : provider_ref := ProviderRef (replicate 512 0) (replicate 64 0) 0.

(** The entries taken so far and what is in the slot after them: an entry without a
    manifest is not counted, but stays in its slot. *)
Definition read_provider (array : list Z) (st : list provider_ref * provider_ref) (i : nat)
    : list provider_ref * provider_ref :=
  let '(providers, slot) := st in
  match json_array_get array i with
  | Some elem =>
      if sp_is_string elem then st
      else
      let pobj := span_bytes array elem in
      let '(_, manifest) := find_field_str pobj (ascii_bytes "manifest"%string) (pr_manifest slot) in
      let '(_, worker_name) := find_field_str pobj (ascii_bytes "worker_name"%string) (pr_worker_name slot) in
      let seed := default f64_one (find_field_num pobj (ascii_bytes "instance_seed"%string)) in
      let slot := ProviderRef manifest worker_name (f64_to_i64 ub seed) in
      if bool_decide (c_str manifest = []) then (providers, slot) else (providers ++ [slot], zero_provider_ref)
  | None => st
  end.

Definition read_providers (json : list Z) : list provider_ref :=
  match find_field_other json (ascii_bytes "providers"%string) with
  | Some array =>
      let cnt := Nat.min (default O (json_array_count array)) PIPELINE_MAX_PROVIDERS in
      fst (fold_left (read_provider array) (seq 0 cnt) ([], zero_provider_ref))
  | None => []
  end.

Definition schema_supported (json : list Z) : bool :=
  match find_field_num json (ascii_bytes "schema_version"%string) with
  | Some num => f64_to_u32 ub num =? 1
  | None => true
  end.

(** [file] is [None] when the file cannot be opened. *)
Definition pipeline_config_load (junk : list Z) (file : option (list Z)) : load_outcome :=
  match file with
  | None => LoadFailed
  | Some data =>
  if Z.of_nat (length data) >? CONFIG_BUF_LEN then LoadFailed
  else
  let js := data in
  if negb (schema_supported js) then LoadFailed
  else
  let journal := ascii_bytes "journal"%string in
  let gate := ascii_bytes "gate"%string in
  let estimator := ascii_bytes "estimator"%string in
  let dgt := ascii_bytes "dgt"%string in
  match read_sensor_ids js with
  | None => Overflowed
  | Some sensor_ids_csv =>
      Loaded {|
        pc_pipeline_id := (find_field_str js (ascii_bytes "pipeline_id"%string)
                             (strncpy_zeroed OBICALL_PIPELINE_ID_LEN (ascii_bytes "default"%string))).2;
        pc_manifests_dir := (find_field_str js (ascii_bytes "manifests_dir"%string)
                               (strncpy_zeroed 512 (ascii_bytes "providers"%string))).2;
        pc_journal_reorder_window := get_sub (f64_to_u64 ub) js journal (ascii_bytes "reorder_window"%string) 8;
        pc_journal_max_lateness_ms := get_sub (f64_to_i64 ub) js journal (ascii_bytes "max_lateness_ms"%string) 2000;
        pc_journal_max_pending := get_sub (f64_to_u32 ub) js journal (ascii_bytes "max_pending"%string) 4096;
        pc_gate_result_validity_ms := get_sub (f64_to_i64 ub) js gate (ascii_bytes "result_validity_ms"%string) 500;
        pc_gate_suspect_timeout_ms := get_sub (f64_to_i64 ub) js gate (ascii_bytes "suspect_timeout_ms"%string) 300;
        pc_gate_confirm_timeout_ms := get_sub (f64_to_i64 ub) js gate (ascii_bytes "confirm_timeout_ms"%string) 700;
        pc_gate_max_replay_gap := get_sub (f64_to_u64 ub) js gate (ascii_bytes "max_replay_gap"%string) 50;
        pc_est_process_noise_position :=
          get_sub id js estimator (ascii_bytes "process_noise_position"%string) (f64_of_bits 4587366580439587226);
        pc_est_process_noise_velocity :=
          get_sub id js estimator (ascii_bytes "process_noise_velocity"%string) (f64_of_bits 4591870180066957722);
        pc_est_initial_position_variance :=
          get_sub id js estimator (ascii_bytes "initial_position_variance"%string) (f64_of_bits 4621819117588971520);
        pc_est_initial_velocity_variance :=
          get_sub id js estimator (ascii_bytes "initial_velocity_variance"%string) (f64_of_bits 4621819117588971520);
        pc_est_max_prediction_gap_s :=
          get_sub id js estimator (ascii_bytes "max_prediction_gap_s"%string) (f64_of_bits 4629137466983448576);
        pc_dgt_enabled :=
          match find_field_other js dgt with
          | Some jo => get_bool jo (ascii_bytes "enabled"%string) 0
          | None => 0
          end;
        pc_dgt_hysteresis_margin :=
          get_sub id js dgt (ascii_bytes "hysteresis_margin"%string) OBICALL_DGT_DEFAULT_HYSTERESIS_MARGIN;
        pc_sensor_ids_csv := sensor_ids_csv;
        pc_providers := read_providers js;
        pc_config_digest := obicall_sha256 junk data
      |}
  end
  end.
End load.

(** * Lemmas *)

(** ** The list of sensors, from the file to the broker *)

Fixpoint join (names : list (list Z)) : list Z :=
  match names with
  | [] => []
  | [n] => n
  | n :: names => n ++ 44 :: join names
  end.

Lemma join_length_app names post : (length (join names) <= length (join (names ++ post)))%nat.
Proof.
  revert post. induction names as [|n names IH]; intros post; [cbn; lia|]. destruct names as [|m names].
  - destruct post; cbn; [done|]. rewrite length_app. lia.
  - specialize (IH post). cbn [join app] in *. rewrite !length_app. cbn [length]. lia.
Qed.

(** A sensor id that survives: not empty, no comma, no NUL, room for a terminator. *)
Definition plain_id (n : list Z) : Prop :=
  n <> [] /\ (44 ∉ n) /\ (0 ∉ n) /\ (length n < OBICALL_SENSOR_ID_LEN)%nat.

Lemma join_snoc names n :
  join (names ++ [n]) = join names ++ (if bool_decide (names = []) then [] else [44]) ++ n.
Proof.
  induction names as [|m names IH]; [done|]. rewrite bool_decide_eq_false_2 by done.
  destruct names as [|m' names]; [done|]. cbn [app join] in *. rewrite IH, bool_decide_eq_false_2 by done.
  by rewrite <- app_assoc.
Qed.

Lemma join_nil names : Forall plain_id names -> join names = [] <-> names = [].
Proof.
  intros H. split; [|by intros ->]. destruct names as [|n [|m names]]; [done| |by destruct n].
  cbn. intros ->. by apply Forall_inv in H as (? & _).
Qed.

Lemma c_str_no_zero n : 0 ∉ n -> c_str n = n.
Proof.
  induction n as [|c n IH]; [done|]. rewrite not_elem_of_cons. intros [Hc Hn]. cbn.
  rewrite (proj2 (Z.eqb_neq c 0)) by congruence. by rewrite IH.
Qed.

Lemma c_str_app_zeros s k : 0 ∉ s -> c_str (s ++ replicate (S k) 0) = s.
Proof.
  induction s as [|c s IH]; [done|]. rewrite not_elem_of_cons. intros [Hc Hn]. cbn [app c_str].
  rewrite (proj2 (Z.eqb_neq c 0)) by congruence. by rewrite IH.
Qed.

Lemma c_str_pad n s : 0 ∉ s -> (length s < n)%nat -> c_str (pad n 0 s) = s.
Proof.
  intros Hz Hl. unfold pad. destruct (n - length s)%nat as [|k] eqn:E; [lia|]. by apply c_str_app_zeros.
Qed.

Lemma snprintf_at_pad s text :
  Z.of_nat (length s + length text) < SENSOR_CSV_LEN ->
  snprintf_at (pad (Z.to_nat SENSOR_CSV_LEN) 0 s) (Z.of_nat (length s)) text =
  Some (pad (Z.to_nat SENSOR_CSV_LEN) 0 (s ++ text)).
Proof.
  intros H. unfold snprintf_at, pad. destruct (_ >? _) eqn:E1; [lia|]. destruct (_ =? 0) eqn:E2; [lia|].
  f_equal. rewrite Nat2Z.id, take_app_length, (take_ge text) by lia. rewrite !length_app. cbn [length].
  rewrite drop_app, (drop_ge s) by lia. rewrite drop_replicate, <- !app_assoc. cbn [app]. do 2 f_equal.
  replace (Z.to_nat SENSOR_CSV_LEN - (length s + length text))%nat
    with (S (Z.to_nat SENSOR_CSV_LEN - length s - (length s + (length text + 1) - length s))) by lia.
  done.
Qed.

(** What the loader makes of an element of the array: an id, however it is escaped, or
    nothing at all, without a word, for an id of 32 bytes or more and for what is no string. *)
Inductive reads_as : list Z -> option (list Z) -> Prop :=
| ReadsId body n : spells body n -> plain_id n -> reads_as (token_of_body body) (Some n)
| ReadsTooLong body n : spells body n -> (OBICALL_SENSOR_ID_LEN <= length n)%nat -> reads_as (token_of_body body) None
| ReadsOther v : is_str v = false -> reads_as v None.

(** The id appended to the field, after a comma if it is not the first. *)
Definition put_name (st : option (Z * list Z)) (n : list Z) : option (Z * list Z) :=
  '(off, field) ← st;
  let text := (if off >? 0 then [44] else []) ++ n in
  (fun field' => (off + Z.of_nat (length text), field')) <$> snprintf_at field off text.

Lemma append_sensor_reads array toks i tok o st :
  array_text toks array -> toks !! i = Some tok -> reads_as tok o ->
  append_sensor array st i = match o with Some n => put_name st n | None => st end.
Proof.
  intros Ha Hi Ho. destruct (json_array_text _ _ Ha) as [_ Hget]. specialize (Hget i). rewrite Hi in Hget.
  destruct Hget as (sp & Hget & [Hs Hb _]). unfold append_sensor, put_name. destruct st as [[off field]|]; [|by destruct o].
  rewrite Hget, Hs. destruct Ho as [body n Hsp (_ & _ & Hz & Hlen)|body n Hsp Hlen|v Hv].
  - destruct (token_content body) as [-> Hc]. rewrite Hb, Hc, (decode_spells body n) by done.
    rewrite bool_decide_eq_true_2 by done. assert (Hcs : c_str (n ++ [0]) = n) by (by apply (c_str_app_zeros n 0)).
    rewrite Hcs. cbn [mbind option_bind]. by destruct (snprintf_at field off _).
  - destruct (token_content body) as [-> Hc]. rewrite Hb, Hc, (decode_spells body n) by done.
    by rewrite bool_decide_eq_false_2 by lia.
  - by rewrite Hv.
Qed.

Lemma append_sensors_names array toks opts st :
  array_text toks array -> Forall2 reads_as toks opts ->
  fold_left (append_sensor array) (seq 0 (length toks)) st = fold_left put_name (omap Datatypes.id opts) st.
Proof.
  intros Ha Ho. enough (H : forall pre post st, toks = pre ++ post -> forall opts, Forall2 reads_as post opts ->
    fold_left (append_sensor array) (seq (length pre) (length post)) st = fold_left put_name (omap Datatypes.id opts) st)
    by by apply (H [] toks).
  clear opts Ho st. intros pre post. revert pre. induction post as [|tok post IH]; intros pre st E opts Ho.
  { by inversion Ho. }
  apply Forall2_cons_inv_l in Ho as (o & opts' & Ho & Hos & ->). cbn [length seq fold_left].
  rewrite (append_sensor_reads array toks _ tok o) by (done || (rewrite E; by apply list_lookup_middle)).
  specialize (IH (pre ++ [tok])). rewrite length_app, Nat.add_1_r in IH.
  rewrite (IH _ ltac:(by rewrite <- app_assoc) opts' Hos). by destruct o.
Qed.

Section sensors.
Context (names : list (list Z)) (Hnames : Forall plain_id names).

Definition separated (pre : list (list Z)) (n : list Z) : list Z := (if bool_decide (pre = []) then [] else [44]) ++ n.

Lemma append_sensor_name pre n post off field :
  names = pre ++ n :: post -> off = Z.of_nat (length (join pre)) ->
  put_name (Some (off, field)) n =
  (fun field' => (off + Z.of_nat (length (separated pre n)), field')) <$> snprintf_at field off (separated pre n).
Proof using Hnames.
  intros Hn Hoff. unfold put_name. cbn [mbind option_bind].
  assert (Hsep : (if off >? 0 then [44] else []) = (if bool_decide (pre = []) then [] else [44] : list Z)).
  { assert (Hpre : Forall plain_id pre) by (rewrite Hn in Hnames; by apply Forall_app in Hnames as [? _]).
    pose proof (join_nil pre Hpre) as Hj. case_bool_decide as Hpn.
    - rewrite Hoff, Hpn. done.
    - destruct (join pre) as [|c l]; [by destruct Hpn; apply Hj|]. rewrite Hoff. cbn [length].
      by rewrite (proj2 (Z.gtb_lt _ 0)) by lia. }
  by rewrite Hsep.
Qed.

Lemma join_length_snoc pre n : length (join (pre ++ [n])) = (length (join pre) + length (separated pre n))%nat.
Proof. rewrite join_snoc. unfold separated. by rewrite !length_app. Qed.

Lemma append_sensors_fit pre post :
  names = pre ++ post -> Z.of_nat (length (join names)) < SENSOR_CSV_LEN ->
  fold_left put_name post
    (Some (Z.of_nat (length (join pre)), pad (Z.to_nat SENSOR_CSV_LEN) 0 (join pre))) =
  Some (Z.of_nat (length (join names)), pad (Z.to_nat SENSOR_CSV_LEN) 0 (join names)).
Proof using Hnames.
  revert pre. induction post as [|n post IH]; intros pre Hn Hfit.
  { rewrite app_nil_r in Hn. by rewrite Hn. }
  cbn [fold_left]. rewrite (append_sensor_name pre n post) by done.
  assert (Hle : (length (join pre) + length (separated pre n) <= length (join names))%nat).
  { rewrite <- join_length_snoc, Hn. replace (pre ++ n :: post) with ((pre ++ [n]) ++ post) by (by rewrite <- app_assoc).
    apply join_length_app. }
  rewrite snprintf_at_pad by lia. cbn [fmap option_fmap option_map].
  specialize (IH (pre ++ [n])). rewrite join_length_snoc, join_snoc in IH. rewrite <- Nat2Z.inj_add. apply IH; [by rewrite <- app_assoc|done].
Qed.

(** Once the text no longer fits and another name follows, the write is outside. *)
Lemma append_sensors_overflow pre post st :
  names = pre ++ post ->
  (st = None \/ exists field, st = Some (Z.of_nat (length (join pre)), field)) ->
  (exists mid n post', post = mid ++ n :: post' /\ SENSOR_CSV_LEN < Z.of_nat (length (join (pre ++ mid)))) ->
  fold_left put_name post st = None.
Proof using Hnames.
  revert pre st. induction post as [|n post IH]; intros pre st Hn Hst (mid & m & post' & Hp & Hover); [by destruct mid|].
  cbn [fold_left]. specialize (IH (pre ++ [n])).
  destruct Hst as [->|[field ->]].
  { clear. cbn. by induction post. }
  rewrite (append_sensor_name pre n post) by done. destruct mid as [|n' mid].
  - rewrite app_nil_r in Hover. unfold snprintf_at. rewrite (proj2 (Z.gtb_lt _ SENSOR_CSV_LEN)) by lia.
    cbn. clear. by induction post.
  - injection Hp as <- Hp. apply IH; [by rewrite <- app_assoc| |].
    + destruct (snprintf_at _ _ _) as [field'|]; [right|by left]. exists field'. cbn.
      by rewrite join_length_snoc, Nat2Z.inj_add.
    + exists mid, m, post'. by rewrite <- app_assoc.
Qed.
End sensors.

Lemma strtok_run acc n rest : 44 ∉ n -> strtok 44 acc (n ++ rest) = strtok 44 (acc ++ n) rest.
Proof.
  revert acc. induction n as [|c n IH]; intros acc Hc; [by rewrite app_nil_r|].
  apply not_elem_of_cons in Hc as [Hc Hn]. cbn [app strtok]. rewrite (proj2 (Z.eqb_neq c 44)) by congruence.
  by rewrite IH, <- app_assoc.
Qed.

Lemma strtok_join names : Forall plain_id names -> strtok 44 [] (join names) = names.
Proof.
  induction 1 as [|n names (Hne & Hc & _ & _) _ IH]; [done|]. destruct names as [|m names].
  - cbn [join]. rewrite <- (app_nil_r n) at 1. rewrite strtok_run by done. cbn. by destruct n.
  - change (join (n :: m :: names)) with (n ++ 44 :: join (m :: names)). rewrite strtok_run by done.
    cbn [app strtok Z.eqb Pos.eqb]. rewrite IH. by destruct n.
Qed.

Lemma join_no_zero names : Forall plain_id names -> 0 ∉ join names.
Proof.
  induction 1 as [|n names (_ & _ & Hz & _) _ IH]; [by apply not_elem_of_nil|]. destruct names as [|m names]; [done|].
  change (join (n :: m :: names)) with (n ++ 44 :: join (m :: names)).
  rewrite elem_of_app, elem_of_cons. by intros [?|[?|?]].
Qed.

Lemma read_sensor_ids_text ms js elems toks opts :
  object_text ms js ->
  first_member (ascii_bytes "sensor_ids"%string) ms = Some (91 :: elems ++ [93]) ->
  elements_text toks elems -> Forall2 reads_as toks opts ->
  read_sensor_ids js = snd <$> fold_left put_name (omap Datatypes.id opts) (Some (0, pad (Z.to_nat SENSOR_CSV_LEN) 0 [])).
Proof.
  intros Ho Hm He Hr. assert (Ha : array_text toks (91 :: elems ++ [93])) by (by exists [], elems, []).
  unfold read_sensor_ids. rewrite (find_field_other_text ms js Ho _ _ Hm) by done.
  rewrite (proj1 (json_array_text _ _ Ha)). cbn [default]. rewrite (append_sensors_names _ toks opts) by done.
  unfold pad. cbn [length app]. by rewrite Nat.sub_0_r.
Qed.

Lemma reads_quoted names : Forall plain_id names -> Forall2 reads_as (quoted <$> names) (Some <$> names).
Proof.
  induction 1 as [|n names Hn _ IH]; [constructor|]. constructor; [|exact IH].
  apply (ReadsId (escape n)); [apply escape_spells|exact Hn].
Qed.

Lemma omap_Some_id {A} (l : list A) : omap Datatypes.id (Some <$> l) = l.
Proof. induction l as [|x l IH]; [done|]. cbn. by rewrite IH. Qed.

Lemma reads_plain toks opts : Forall2 reads_as toks opts -> Forall plain_id (omap Datatypes.id opts).
Proof. induction 1 as [|tok o toks opts Ho _ IH]; [constructor|]. destruct Ho; cbn; [by constructor|done..]. Qed.

Lemma read_provider_wf ub array st i :
  Forall (fun p => c_str (pr_manifest p) <> []) st.1 ->
  Forall (fun p => c_str (pr_manifest p) <> []) (read_provider ub array st i).1 /\
  (length (read_provider ub array st i).1 <= S (length st.1))%nat.
Proof.
  destruct st as [providers slot]. cbn [fst]. intros H. unfold read_provider.
  destruct (json_array_get array i) as [elem|]; [|by split; [|cbn; lia]].
  destruct (sp_is_string elem); [by split; [|cbn; lia]|].
  destruct (find_field_str _ _ (pr_manifest slot)) as [? manifest].
  destruct (find_field_str _ _ (pr_worker_name slot)) as [? worker_name].
  case_bool_decide; cbn [fst]; [split; [done|lia]|]. rewrite length_app. cbn [length].
  split; [|lia]. apply Forall_app. by split; [|constructor].
Qed.

Lemma read_providers_wf ub json :
  Forall (fun p => c_str (pr_manifest p) <> []) (read_providers ub json) /\
  (length (read_providers ub json) <= PIPELINE_MAX_PROVIDERS)%nat.
Proof.
  unfold read_providers. destruct (find_field_other _ _) as [array|]; [|by split; [|cbn; lia]].
  set (cnt := Nat.min _ _). assert (Hc : (cnt <= PIPELINE_MAX_PROVIDERS)%nat) by (unfold cnt; lia).
  enough (H : forall idxs st, Forall (fun p => c_str (pr_manifest p) <> []) st.1 ->
    Forall (fun p => c_str (pr_manifest p) <> []) (fold_left (read_provider ub array) idxs st).1 /\
    (length (fold_left (read_provider ub array) idxs st).1 <= length idxs + length st.1)%nat).
  { destruct (H (seq 0 cnt) ([], zero_provider_ref)) as [H1 H2]; [constructor|]. split; [done|].
    rewrite length_seq in H2. cbn [fst length] in H2. lia. }
  induction idxs as [|i idxs IH]; intros st Hst; [by split; [|cbn; lia]|]. cbn [fold_left].
  destruct (read_provider_wf ub array st i Hst) as [H1 H2]. destruct (IH _ H1) as [H3 H4].
  split; [done|]. cbn [length]. lia.
Qed.

(** ** The values stay within the types of their fields *)

Record wf_pipeline_config (cfg : pipeline_config) : Prop := {
  wpc_reorder_window : is_u64 (pc_journal_reorder_window cfg);
  wpc_max_lateness_ms : is_i64 (pc_journal_max_lateness_ms cfg);
  wpc_max_pending : is_u32 (pc_journal_max_pending cfg);
  wpc_result_validity_ms : is_i64 (pc_gate_result_validity_ms cfg);
  wpc_suspect_timeout_ms : is_i64 (pc_gate_suspect_timeout_ms cfg);
  wpc_confirm_timeout_ms : is_i64 (pc_gate_confirm_timeout_ms cfg);
  wpc_max_replay_gap : is_u64 (pc_gate_max_replay_gap cfg);
  wpc_digest : is_chars 32 (pc_config_digest cfg);
  wpc_providers : (length (pc_providers cfg) <= PIPELINE_MAX_PROVIDERS)%nat
}.

Lemma f64_to_int_range lo hi ub x (P : Z -> Prop) :
  (forall v, lo <= v <= hi -> P v) -> P (ub x) -> P (f64_to_int lo hi ub x).
Proof.
  intros Hv Hu. unfold f64_to_int. destruct (f64_trunc x) as [v|]; [|done].
  destruct ((lo <=? v) && (v <=? hi)) eqn:E; [|done]. apply Hv. lia.
Qed.

Lemma get_sub_range {A} (P : A -> Prop) (conv : f64 -> A) json obj key dflt :
  (forall x, P (conv x)) -> P dflt -> P (get_sub conv json obj key dflt).
Proof.
  intros Hc Hd. unfold get_sub. destruct (find_field_other json obj); [|done].
  destruct (find_field_num _ key); [apply Hc|done].
Qed.

Lemma sha256_output_chars st : is_chars 32 (sha256_output st).
Proof.
  assert (Hb : forall v, is_chars 4 (be_bytes4 v)).
  { intros v. split; [done|]. unfold be_bytes4. repeat (apply Forall_cons_2; [apply u8_range|]). apply Forall_nil_2. }
  unfold sha256_output. split.
  - rewrite !length_app. by rewrite !(proj1 (Hb _)).
  - rewrite !Forall_app. by split_and!; apply Hb.
Qed.

Lemma pipeline_config_load_wf ub junk file cfg :
  pipeline_config_load ub junk file = Loaded cfg -> wf_pipeline_config cfg.
Proof.
  unfold pipeline_config_load. destruct file as [js|]; [|done]. destruct (_ >? _); [done|].
  destruct (schema_supported ub js); [|done]. cbn [negb]. destruct (read_sensor_ids js); [|done].
  intros H. injection H as <-.
  assert (H64 : forall x, is_u64 (f64_to_u64 ub x)).
  { intros x. apply (f64_to_int_range _ _ _ _ is_u64); [unfold is_u64; lia|apply u64_range]. }
  assert (H32 : forall x, is_u32 (f64_to_u32 ub x)).
  { intros x. apply (f64_to_int_range _ _ _ _ is_u32); [unfold is_u32; lia|apply u32_range]. }
  assert (Hi : forall x, is_i64 (f64_to_i64 ub x)).
  { intros x. apply (f64_to_int_range _ _ _ _ is_i64); [unfold is_i64, INT64_MIN, INT64_MAX; lia|apply i64_range]. }
  split; cbn [pc_journal_reorder_window pc_journal_max_lateness_ms pc_journal_max_pending pc_gate_result_validity_ms
    pc_gate_suspect_timeout_ms pc_gate_confirm_timeout_ms pc_gate_max_replay_gap pc_config_digest pc_providers];
    try (by apply get_sub_range).
  - apply sha256_output_chars.
  - apply read_providers_wf.
Qed.

(** * What the loader promises *)

(** C28: the sensors of the configuration file are the sensors of the brokers: the ids of
    its list, in whatever JSON layout and with whatever escapes of two characters, are
    found again, in order, by the broker that is given the joined text (it keeps the first
    eight).  That is for ids without comma and NUL and of one to 31 bytes, whose joined
    length is below the field's; an id of 32 bytes or more, and an element that is no
    string, is left out silently.  (Escapes of the form \u are read as question marks.) *)
Theorem config_sensors_reach_broker ub junk ms js elems toks opts :
  object_text ms js -> Z.of_nat (length js) <= CONFIG_BUF_LEN -> schema_supported ub js = true ->
  first_member (ascii_bytes "sensor_ids"%string) ms = Some (91 :: elems ++ [93]) ->
  elements_text toks elems -> Forall2 reads_as toks opts ->
  let names := omap Datatypes.id opts in
  Z.of_nat (length (join names)) < SENSOR_CSV_LEN ->
  exists cfg, pipeline_config_load ub junk (Some js) = Loaded cfg /\
    sensor_names_of (pc_sensor_ids_csv cfg) = strncpy_zeroed OBICALL_SENSOR_ID_LEN <$> take 8 names.
Proof.
  intros Ho Hl Hsch Hm He Hops names Hfit. pose proof (reads_plain _ _ Hops) as Hn. fold names in Hn.
  pose proof (read_sensor_ids_text ms js elems toks opts Ho Hm He Hops) as Hr. fold names in Hr.
  pose proof (append_sensors_fit names Hn [] names eq_refl Hfit) as Hfold. cbn [length join] in Hfold.
  change (Z.of_nat 0) with 0 in Hfold. rewrite Hfold in Hr. cbn [fmap option_fmap option_map snd] in Hr.
  unfold pipeline_config_load. destruct (_ >? _) eqn:E; [lia|]. rewrite Hsch. cbn [negb]. rewrite Hr.
  eexists. split; [reflexivity|]. cbn [pc_sensor_ids_csv]. unfold sensor_names_of.
  rewrite c_str_pad; [|by apply join_no_zero|lia].
  rewrite (take_ge (join names)) by (unfold SENSOR_CSV_LEN in Hfit; lia). by rewrite strtok_join.
Qed.

(** the sensor list can overrun its field: when the ids joined so far are longer
    than the field and another id follows, the loader writes outside of it instead
    of refusing the file. *)
Theorem config_sensors_overflow ub junk ms js elems pre n post :
  object_text ms js -> Z.of_nat (length js) <= CONFIG_BUF_LEN -> schema_supported ub js = true ->
  first_member (ascii_bytes "sensor_ids"%string) ms = Some (91 :: elems ++ [93]) ->
  elements_text (quoted <$> (pre ++ n :: post)) elems -> Forall plain_id (pre ++ n :: post) ->
  SENSOR_CSV_LEN < Z.of_nat (length (join pre)) ->
  pipeline_config_load ub junk (Some js) = Overflowed.
Proof.
  intros Ho Hl Hsch Hm He Hn Hover.
  pose proof (read_sensor_ids_text ms js elems _ _ Ho Hm He (reads_quoted _ Hn)) as Hr. rewrite omap_Some_id in Hr.
  rewrite (append_sensors_overflow (pre ++ n :: post) Hn [] (pre ++ n :: post)) in Hr;
    [|done|right; by eexists|by exists pre, n, post].
  unfold pipeline_config_load. destruct (_ >? _) eqn:E; [lia|]. rewrite Hsch. cbn [negb]. by rewrite Hr.
Qed.

(** a configuration that loads has at most eight providers, each with a manifest,
    and carries the digest of exactly the bytes that were read, which the gate later
    compares between brokers. *)
Theorem config_well_formed ub junk js cfg :
  pipeline_config_load ub junk (Some js) = Loaded cfg ->
  Z.of_nat (length js) <= CONFIG_BUF_LEN /\ pc_config_digest cfg = obicall_sha256 junk js /\
  (length (pc_providers cfg) <= PIPELINE_MAX_PROVIDERS)%nat /\
  Forall (fun p => c_str (pr_manifest p) <> []) (pc_providers cfg).
Proof.
  unfold pipeline_config_load. destruct (_ >? _) eqn:E; [done|]. destruct (schema_supported ub js); [|done].
  cbn [negb]. destruct (read_sensor_ids js); [|done]. intros H. injection H as <-. cbn [pc_config_digest pc_providers].
  destruct (read_providers_wf ub js) as [H1 H2]. split; [lia|]. by split; [|split].
Qed.

(** ** Witnesses *)

(** A configuration with the members "sensor_ids" and "providers". *)
Definition config_text (elems : list Z) : list Z :=
  123 :: (sample_member (ascii_bytes "sensor_ids"%string) (91 :: elems ++ [93])) ++ [125].
Definition config_members (elems : list Z) : list (list Z * list Z) :=
  [(ascii_bytes "sensor_ids"%string, 91 :: elems ++ [93])].

Lemma config_text_object toks elems :
  elements_text toks elems -> object_text (config_members elems) (config_text elems).
Proof.
  intros He. exists [], (sample_member (ascii_bytes "sensor_ids"%string) (91 :: elems ++ [93])), [].
  split; [done|]. split; [|reflexivity].
  assert (Hv : value_text (91 :: elems ++ [93])) by (by apply (vt_array toks)).
  pose proof (mt_one [] (ascii_bytes "sensor_ids"%string) [] [] (91 :: elems ++ [93]) [] eq_refl
    (plain_body (ascii_bytes "sensor_ids"%string) eq_refl) eq_refl eq_refl Hv eq_refl) as H.
  rewrite app_nil_r in H. exact H.
Qed.

(** The elements of a list of strings, without spaces. *)
Fixpoint list_text (names : list (list Z)) : list Z :=
  match names with
  | [] => []
  | [n] => quoted n
  | n :: names => quoted n ++ 44 :: list_text names
  end.
Lemma list_text_elements names : elements_text (quoted <$> names) (list_text names).
Proof.
  induction names as [|n names IH]; [by apply et_none|].
  assert (Hv : value_text (quoted n)) by apply vt_string, escape_body.
  destruct names as [|m names].
  - cbn [list_text fmap list_fmap]. rewrite <- (app_nil_r (quoted n)) at 2. by apply (et_one [] (quoted n) []).
  - rewrite fmap_cons. change (list_text (n :: m :: names)) with (quoted n ++ 44 :: list_text (m :: names)).
    by apply (et_more [] (quoted n) [] (quoted <$> (m :: names)) (list_text (m :: names))).
Qed.

Definition two_sensors : list (list Z) := [[115; 49]; [115; 50]].
Definition many_sensors : list (list Z) := replicate 10 (replicate 30 120).

(** The second of three ids is written with an escape, the third is too long. *)
Definition three_tokens : list (list Z) := [quoted [115; 49]; token_of_body [92; 47; 50]; quoted (replicate 32 120)].
Definition three_names : list (option (list Z)) := [Some [115; 49]; Some [47; 50]; None].

Lemma three_elements :
  elements_text three_tokens (quoted [115; 49] ++ 44 :: token_of_body [92; 47; 50] ++ 44 :: quoted (replicate 32 120)).
Proof.
  assert (Hq : forall s, value_text (quoted s)) by (intros s; apply vt_string, escape_body).
  assert (Ht : value_text (token_of_body [92; 47; 50])) by (apply vt_string; repeat constructor; lia).
  apply (et_more [] (quoted [115; 49]) []); [done..|].
  apply (et_more [] (token_of_body [92; 47; 50]) []); [done..|].
  rewrite <- (app_nil_r (quoted (replicate 32 120))) at 2. by apply (et_one [] (quoted (replicate 32 120)) []).
Qed.

Lemma plain_id_small n :
  negb (bool_decide (n = [])) && forallb (fun c => negb (c =? 44) && negb (c =? 0)) n && (length n <? 32)%nat = true -> plain_id n.
Proof.
  intros H. apply andb_true_iff in H as [[Hne Hf]%andb_true_iff Hl]. apply negb_true_iff, bool_decide_eq_false in Hne.
  rewrite forallb_forall in Hf. split; [done|]. split_and!.
  - intros Hc%list_elem_of_In%Hf. done.
  - intros Hc%list_elem_of_In%Hf. done.
  - by apply Nat.ltb_lt in Hl.
Qed.

Lemma three_reads : Forall2 reads_as three_tokens three_names.
Proof.
  constructor; [apply (ReadsId (escape [115; 49])); [apply escape_spells|by apply plain_id_small]|].
  constructor; [apply (ReadsId [92; 47; 50]); [by apply spells_escape; [|repeat constructor; lia]|by apply plain_id_small]|].
  constructor; [|constructor]. apply (ReadsTooLong (escape (replicate 32 120)) (replicate 32 120)); [apply escape_spells|].
  apply Nat.leb_le. reflexivity.
Qed.

Lemma config_sensors_witness :
  let elems := quoted [115; 49] ++ 44 :: token_of_body [92; 47; 50] ++ 44 :: quoted (replicate 32 120) in
  exists cfg, pipeline_config_load no_ub [] (Some (config_text elems)) = Loaded cfg /\
    sensor_names_of (pc_sensor_ids_csv cfg) = strncpy_zeroed OBICALL_SENSOR_ID_LEN <$> [[115; 49]; [47; 50]].
Proof.
  intros elems. apply (config_sensors_reach_broker no_ub [] (config_members elems) _ elems three_tokens three_names);
    [exact (config_text_object three_tokens _ three_elements)|by vm_compute|by vm_compute|reflexivity
    |exact three_elements|exact three_reads|by vm_compute].
Defined.

Lemma config_overflow_witness :
  pipeline_config_load no_ub [] (Some (config_text (list_text many_sensors))) = Overflowed.
Proof.
  apply (config_sensors_overflow no_ub [] (config_members (list_text many_sensors)) _ (list_text many_sensors)
           (replicate 9 (replicate 30 120)) (replicate 30 120) []);
    [exact (config_text_object (quoted <$> many_sensors) _ (list_text_elements many_sensors))|by vm_compute|by vm_compute|reflexivity
    |exact (list_text_elements many_sensors)| |by vm_compute].
  repeat constructor; try (apply (bool_decide_unpack _); by vm_compute); try (apply Nat.ltb_lt; by vm_compute).
Defined.

Lemma config_well_formed_witness :
  exists cfg, pipeline_config_load no_ub [] (Some [123; 125]) = Loaded cfg /\
    (length (pc_providers cfg) <= PIPELINE_MAX_PROVIDERS)%nat.
Proof.
  eexists. split; [reflexivity|].
  exact (proj1 (proj2 (proj2 (config_well_formed no_ub [] [123; 125] _ eq_refl)))).
Defined.

(** An entry without a manifest leaves its worker name to the one after it. *)
Example provider_inherits_name :
  (fun p => (c_str (pr_manifest p), c_str (pr_worker_name p))) <$>
    read_providers no_ub ((fun c => if c =? 39 then 34 else c) <$>
      ascii_bytes "{'providers':[{'worker_name':'w'},{'manifest':'m'}]}"%string)
  = [([109], [119])].
Proof. by vm_compute. Qed.
