(* ===== verification/CSim.v ===== *)
(** * CSim: the simulated position sensor (src/providers/c_sim/provider_c_sim.c)

    The reference provider: a noisy walk along a line, with faults that a control
    observation switches on.  [log] and [cos] are parameters, because C leaves the
    accuracy of libm open; the clock readings are inputs.  What is proved holds for
    every choice of them: the order and spacing of what it emits, the round trip of
    its checkpoint, the health of its random generator. *)

From Stdlib Require Import Sorting.Sorted.
From Stdlib Require Import (notations) Strings.String.
From S2P Require Import Prelude Types Samples Cursor Wire Binary64 Estimator Json Manifest ManifestParse.
#[local] Delimit Scope string_scope with string.

Definition OBICALL_C_SIM_EVENT_OBSERVATION : Z := 1.
Definition OBICALL_C_SIM_CHECKPOINT_VERSION : Z := 1.
Definition SIM_FAULT_NONE : Z := 0.
Definition SIM_FAULT_DROPOUT : Z := 1.
Definition SIM_FAULT_BIAS : Z := 2.
Definition SIM_FAULT_DELAY : Z := 3.

Record sim_provider := SimProvider {
  sim_sensor_id : list Z;              (* char[32] *)
  sim_noise_std : f64;
  sim_update_period_ns : Z;
  sim_origin_x : f64;
  sim_origin_y : f64;
  sim_speed_x : f64;
  sim_speed_y : f64;
  sim_source_boot_id : Z;
  sim_next_sequence : Z;
  sim_start_time_ns : Z;
  sim_last_emit_time_ns : Z;
  sim_rng_state : Z;
  sim_fault_mode : Z;
  sim_fault_bias : f64;
  sim_fault_dropout_prob : f64;
  sim_fault_extra_delay_ns : Z
}.

Definition with_progress (p : sim_provider) (next_sequence last_emit_time_ns rng_state : Z) : sim_provider :=
  SimProvider (sim_sensor_id p) (sim_noise_std p) (sim_update_period_ns p) (sim_origin_x p) (sim_origin_y p)
    (sim_speed_x p) (sim_speed_y p) (sim_source_boot_id p) next_sequence (sim_start_time_ns p)
    last_emit_time_ns rng_state (sim_fault_mode p) (sim_fault_bias p) (sim_fault_dropout_prob p)
    (sim_fault_extra_delay_ns p).
Definition with_fault (p : sim_provider) (mode : Z) (bias dropout_prob : f64) (extra_delay_ns : Z) : sim_provider :=
  SimProvider (sim_sensor_id p) (sim_noise_std p) (sim_update_period_ns p) (sim_origin_x p) (sim_origin_y p)
    (sim_speed_x p) (sim_speed_y p) (sim_source_boot_id p) (sim_next_sequence p) (sim_start_time_ns p)
    (sim_last_emit_time_ns p) (sim_rng_state p) mode bias dropout_prob extra_delay_ns.

Definition f64_1e6 : f64 := f64_of_bits 4696837146684686336.
Definition f64_1e9 : f64 := f64_of_bits 4741671816366391296.
Definition f64_1e_12 : f64 := f64_of_bits 4427486594234968593.
Definition f64_minus_2 : f64 := f64_of_bits 13835058055282163712.
Definition two_pi : f64 := f64_of_bits 4618760256179416344.

(** ** Random numbers *)

Definition xorshift32 (state : Z) : Z :=
  let x := state in
  let x := Z.lxor x (u32 (Z.shiftl x 13)) in
  let x := Z.lxor x (Z.shiftr x 17) in
  Z.lxor x (u32 (Z.shiftl x 5)).

(** The number and the new state. *)
Definition uniform01 (state : Z) : f64 * Z :=
  let state := xorshift32 state in
  ((f64_of_Z (Z.shiftr state 8) / f64_of_Z (Z.shiftl 1 24))%f64, state).

Section sim.
Context (log cos : f64 -> f64) (nan : Z) (ub : f64 -> Z).

Definition gaussian (state : Z) (mean stddev : f64) : f64 * Z :=
  let '(u1, state) := uniform01 state in
  let u1 := if (u1 <? f64_1e_12)%f64 then f64_1e_12 else u1 in
  let '(u2, state) := uniform01 state in
  let z := (f64_sqrt (f64_minus_2 * log u1) * cos (two_pi * u2))%f64 in
  ((mean + stddev * z)%f64, state).

(** ** The vtable *)

(** [config_json] is empty when there is none; the clock is read twice. *)
Definition sim_create (config_json : list Z) (instance_seed clock1 clock2 : Z) : sim_provider :=
  let sensor_id := pad OBICALL_SENSOR_ID_LEN 0 (ascii_bytes "sim_sensor"%string) in
  let js := config_json in
  let num key dflt := default dflt (find_field_num js key) in
  let rng_state := if negb (instance_seed =? 0) then u32 instance_seed else 2654435769 in
  let rng_state := if rng_state =? 0 then 2654435769 else rng_state in
  SimProvider
    (find_field_str js (ascii_bytes "sensor_id"%string) sensor_id).2
    (num (ascii_bytes "noise_std_m"%string) (f64_of_bits 4596373779694328218))
    (default (100 * 1000000)
       ((fun v => f64_to_i64 ub (v * f64_1e6)%f64) <$> find_field_num js (ascii_bytes "update_period_ms"%string)))
    (num (ascii_bytes "origin_x"%string) f64_zero) (num (ascii_bytes "origin_y"%string) f64_zero)
    (num (ascii_bytes "speed_x"%string) f64_one) (num (ascii_bytes "speed_y"%string) (f64_of_bits 4602678819172646912))
    (Z.lxor (u64 clock1) instance_seed) 1 clock2 0 rng_state SIM_FAULT_NONE f64_zero f64_zero 0.

Definition sim_submit (obs : obicall_observation) (p : sim_provider) : sim_provider :=
  let payload i := f64_of_bits (default 0 (obs_payload obs !! i)) in
  let n := obs_payload_count obs in
  if strncmp_eq OBICALL_SENSOR_ID_LEN (obs_sensor_id obs) (ascii_bytes "$ctrl:fault"%string) && (n >=? 1) then
    with_fault p (f64_to_u32 ub (payload 0%nat))
      (if n >=? 2 then payload 1%nat else sim_fault_bias p)
      (if n >=? 3 then payload 2%nat else sim_fault_dropout_prob p)
      (if n >=? 4 then f64_to_i64 ub (payload 3%nat * f64_1e9)%f64 else sim_fault_extra_delay_ns p)
  else p.

Definition sim_observation (p : sim_provider) (now : Z) (zx zy : f64) : obicall_observation :=
  let var := bits_of_f64 nan (sim_noise_std p * sim_noise_std p)%f64 in
  Observation sizeof_observation OBICALL_OBSERVATION_SCHEMA_VERSION
    (strncpy_zeroed OBICALL_SENSOR_ID_LEN (sim_sensor_id p)) (sim_source_boot_id p) (sim_next_sequence p)
    (if sim_fault_mode p =? SIM_FAULT_DELAY then i64 (now - sim_fault_extra_delay_ns p) else now) now
    OBICALL_CLOCK_DOMAIN_LOCAL_MONOTONIC 4576918229304087675 OBICALL_FRAME_LOCAL_ENU OBICALL_UNITS_METERS 1
    OBICALL_SHAPE_POSITION_2D 2 (pad 6 0 [bits_of_f64 nan zx; bits_of_f64 nan zy])
    4 (pad 36 0 [var; 0; 0; var]).

(** The status, the event handed to the callback if any ([*out_count] says whether),
    and the provider. *)
Definition sim_poll_events (now : Z) (p : sim_provider) : status * option obicall_event * sim_provider :=
  if negb (sim_last_emit_time_ns p =? 0) && (i64 (now - sim_last_emit_time_ns p) <? sim_update_period_ns p)
  then (OBICALL_OK, None, p)
  else
  let p := with_progress p (sim_next_sequence p) now (sim_rng_state p) in
  let '(dropped, rng) :=
    if sim_fault_mode p =? SIM_FAULT_DROPOUT then
      let '(u, rng) := uniform01 (sim_rng_state p) in ((u <? sim_fault_dropout_prob p)%f64, rng)
    else (false, sim_rng_state p) in
  if dropped then (OBICALL_OK, None, with_progress p (sim_next_sequence p) now rng)
  else
  let t := (f64_of_Z (i64 (now - sim_start_time_ns p)) / f64_1e9)%f64 in
  let bias := if sim_fault_mode p =? SIM_FAULT_BIAS then sim_fault_bias p else f64_zero in
  let '(gx, rng) := gaussian rng f64_zero (sim_noise_std p) in
  let zx := (sim_origin_x p + sim_speed_x p * t + bias + gx)%f64 in
  let '(gy, rng) := gaussian rng f64_zero (sim_noise_std p) in
  let zy := (sim_origin_y p + sim_speed_y p * t + bias + gy)%f64 in
  let obs := sim_observation p now zx zy in
  let p := with_progress p (u64 (sim_next_sequence p + 1)) now rng in
  match obicall_wire_encode_observation obs 1024 with
  | Err _ => (OBICALL_ERR_INTERNAL, None, p)
  | Ok wire_buf =>
      (OBICALL_OK,
       Some (Event sizeof_event OBICALL_EVENT_SCHEMA_VERSION OBICALL_C_SIM_EVENT_OBSERVATION 0 now wire_buf), p)
  end.

(** The packed blob: version, next sequence, generator state, last emission. *)
Definition sim_checkpoint (p : sim_provider) : list Z :=
  le_bytes 4 OBICALL_C_SIM_CHECKPOINT_VERSION ++ le_bytes 8 (sim_next_sequence p) ++
  le_bytes 4 (sim_rng_state p) ++ le_bytes 8 (u64 (sim_last_emit_time_ns p)).

Definition sim_restore (blob : list Z) (p : sim_provider) : status * sim_provider :=
  if negb (length blob =? 24)%nat then (OBICALL_ERR_INVALID_ARGUMENT, p)
  else if negb (le_value (take 4 blob) =? OBICALL_C_SIM_CHECKPOINT_VERSION) then (OBICALL_ERR_UNSUPPORTED, p)
  else
    (OBICALL_OK,
     with_progress p (le_value (take 8 (drop 4 blob))) (i64 (le_value (drop 16 blob)))
       (le_value (take 4 (drop 12 blob)))).
End sim.

(** * Lemmas *)

(** ** The generator never reaches its fixed point 0 *)

Lemma lxor_shiftl_nonzero x k :
  0 <= k -> Z.gcd (2 ^ 32) (2 ^ k - 1) = 1 -> is_u32 x -> x <> 0 -> Z.lxor x (u32 (Z.shiftl x k)) <> 0.
Proof.
  intros Hk Hg Hx Hnz H. apply Z.lxor_eq in H. apply Hnz. rewrite Z.shiftl_mul_pow2 in H by done.
  unfold u32 in H. change 4294967296 with (2 ^ 32) in H.
  assert (Hd : (2 ^ 32 | (2 ^ k - 1) * x)).
  { exists (x * 2 ^ k / 2 ^ 32). pose proof (Z.div_mod (x * 2 ^ k) (2 ^ 32) ltac:(done)). lia. }
  apply Z.gauss in Hd; [|done]. destruct Hd as [q Hq]. unfold is_u32 in Hx. lia.
Qed.

Lemma xorshift32_range state : is_u32 state -> is_u32 (xorshift32 state).
Proof.
  intros H. unfold xorshift32, is_u32 in *. change 4294967296 with (2 ^ 32) in *.
  assert (Hu : forall v, 0 <= u32 v < 2 ^ 32) by (intros v; apply u32_range).
  apply lxor_bound; [done| |apply Hu]. apply lxor_bound; [done|by apply lxor_bound|].
  set (x := Z.lxor state _). assert (Hx : 0 <= x < 2 ^ 32) by (by apply lxor_bound).
  rewrite Z.shiftr_div_pow2 by done. lia.
Qed.

Lemma xorshift32_nonzero state : is_u32 state -> state <> 0 -> xorshift32 state <> 0.
Proof.
  intros Hs Hnz. unfold xorshift32. set (x1 := Z.lxor state _).
  assert (H1 : x1 <> 0) by (by apply lxor_shiftl_nonzero).
  assert (R1 : 0 <= x1 < 2 ^ 32) by (apply lxor_bound; [done|exact Hs|apply u32_range]).
  set (x2 := Z.lxor x1 _).
  assert (H2 : x2 <> 0).
  { unfold x2. intros H%Z.lxor_eq. rewrite Z.shiftr_div_pow2 in H by done. lia. }
  assert (R2 : 0 <= x2 < 2 ^ 32).
  { apply lxor_bound; [done|done|]. rewrite Z.shiftr_div_pow2 by done. lia. }
  by apply lxor_shiftl_nonzero.
Qed.

(** ** What it emits *)

Definition rng_ok (state : Z) : Prop := is_u32 state /\ state <> 0.

Record wf_sim (p : sim_provider) : Prop := {
  ws_sensor_id : bytes (sim_sensor_id p);
  ws_boot : is_u64 (sim_source_boot_id p);
  ws_sequence : is_u64 (sim_next_sequence p);
  ws_last : is_i64 (sim_last_emit_time_ns p);
  ws_rng : rng_ok (sim_rng_state p)
}.

Lemma uniform01_ok state : rng_ok state -> rng_ok (uniform01 state).2.
Proof. intros [H1 H2]. split; [by apply xorshift32_range|by apply xorshift32_nonzero]. Qed.

Section sim.
Context (log cos : f64 -> f64) (nan : Z) (ub : f64 -> Z).

Lemma gaussian_ok state mean stddev : rng_ok state -> rng_ok (gaussian log cos state mean stddev).2.
Proof.
  intros H. unfold gaussian. pose proof (uniform01_ok state H) as H1.
  destruct (uniform01 state) as [u1 s1]. pose proof (uniform01_ok s1 H1) as H2. by destruct (uniform01 s1).
Qed.

Lemma sim_observation_valid p now zx zy :
  wf_sim p -> is_i64 now ->
  valid_observation (sim_observation nan p now zx zy) /\
  canon_observation (sim_observation nan p now zx zy) = sim_observation nan p now zx zy /\
  Z.of_nat (length (observation_wire (sim_observation nan p now zx zy))) <= 1024.
Proof.
  intros [Hid Hb Hs Hl Hr] Hn. unfold sim_observation.
  pose proof (bits_of_f64_u64 nan zx) as Hzx. pose proof (bits_of_f64_u64 nan zy) as Hzy.
  pose proof (bits_of_f64_u64 nan (sim_noise_std p * sim_noise_std p)%f64) as Hv.
  revert Hzx Hzy Hv. generalize (bits_of_f64 nan zx) (bits_of_f64 nan zy)
    (bits_of_f64 nan (sim_noise_std p * sim_noise_std p)%f64). intros bx by_ bv Hzx Hzy Hv.
  assert (Hchars : is_chars OBICALL_SENSOR_ID_LEN (strncpy_zeroed OBICALL_SENSOR_ID_LEN (sim_sensor_id p))).
  { apply strncpy_zeroed_chars; [unfold OBICALL_SENSOR_ID_LEN; lia|done]. }
  assert (Hu0 : is_u64 0) by done.
  split; [|split].
  - split; [|done|done]. split; cbn [obs_struct_size obs_schema_version obs_sensor_id obs_source_boot_id obs_sequence
      obs_sample_time_ns obs_arrival_time_ns obs_clock_domain obs_time_uncertainty_s obs_coordinate_frame obs_units
      obs_calibration_version obs_payload_shape obs_payload_count obs_payload obs_covariance_count obs_covariance];
      try done.
    + destruct (_ =? _); [apply i64_range|done].
    + apply Forall_pad; [done|]. do 2 (apply Forall_cons_2; [done|]). apply Forall_nil_2.
    + apply Forall_pad; [done|]. do 4 (apply Forall_cons_2; [done|]). apply Forall_nil_2.
  - reflexivity.
  - unfold observation_wire. cbn [obs_struct_size obs_schema_version obs_sensor_id obs_source_boot_id obs_sequence
      obs_sample_time_ns obs_arrival_time_ns obs_clock_domain obs_time_uncertainty_s obs_coordinate_frame obs_units
      obs_calibration_version obs_payload_shape obs_payload_count obs_payload obs_covariance_count obs_covariance].
    destruct Hchars as [Hlen _]. rewrite !length_app, !length_le_bytes, !length_concat_le_bytes, Hlen, !length_take.
    unfold OBICALL_SENSOR_ID_LEN. lia.
Qed.

(** The fields nothing but [sim_create] sets. *)
Definition same_source (p p' : sim_provider) : Prop :=
  sim_sensor_id p' = sim_sensor_id p /\ sim_source_boot_id p' = sim_source_boot_id p /\
  sim_update_period_ns p' = sim_update_period_ns p.

(** The event carries the observation [o] of the provider at [now]. *)
Record emits (p : sim_provider) (now : Z) (e : obicall_event) (o : obicall_observation) : Prop := {
  em_type : ev_event_type e = OBICALL_C_SIM_EVENT_OBSERVATION;
  em_payload : ev_payload e = observation_wire o;
  em_decode : obicall_wire_decode_observation (ev_payload e) = Ok o;
  em_valid : valid_observation o /\ canon_observation o = o;
  em_sensor : obs_sensor_id o = strncpy_zeroed OBICALL_SENSOR_ID_LEN (sim_sensor_id p) /\
    obs_source_boot_id o = sim_source_boot_id p;
  em_sequence : obs_sequence o = sim_next_sequence p;
  em_arrival : obs_arrival_time_ns o = now;
  em_sample : sim_fault_mode p <> SIM_FAULT_DELAY -> obs_sample_time_ns o = now
}.

Lemma sim_poll_spec now p st ev p' :
  wf_sim p -> 0 < now < 2 ^ 62 -> sim_poll_events log cos nan now p = (st, ev, p') ->
  st = OBICALL_OK /\ wf_sim p' /\ (same_source p p' /\ sim_fault_mode p' = sim_fault_mode p) /\
  match ev with
  | None => sim_next_sequence p' = sim_next_sequence p /\
      (sim_last_emit_time_ns p' = sim_last_emit_time_ns p \/ sim_last_emit_time_ns p' = now)
  | Some e => sim_next_sequence p' = u64 (sim_next_sequence p + 1) /\ sim_last_emit_time_ns p' = now /\
      (sim_last_emit_time_ns p <> 0 -> sim_update_period_ns p <= i64 (now - sim_last_emit_time_ns p)) /\
      exists o, emits p now e o
  end.
Proof.
  intros Hwf Hn. assert (Hn64 : is_i64 now) by (unfold is_i64; lia). unfold sim_poll_events.
  destruct (negb (sim_last_emit_time_ns p =? 0) && _) eqn:Eearly.
  { intros E. injection E as <- <- <-. split_and!; try done. by left. }
  assert (Hsp : sim_last_emit_time_ns p <> 0 -> sim_update_period_ns p <= i64 (now - sim_last_emit_time_ns p)) by lia.
  pose proof Hwf as [Hid Hb Hs Hl Hr]. cbv zeta.
  set (p1 := with_progress p (sim_next_sequence p) now (sim_rng_state p)).
  change (sim_fault_mode p1) with (sim_fault_mode p). change (sim_rng_state p1) with (sim_rng_state p).
  assert (Hdrop : rng_ok (if sim_fault_mode p =? SIM_FAULT_DROPOUT
      then let '(u, rng) := uniform01 (sim_rng_state p) in ((u <? sim_fault_dropout_prob p1)%f64, rng)
      else (false, sim_rng_state p)).2).
  { destruct (_ =? SIM_FAULT_DROPOUT); [|done]. pose proof (uniform01_ok _ Hr). by destruct (uniform01 _). }
  destruct (if sim_fault_mode p =? SIM_FAULT_DROPOUT then _ else _) as [dropped rng]. cbn [snd] in Hdrop.
  destruct dropped.
  { intros E. injection E as <- <- <-. split; [done|]. split; [by split|]. split; [done|]. split; [done|by right]. }
  pose proof (gaussian_ok rng f64_zero (sim_noise_std p1) Hdrop) as H1.
  destruct (gaussian log cos rng f64_zero (sim_noise_std p1)) as [gx rng1]. cbn [snd] in H1.
  pose proof (gaussian_ok rng1 f64_zero (sim_noise_std p1) H1) as H2.
  destruct (gaussian log cos rng1 f64_zero (sim_noise_std p1)) as [gy rng2]. cbn [snd] in H2.
  match goal with |- context [sim_observation nan p1 now ?a ?b] => generalize a b; intros zx zy end.
  assert (Hwf1 : wf_sim p1) by (by split).
  destruct (sim_observation_valid p1 now zx zy Hwf1 Hn64) as (Hv & Hc & Hlen).
  set (o := sim_observation nan p1 now zx zy) in *.
  rewrite (enc_spec o 1024) by done. rewrite (proj2 (Z.leb_le _ 1024) Hlen).
  intros E. injection E as <- <- <-. split; [done|]. split; [|split; [done|]].
  { split; try done. apply u64_range. }
  split; [done|]. split; [done|]. split; [done|]. exists o. split; try done.
  2:{ intros Hm. unfold o, sim_observation. cbn [obs_sample_time_ns].
      change (sim_fault_mode p1) with (sim_fault_mode p) in *. by rewrite (proj2 (Z.eqb_neq _ _) Hm). }
  cbn [ev_payload]. pose proof (dec_wire o [] Hv) as Hd. rewrite app_nil_r in Hd. by rewrite Hd, Hc.
Qed.

(** ** Runs *)

Inductive sim_op := OpSubmit (obs : obicall_observation) | OpPoll (now : Z).

Fixpoint sim_run (ops : list sim_op) (p : sim_provider) : list obicall_event * sim_provider :=
  match ops with
  | [] => ([], p)
  | OpSubmit obs :: ops => sim_run ops (sim_submit ub obs p)
  | OpPoll now :: ops =>
      let '(_, ev, p) := sim_poll_events log cos nan now p in
      let '(es, p) := sim_run ops p in (option_list ev ++ es, p)
  end.

(** The clock does not go back. *)
Fixpoint polls_ordered (t : Z) (ops : list sim_op) : Prop :=
  match ops with
  | [] => True
  | OpSubmit _ :: ops => polls_ordered t ops
  | OpPoll now :: ops => t <= now /\ 0 < now < 2 ^ 62 /\ polls_ordered now ops
  end.

Lemma sim_submit_spec obs p :
  wf_sim p -> wf_sim (sim_submit ub obs p) /\ same_source p (sim_submit ub obs p) /\
  sim_next_sequence (sim_submit ub obs p) = sim_next_sequence p /\
  sim_last_emit_time_ns (sim_submit ub obs p) = sim_last_emit_time_ns p.
Proof. intros [Hid Hb Hs Hl Hr]. unfold sim_submit. by destruct (_ && _). Qed.

(** What a run emits, as the observations carried. *)
Definition stream_ok (p : sim_provider) (es : list obicall_event) (os : list obicall_observation) : Prop :=
  Forall2 (fun e o => obicall_wire_decode_observation (ev_payload e) = Ok o /\ valid_observation o /\
             canon_observation o = o /\ ev_event_type e = OBICALL_C_SIM_EVENT_OBSERVATION) es os /\
  Forall (fun o => obs_sensor_id o = strncpy_zeroed OBICALL_SENSOR_ID_LEN (sim_sensor_id p) /\
             obs_source_boot_id o = sim_source_boot_id p) os /\
  (sim_next_sequence p + Z.of_nat (length os) <= 2 ^ 64 ->
     obs_sequence <$> os = seqZ (sim_next_sequence p) (Z.of_nat (length os))) /\
  Forall (fun o => sim_last_emit_time_ns p <> 0 ->
             sim_last_emit_time_ns p + sim_update_period_ns p <= obs_arrival_time_ns o) os /\
  StronglySorted (fun o1 o2 => obs_arrival_time_ns o1 + sim_update_period_ns p <= obs_arrival_time_ns o2) os.

Lemma sim_run_spec ops p t :
  wf_sim p -> 0 <= sim_last_emit_time_ns p <= t -> polls_ordered t ops ->
  exists os, stream_ok p (sim_run ops p).1 os /\ wf_sim (sim_run ops p).2.
Proof.
  revert p t. induction ops as [|[obs|now] ops IH]; intros p t Hwf Hl Ho; cbn [sim_run polls_ordered] in *.
  - exists []. split; [|done]. unfold stream_ok. split_and!; by try constructor.
  - destruct (sim_submit_spec obs p Hwf) as (Hwf' & (E1 & E2 & E3) & E4 & E5).
    destruct (IH (sim_submit ub obs p) t) as (os & Hs & Hw); [done|by rewrite E5|done|].
    exists os. split; [|done]. unfold stream_ok in *. by rewrite E1, E2, E3, E4, E5 in Hs.
  - destruct Ho as (Ht & Hn & Ho).
    destruct (sim_poll_events log cos nan now p) as [[st ev] p'] eqn:Ep.
    destruct (sim_poll_spec now p st ev p' Hwf Hn Ep) as (_ & Hwf' & ((E1 & E2 & E3) & _) & Hev).
    destruct (IH p' now) as (os & Hs & Hw); [done| |done|].
    { destruct ev as [e|]; [destruct Hev as (_ & -> & _)|destruct Hev as (_ & [->| ->])]; lia. }
    destruct (sim_run ops p') as [es p'']. cbn [fst snd] in *.
    unfold stream_ok in *. rewrite E1, E2, E3 in Hs. destruct Hs as (H1 & H2 & H3 & H4 & H5).
    destruct ev as [e|]; cbn [option_list app].
    + destruct Hev as (E4 & E5 & Hsp & o & [Hty Hpay Hdec [Hv Hc] [Hsid Hboot] Hseq Harr _]). rewrite E5 in H4.
      exists (o :: os). split; [|done]. split; [by constructor|]. split; [by constructor|]. split.
      * cbn [length fmap list_fmap]. intros Hle. rewrite Hseq.
        destruct (decide (os = [])) as [->|Hne]; [done|].
        assert (Hpos : (0 < length os)%nat) by (destruct os; cbn; [done|lia]).
        pose proof (ws_sequence p Hwf) as [Hs0 _].
        assert (E6 : sim_next_sequence p' = sim_next_sequence p + 1) by (rewrite E4; apply u64_id; unfold is_u64; lia).
        rewrite E6 in H3. fold (obs_sequence <$> os). rewrite H3 by lia.
        rewrite (seqZ_cons (sim_next_sequence p)) by lia. f_equal. f_equal; lia.
      * split.
        -- constructor.
           ++ intros Hz. specialize (Hsp Hz). rewrite i64_id in Hsp by (unfold is_i64; lia). lia.
           ++ eapply Forall_impl; [exact H4|]. cbn. intros o' H' Hz. specialize (Hsp Hz).
              rewrite i64_id in Hsp by (unfold is_i64; lia). specialize (H' ltac:(lia)). lia.
        -- constructor; [done|]. eapply Forall_impl; [exact H4|]. cbn. intros o' H'. rewrite Harr. apply H'. lia.
    + destruct Hev as (E4 & E5). rewrite E4 in H3. exists os. split; [|done]. split_and!; try done.
      eapply Forall_impl; [exact H4|]. cbn. intros o' H' Hz.
      destruct E5 as [E5|E5]; rewrite E5 in H'; [by apply H'|]. specialize (H' ltac:(lia)). lia.
Qed.
End sim.

Lemma find_field_str_bytes json key field :
  bytes json -> bytes field -> bytes (find_field_str json key field).2.
Proof.
  intros Hj Hf. unfold find_field_str. destruct (json_object_find json key) as [sp|]; [|done].
  destruct (sp_is_string sp); [|done].
  pose proof (decode_bytes (span_bytes json sp) (length field)) as Hd.
  destruct (json_decode_string _ _) as [written ok]. cbn [snd fst] in *. unfold stored.
  apply Forall_app. split; [|by apply Forall_drop]. apply Hd. by apply Forall_take, Forall_drop.
Qed.

Lemma sim_create_wf ub config seed clock1 clock2 :
  bytes config -> is_u64 seed -> wf_sim (sim_create ub config seed clock1 clock2).
Proof.
  intros Hc Hs. unfold sim_create. split; cbn [sim_sensor_id sim_source_boot_id sim_next_sequence sim_last_emit_time_ns sim_rng_state].
  - apply find_field_str_bytes; [done|]. by apply forallb_bytes.
  - apply (lxor_bound 64); [done|apply u64_range|exact Hs].
  - done.
  - done.
  - set (r := if negb (seed =? 0) then u32 seed else 2654435769).
    assert (Hr : is_u32 r) by (unfold r; destruct (negb _); [apply u32_range|done]).
    destruct (Z.eqb_spec r 0); by split.
Qed.

(** * What the provider promises *)

(** C29: the simulated provider is a proper source: over any sequence of polls and
    submitted observations it emits well-formed observations of one sensor and one
    boot, numbered without gaps from its next sequence number, at least its update
    period apart. *)
Theorem sim_stream log cos nan ub ops p t :
  wf_sim p -> 0 <= sim_last_emit_time_ns p <= t -> polls_ordered t ops ->
  exists os, stream_ok p (sim_run log cos nan ub ops p).1 os.
Proof.
  intros Hwf Hl Ho. destruct (sim_run_spec log cos nan ub ops p t Hwf Hl Ho) as (os & Hs & _). by exists os.
Qed.

(** C30: the checkpoint round trips: restoring it into any provider succeeds and moves
    exactly the progress, so a provider with the same settings goes on as the one
    that was saved; a blob of another size or version is refused and changes
    nothing. *)
Theorem sim_checkpoint_roundtrip p q :
  wf_sim p ->
  sim_restore (sim_checkpoint p) q =
    (OBICALL_OK, with_progress q (sim_next_sequence p) (sim_last_emit_time_ns p) (sim_rng_state p)) /\
  (with_progress q 0 0 0 = with_progress p 0 0 0 -> (sim_restore (sim_checkpoint p) q).2 = p) /\
  (forall blob, length blob <> 24%nat \/ le_value (take 4 blob) <> OBICALL_C_SIM_CHECKPOINT_VERSION ->
     (sim_restore blob q).1 <> OBICALL_OK /\ (sim_restore blob q).2 = q).
Proof.
  intros [_ _ Hs Hl [Hr _]].
  assert (E : sim_restore (sim_checkpoint p) q =
    (OBICALL_OK, with_progress q (sim_next_sequence p) (sim_last_emit_time_ns p) (sim_rng_state p))).
  { unfold sim_restore, sim_checkpoint.
    pose proof (length_le_bytes 4 OBICALL_C_SIM_CHECKPOINT_VERSION) as L1.
    pose proof (length_le_bytes 8 (sim_next_sequence p)) as L2. pose proof (length_le_bytes 4 (sim_rng_state p)) as L3.
    pose proof (length_le_bytes 8 (u64 (sim_last_emit_time_ns p))) as L4.
    pose proof (le_value_bytes 4 OBICALL_C_SIM_CHECKPOINT_VERSION) as V1.
    pose proof (le_value_bytes 8 (sim_next_sequence p)) as V2. pose proof (le_value_bytes 4 (sim_rng_state p)) as V3.
    pose proof (le_value_bytes 8 (u64 (sim_last_emit_time_ns p))) as V4.
    change (256 ^ Z.of_nat 4) with 4294967296 in *. change (256 ^ Z.of_nat 8) with 18446744073709551616 in *.
    rewrite Z.mod_small in V2 by done. rewrite Z.mod_small in V3 by done.
    rewrite Z.mod_small in V4 by apply u64_range.
    generalize dependent (le_bytes 4 OBICALL_C_SIM_CHECKPOINT_VERSION). intros b1 L1 V1.
    generalize dependent (le_bytes 8 (sim_next_sequence p)). intros b2 L2 V2.
    generalize dependent (le_bytes 4 (sim_rng_state p)). intros b3 L3 V3.
    generalize dependent (le_bytes 8 (u64 (sim_last_emit_time_ns p))). intros b4 L4 V4.
    rewrite !length_app, L1, L2, L3, L4. cbn [Nat.add Nat.eqb negb].
    rewrite take_app_length' by done. rewrite V1. cbn [Z.eqb negb OBICALL_C_SIM_CHECKPOINT_VERSION].
    assert (D1 : drop 4 (b1 ++ b2 ++ b3 ++ b4) = b2 ++ b3 ++ b4) by (by apply drop_app_length').
    assert (D2 : drop 12 (b1 ++ b2 ++ b3 ++ b4) = b3 ++ b4).
    { rewrite (app_assoc b1 b2). apply drop_app_length'. by rewrite length_app, L1, L2. }
    assert (D3 : drop 16 (b1 ++ b2 ++ b3 ++ b4) = b4).
    { rewrite (app_assoc b2 b3), (app_assoc b1). apply drop_app_length'. by rewrite !length_app, L1, L2, L3. }
    change (1 mod 4294967296 =? 1) with true. cbn [negb].
    rewrite D1, D2, D3, !take_app_length' by done. rewrite V2, V3, V4, i64_u64 by done. done. }
  split; [done|]. split.
  - rewrite E. cbn [snd]. destruct p, q. unfold with_progress. cbn. intros H. by injection H as -> -> -> -> -> -> -> -> -> -> -> -> ->.
  - intros blob Hb. unfold sim_restore. destruct (Nat.eqb_spec (length blob) 24) as [H1|H1]; cbn [negb]; [|done].
    destruct (Z.eqb_spec (le_value (take 4 blob)) OBICALL_C_SIM_CHECKPOINT_VERSION) as [H2|H2]; cbn [negb]; [|done].
    by destruct Hb.
Qed.

(** the random generator stays healthy: whatever the seed, and however the
    provider is used, its state never becomes zero, the value it would never leave. *)
Theorem sim_rng_never_stuck log cos nan ub config seed clock1 clock2 ops t :
  bytes config -> is_u64 seed -> 0 <= t -> polls_ordered t ops ->
  let p := (sim_run log cos nan ub ops (sim_create ub config seed clock1 clock2)).2 in
  is_u32 (sim_rng_state p) /\ sim_rng_state p <> 0 /\ xorshift32 (sim_rng_state p) <> 0.
Proof.
  intros Hc Hs Ht Ho. pose proof (sim_create_wf ub config seed clock1 clock2 Hc Hs) as Hwf.
  assert (Hl : 0 <= sim_last_emit_time_ns (sim_create ub config seed clock1 clock2) <= t) by done.
  destruct (sim_run_spec log cos nan ub ops _ t Hwf Hl Ho) as (_ & _ & Hw). cbv zeta.
  destruct (ws_rng _ Hw) as [H1 H2]. split; [done|]. split; [done|]. by apply xorshift32_nonzero.
Qed.

(** ** Witnesses *)

Definition sample_sim : sim_provider := sim_create no_ub [] 7 1000 1000.
Definition sample_polls : list sim_op := OpPoll <$> [2000; 3000; 200002000].

Lemma sample_sim_wf : wf_sim sample_sim.
Proof. by apply sim_create_wf. Qed.

Lemma sim_stream_witness :
  length (sim_run id id 0 no_ub sample_polls sample_sim).1 = 2%nat /\
  exists os, stream_ok sample_sim (sim_run id id 0 no_ub sample_polls sample_sim).1 os.
Proof.
  split; [by vm_compute|].
  apply (sim_stream id id 0 no_ub sample_polls sample_sim 1000); [exact sample_sim_wf|done|by repeat split].
Defined.

Lemma sim_checkpoint_witness :
  sim_restore (sim_checkpoint sample_sim) sample_sim = (OBICALL_OK, sample_sim).
Proof. exact (proj1 (sim_checkpoint_roundtrip sample_sim sample_sim sample_sim_wf)). Defined.

Lemma sim_rng_witness :
  sim_rng_state (sim_run id id 0 no_ub sample_polls sample_sim).2 <> 0.
Proof.
  apply (sim_rng_never_stuck id id 0 no_ub [] 7 1000 1000 sample_polls 1000); [done|done|done|by repeat split].
Defined.
