(* ===== verification/Worker.v ===== *)
(** * Worker: the process that hosts a provider (src/worker/worker_main.c)

    The worker loads one plugin, checks it, and relays its observations to the
    journal.  A plugin is the vtable its library returns: functions on the handle
    [H], each given what it reads of the environment, [E].  The libraries and files
    of the machine are functions from paths; [scan] is what [sscanf] converts (C
    libraries differ on texts that break off inside a number).  Promised here: what
    the worker loads has passed every check, what it sends is valid whatever the
    plugin does, and what a well-behaved source produces ([SensorSource], which the
    simulated provider implements) is admitted by the journal. *)

From Stdlib Require Import Sorting.Sorted.
From Stdlib Require Import (notations) Strings.String.
From S2P Require Import Prelude Types Samples Digest Cursor Wire WireMsg Binary64 Observation Stdio Journal.
From S2P Require Import Ipc JournalDaemon Estimator Json Manifest ManifestParse Procutil Supervisor CSim.
#[local] Delimit Scope string_scope with string.

(** ** The plugin interface (plugin.h) *)

Definition OBICALL_ABI_VERSION_MAJOR : Z := 1.
Definition OBICALL_ABI_VERSION_MINOR : Z := 0.

Record obicall_descriptor := Descriptor {
  de_struct_size : Z;
  de_abi_version_major : Z;
  de_abi_version_minor : Z;
  de_wire_schema_version : Z;
  de_checkpoint_schema_version : Z;
  de_config_schema_version : Z;
  de_reserved : Z;
  de_capability_flags : Z;
  de_provider_name : list Z;
  de_provider_version : list Z
}.
Definition descriptor_members : list c_member :=
  [m_u32; m_u32; m_u32; m_u32; m_u32; m_u32; m_u32; m_u64; m_bytes 64; m_bytes 32].
Definition sizeof_descriptor : Z := Eval vm_compute in c_sizeof descriptor_members.

Record obicall_provider_config := ProviderConfig {
  pf_struct_size : Z;
  pf_config_schema_version : Z;
  pf_config_json : list Z;
  pf_instance_seed : Z
}.
Definition sizeof_provider_config : Z := Eval vm_compute in c_sizeof [m_u32; m_u32; m_ptr; m_u32; m_u64].

(** Entries are [None] when [NULL].  [submit]'s and [poll_events]'s status and count
    are ignored by the worker; [poll_events] returns what it passes to the callback. *)
Record obicall_provider_vtable (H E : Type) := Vtable {
  vt_struct_size : Z;
  vt_create : option (obicall_provider_config -> E -> status * option H);
  vt_submit : option (obicall_observation -> H -> H);
  vt_poll_events : option (E -> H -> list obicall_event * H);
  vt_has_release_buffer : bool;
  vt_has_destroy : bool
}.
Arguments Vtable {H E}.
Arguments vt_struct_size {H E}.
Arguments vt_create {H E}.
Arguments vt_submit {H E}.
Arguments vt_poll_events {H E}.
Arguments vt_has_release_buffer {H E}.
Arguments vt_has_destroy {H E}.
Definition sizeof_vtable : Z :=
  Eval vm_compute in c_sizeof [m_u32; m_u32; m_ptr; m_ptr; m_ptr; m_ptr; m_ptr; m_ptr; m_ptr].

(** The calls the loop makes. *)
Record provider (H E : Type) := Provider {
  pr_submit : obicall_observation -> H -> H;
  pr_poll : E -> H -> list obicall_event * H
}.
Arguments Provider {H E}.
Arguments pr_submit {H E}.
Arguments pr_poll {H E}.

(** ** Relaying *)

Record forward_ctx := ForwardCtx {
  fc_tx : list tx_event;          (* the journal connection *)
  fc_out : list Z;                (* what the peer will read from it *)
  fc_forwarded : Z
}.

Definition on_provider_event (ctx : forward_ctx) (event : obicall_event) : forward_ctx :=
  if negb (ev_event_type event =? 1) then ctx
  else
  match obicall_wire_decode_observation (ev_payload event) with
  | Err _ => ctx
  | Ok obs =>
      match (obicall_observation_validate obs).2 with
      | OBICALL_OK =>
          match obicall_wire_encode_observation obs 1200 with
          | Err _ => ctx
          | Ok buf =>
              let '(ok, out, tx) := osal_send_frame OBICALL_MSG_OBSERVATION_SUBMIT buf (fc_tx ctx) in
              ForwardCtx tx (fc_out ctx ++ out) (if ok then u32 (fc_forwarded ctx + 1) else fc_forwarded ctx)
          end
      | _ => ctx
      end
  end.

Section worker.
Context {H E : Type} (nan : Z) (scan : list Z -> list f64).

Definition fault_control (buf : list Z) : obicall_observation :=
  let number i := bits_of_f64 nan (default f64_zero (scan buf !! i)) in
  Observation sizeof_observation OBICALL_OBSERVATION_SCHEMA_VERSION
    (strncpy_zeroed OBICALL_SENSOR_ID_LEN (ascii_bytes "$ctrl:fault"%string)) 0 0 0 0 0 0
    OBICALL_FRAME_LOCAL_ENU OBICALL_UNITS_METERS 0 OBICALL_SHAPE_POSITION_2D_VELOCITY
    4 (pad 6 0 (number <$> seq 0 4)) 0 (replicate 36 0).

(** [file]: the content of the fault file, if it opens.  The last content is a C string. *)
Definition apply_fault_file (p : provider H E) (file : option (list Z)) (h : H) (last_content : list Z)
    : H * list Z :=
  match file with
  | None => (h, last_content)
  | Some data =>
      let buf := c_str (take 127 data) in
      if bool_decide (buf = last_content) then (h, last_content)
      else (pr_submit p (fault_control buf) h, buf)
  end.

Record worker := WorkerState {
  wk_handle : H;
  wk_fctx : forward_ctx;
  wk_last_fault_content : list Z;
  wk_last_heartbeat_write : Z
}.

Definition HEARTBEAT_PERIOD_NS : Z := 200000000.

(** What one turn of the loop reads. *)
Record turn_env := TurnEnv {
  te_fault_file : option (list Z);
  te_provider : E;
  te_now : Z
}.

(** One turn: the new state and whether the pid file was written. *)
Definition worker_loop_turn (p : provider H E) (env : turn_env) (w : worker) : worker * bool :=
  let '(h, last) := apply_fault_file p (te_fault_file env) (wk_handle w) (wk_last_fault_content w) in
  let '(events, h) := pr_poll p (te_provider env) h in
  let fctx := fold_left on_provider_event events (wk_fctx w) in
  let beat := i64 (te_now env - wk_last_heartbeat_write w) >=? HEARTBEAT_PERIOD_NS in
  (WorkerState h fctx last (if beat then te_now env else wk_last_heartbeat_write w), beat).

Fixpoint worker_loop (p : provider H E) (envs : list turn_env) (w : worker) : worker :=
  match envs with
  | [] => w
  | env :: envs => worker_loop p envs (worker_loop_turn p env w).1
  end.

(** ** Loading *)

Definition read_whole_file (file : option (list Z)) (cap : Z) : option (list Z) :=
  match file with
  | Some data => if Z.of_nat (length data) >? cap then None else Some data
  | None => None
  end.

Definition ends_with (s suffix : list Z) : bool :=
  (length suffix <=? length s)%nat && bool_decide (drop (length s - length suffix) s = suffix).

(** On a system whose shared libraries end in .so. *)
Definition artifact_path_of (manifest_path : list Z) (m : obicall_manifest) : list Z :=
  let name := c_str (mf_artifact_path m) in
  let has_known_ext := ends_with name (ascii_bytes ".so"%string) || ends_with name (ascii_bytes ".dll"%string)
                       || ends_with name (ascii_bytes ".dylib"%string) in
  snprintf 1024 (dirname_of manifest_path 512 ++ [47] ++ name ++
                 (if has_known_ext then [] else ascii_bytes ".so"%string)).

(** [fread] by blocks of 65536. *)
Fixpoint blocks_of (fuel : nat) (data : list Z) : list (list Z) :=
  match fuel, data with
  | S fuel, _ :: _ => take (Z.to_nat 65536) data :: blocks_of fuel (drop (Z.to_nat 65536) data)
  | _, _ => []
  end.
Definition file_digest (junk data : list Z) : list Z :=
  obicall_sha256_final
    (fold_left obicall_sha256_update (blocks_of (length data) data) (obicall_sha256_init junk)).

Definition require (b : bool) (code : Z) : result Z unit := if b then Ok tt else Err code.
Definition demand {A} (o : option A) (code : Z) : result Z A :=
  match o with Some x => Ok x | None => Err code end.

Definition token_of (token_hex : list Z) : option (list Z) :=
  if (length token_hex =? 64)%nat then procutil_hex_decode token_hex 32 else None.

Definition abi_compatible (d : obicall_descriptor) : bool :=
  (sizeof_descriptor <=? de_struct_size d) && (de_abi_version_major d =? OBICALL_ABI_VERSION_MAJOR)
  && (de_abi_version_minor d <=? OBICALL_ABI_VERSION_MINOR).

(** The machine: contents of files; the library at a path ([None]: it does not load),
    its query symbol ([None]: not found), what the query returns ([None]: it fails). *)
Record machine := Machine {
  mc_files : list Z -> option (list Z);
  mc_modules : list Z -> option (option (option (obicall_descriptor * obicall_provider_vtable H E)));
  mc_create_env : E
}.

Definition provider_of (vt : obicall_provider_vtable H E)
    : option (provider H E * (obicall_provider_config -> E -> status * option H)) :=
  match vt_create vt, vt_submit vt, vt_poll_events vt with
  | Some create, Some submit, Some poll =>
      if (sizeof_vtable <=? vt_struct_size vt) && vt_has_destroy vt && vt_has_release_buffer vt
      then Some (Provider submit poll, create) else None
  | _, _, _ => None
  end.

(** The manifest and the path of the artifact, whose digest has been checked. *)
Definition load_manifest (ub : f64 -> Z) (junk : list Z) (mc : machine) (manifest_path : list Z)
    : result Z (obicall_manifest * list Z) :=
  let! data := demand (read_whole_file (mc_files mc manifest_path) 8192) 2 in
  let! m := match obicall_manifest_parse_json ub data with Ok m => Ok m | Err _ => Err 2 end in
  let path := artifact_path_of manifest_path m in
  if negb (mf_has_artifact_sha256 m =? 0) then
    let! artifact := demand (mc_files mc path) 2 in
    let! _ := require (bool_decide (file_digest junk artifact = mf_artifact_sha256 m)) 3 in
    Ok (m, path)
  else Ok (m, path).

Definition load_plugin (mc : machine) (path : list Z)
    : result Z (provider H E * (obicall_provider_config -> E -> status * option H)) :=
  let! module := demand (mc_modules mc path) 4 in
  let! query := demand module 5 in
  let! dv := demand query 6 in
  let! _ := require (abi_compatible dv.1) 7 in
  demand (provider_of dv.2) 7.

(** What [main] takes from its command line; [long] has 64 bits. *)
Record worker_options := WorkerOptions {
  wo_manifest : list Z;
  wo_journal_port : Z;
  wo_token : list Z;
  wo_runtime_dir : list Z;
  wo_worker_name : list Z;
  wo_instance_seed : Z
}.
Definition parse_worker_options (args : list (list Z)) : result Z worker_options :=
  let option name := find_arg args (ascii_bytes name) in
  let instance_seed := procutil_arg_i64 args (ascii_bytes "--instance-seed"%string) 1 in
  let! manifest_path := demand (option "--manifest"%string) 2 in
  let! journal_port := demand (option "--journal-port"%string) 2 in
  let! token_hex := demand (option "--token"%string) 2 in
  let! token := demand (token_of token_hex) 2 in
  Ok (WorkerOptions manifest_path (u16 (strtoll journal_port)) token
        (procutil_arg_str args (ascii_bytes "--runtime-dir"%string) [46])
        (procutil_arg_str args (ascii_bytes "--worker-name"%string) (ascii_bytes "worker"%string)) (u64 instance_seed)).

(** [main] up to its loop: the exit code, or the provider and the initial state. *)
Definition worker_start (ub : f64 -> Z) (junk : list Z) (mc : machine) (tx : list tx_event) (args : list (list Z))
    : result Z (provider H E * worker) :=
  let! o := parse_worker_options args in
  let! mp := load_manifest ub junk mc (wo_manifest o) in
  let! pc := load_plugin mc mp.2 in
  let config := ProviderConfig sizeof_provider_config (mf_config_schema_version mp.1)
                  (c_str (mf_config_json mp.1)) (wo_instance_seed o) in
  let! h := match pc.2 config (mc_create_env mc) with (OBICALL_OK, Some h) => Ok h | _ => Err 8 end in
  let! conn := demand (procutil_client_connect (wo_token o) OBICALL_ROLE_WORKER tx) 9 in
  Ok (pc.1, WorkerState h (ForwardCtx conn.2 conn.1 0) [] 0).
End worker.

(** * Lemmas *)

(** ** What one event becomes *)

(** The observation [on_provider_event] sends for an event. *)
Definition relayed (event : obicall_event) : option obicall_observation :=
  if negb (ev_event_type event =? 1) then None
  else
  match obicall_wire_decode_observation (ev_payload event) with
  | Err _ => None
  | Ok obs => if bool_decide ((obicall_observation_validate obs).2 = OBICALL_OK) then Some obs else None
  end.

Definition observation_frame (o : obicall_observation) : list Z :=
  frame_bytes OBICALL_MSG_OBSERVATION_SUBMIT (observation_wire o).

(** Fit to send: valid, and what the journal will decode again. *)
Record sound_observation (o : obicall_observation) : Prop := {
  so_ok : observation_ok o;
  so_valid : valid_observation o;
  so_canon : canon_observation o = o
}.

(** What one send leaves on the connection, and whether it succeeded. *)
Record sent_piece (o : obicall_observation) (piece : bool * list Z) : Prop := {
  sp_prefix : piece.2 `prefix_of` observation_frame o;
  sp_whole : piece.1 = true -> piece.2 = observation_frame o
}.

Definition successes (pieces : list (bool * list Z)) : Z := Z.of_nat (length (filter (fun p => p.1 = true) pieces)).

Record relays (os : list obicall_observation) (pieces : list (bool * list Z)) (ctx ctx' : forward_ctx) : Prop := {
  rl_out : fc_out ctx' = fc_out ctx ++ concat (snd <$> pieces);
  rl_count : fc_forwarded ctx' = u32 (fc_forwarded ctx + successes pieces);
  rl_pieces : Forall2 sent_piece os pieces
}.

Lemma canon_observation_idem o : valid_observation o -> canon_observation (canon_observation o) = canon_observation o.
Proof.
  intros [[] Hp Hc]. unfold OBICALL_MAX_PAYLOAD_DOUBLES, OBICALL_MAX_COV_DOUBLES in *. unfold canon_observation.
  cbn [obs_struct_size obs_schema_version obs_sensor_id obs_source_boot_id obs_sequence
      obs_sample_time_ns obs_arrival_time_ns obs_clock_domain obs_time_uncertainty_s obs_coordinate_frame obs_units
      obs_calibration_version obs_payload_shape obs_payload_count obs_payload obs_covariance_count obs_covariance].
  f_equal.
  - f_equal. rewrite <- (length_take_le (obs_payload o) (Z.to_nat (obs_payload_count o))) at 1 by lia. apply take_pad.
  - f_equal. rewrite <- (length_take_le (obs_covariance o) (Z.to_nat (obs_covariance_count o))) at 1 by lia. apply take_pad.
Qed.

Lemma relayed_sound event o : bytes (ev_payload event) -> relayed event = Some o -> sound_observation o.
Proof.
  intros Hb. unfold relayed. destruct (negb _); [done|].
  destruct (obicall_wire_decode_observation _) as [obs|] eqn:Ed; [|done].
  case_bool_decide as Hv; [|done]. intros [= <-]. split.
  - by apply validate_ok_equiv.
  - by eapply decoded_observation_valid.
  - destruct (dec_sound _ _ Hb Ed) as (a & extra & Ha & _ & ->). by apply canon_observation_idem.
Qed.

Lemma encode_1200 o : valid_observation o -> obicall_wire_encode_observation o 1200 = Ok (observation_wire o).
Proof.
  intros Hv. rewrite (enc_spec o 1200) by done. pose proof (observation_wire_length o Hv).
  by rewrite (proj2 (Z.leb_le _ _)) by lia.
Qed.

Lemma relays_nil ctx : is_u32 (fc_forwarded ctx) -> relays [] [] ctx ctx.
Proof. intros H. split; [by rewrite app_nil_r|cbn; by rewrite Z.add_0_r, u32_id|constructor]. Qed.

Lemma relays_trans os1 os2 ps1 ps2 c1 c2 c3 :
  relays os1 ps1 c1 c2 -> relays os2 ps2 c2 c3 -> relays (os1 ++ os2) (ps1 ++ ps2) c1 c3.
Proof.
  intros [O1 C1 P1] [O2 C2 P2]. split.
  - by rewrite O2, O1, fmap_app, concat_app, app_assoc.
  - rewrite C2, C1. unfold successes. rewrite filter_app, length_app, Nat2Z.inj_add. unfold u32.
    rewrite Zplus_mod_idemp_l. f_equal. lia.
  - by apply Forall2_app.
Qed.

Lemma on_provider_event_spec ctx event :
  bytes (ev_payload event) -> is_u32 (fc_forwarded ctx) ->
  exists pieces, relays (option_list (relayed event)) pieces ctx (on_provider_event ctx event).
Proof.
  intros Hb Hf. pose proof (relayed_sound event) as Hs. unfold relayed in *. unfold on_provider_event.
  destruct (negb _); [exists []; by apply relays_nil|].
  destruct (obicall_wire_decode_observation _) as [obs|]; [|exists []; by apply relays_nil].
  case_bool_decide as Hv.
  - rewrite Hv. destruct (Hs obs Hb eq_refl) as [_ Hval _]. rewrite encode_1200 by done.
    destruct (osal_send_frame _ _ _) as [[ok out] tx] eqn:E. apply send_frame_spec in E as [Hp Hw].
    exists [(ok, out)]. split; cbn [fc_out fc_forwarded snd fmap list_fmap concat option_list].
    + by rewrite app_nil_r.
    + unfold successes. rewrite filter_cons, filter_nil. cbn [fst]. destruct ok.
      * by rewrite decide_True.
      * rewrite decide_False by done. cbn. by rewrite Z.add_0_r, u32_id.
    + constructor; [|constructor]. split; [done|]. intros H. by destruct (Hw H).
  - exists []. destruct ((obicall_observation_validate obs).2) eqn:E; [done|by apply relays_nil..].
Qed.

Lemma relayed_cons e events : omap relayed (e :: events) = option_list (relayed e) ++ omap relayed events.
Proof. cbn [omap list_omap]. by destruct (relayed e). Qed.

Lemma relays_is_u32 os ps c c' : relays os ps c c' -> is_u32 (fc_forwarded c').
Proof. intros [_ -> _]. apply u32_range. Qed.

Lemma relay_events_spec events ctx :
  Forall (fun e => bytes (ev_payload e)) events -> is_u32 (fc_forwarded ctx) ->
  exists pieces, relays (omap relayed events) pieces ctx (fold_left on_provider_event events ctx).
Proof.
  intros Hb. revert ctx. induction Hb as [|e events He Hb IH]; intros ctx Hf; cbn [fold_left].
  - exists []. by apply relays_nil.
  - destruct (on_provider_event_spec ctx e He Hf) as (ps1 & H1).
    destruct (IH _ (relays_is_u32 _ _ _ _ H1)) as (ps2 & H2). exists (ps1 ++ ps2).
    rewrite relayed_cons. by eapply relays_trans.
Qed.

(** ** Runs of the loop *)

Section runs.
Context {H E : Type} (nan : Z) (scan : list Z -> list f64) (p : provider H E).

(** Every event the provider hands over during a run. *)
Fixpoint worker_events (envs : list turn_env) (h : H) (last : list Z) : list obicall_event :=
  match envs with
  | [] => []
  | env :: envs =>
      let '(h, last) := apply_fault_file nan scan p (te_fault_file env) h last in
      let '(events, h) := pr_poll p (te_provider env) h in
      events ++ worker_events envs h last
  end.

(** The payloads a plugin hands over are bytes. *)
Definition byte_events : Prop := forall e h, Forall (fun ev => bytes (ev_payload ev)) (pr_poll p e h).1.

Lemma worker_loop_relays envs w :
  Forall (fun ev => bytes (ev_payload ev)) (worker_events envs (wk_handle w) (wk_last_fault_content w)) ->
  is_u32 (fc_forwarded (wk_fctx w)) ->
  exists pieces,
    relays (omap relayed (worker_events envs (wk_handle w) (wk_last_fault_content w))) pieces
      (wk_fctx w) (wk_fctx (worker_loop nan scan p envs w)).
Proof.
  revert w. induction envs as [|env envs IH]; intros w Hb Hf; cbn [worker_loop worker_events] in *.
  - exists []. by apply relays_nil.
  - unfold worker_loop_turn. destruct (apply_fault_file _ _ _ _ _ _) as [h last].
    destruct (pr_poll p (te_provider env) h) as [events h']. apply Forall_app in Hb as [Hev Hb].
    destruct (relay_events_spec events (wk_fctx w) Hev Hf) as (ps1 & H1).
    match goal with |- context [worker_loop _ _ _ envs ?w'] => destruct (IH w') as (ps2 & H2) end;
      [exact Hb|exact (relays_is_u32 _ _ _ _ H1)|].
    exists (ps1 ++ ps2). rewrite omap_app. by eapply relays_trans.
Qed.

Lemma worker_events_bytes envs h last :
  byte_events -> Forall (fun ev => bytes (ev_payload ev)) (worker_events envs h last).
Proof.
  intros Hb. revert h last. induction envs as [|env envs IH]; intros h last; cbn [worker_events]; [constructor|].
  destruct (apply_fault_file _ _ _ _ _ _) as [h1 last1]. pose proof (Hb (te_provider env) h1) as Hev.
  destruct (pr_poll p (te_provider env) h1) as [events h']. apply Forall_app. by split.
Qed.
End runs.

Lemma relayed_all_sound events :
  Forall (fun ev => bytes (ev_payload ev)) events -> Forall sound_observation (omap relayed events).
Proof.
  induction 1 as [|e events He _ IH]; [constructor|]. cbn [omap list_omap].
  destruct (relayed e) as [o|] eqn:Er; [|exact IH]. constructor; [by eapply relayed_sound|exact IH].
Qed.

(** ** The heartbeat does not depend on the connection *)

(** Turns in order, at most [gap] apart, from [t]. *)
Fixpoint turns_within {E} (gap t : Z) (envs : list (@turn_env E)) : Prop :=
  match envs with
  | [] => True
  | env :: envs => t <= te_now env <= t + gap /\ te_now env < 2 ^ 62 /\ turns_within gap (te_now env) envs
  end.

Definition last_turn {E} (t : Z) (envs : list (@turn_env E)) : Z := default t (te_now <$> last envs).

(** Every [send] fails or times out. *)
Definition dead_tx (tx : list tx_event) : Prop := Forall (fun e => e = TxError \/ e = TxStall) tx.

Lemma send_all_dead buf tx : dead_tx tx -> exists tx', dead_tx tx' /\
  send_all buf tx = (match buf with [] => true | _ => false end, [], tx').
Proof.
  intros Ht. destruct buf as [|b buf]; [exists tx; split; [done|by destruct tx]|].
  destruct tx as [|e tx]; [by exists []|]. apply Forall_cons in Ht as [He Ht]. exists tx. split; [done|].
  by destruct He as [-> | ->].
Qed.

Lemma send_frame_dead msg_type payload tx : dead_tx tx ->
  exists tx', dead_tx tx' /\ osal_send_frame msg_type payload tx = (false, [], tx').
Proof.
  intros Ht. unfold osal_send_frame. destruct (_ >? _); [by exists tx|].
  rewrite header_encode_wire. match goal with |- context [header_wire ?h] =>
    pose proof (header_wire_length h) as Hl; destruct (send_all_dead (header_wire h) tx Ht) as (tx' & Ht' & E);
    revert Hl E; generalize (header_wire h) end.
  intros hdr Hl ->. destruct hdr; [discriminate Hl|]. by exists tx'.
Qed.

Lemma on_provider_event_dead ctx ev :
  dead_tx (fc_tx ctx) ->
  dead_tx (fc_tx (on_provider_event ctx ev)) /\ fc_out (on_provider_event ctx ev) = fc_out ctx /\
  fc_forwarded (on_provider_event ctx ev) = fc_forwarded ctx.
Proof.
  intros Ht. unfold on_provider_event. destruct (negb _); [done|].
  destruct (obicall_wire_decode_observation _) as [obs|]; [|done].
  destruct ((obicall_observation_validate obs).2); try done.
  destruct (obicall_wire_encode_observation obs 1200) as [buf|]; [|done].
  destruct (send_frame_dead OBICALL_MSG_OBSERVATION_SUBMIT buf _ Ht) as (tx' & Ht' & ->).
  cbn [fc_tx fc_out fc_forwarded]. by rewrite app_nil_r.
Qed.

Lemma relay_events_dead events ctx :
  dead_tx (fc_tx ctx) ->
  let ctx' := fold_left on_provider_event events ctx in
  dead_tx (fc_tx ctx') /\ fc_out ctx' = fc_out ctx /\ fc_forwarded ctx' = fc_forwarded ctx.
Proof.
  revert ctx. induction events as [|e events IH]; intros ctx Ht; cbn [fold_left]; [done|].
  destruct (on_provider_event_dead ctx e Ht) as (H1 & H2 & H3). destruct (IH _ H1) as (H4 & H5 & H6).
  cbv zeta. split; [done|]. by rewrite H5, H6.
Qed.

Section heartbeat.
Context {H E : Type} (nan : Z) (scan : list Z -> list f64) (p : provider H E).

Lemma worker_loop_dead envs w :
  dead_tx (fc_tx (wk_fctx w)) ->
  let w' := worker_loop nan scan p envs w in
  dead_tx (fc_tx (wk_fctx w')) /\ fc_out (wk_fctx w') = fc_out (wk_fctx w) /\
  fc_forwarded (wk_fctx w') = fc_forwarded (wk_fctx w).
Proof.
  revert w. induction envs as [|env envs IH]; intros w Ht; cbn [worker_loop]; [done|].
  unfold worker_loop_turn. destruct (apply_fault_file _ _ _ _ _ _) as [h last].
  destruct (pr_poll p _ h) as [events h'].
  destruct (relay_events_dead events (wk_fctx w) Ht) as (H1 & H2 & H3).
  match goal with |- context [worker_loop _ _ _ envs ?w'] => destruct (IH w') as (H4 & H5 & H6) end; [exact H1|].
  cbv zeta. split; [done|]. rewrite H5, H6. by cbn [fst wk_fctx].
Qed.

Lemma worker_turn_heartbeat env w t :
  0 <= wk_last_heartbeat_write w <= t -> t <= te_now env < 2 ^ 62 ->
  let w' := (worker_loop_turn nan scan p env w).1 in
  0 <= wk_last_heartbeat_write w' <= te_now env /\ te_now env - wk_last_heartbeat_write w' < HEARTBEAT_PERIOD_NS.
Proof.
  intros Hl Ht. unfold worker_loop_turn, HEARTBEAT_PERIOD_NS. destruct (apply_fault_file _ _ _ _ _ _) as [h last].
  destruct (pr_poll p _ h) as [events h']. cbn [fst wk_last_heartbeat_write].
  rewrite i64_id by (unfold is_i64; lia). destruct (Z.geb_spec (te_now env - wk_last_heartbeat_write w) 200000000); lia.
Qed.

Lemma worker_loop_heartbeat gap envs w t :
  0 <= wk_last_heartbeat_write w <= t -> turns_within gap t envs ->
  let w' := worker_loop nan scan p envs w in
  0 <= wk_last_heartbeat_write w' <= last_turn t envs /\
  (envs <> [] -> last_turn t envs - wk_last_heartbeat_write w' < HEARTBEAT_PERIOD_NS).
Proof.
  revert w t. induction envs as [|env envs IH]; intros w t Hl Hw; cbn [worker_loop]; [by split|].
  destruct Hw as (Ht & Hn & Hw). destruct (worker_turn_heartbeat env w t Hl) as [H1 H2]; [lia|].
  destruct (IH _ _ H1 Hw) as [H3 H4]. cbv zeta. unfold last_turn in *. rewrite last_cons.
  destruct (last envs) as [env'|] eqn:El; cbn [fmap option_fmap option_map default from_option] in *.
  - split; [done|]. intros _. apply H4. by destruct envs.
  - split; [done|]. intros _. destruct envs; [done|]. rewrite last_cons in El. by destruct (last envs).
Qed.
End heartbeat.

(** ** The journal's side of the connection *)

(** The connection thread's turns over what arrives, each with the outcome of the
    segment file's operations and the clock. *)
Fixpoint serve (slot : nat) (rx : list rx_event) (ios : list (io_outcome * Z)) (y : journald) : journald :=
  match ios with
  | [] => y
  | (io, now) :: ios => serve slot (osal_recv_frame 2048 rx).2 ios (worker_turn rx io now slot y)
  end.

(** The daemon will take an observation of this sensor and boot numbered [next] or
    above and sampled at [t] or later. *)
Record expects (s : journal_state) (sensor : list Z) (boot next t : Z) : Prop := {
  ex_tracks : tracks_ok (js_tracks s);
  ex_track : match find_track (js_tracks s) sensor with
             | None => Z.of_nat (length (js_tracks s)) < MAX_SENSOR_TRACKS
             | Some i => exists tr, js_tracks s !! i = Some tr /\
                 (tr_has_data tr <> 0 /\ tr_source_boot_id tr = boot ->
                  tr_highest_sequence_seen tr < next /\
                  i64 (tr_watermark_sample_time_ns tr - jc_max_lateness_ns (js_cfg s)) <= t)
             end
}.

Lemma pending_fold conns a b :
  let fa := fold_left pending_step conns (a, false) in
  let fb := fold_left pending_step conns (b, false) in
  fa.2 = fb.2 /\ (fa.2 = true -> fa.1 = fb.1).
Proof.
  revert a b. induction conns as [|c conns IH]; intros a b; cbn [fold_left]; [done|].
  unfold pending_step at 2 4 6 8 10. destruct (_ && _); [done|apply IH].
Qed.

(** One more window lengthens the queue by one at most. *)
Lemma pending_depth_grows s s' :
  js_conns s' = js_conns s -> js_next_window_seq s' = js_next_window_seq s + 1 ->
  compute_pending_depth_locked s' <= compute_pending_depth_locked s + 1.
Proof.
  intros Hc Hn. unfold compute_pending_depth_locked. rewrite Hc, Hn.
  pose proof (pending_fold (js_conns s) (js_next_window_seq s + 1) (js_next_window_seq s)) as [H1 H2].
  destruct (fold_left pending_step (js_conns s) (js_next_window_seq s + 1, false)) as [a any].
  destruct (fold_left pending_step (js_conns s) (js_next_window_seq s, false)) as [b any']. cbn [fst snd] in *.
  subst any'. destruct any; cbn [negb]; [|lia]. rewrite (H2 eq_refl). unfold u32.
  destruct (Z.gtb_spec (js_next_window_seq s + 1) b), (Z.gtb_spec (js_next_window_seq s) b); lia.
Qed.

Lemma admit_expected io now o s :
  expects s (obs_sensor_id o) (obs_source_boot_id o) (obs_sequence o) (obs_sample_time_ns o) ->
  sound_observation o -> 0 < obs_sample_time_ns o < 2 ^ 62 ->
  0 <= jc_max_lateness_ns (js_cfg s) < 2 ^ 62 ->
  compute_pending_depth_locked s < jc_max_pending_per_pipeline (js_cfg s) ->
  exists s', admit_locked io now o s = (OBICALL_ADMIT_OK, Some (js_next_window_seq s), s') /\
    js_cfg s' = js_cfg s /\
    forall next t, obs_sequence o < next -> obs_sample_time_ns o <= t ->
      expects s' (obs_sensor_id o) (obs_source_boot_id o) next t.
Proof.
  intros [Hok Htr] [Hobs Hval _] Hs Hlate Hdepth. apply validate_ok_equiv in Hobs.
  assert (Hid : length (obs_sensor_id o) = OBICALL_SENSOR_ID_LEN).
  { destruct Hval as [[] _ _]. by match goal with H : is_chars _ (obs_sensor_id o) |- _ => destruct H end. }
  pose proof (validated_id_ok _ Hobs Hid) as Hidok.
  unfold admit_locked. destruct (find_or_create_track (obs_sensor_id o) (js_tracks s)) as [[i tracks]|] eqn:Ef.
  2:{ unfold find_or_create_track in Ef. destruct (find_track _ _); [done|]. destruct (Z.geb_spec (Z.of_nat (length (js_tracks s))) MAX_SENSOR_TRACKS); [lia|done]. }
  destruct (find_or_create_spec _ _ _ _ Hok Hid Ef) as (Hok1 & (t & Ht & Hold & Hterm) & _ & _).
  destruct (Hterm (proj2 Hidok)) as [Hkey Hfind]. rewrite Ht. cbn [default from_option]. change (Datatypes.id t) with t.
  assert (Hsess : same_session t o -> tr_highest_sequence_seen t < obs_sequence o /\
    i64 (tr_watermark_sample_time_ns t - jc_max_lateness_ns (js_cfg s)) <= obs_sample_time_ns o).
  { intros [Hd Hb]. unfold find_or_create_track in Ef. destruct (find_track (js_tracks s) (obs_sensor_id o)) as [j|] eqn:Efi.
    - injection Ef as -> <-. destruct Htr as (tr & Htr & Himp). rewrite Ht in Htr. injection Htr as <-. by apply Himp.
    - destruct Hold as [Hold|Hold]; [|done]. destruct (_ >=? _); [done|]. injection Ef as <- <-.
      apply lookup_lt_Some in Hold. lia. }
  destruct (obicall_journal_admit (js_cfg s) t o (compute_pending_depth_locked s)) as [r track'] eqn:Ea.
  pose proof (admit_cases _ _ _ _ _ _ Ea) as (Hr & _ & Hacc).
  assert (Hadm : r = OBICALL_ADMIT_OK) by (apply Hr; split; [done|]; split; [exact Hsess|done]). subst r.
  destruct (Hacc eq_refl) as (Hid' & Hboot & Hdata & Hseq & Hwm).
  eexists. split; [reflexivity|]. split; [done|]. intros next tm Hnext Htm. cbn [js_tracks js_cfg].
  destruct (update_track_find tracks i t track' (obs_sensor_id o)) as [Hok2 Hfind2]; try done; [by rewrite Hid'..|].
  split; [done|]. cbn [js_tracks js_cfg]. rewrite Hfind2, Hfind. exists track'.
  split; [apply list_lookup_insert_eq; by eapply lookup_lt_Some|]. intros _. rewrite Hseq, Hwm. split; [lia|].
  assert (Hi : i64 (obs_sample_time_ns o - jc_max_lateness_ns (js_cfg s)) <= obs_sample_time_ns o)
    by (rewrite i64_id by (unfold is_i64; lia); lia).
  destruct (is_new_session t o) eqn:En; [lia|]. apply is_new_session_spec, Hsess in En as [_ Hw].
  destruct (Z.max_spec (tr_watermark_sample_time_ns t) (obs_sample_time_ns o)) as [[_ ->]|[_ ->]]; lia.
Qed.

Lemma worker_turn_admits rx rest io now slot y o :
  rx_chunks rx -> rx_stream rx = observation_frame o ++ rest ->
  expects (jd_state y) (obs_sensor_id o) (obs_source_boot_id o) (obs_sequence o) (obs_sample_time_ns o) ->
  sound_observation o -> 0 < obs_sample_time_ns o < 2 ^ 62 ->
  0 <= jc_max_lateness_ns (js_cfg (jd_state y)) < 2 ^ 62 ->
  compute_pending_depth_locked (jd_state y) < jc_max_pending_per_pipeline (js_cfg (jd_state y)) ->
  is_u64 (js_next_window_seq (jd_state y) + 1) ->
  rx_chunks (osal_recv_frame 2048 rx).2 /\ rx_stream (osal_recv_frame 2048 rx).2 = rest /\
  let y' := worker_turn rx io now slot y in
  jd_threads y' = jd_threads y /\
  jd_log y' = jd_log y ++ [SegmentRecord (js_next_window_seq (jd_state y)) now OBICALL_ADMIT_OK o] /\
  js_next_window_seq (jd_state y') = js_next_window_seq (jd_state y) + 1 /\
  js_cfg (jd_state y') = js_cfg (jd_state y) /\
  compute_pending_depth_locked (jd_state y') <= compute_pending_depth_locked (jd_state y) + 1 /\
  forall next t, obs_sequence o < next -> obs_sample_time_ns o <= t ->
    expects (jd_state y') (obs_sensor_id o) (obs_source_boot_id o) next t.
Proof.
  intros Hrx Hst Hexp Hso Hs Hlate Hdepth Hnext. pose proof Hso as [_ Hval Hcanon].
  pose proof (observation_wire_length o Hval) as Hlen.
  assert (Hsend : sendable 2048 OBICALL_MSG_OBSERVATION_SUBMIT (observation_wire o))
    by (split; [done|lia|unfold OBICALL_WIRE_MAX_PAYLOAD; lia]).
  destruct (recv_frame_chunks _ _ _ rx rest Hsend Hrx Hst) as (rx' & E & Hrx' & Hst').
  destruct (admit_expected io now o (jd_state y)) as (s' & Ea & Hcfg & Hexp'); try done.
  destruct (admit_locked_some _ _ _ _ _ _ _ Ea) as (_ & _ & _ & Hn & Hc & _).
  unfold worker_turn. rewrite E. cbn [fst snd]. split; [done|]. split; [done|]. rewrite Z.eqb_refl. cbn [negb].
  pose proof (dec_wire o [] Hval) as Hd. rewrite app_nil_r in Hd. rewrite Hd, Hcanon, Ea.
  cbv zeta. cbn [jd_threads jd_log jd_state]. rewrite u64_id in Hn by done.
  split_and!; try done. by apply pending_depth_grows.
Qed.

(** Observations of one sensor, each numbered and sampled after the one before. *)
Fixpoint in_turn (next t : Z) (os : list obicall_observation) : Prop :=
  match os with
  | [] => True
  | o :: os => next <= obs_sequence o /\ t <= obs_sample_time_ns o /\ in_turn (obs_sequence o + 1) (obs_sample_time_ns o) os
  end.

Definition of_source (sensor : list Z) (boot : Z) (o : obicall_observation) : Prop :=
  obs_sensor_id o = sensor /\ obs_source_boot_id o = boot /\ 0 < obs_sample_time_ns o < 2 ^ 62.

Lemma in_turn_later next t next' t' os : next' <= next -> t' <= t -> in_turn next t os -> in_turn next' t' os.
Proof. destruct os as [|o os]; [done|]. cbn. intros ?? (?&?&?). split_and!; [lia|lia|done]. Qed.

Lemma in_turn_filter (P : obicall_observation -> Prop) `{forall o, Decision (P o)} next t os :
  in_turn next t os -> in_turn next t (filter P os).
Proof.
  revert next t. induction os as [|o os IH]; intros next t; [done|]. intros (H1 & H2 & H3).
  rewrite filter_cons. destruct (decide (P o)); [cbn; split_and!; [done|done|by apply IH]|].
  eapply in_turn_later; [| |by apply IH]; lia.
Qed.

Lemma expects_later s sensor boot next t next' t' :
  next <= next' -> t <= t' -> expects s sensor boot next t -> expects s sensor boot next' t'.
Proof.
  intros Hn Ht [Hok Htr]. split; [done|]. destruct (find_track _ _) as [i|]; [|done].
  destruct Htr as (tr & E & H). exists tr. split; [done|]. intros [? ?]%H. lia.
Qed.

Record served (y y' : journald) (os : list obicall_observation) : Prop := {
  sv_log : exists ds, jd_log y' = jd_log y ++ ds /\ sr_obs <$> ds = os /\
    Forall (fun d => sr_reason d = OBICALL_ADMIT_OK) ds /\
    sr_window_seq <$> ds = seqZ (js_next_window_seq (jd_state y)) (Z.of_nat (length os));
  sv_reach : journald_reach y y'
}.

Lemma journald_reach_trans y0 y1 y2 : journald_reach y0 y1 -> journald_reach y1 y2 -> journald_reach y0 y2.
Proof. intros H. induction 1 as [|y y' _ IH Hs]; [done|]. exact (reach_step _ _ _ IH Hs). Qed.

Lemma serve_admits os rx ios slot y sensor boot next t :
  rx_chunks rx -> bytes (rx_stream rx) -> rx_stream rx = concat (observation_frame <$> os) ->
  Forall sound_observation os -> Forall (of_source sensor boot) os -> in_turn next t os ->
  expects (jd_state y) sensor boot next t -> jd_threads y !! slot = Some ThWorker ->
  length ios = length os -> Forall (fun p => is_i64 p.2) ios ->
  0 <= jc_max_lateness_ns (js_cfg (jd_state y)) < 2 ^ 62 ->
  compute_pending_depth_locked (jd_state y) + Z.of_nat (length os) <= jc_max_pending_per_pipeline (js_cfg (jd_state y)) ->
  0 <= js_next_window_seq (jd_state y) -> js_next_window_seq (jd_state y) + Z.of_nat (length os) < 2 ^ 64 ->
  served y (serve slot rx ios y) os.
Proof.
  intros Hrx Hb Hst Hso Hsrc. revert rx ios y next t Hrx Hb Hst.
  induction Hso as [|o os Ho Hso IH]; intros rx ios y next t Hrx Hb Hst Hturn Hexp Hth Hlen Hnow Hlate Hdepth Hn0 Hn;
    destruct ios as [|[io now] ios]; try done; cbn [serve length] in *.
  { split; [|by constructor]. exists []. by rewrite app_nil_r. }
  apply Forall_cons in Hsrc as [(Hsen & Hboot & Hsam) Hsrc]. destruct Hturn as (H1 & H2 & H3).
  apply Forall_cons in Hnow as [Hnow0 Hnow].
  change (concat (observation_frame <$> o :: os)) with (observation_frame o ++ concat (observation_frame <$> os)) in Hst.
  destruct (worker_turn_admits rx (concat (observation_frame <$> os)) io now slot y o)
    as (Hrx' & Hst' & Hth' & Hlog & Hnext & Hcfg & Hdep & Hexp'); try done.
  { rewrite Hsen, Hboot. by eapply expects_later. }
  { lia. }
  { unfold is_u64. lia. }
  destruct (IH Hsrc (osal_recv_frame 2048 rx).2 ios (worker_turn rx io now slot y) (obs_sequence o + 1) (obs_sample_time_ns o))
    as [(ds & E1 & E2 & E3 & E4) Hreach]; try done; try (rewrite ?Hcfg, ?Hnext; lia).
  { rewrite Hst'. rewrite Hst in Hb. by apply Forall_app in Hb as [_ Hb]. }
  { rewrite <- Hsen, <- Hboot. apply Hexp'; lia. }
  { by rewrite Hth'. }
  split.
  - exists (SegmentRecord (js_next_window_seq (jd_state y)) now OBICALL_ADMIT_OK o :: ds).
    split; [by rewrite E1, Hlog, <- app_assoc|]. split; [cbn; by rewrite <- E2|]. split; [by constructor|].
    cbn [fmap list_fmap sr_window_seq length]. rewrite E4, Hnext, Nat2Z.inj_succ.
    rewrite (seqZ_cons (js_next_window_seq (jd_state y)) (Z.succ _)) by lia. f_equal. f_equal; lia.
  - eapply journald_reach_trans; [|exact Hreach]. eapply reach_step; [constructor|]. by apply step_worker.
Qed.

(** ** Sources *)

(** The promise of a provider that is one sensor: what it hands over at a clock reading
    are well-formed observations of that sensor and boot, sampled then, numbered on. *)
Class SensorSource {H E : Type} (p : provider H E) := {
  ss_inv : H -> Prop;
  ss_sensor : H -> list Z;
  ss_boot : H -> Z;
  ss_next : H -> Z;
  ss_clock : E -> Z;
  ss_poll : forall e h, ss_inv h -> 0 < ss_clock e < 2 ^ 62 ->
    let events := (pr_poll p e h).1 in
    let h' := (pr_poll p e h).2 in
    ss_next h + Z.of_nat (length events) < 2 ^ 64 ->
    ss_inv h' /\ ss_sensor h' = ss_sensor h /\ ss_boot h' = ss_boot h /\
    ss_next h' = ss_next h + Z.of_nat (length events) /\
    exists os,
      Forall2 (fun ev o => ev_event_type ev = 1 /\ ev_payload ev = observation_wire o /\
                 valid_observation o /\ canon_observation o = o) events os /\
      Forall (fun o => obs_sensor_id o = ss_sensor h /\ obs_source_boot_id o = ss_boot h /\
                obs_sample_time_ns o = ss_clock e) os /\
      obs_sequence <$> os = seqZ (ss_next h) (Z.of_nat (length os))
}.

Definition validates (o : obicall_observation) : Prop := (obicall_observation_validate o).2 = OBICALL_OK.
#[global] Instance validates_dec o : Decision (validates o).
Proof. unfold validates. apply _. Defined.

Lemma relayed_source events os :
  Forall2 (fun ev o => ev_event_type ev = 1 /\ ev_payload ev = observation_wire o /\
             valid_observation o /\ canon_observation o = o) events os ->
  omap relayed events = filter validates os.
Proof.
  induction 1 as [|ev o events os (Ht & Hp & Hv & Hc) _ IH]; [done|]. rewrite relayed_cons, filter_cons, IH.
  unfold relayed. rewrite Ht, Hp. cbn [Z.eqb Pos.eqb negb].
  pose proof (dec_wire o [] Hv) as Hd. rewrite app_nil_r in Hd. rewrite Hd, Hc.
  change ((obicall_observation_validate o).2 = OBICALL_OK) with (validates o).
  by destruct (decide (validates o)) as [Hb|Hb]; [rewrite bool_decide_eq_true_2 by done|rewrite bool_decide_eq_false_2 by done].
Qed.

Lemma observation_wire_bytes o : valid_observation o -> bytes (observation_wire o).
Proof.
  intros [[] _ _]. assert (Hc : forall l, bytes (concat (le_bytes 8 <$> l))).
  { induction l as [|x l IH]; [constructor|]. apply Forall_app. split; [apply le_bytes_bytes|exact IH]. }
  match goal with H : is_chars _ (obs_sensor_id o) |- _ => destruct H as [_ Hid] end.
  unfold observation_wire. rewrite !Forall_app. by split_and!; try apply le_bytes_bytes.
Qed.

Lemma observation_frame_bytes o : valid_observation o -> bytes (observation_frame o).
Proof.
  intros Hv%observation_wire_bytes. apply (frame_rx_bytes OBICALL_MSG_OBSERVATION_SUBMIT) in Hv.
  unfold rx_stream in Hv. cbn [fmap list_fmap concat] in Hv. by rewrite app_nil_r in Hv.
Qed.

Lemma all_succeeded ps : successes ps = Z.of_nat (length ps) -> Forall (fun p : bool * list Z => p.1 = true) ps.
Proof.
  unfold successes. induction ps as [|q ps IH]; [constructor|]. rewrite filter_cons. intros Hl.
  pose proof (length_filter (fun p : bool * list Z => p.1 = true) ps) as Hle.
  destruct (decide (q.1 = true)); cbn [length] in Hl; [|lia]. constructor; [done|]. apply IH. lia.
Qed.

(** When the count says that everything was sent, the connection carries the frames. *)
Lemma relays_all os ps c c' :
  relays os ps c c' -> is_u32 (fc_forwarded c) -> fc_forwarded c' = fc_forwarded c + Z.of_nat (length os) ->
  fc_out c' = fc_out c ++ concat (observation_frame <$> os).
Proof.
  intros [Ho Hc Hp] Hf Hn. rewrite Ho. f_equal. pose proof (Forall2_length _ _ _ Hp) as Hl.
  assert (Hs : successes ps = Z.of_nat (length ps)).
  { pose proof (length_filter (fun p : bool * list Z => p.1 = true) ps) as Hle. unfold successes in *.
    rewrite Hn in Hc. unfold is_u32 in Hf. unfold u32 in Hc.
    pose proof (Z.mod_le (fc_forwarded c + Z.of_nat (length (filter (fun p => p.1 = true) ps))) 4294967296). lia. }
  apply all_succeeded in Hs. clear -Hp Hs. induction Hp as [|o q os ps [_ Hq] _ IH]; [done|].
  apply Forall_cons in Hs as [Hq' Hs]. cbn [fmap list_fmap concat]. rewrite (Hq Hq'). f_equal. by apply IH.
Qed.

Section source.
Context {H E : Type} (nan : Z) (scan : list Z -> list f64) (p : provider H E) `{!SensorSource p}.

(** No fault file; the clock does not go back. *)
Fixpoint clocks_ordered (t : Z) (envs : list (@turn_env E)) : Prop :=
  match envs with
  | [] => True
  | env :: envs => te_fault_file env = None /\ t <= ss_clock (te_provider env) /\
      0 < ss_clock (te_provider env) < 2 ^ 62 /\ clocks_ordered (ss_clock (te_provider env)) envs
  end.

Lemma in_turn_app os1 os2 next t c :
  obs_sequence <$> os1 = seqZ next (Z.of_nat (length os1)) -> Forall (fun o => obs_sample_time_ns o = c) os1 ->
  t <= c -> in_turn (next + Z.of_nat (length os1)) c os2 -> in_turn next t (os1 ++ os2).
Proof.
  revert next t. induction os1 as [|o os1 IH]; intros next t Hseq Hs Ht Hin; cbn [app length] in *.
  - eapply in_turn_later; [| |exact Hin]; lia.
  - rewrite Nat2Z.inj_succ in *. rewrite seqZ_cons in Hseq by lia. injection Hseq as Hq Hseq.
    apply Forall_cons in Hs as [Ho Hs]. cbn [in_turn]. rewrite Hq, Ho. split; [lia|]. split; [done|].
    apply IH; [|done|lia|].
    + fold (obs_sequence <$> os1) in Hseq. rewrite Hseq. f_equal; lia.
    + by replace (next + 1 + Z.of_nat (length os1)) with (next + Z.succ (Z.of_nat (length os1))) by lia.
Qed.

Lemma source_run envs h last t :
  ss_inv h -> clocks_ordered t envs ->
  ss_next h + Z.of_nat (length (worker_events nan scan p envs h last)) < 2 ^ 64 ->
  exists os,
    Forall2 (fun ev o => ev_event_type ev = 1 /\ ev_payload ev = observation_wire o /\
               valid_observation o /\ canon_observation o = o) (worker_events nan scan p envs h last) os /\
    Forall (of_source (ss_sensor h) (ss_boot h)) os /\ in_turn (ss_next h) t os.
Proof.
  revert h t. induction envs as [|env envs IH]; intros h t Hi Hc Hn; cbn [worker_events] in *; [by exists []|].
  destruct Hc as (Hf & Ht & Hclk & Hc). rewrite Hf in *. cbn [apply_fault_file] in *.
  destruct (pr_poll p (te_provider env) h) as [events h'] eqn:Ep. rewrite length_app in Hn.
  destruct (ss_poll (te_provider env) h Hi Hclk) as (Hi' & Hs & Hb & Hx & os1 & H1 & H2 & H3); rewrite Ep in *;
    cbn [fst snd] in *; [lia|].
  destruct (IH h' (ss_clock (te_provider env)) Hi' Hc) as (os2 & H4 & H5 & H6); [lia|].
  exists (os1 ++ os2). rewrite Hs, Hb in H5. rewrite Hx, (Forall2_length _ _ _ H1) in H6. split; [by apply Forall2_app|].
  split.
  - apply Forall_app. split; [|done]. eapply Forall_impl; [exact H2|]. intros o (E1 & E2 & E3). unfold of_source. by rewrite E3.
  - eapply in_turn_app; [done| |exact Ht|exact H6]. eapply Forall_impl; [exact H2|]. by intros o (_ & _ & ?).
Qed.

Lemma source_events_bytes events os :
  Forall2 (fun ev o => ev_event_type ev = 1 /\ ev_payload ev = observation_wire o /\
             valid_observation o /\ canon_observation o = o) events os ->
  Forall (fun ev => bytes (ev_payload ev)) events.
Proof.
  induction 1 as [|ev o events os (_ & Hp & Hv & _) _ IH]; constructor; [|done]. rewrite Hp. by apply observation_wire_bytes.
Qed.
End source.

(** ** The simulated provider is a source *)

Section csim.
Context (log cos : f64 -> f64) (nan : Z) (ub : f64 -> Z).

(** [g_descriptor] and [g_vtable] of the plugin; the clock is read once by
    [poll_events] and twice by [create]. *)
Definition sim_descriptor : obicall_descriptor :=
  Descriptor sizeof_descriptor OBICALL_ABI_VERSION_MAJOR OBICALL_ABI_VERSION_MINOR
    OBICALL_OBSERVATION_SCHEMA_VERSION OBICALL_C_SIM_CHECKPOINT_VERSION 1 0
    (Z.lor (Z.shiftl 1 0) (Z.lor (Z.shiftl 1 3) (Z.shiftl 1 4)))
    (pad 64 0 (ascii_bytes "provider_c_sim"%string)) (pad 32 0 (ascii_bytes "0.1.0"%string)).
Definition sim_provider_calls : provider sim_provider (Z * Z) :=
  Provider (sim_submit ub)
    (fun clock p => let '(_, ev, p) := sim_poll_events log cos nan clock.1 p in (option_list ev, p)).
Definition sim_vtable : obicall_provider_vtable sim_provider (Z * Z) :=
  Vtable sizeof_vtable
    (Some (fun config clock =>
       (OBICALL_OK, Some (sim_create ub (pf_config_json config) (pf_instance_seed config) clock.1 clock.2))))
    (Some (pr_submit sim_provider_calls)) (Some (pr_poll sim_provider_calls)) true true.

(** As long as it is not told to report its readings as old. *)
#[global] Program Instance sim_source : SensorSource sim_provider_calls := {
  ss_inv p := wf_sim p /\ sim_fault_mode p <> SIM_FAULT_DELAY;
  ss_sensor p := strncpy_zeroed OBICALL_SENSOR_ID_LEN (sim_sensor_id p);
  ss_boot := sim_source_boot_id;
  ss_next := sim_next_sequence;
  ss_clock := fst
}.
Next Obligation.
  intros [now c2] p [Hwf Hmode] Hn. cbn [fst sim_provider_calls pr_poll] in *.
  destruct (sim_poll_events log cos nan now p) as [[st ev] p'] eqn:Ep. cbn [fst snd].
  destruct (sim_poll_spec log cos nan ub now p st ev p' Hwf Hn Ep) as (_ & Hwf' & ((E1 & E2 & _) & E3) & Hev).
  intros Hfit. rewrite E1, E2, E3. split; [done|]. split; [done|]. split; [done|].
  pose proof (ws_sequence p Hwf) as Hseq. unfold is_u64 in Hseq.
  destruct ev as [e|]; cbn [option_list length] in *.
  - destruct Hev as (E4 & _ & _ & o & [Hty Hpay _ [Hv Hc] [Hid Hboot] Hq _ Hs]).
    split; [rewrite E4; apply u64_id; unfold is_u64; lia|].
    exists [o]. split; [apply Forall2_cons_2; [done|apply Forall2_nil_2]|].
    split; [apply Forall_cons_2; [by rewrite Hs|apply Forall_nil_2]|].
    cbn [fmap list_fmap length]. rewrite Hq, (seqZ_cons (sim_next_sequence p)) by lia. done.
  - destruct Hev as [E4 _]. split; [by rewrite E4, Z.add_0_r|]. exists [].
    split; [apply Forall2_nil_2|]. by split; [apply Forall_nil_2|].
Qed.
End csim.

(** ** Loading *)

Lemma blocks_of_concat fuel data : (length data <= fuel)%nat -> concat (blocks_of fuel data) = data.
Proof.
  revert data. induction fuel as [|fuel IH]; intros [|b data] Hl; cbn [blocks_of length] in *; try done; [lia|].
  set (l := b :: data). cbn [concat]. rewrite IH, take_drop; [done|].
  rewrite length_drop. assert (1 <= Z.to_nat 65536)%nat by lia. unfold l. cbn [length]. lia.
Qed.

Lemma file_digest_spec junk data : length junk = 64%nat -> file_digest junk data = sha256_spec data.
Proof. intros Hj. unfold file_digest. by rewrite sha256_streaming, blocks_of_concat. Qed.

Lemma rbind_ok {E A B} (m : result E A) (f : A -> result E B) b :
  rbind m f = Ok b <-> exists a, m = Ok a /\ f a = Ok b.
Proof. destruct m as [a|e]; cbn; split; [by exists a|by intros (a' & [= <-] & ?)|done|by intros (a' & ? & _)]. Qed.

Lemma require_ok b code u : require b code = Ok u <-> b = true.
Proof. destruct u, b; cbn; by split. Qed.

Lemma demand_ok {A} (o : option A) code a : demand o code = Ok a <-> o = Some a.
Proof. destruct o; cbn; split; congruence. Qed.

Section start.
Context {H E : Type} (ub : f64 -> Z) (junk : list Z) (mc : @machine H E) (tx : list tx_event).

(** The manifest was read and parsed, and the artifact has the digest it states. *)
Definition manifest_checked (manifest_path : list Z) (m : obicall_manifest) : Prop :=
  (exists data, mc_files mc manifest_path = Some data /\ Z.of_nat (length data) <= 8192 /\
     obicall_manifest_parse_json ub data = Ok m) /\
  (mf_has_artifact_sha256 m <> 0 ->
     exists artifact, mc_files mc (artifact_path_of manifest_path m) = Some artifact /\
       sha256_spec artifact = mf_artifact_sha256 m).

(** The library loaded, has a compatible interface and every entry the loop calls. *)
Definition plugin_checked (path : list Z) (p : provider H E)
    (create : obicall_provider_config -> E -> status * option H) : Prop :=
  exists d vt, mc_modules mc path = Some (Some (Some (d, vt))) /\
    sizeof_descriptor <= de_struct_size d /\ de_abi_version_major d = OBICALL_ABI_VERSION_MAJOR /\
    de_abi_version_minor d <= OBICALL_ABI_VERSION_MINOR /\ sizeof_vtable <= vt_struct_size vt /\
    vt_create vt = Some create /\ vt_submit vt = Some (pr_submit p) /\ vt_poll_events vt = Some (pr_poll p) /\
    vt_has_destroy vt = true /\ vt_has_release_buffer vt = true.

Lemma load_manifest_ok path m apath :
  length junk = 64%nat ->
  load_manifest ub junk mc path = Ok (m, apath) <-> manifest_checked path m /\ apath = artifact_path_of path m.
Proof.
  intros Hj. unfold load_manifest, manifest_checked, read_whole_file. rewrite rbind_ok. split.
  - intros (data & Hd%demand_ok & Hr). destruct (mc_files mc path) as [data'|]; [|done].
    destruct (Z.gtb_spec (Z.of_nat (length data')) 8192); [done|]. injection Hd as ->.
    apply rbind_ok in Hr as (m' & Hm & Hr). destruct (obicall_manifest_parse_json ub data) as [m0|] eqn:Ep; [|done].
    injection Hm as ->. cbv zeta in Hr.
    destruct (Z.eqb_spec (mf_has_artifact_sha256 m') 0) as [Hh|Hh]; cbn [negb] in Hr.
    + injection Hr as -> <-. split; [|done]. split; [by exists data|done].
    + apply rbind_ok in Hr as (artifact & Ha%demand_ok & Hr). apply rbind_ok in Hr as (u & Hreq & Hr).
      apply require_ok, bool_decide_eq_true in Hreq. injection Hr as -> <-. rewrite file_digest_spec in Hreq by done.
      split; [|done]. split; [by exists data|]. intros _. by exists artifact.
  - intros [[(data & -> & Hl & Hp) Hsha] ->]. exists data.
    destruct (Z.gtb_spec (Z.of_nat (length data)) 8192); [lia|]. split; [done|]. rewrite Hp. cbn [rbind].
    destruct (Z.eqb_spec (mf_has_artifact_sha256 m) 0) as [Hh|Hh]; cbn [negb]; [done|].
    destruct (Hsha Hh) as (artifact & -> & Hd). cbn [demand rbind]. rewrite file_digest_spec, Hd by done.
    by rewrite bool_decide_eq_true_2.
Qed.

Lemma load_plugin_ok path p create :
  load_plugin mc path = Ok (p, create) <-> plugin_checked path p create.
Proof.
  unfold load_plugin, plugin_checked, abi_compatible. split.
  - intros (md & Hm%demand_ok & Hr)%rbind_ok. apply rbind_ok in Hr as (q & Hq%demand_ok & Hr).
    apply rbind_ok in Hr as ([d vt] & Hdv%demand_ok & Hr). apply rbind_ok in Hr as (u & Hreq%require_ok & Hr%demand_ok).
    exists d, vt. subst. unfold provider_of in Hr. cbn [fst snd] in *.
    destruct (vt_create vt) as [c|], (vt_submit vt) as [sb|], (vt_poll_events vt) as [po|]; try done.
    destruct (Z.leb_spec sizeof_vtable (vt_struct_size vt)); [|done].
    destruct (vt_has_destroy vt); [|done]. destruct (vt_has_release_buffer vt); [|done]. injection Hr as <- <-.
    rewrite !andb_true_iff, !Z.leb_le, Z.eqb_eq in Hreq. destruct Hreq as [[? ?] ?]. by split_and!.
  - intros (d & vt & -> & H1 & H2 & H3 & H4 & H5 & H6 & H7 & H8 & H9). cbn [demand rbind fst snd].
    apply Z.leb_le in H1, H3, H4. apply Z.eqb_eq in H2. rewrite H1, H2, H3. cbn [andb require rbind].
    unfold provider_of. rewrite H4, H5, H6, H7, H8, H9. by destruct p.
Qed.
End start.

(** * What the worker promises *)

(** the worker gets to its loop exactly when every check of its start-up passes:
    the manifest parses, the artifact has the SHA-256 digest the manifest states (if
    it states one), the plugin's interface version is compatible and its vtable
    complete, it creates a provider from the manifest's configuration, and the
    handshake is sent.  Nothing of the plugin runs before its artifact is checked. *)
Theorem worker_start_checked {H E} ub junk (mc : @machine H E) tx args p w :
  length junk = 64%nat ->
  worker_start ub junk mc tx args = Ok (p, w) <->
  exists o m create h hello tx', parse_worker_options args = Ok o /\
    manifest_checked ub mc (wo_manifest o) m /\ plugin_checked mc (artifact_path_of (wo_manifest o) m) p create /\
    create (ProviderConfig sizeof_provider_config (mf_config_schema_version m) (c_str (mf_config_json m))
              (wo_instance_seed o)) (mc_create_env mc) = (OBICALL_OK, Some h) /\
    procutil_client_connect (wo_token o) OBICALL_ROLE_WORKER tx = Some (hello, tx') /\
    w = WorkerState h (ForwardCtx tx' hello 0) [] 0.
Proof.
  intros Hj. unfold worker_start. split.
  - intros (o & Ho & Hr)%rbind_ok. apply rbind_ok in Hr as ([m apath] & Hm & Hr). apply load_manifest_ok in Hm as [Hm ->]; [|done].
    apply rbind_ok in Hr as ([p' create] & Hpl%load_plugin_ok & Hr). cbn [fst snd] in *.
    apply rbind_ok in Hr as (h & Hh & Hr). apply rbind_ok in Hr as ([hello tx'] & Hc%demand_ok & Hr).
    cbn [fst snd] in Hr. injection Hr as -> <-. exists o, m, create, h, hello, tx'. split_and!; try done.
    destruct (create _ _) as [st [h'|]]; destruct st; try done. by injection Hh as ->.
  - intros (o & m & create & h & hello & tx' & -> & H5 & H6 & H7 & H8 & ->). cbn [rbind].
    rewrite (proj2 (load_manifest_ok ub junk mc _ m _ Hj) (conj H5 eq_refl)). cbn [rbind fst snd].
    rewrite (proj2 (load_plugin_ok mc _ p create) H6). cbn [rbind fst snd]. rewrite H7. cbn [rbind]. by rewrite H8.
Qed.

(** whatever a plugin hands over, the worker puts nothing on the journal connection
    but observation frames (a send that fails leaves a part of one), each holding an
    observation that passes validation, so the journal never refuses what arrives as
    invalid; it counts exactly the sends that succeeded. *)
Theorem worker_sends_only_valid {H E} nan scan (p : provider H E) envs w :
  byte_events p -> is_u32 (fc_forwarded (wk_fctx w)) ->
  exists os pieces, relays os pieces (wk_fctx w) (wk_fctx (worker_loop nan scan p envs w)) /\
    Forall sound_observation os /\
    Forall (fun o => forall cfg track pending,
              (obicall_journal_admit cfg track o pending).1 <> OBICALL_REJECT_VALIDATION) os.
Proof.
  intros Hb Hf. pose proof (worker_events_bytes nan scan p envs (wk_handle w) (wk_last_fault_content w) Hb) as Hev.
  destruct (worker_loop_relays nan scan p envs w Hev Hf) as (pieces & Hr).
  pose proof (relayed_all_sound _ Hev) as Hso. eexists _, pieces. split; [exact Hr|]. split; [exact Hso|].
  eapply Forall_impl; [exact Hso|]. intros o [Hok _ _] cfg track pending. apply validate_ok_equiv in Hok.
  unfold obicall_journal_admit. rewrite Hok. cbv zeta. by repeat case_match.
Qed.

(** C19: from the sensor to the segment: if the worker hosts a source that keeps its
    promise, the connection took everything, the journal knows nothing newer of that
    sensor, and its queue has room, then the journal admits every observation the
    worker relayed, in order, under consecutive window numbers, however the network
    cuts the bytes; it refuses none and takes nothing else from that connection. *)
Theorem worker_source_admitted {H E} nan scan (p : provider H E) `{!SensorSource p} envs w y slot rx ios t :
  let h := wk_handle w in
  let events := worker_events nan scan p envs h (wk_last_fault_content w) in
  let os := omap relayed events in
  let ctx' := wk_fctx (worker_loop nan scan p envs w) in
  let s := jd_state y in
  ss_inv h -> clocks_ordered p t envs -> ss_next h + Z.of_nat (length events) < 2 ^ 64 ->
  is_u32 (fc_forwarded (wk_fctx w)) -> fc_forwarded ctx' = fc_forwarded (wk_fctx w) + Z.of_nat (length os) ->
  rx_chunks rx -> fc_out ctx' = fc_out (wk_fctx w) ++ rx_stream rx ->
  expects s (ss_sensor h) (ss_boot h) (ss_next h) t -> jd_threads y !! slot = Some ThWorker ->
  length ios = length os -> Forall (fun q => is_i64 q.2) ios ->
  0 <= jc_max_lateness_ns (js_cfg s) < 2 ^ 62 ->
  compute_pending_depth_locked s + Z.of_nat (length os) <= jc_max_pending_per_pipeline (js_cfg s) ->
  0 <= js_next_window_seq s -> js_next_window_seq s + Z.of_nat (length os) < 2 ^ 64 ->
  served y (serve slot rx ios y) os.
Proof.
  intros h events os ctx' s Hi Hc Hn Hf Hcount Hrx Hout Hexp Hth Hlen Hnow Hlate Hdepth Hn0 Hn1.
  destruct (source_run nan scan p envs h (wk_last_fault_content w) t Hi Hc Hn) as (all & Hev & Hsrc & Hturn).
  pose proof (source_events_bytes _ _ Hev) as Hb.
  destruct (worker_loop_relays nan scan p envs w Hb Hf) as (pieces & Hr).
  pose proof (relays_all _ _ _ _ Hr Hf Hcount) as Hframes. fold ctx' in Hframes. rewrite Hout in Hframes.
  apply app_inv_head in Hframes. pose proof (relayed_source _ _ Hev) as Hos. fold events os in Hos, Hframes.
  pose proof (relayed_all_sound _ Hb) as Hso. fold events os in Hso.
  apply (serve_admits os rx ios slot y (ss_sensor h) (ss_boot h) (ss_next h) t); try done.
  - rewrite Hframes. apply Forall_concat, Forall_fmap. eapply Forall_impl; [exact Hso|].
    intros o [_ Hv _]. by apply observation_frame_bytes.
  - rewrite Hos. apply list.Forall_forall. intros o [_ Ho]%list_elem_of_filter. by apply (proj1 (list.Forall_forall _ _) Hsrc).
  - rewrite Hos. by apply in_turn_filter.
Qed.

(** a worker that has lost the journal is never replaced: when every send fails it
    relays nothing, but it goes on touching its heartbeat file, so a supervisor that
    looks at it within four seconds of its last turn finds it alive and leaves it. *)
Theorem worker_outage_unnoticed {H E} nan scan (p : provider H E) envs w t gap c cenv now proc :
  dead_tx (fc_tx (wk_fctx w)) -> 0 <= wk_last_heartbeat_write w <= t -> turns_within gap t envs -> envs <> [] ->
  let w' := worker_loop nan scan p envs w in
  cp_proc c = Some proc -> ce_alive cenv = true -> last_turn t envs <= now <= last_turn t envs + 4000000000 ->
  0 <= ce_mtime_ns cenv -> is_i64 (ce_realtime_ns cenv) ->
  ce_realtime_ns cenv - ce_mtime_ns cenv = now - wk_last_heartbeat_write w' ->
  fc_out (wk_fctx w') = fc_out (wk_fctx w) /\ fc_forwarded (wk_fctx w') = fc_forwarded (wk_fctx w) /\
  monitor_child now cenv c = ([], c).
Proof.
  intros Hd Hl Hw Hne w' Hp Ha Hnow Hm Hr Hage.
  destruct (worker_loop_dead nan scan p envs w Hd) as (_ & Ho & Hf).
  destruct (worker_loop_heartbeat nan scan p gap envs w t Hl Hw) as [H1 H2]. specialize (H2 Hne). fold w' in H1, H2.
  split; [done|]. split; [done|]. unfold HEARTBEAT_PERIOD_NS in H2.
  assert (Hh : is_hung now cenv c = false).
  { unfold is_hung, STALE_NS. unfold is_i64 in Hr. rewrite (i64_id (ce_realtime_ns cenv - _)) by (unfold is_i64; lia).
    rewrite (proj2 (Z.ltb_ge (ce_mtime_ns cenv) 0)) by lia.
    destruct (Z.gtb_spec (ce_realtime_ns cenv - ce_mtime_ns cenv) 5000000000); [lia|]. cbn [orb]. apply andb_false_r. }
  unfold monitor_child. by rewrite Hp, Hh, Ha.
Qed.

(** ** Witnesses *)

Definition sample_log (x : f64) : f64 := f64_minus_2.
Definition sample_calls : provider sim_provider (Z * Z) := sim_provider_calls sample_log id 0 no_ub.
Definition no_scan (text : list Z) : list f64 := [].
Definition sample_worker (tx : list tx_event) : worker := WorkerState sample_sim (ForwardCtx tx [] 0) [] 0.
Definition sample_turns : list (@turn_env (Z * Z)) :=
  (fun now => TurnEnv None (now, now) now) <$> [2000; 20002000; 120002000].
Definition relayed_bytes : list Z :=
  Eval vm_compute in fc_out (wk_fctx (worker_loop 0 no_scan sample_calls sample_turns (sample_worker eager_tx))).
Definition relayed_rx : list rx_event := [RxBytes (take 100 relayed_bytes); RxBytes (drop 100 relayed_bytes)].

Lemma sample_expects : expects (jd_state sample_j2) (strncpy_zeroed 32 (sim_sensor_id sample_sim)) 1007 1 0.
Proof. split; [by vm_compute|]. vm_compute. reflexivity. Qed.

Lemma worker_admitted_witness :
  length (jd_log (serve 0 relayed_rx [(io_success, 1); (io_success, 2)] sample_j2)) = 2%nat /\
  served sample_j2 (serve 0 relayed_rx [(io_success, 1); (io_success, 2)] sample_j2)
    (omap relayed (worker_events 0 no_scan sample_calls sample_turns sample_sim [])).
Proof.
  split; [by vm_compute|].
  refine (worker_source_admitted 0 no_scan sample_calls sample_turns (sample_worker eager_tx) sample_j2 0
    relayed_rx [(io_success, 1); (io_success, 2)] 0 _ _ _ _ _ _ _ _ _ _ _ _ _ _ _).
  - split; [exact sample_sim_wf|done].
  - by repeat split.
  - by vm_compute.
  - done.
  - by vm_compute.
  - by repeat constructor.
  - by vm_compute.
  - exact sample_expects.
  - by vm_compute.
  - by vm_compute.
  - by repeat constructor.
  - by vm_compute.
  - by vm_compute.
  - by vm_compute.
  - by vm_compute.
Defined.

(** A plugin that hands over one observation per poll. *)
Definition steady_event : obicall_event :=
  Event sizeof_event OBICALL_EVENT_SCHEMA_VERSION 1 0 1000 (observation_wire sample_observation).
Definition steady_calls : provider unit unit := Provider (fun _ h => h) (fun _ h => ([steady_event], h)).
Definition steady_worker (tx : list tx_event) : worker := WorkerState tt (ForwardCtx tx [] 0) [] 0.
Definition steady_turns : list (@turn_env unit) := (fun now => TurnEnv None tt now) <$> [1000000000; 1020000000].

(** The second frame goes out after ten bytes of the first: the count says one, and
    the journal, which reads the ten bytes and what follows as one header, gives the
    connection up. *)
Definition torn_tx : list tx_event := TxAccept 10 :: TxStall :: eager_tx.
Definition torn_run : worker := worker_loop 0 no_scan steady_calls steady_turns (steady_worker torn_tx).

Lemma worker_valid_witness :
  fc_forwarded (wk_fctx torn_run) = 1 /\
  exists os pieces, relays os pieces (wk_fctx (steady_worker torn_tx)) (wk_fctx torn_run) /\
    Forall sound_observation os /\
    Forall (fun o => forall cfg track pending,
              (obicall_journal_admit cfg track o pending).1 <> OBICALL_REJECT_VALIDATION) os.
Proof.
  split; [by vm_compute|].
  apply (worker_sends_only_valid 0 no_scan steady_calls steady_turns (steady_worker torn_tx)); [|done].
  intros [] []. constructor; [|constructor]. apply forallb_bytes. by vm_compute.
Defined.

Lemma worker_partial_frame_desyncs :
  (osal_recv_frame 2048 [RxBytes (fc_out (wk_fctx torn_run))]).1 = FrameError.
Proof. by vm_compute. Qed.

Definition watched : child_proc := ChildProc [119] [119] [[119]] (Some 7) 0 0 true false.
Lemma worker_outage_witness :
  monitor_child 1100000000 (ChildEnv true 5000000000 5100000000 None) watched = ([], watched).
Proof.
  apply (worker_outage_unnoticed 0 no_scan steady_calls steady_turns (steady_worker []) 0 1000000000 watched
    (ChildEnv true 5000000000 5100000000 None) 1100000000 7); try done; by constructor.
Defined.

(** A manifest that states the digest of its artifact, and a machine that has both. *)
Definition sample_artifact : list Z := [1; 2; 3].
Definition artifact_hex : list Z :=
  Eval vm_compute in default [] (c_str <$> procutil_hex_encode (sha256_spec sample_artifact) 65).
Definition checked_manifest : list Z :=
  123 :: (sample_member (ascii_bytes "schema_version"%string) [49] ++ [44] ++
   sample_member (ascii_bytes "name"%string) (quoted (ascii_bytes "sim"%string)) ++ [44] ++
   sample_member (ascii_bytes "artifact_path"%string) (quoted (ascii_bytes "sim"%string)) ++ [44] ++
   sample_member (ascii_bytes "artifact_sha256"%string) (quoted artifact_hex)) ++ [125].
Definition sample_machine : @machine sim_provider (Z * Z) :=
  Machine (fun path => if bool_decide (path = ascii_bytes "p/sim.json"%string) then Some checked_manifest
                       else if bool_decide (path = ascii_bytes "p/sim.so"%string) then Some sample_artifact else None)
    (fun path => Some (Some (Some (sim_descriptor, sim_vtable sample_log id 0 no_ub)))) (1000, 1000).
Definition sample_token_hex : list Z := Eval vm_compute in default [] (c_str <$> procutil_hex_encode sample_token 65).
Definition sample_worker_args : list (list Z) :=
  option_args [(ascii_bytes "--manifest"%string, ascii_bytes "p/sim.json"%string);
    (ascii_bytes "--journal-port"%string, ascii_bytes "4711"%string); (ascii_bytes "--token"%string, sample_token_hex)].
Definition zero_block : list Z := replicate 64 0.

Lemma worker_start_witness :
  match worker_start no_ub zero_block sample_machine eager_tx sample_worker_args with
  | Ok (p, w) => exists m, manifest_checked no_ub sample_machine (ascii_bytes "p/sim.json"%string) m /\
      plugin_checked sample_machine (artifact_path_of (ascii_bytes "p/sim.json"%string) m) p
        (fun config clock => (OBICALL_OK, Some (sim_create no_ub (pf_config_json config) (pf_instance_seed config) clock.1 clock.2)))
  | Err _ => False
  end.
Proof.
  destruct (worker_start no_ub zero_block sample_machine eager_tx sample_worker_args) as [[p w]|code] eqn:E.
  2:{ assert (match worker_start no_ub zero_block sample_machine eager_tx sample_worker_args with
              | Ok _ => true | Err _ => false end = true) as Hok by (by vm_compute). by rewrite E in Hok. }
  destruct (worker_start_checked no_ub zero_block sample_machine eager_tx sample_worker_args p w) as [H _];
    [done|]. destruct (H E) as (o & m & create & h & hello & tx' & H1 & H5 & H6 & _).
  assert (Hp : wo_manifest o = ascii_bytes "p/sim.json"%string) by (vm_compute in H1; by injection H1 as <-).
  rewrite Hp in H5, H6.
  exists m. split; [exact H5|]. destruct H6 as (d & vt & Hm & Hrest).
  injection Hm as <- <-. destruct Hrest as (R1 & R2 & R3 & R4 & R5 & Hrest). injection R5 as <-.
  exists sim_descriptor, (sim_vtable sample_log id 0 no_ub).
  exact (conj eq_refl (conj R1 (conj R2 (conj R3 (conj R4 (conj eq_refl Hrest)))))).
Defined.
