(* ===== verification/Launch.v ===== *)
(** * Launch: from the configuration file to the running processes
      (supervisor_start of src/supervisor/supervisor.c, the start of the daemons' mains)

    The supervisor turns the pipeline configuration into command lines; each daemon
    parses its own.  Both ends are modelled, so what the configuration says and what
    a process runs with can be compared.  Spawning, port files, files and the search
    path are inputs.  A C string is its bytes without the NUL. *)

From Stdlib Require Import (notations) Strings.String.
From S2P Require Import Prelude Types Samples Digest Cursor Wire Binary64 Stdio Journal Ipc JournalDaemon.
From S2P Require Import Gate GateDaemon Dgt Estimator BrokerQueue Broker Json Manifest ManifestParse Procutil.
From S2P Require Import Supervisor PipelineConfig Worker.
#[local] Delimit Scope string_scope with string.

(** ** What the daemons read from their command lines *)

(** A digest option of another length is ignored; a malformed one is stored up to the
    first bad pair, the rest being zero. *)
Fixpoint hex_prefix (hex : list Z) : list Z :=
  match hex with
  | h :: l :: hex =>
      if (hex_val h <? 0) || (hex_val l <? 0) then []
      else u8 (Z.lor (Z.shiftl (hex_val h) 4) (hex_val l)) :: hex_prefix hex
  | _ => []
  end.
Definition digest_of (digest_hex : option (list Z)) : list Z :=
  match digest_hex with
  | Some hex => if (length hex =? 64)%nat then pad 32 0 (hex_prefix hex) else replicate 32 0
  | None => replicate 32 0
  end.

(** [main] of the journal up to its listener; [files] opens the segment for append. *)
Definition journal_main (files : list Z -> option cfile) (args : list (list Z)) : result Z journald :=
  let! token_hex := demand (find_arg args (ascii_bytes "--token"%string)) 2 in
  let! token := demand (token_of token_hex) 2 in
  let cfg := JournalConfig (u64 (procutil_arg_i64 args (ascii_bytes "--reorder-window"%string) 8))
               (i64 (procutil_arg_i64 args (ascii_bytes "--max-lateness-ms"%string) 2000 * 1000000))
               (u32 (procutil_arg_i64 args (ascii_bytes "--max-pending"%string) 4096)) 1 in
  let! segment := match find_arg args (ascii_bytes "--segment-file"%string) with
                  | None => Ok None
                  | Some path => let! f := demand (files path) 2 in Ok (Some f)
                  end in
  Ok (journald_init (procutil_arg_str args (ascii_bytes "--pipeline-id"%string) (ascii_bytes "default"%string))
        cfg segment token).

(** [main] of the gate up to its listener: the token it expects and its context.  What
    it parses as --result-validity-ms it never uses. *)
Definition gate_main (files : list Z -> option (list Z)) (now : Z) (args : list (list Z))
    : result Z (list Z * gate_ctx) :=
  let! token_hex := demand (find_arg args (ascii_bytes "--token"%string)) 2 in
  let! token := demand (token_of token_hex) 2 in
  let state_file := find_arg args (ascii_bytes "--state-file"%string) ≫= files in
  let ctx := GateCtx zero_gate_state (replicate 3 zero_view) state_file
               (digest_of (find_arg args (ascii_bytes "--config-digest"%string))) OBICALL_CHECKPOINT_SCHEMA_VERSION
               (u64 (procutil_arg_i64 args (ascii_bytes "--max-replay-gap"%string) 50))
               (i64 (procutil_arg_i64 args (ascii_bytes "--confirm-timeout-ms"%string) 700 * 1000000)) now in
  let! ctx := demand (gate_restart now ctx) 3 in
  Ok (token, ctx).

Record broker_start := BrokerStart {
  br_token : list Z;
  br_journal_port : Z;
  br_gate_port : Z;
  br_config : broker_config
}.

(** [main] of the broker up to its connections. *)
Definition broker_main (args : list (list Z)) : result Z broker_start :=
  let num name dflt := procutil_arg_f64 args (ascii_bytes name) dflt in
  let ms name dflt := i64 (procutil_arg_i64 args (ascii_bytes name) dflt * 1000000) in
  let! journal_port := demand (find_arg args (ascii_bytes "--journal-port"%string)) 2 in
  let! gate_port := demand (find_arg args (ascii_bytes "--gate-port"%string)) 2 in
  let! token_hex := demand (find_arg args (ascii_bytes "--token"%string)) 2 in
  let! token := demand (token_of token_hex) 2 in
  Ok (BrokerStart token (u16 (strtoll journal_port)) (u16 (strtoll gate_port))
    {| bc_broker_id :=
         if bool_decide (procutil_arg_str args (ascii_bytes "--broker-id"%string) [65] = [66])
         then OBICALL_BROKER_B else OBICALL_BROKER_A;
       bc_pipeline_id := strncpy_zeroed OBICALL_PIPELINE_ID_LEN
         (procutil_arg_str args (ascii_bytes "--pipeline-id"%string) (ascii_bytes "default"%string));
       bc_config_digest := digest_of (find_arg args (ascii_bytes "--config-digest"%string));
       bc_result_validity_ns := ms "--result-validity-ms"%string 500;
       bc_sensor_fresh_window_ns := ms "--sensor-fresh-window-ms"%string 1000;
       bc_sensor_names := sensor_names_of (procutil_arg_str args (ascii_bytes "--sensor-ids"%string) []);
       bc_kf_params := KalmanParams
         (num "--process-noise-position"%string (f64_of_bits 4587366580439587226))
         (num "--process-noise-velocity"%string (f64_of_bits 4591870180066957722))
         (num "--initial-position-variance"%string (f64_of_bits 4621819117588971520))
         (num "--initial-velocity-variance"%string (f64_of_bits 4621819117588971520))
         (num "--max-prediction-gap-s"%string (f64_of_bits 4629137466983448576));
       bc_dgt := init_default_dgt_table;
       bc_dgt_hysteresis_margin := num "--dgt-hysteresis-margin"%string OBICALL_DGT_DEFAULT_HYSTERESIS_MARGIN;
       bc_dgt_enabled := procutil_arg_flag args (ascii_bytes "--dgt-enabled"%string) |}).

(** ** supervisor_start *)

(** What the system answers: the outcome of the n-th spawn, the port a daemon
    reports, file contents, OBICALL_PYTHON and PATH; and the names fixed by the build. *)
Record start_env := StartEnv {
  se_spawn : nat -> option (Z * Z);
  se_port : list Z -> option Z;
  se_files : list Z -> option (list Z);
  se_python : option (list Z);
  se_path : option (list Z);
  se_source_dir : list Z;
  se_core_lib_name : list Z;
  se_bin_to_libdir : list Z
}.

Section start.
Context (ub : f64 -> Z) (env : start_env).

Definition file_exists_quick (path : list Z) : bool :=
  match se_files env path with Some _ => true | None => false end.

(** The manifest is cut after 8192 bytes. *)
Definition provider_manifest_language (manifest_path : list Z) : Z :=
  match se_files env manifest_path with
  | None => 0
  | Some data =>
      match obicall_manifest_parse_json ub (take (Z.to_nat MANIFEST_BUF_LEN) data) with
      | Ok m => mf_language m
      | Err _ => 0
      end
  end.

Definition resolve_python_exe (cap : nat) : option (list Z) :=
  let search name := procutil_find_on_path file_exists_quick (se_path env) (ascii_bytes name) cap in
  let on_path := match search "python3"%string with Some exe => Some exe | None => search "python"%string end in
  match se_python env with
  | Some exe => if file_exists_quick exe then Some (take (cap - 1) exe) else on_path
  | None => on_path
  end.

(** Token and digest in hexadecimal. *)
Definition hex_text (data : list Z) : list Z := default [] (c_str <$> procutil_hex_encode data 65).

(** The options of each command line. *)
Definition journal_opts (cfg : pipeline_config) (runtime_dir token_hex segment_file : list Z) : list (list Z * list Z) :=
  [(ascii_bytes "--runtime-dir"%string, runtime_dir); (ascii_bytes "--token"%string, token_hex);
   (ascii_bytes "--pipeline-id"%string, c_str (pc_pipeline_id cfg)); (ascii_bytes "--segment-file"%string, segment_file);
   (ascii_bytes "--reorder-window"%string, show_i64 (i64 (pc_journal_reorder_window cfg)));
   (ascii_bytes "--max-lateness-ms"%string, show_i64 (pc_journal_max_lateness_ms cfg));
   (ascii_bytes "--max-pending"%string, show_i64 (pc_journal_max_pending cfg))].

Definition gate_opts (cfg : pipeline_config) (runtime_dir token_hex digest_hex state_file : list Z) : list (list Z * list Z) :=
  [(ascii_bytes "--runtime-dir"%string, runtime_dir); (ascii_bytes "--token"%string, token_hex);
   (ascii_bytes "--config-digest"%string, digest_hex); (ascii_bytes "--state-file"%string, state_file);
   (ascii_bytes "--result-validity-ms"%string, show_i64 (pc_gate_result_validity_ms cfg));
   (ascii_bytes "--suspect-timeout-ms"%string, show_i64 (pc_gate_suspect_timeout_ms cfg));
   (ascii_bytes "--confirm-timeout-ms"%string, show_i64 (pc_gate_confirm_timeout_ms cfg));
   (ascii_bytes "--max-replay-gap"%string, show_i64 (i64 (pc_gate_max_replay_gap cfg)))].

Definition broker_opts (cfg : pipeline_config) (letter runtime_dir token_hex digest_hex : list Z) (jport gport : Z)
    : list (list Z * list Z) :=
  [(ascii_bytes "--broker-id"%string, letter); (ascii_bytes "--journal-port"%string, show_i64 jport);
   (ascii_bytes "--gate-port"%string, show_i64 gport); (ascii_bytes "--token"%string, token_hex);
   (ascii_bytes "--pipeline-id"%string, c_str (pc_pipeline_id cfg)); (ascii_bytes "--runtime-dir"%string, runtime_dir);
   (ascii_bytes "--config-digest"%string, digest_hex); (ascii_bytes "--sensor-ids"%string, c_str (pc_sensor_ids_csv cfg));
   (ascii_bytes "--process-noise-position"%string, show_g9 (pc_est_process_noise_position cfg));
   (ascii_bytes "--process-noise-velocity"%string, show_g9 (pc_est_process_noise_velocity cfg));
   (ascii_bytes "--initial-position-variance"%string, show_g9 (pc_est_initial_position_variance cfg));
   (ascii_bytes "--initial-velocity-variance"%string, show_g9 (pc_est_initial_velocity_variance cfg));
   (ascii_bytes "--max-prediction-gap-s"%string, show_g9 (pc_est_max_prediction_gap_s cfg));
   (ascii_bytes "--dgt-hysteresis-margin"%string, show_g9 (pc_dgt_hysteresis_margin cfg))].
Definition broker_flags (cfg : pipeline_config) : list (list Z) :=
  if negb (pc_dgt_enabled cfg =? 0) then [ascii_bytes "--dgt-enabled"%string] else [].

Definition worker_opts (manifest_path token_hex runtime_dir worker_name seed : list Z) (jport : Z) : list (list Z * list Z) :=
  [(ascii_bytes "--manifest"%string, manifest_path); (ascii_bytes "--journal-port"%string, show_i64 jport);
   (ascii_bytes "--token"%string, token_hex); (ascii_bytes "--runtime-dir"%string, runtime_dir);
   (ascii_bytes "--worker-name"%string, worker_name); (ascii_bytes "--instance-seed"%string, seed)].

(** [add_child] and [spawn_child]; the error is the children there are when the start
    gives up. *)
Definition start_child (children : list child_proc) (name exe_path : list Z) (argv : list (list Z)) (is_worker : bool)
    : result (list child_proc) (list child_proc) :=
  match add_child children name exe_path argv is_worker with
  | None => Err children
  | Some added =>
      match last added with
      | None => Err added
      | Some c =>
          let '(_, ok, c) := spawn_child (se_spawn env (length children)) c in
          if ok then Ok (children ++ [c]) else Err (children ++ [c])
      end
  end.
Definition or_give_up {A} (o : option A) (children : list child_proc) : result (list child_proc) A :=
  match o with Some a => Ok a | None => Err children end.

(** What is fixed when the workers are started. *)
Record launch_ctx := LaunchCtx {
  lc_cfg : pipeline_config;           (* with the resolved [manifests_dir] *)
  lc_runtime_dir : list Z;
  lc_bin_dir : list Z;
  lc_token_hex : list Z;
  lc_digest_hex : list Z;
  lc_journal_port : Z;
  lc_gate_port : Z
}.

Definition worker_name_of (pr : provider_ref) (letter : list Z) : list Z :=
  snprintf 96 (c_str (pr_worker_name pr) ++ [95] ++ letter).
Definition worker_seed_of (pr : provider_ref) (letter : list Z) : list Z :=
  show_i64 (i64 (pr_instance_seed pr + (if bool_decide (letter = [66]) then 1000000 else 0))).
Definition manifest_path_of (lc : launch_ctx) (pr : provider_ref) : option (list Z) :=
  let path := c_str (pc_manifests_dir (lc_cfg lc)) ++ [47] ++ c_str (pr_manifest pr) in
  if (1200 <=? length path)%nat then None else Some path.

Definition core_lib_path (bin_dir : list Z) : list Z :=
  let beside := snprintf 700 (bin_dir ++ [47] ++ se_core_lib_name env) in
  if file_exists_quick beside then beside
  else snprintf 700 (bin_dir ++ [47] ++ se_bin_to_libdir env ++ [47] ++ se_core_lib_name env).
Definition python_script_path (bin_dir : list Z) : list Z :=
  let installed := snprintf 900 (bin_dir ++ ascii_bytes "/../share/obicall/python/obicall/provider_worker.py"%string) in
  if file_exists_quick installed then installed
  else snprintf 900 (se_source_dir env ++ ascii_bytes "/python/obicall/provider_worker.py"%string).

Definition start_worker (lc : launch_ctx) (letter : list Z) (children : list child_proc) (pr : provider_ref)
    : result (list child_proc) (list child_proc) :=
  let! manifest_path := or_give_up (manifest_path_of lc pr) children in
  let worker_name := worker_name_of pr letter in
  let opts := worker_opts manifest_path (lc_token_hex lc) (lc_runtime_dir lc) worker_name (worker_seed_of pr letter)
                (lc_journal_port lc) in
  if provider_manifest_language manifest_path =? OBICALL_LANG_PYTHON then
    let! python_exe := or_give_up (resolve_python_exe 600) children in
    start_child children worker_name python_exe
      (python_exe :: python_script_path (lc_bin_dir lc) ::
       option_args (opts ++ [(ascii_bytes "--core-lib"%string, core_lib_path (lc_bin_dir lc))])) true
  else
    let worker_exe := snprintf 560 (lc_bin_dir lc ++ ascii_bytes "/obicall-workerd"%string) in
    start_child children worker_name worker_exe (worker_exe :: option_args opts) true.

Fixpoint start_workers (lc : launch_ctx) (letter : list Z) (providers : list provider_ref) (children : list child_proc)
    : result (list child_proc) (list child_proc) :=
  match providers with
  | [] => Ok children
  | pr :: providers =>
      let! children := start_worker lc letter children pr in
      start_workers lc letter providers children
  end.

(** A broker and the workers that go with it. *)
Definition start_side (lc : launch_ctx) (letter : list Z) (children : list child_proc)
    : result (list child_proc) (list child_proc) :=
  let broker_exe := snprintf 560 (lc_bin_dir lc ++ ascii_bytes "/obicall-brokerd"%string) in
  let! children :=
    start_child children (ascii_bytes "broker_"%string ++ letter) broker_exe
      (broker_exe :: option_args (broker_opts (lc_cfg lc) letter (lc_runtime_dir lc) (lc_token_hex lc) (lc_digest_hex lc)
                                    (lc_journal_port lc) (lc_gate_port lc)) ++ broker_flags (lc_cfg lc)) false in
  start_workers lc letter (pc_providers (lc_cfg lc)) children.

Definition with_manifests_dir (cfg : pipeline_config) (dir : list Z) : pipeline_config :=
  PipelineConfig (pc_pipeline_id cfg) dir (pc_journal_reorder_window cfg) (pc_journal_max_lateness_ms cfg)
    (pc_journal_max_pending cfg) (pc_gate_result_validity_ms cfg) (pc_gate_suspect_timeout_ms cfg)
    (pc_gate_confirm_timeout_ms cfg) (pc_gate_max_replay_gap cfg) (pc_est_process_noise_position cfg)
    (pc_est_process_noise_velocity cfg) (pc_est_initial_position_variance cfg) (pc_est_initial_velocity_variance cfg)
    (pc_est_max_prediction_gap_s cfg) (pc_dgt_enabled cfg) (pc_dgt_hysteresis_margin cfg) (pc_sensor_ids_csv cfg)
    (pc_providers cfg) (pc_config_digest cfg).

(** The manifests are found relative to the configuration file. *)
Definition resolved_config (config_path : list Z) (cfg : pipeline_config) : pipeline_config :=
  with_manifests_dir cfg
    (strncpy_zeroed 512 (snprintf 1024 (dirname_of config_path 512 ++ [47] ++ c_str (pc_manifests_dir cfg)))).

Record supervisor := SupervisorState {
  sv_cfg : pipeline_config;
  sv_run_token : list Z;
  sv_journal_port : Z;
  sv_gate_port : Z;
  sv_children : list child_proc
}.

Definition supervisor_start (loaded : load_outcome) (config_path runtime_dir bin_dir token : list Z)
    : result (list child_proc) supervisor :=
  let! cfg := match loaded with Loaded cfg => Ok (resolved_config config_path cfg) | _ => Err [] end in
  let token_hex := hex_text token in
  let digest_hex := hex_text (pc_config_digest cfg) in
  let state_file := snprintf 600 (runtime_dir ++ ascii_bytes "/gate.state"%string) in
  let segment_file := snprintf 600 (runtime_dir ++ ascii_bytes "/journal.segment"%string) in
  let journal_exe := snprintf 560 (bin_dir ++ ascii_bytes "/obicall-journald"%string) in
  let gate_exe := snprintf 560 (bin_dir ++ ascii_bytes "/obicall-gated"%string) in
  let! children := start_child [] (ascii_bytes "journal"%string) journal_exe
    (journal_exe :: option_args (journal_opts cfg runtime_dir token_hex segment_file)) false in
  let! journal_port := or_give_up (se_port env (ascii_bytes "journal"%string)) children in
  let! children := start_child children (ascii_bytes "gate"%string) gate_exe
    (gate_exe :: option_args (gate_opts cfg runtime_dir token_hex digest_hex state_file)) false in
  let! gate_port := or_give_up (se_port env (ascii_bytes "gate"%string)) children in
  let lc := LaunchCtx cfg runtime_dir bin_dir token_hex digest_hex journal_port gate_port in
  let! children := start_side lc [65] children in
  let! children := start_side lc [66] children in
  Ok (SupervisorState cfg token journal_port gate_port children).
End start.

(** * Lemmas *)

(** ** Looking an option up in a known command line *)

Fixpoint index_of (names : list (list Z)) (name : list Z) : option nat :=
  match names with
  | [] => None
  | n :: names => if bool_decide (n = name) then Some O else S <$> index_of names name
  end.

Lemma option_value_index opts name :
  option_value opts name = index_of opts.*1 name ≫= (fun i => opts.*2 !! i).
Proof.
  induction opts as [|[n v] opts IH]; [done|]. cbn [option_value fmap list_fmap fst snd index_of].
  case_bool_decide; [done|]. rewrite IH. by destruct (index_of _ name).
Qed.

(** No value looks like an option name. *)
Definition plain_value (v : list Z) : Prop := take 2 v <> [45; 45].

Section command_line.
Context (opts : list (list Z * list Z)) (flags : list (list Z)).
Hypothesis (Hplain : Forall plain_value opts.*2).

Lemma find_arg_index name :
  take 2 name = [45; 45] -> Forall (fun f => f <> name) flags ->
  find_arg (option_args opts ++ flags) name = index_of opts.*1 name ≫= (fun i => opts.*2 !! i).
Proof.
  intros Hn Hf. rewrite find_arg_options; [apply option_value_index| |done].
  pose proof (proj1 (Forall_fmap _ _ _) Hplain) as Hp. eapply Forall_impl; [exact Hp|]. intros o Ho E.
  apply Ho. by rewrite E.
Qed.

Lemma arg_flag_options name :
  take 2 name = [45; 45] -> index_of opts.*1 name = None ->
  procutil_arg_flag (option_args opts ++ flags) name = procutil_arg_flag flags name.
Proof.
  intros Hn. unfold procutil_arg_flag. rewrite existsb_app.
  enough (H : index_of opts.*1 name = None -> existsb (fun a => bool_decide (a = name)) (option_args opts) = false)
    by (by intros ->%H). clear flags. induction opts as [|[n v] os IH]; [done|].
  apply Forall_cons in Hplain as [Hv Hp]. cbn [fmap list_fmap fst index_of snd] in *.
  case_bool_decide as E; [done|]. intros Hi. change (option_args ((n, v) :: os)) with (n :: v :: option_args os).
  cbn [existsb]. rewrite IH; [|done|by destruct (index_of _ name)].
  rewrite !bool_decide_eq_false_2; [done| |done]. intros ->. done.
Qed.
End command_line.

(** ** Printed values are no option names *)

Lemma dec_digits_ge fuel v : 0 <= v -> Forall (fun c => 48 <= c) (dec_digits fuel v []).
Proof.
  revert v. induction fuel as [|fuel IH]; intros v Hv; cbn [dec_digits]; [constructor|].
  destruct (v <? 10); [by constructor; [lia|constructor]|]. rewrite dec_digits_acc. apply Forall_app.
  split; [apply IH; lia|]. constructor; [lia|constructor].
Qed.

(** The text does not start with a dash, or is empty. *)
Definition no_dash (s : list Z) : Prop := match s with [] => True | c :: _ => c <> 45 end.

Lemma no_dash_plain s : no_dash s -> plain_value s.
Proof. destruct s as [|c s]; [done|]. cbn. intros Hc [= -> _]. done. Qed.

Lemma dash_plain s : no_dash s -> plain_value (45 :: s).
Proof. destruct s as [|c s]; [done|]. cbn. intros Hc [= ->]. done. Qed.

Lemma ge_no_dash s : Forall (fun c => 48 <= c) s -> no_dash s.
Proof. destruct 1; [done|]. cbn. lia. Qed.

Lemma show_i64_plain v : plain_value (show_i64 v).
Proof.
  unfold show_i64, show_u64. destruct (Z.ltb_spec v 0).
  - apply dash_plain, ge_no_dash, dec_digits_ge. lia.
  - apply no_dash_plain, ge_no_dash, dec_digits_ge. lia.
Qed.

Lemma with_fraction_no_dash ip fp s : no_dash ip -> no_dash s -> no_dash (with_fraction ip fp ++ s).
Proof. unfold with_fraction. intros Hi Hs. by destruct (strip_zeros fp), ip. Qed.

Lemma nine_digits_pos m e : 0 <= m -> 0 <= (nine_digits m e).1.
Proof.
  intros Hm. unfold nine_digits. cbv zeta.
  set (num := m * _ * _). set (den := _ * _).
  assert (0 <= num) by (unfold num; pose proof (Z.pow_nonneg 2 (Z.max e 0)); pose proof (Z.pow_nonneg 10 (Z.max (8 - exponent10 m e) 0)); nia).
  assert (0 < den) by (unfold den; pose proof (Z.pow_pos_nonneg 2 (Z.max (- e) 0)); pose proof (Z.pow_pos_nonneg 10 (Z.max (exponent10 m e - 8) 0)); nia).
  destruct (_ =? 10 ^ 9); [done|]. cbn [fst]. unfold round_half_even. cbv zeta.
  assert (0 <= num / den) by (by apply Z.div_pos). by repeat case_match; lia.
Qed.

Lemma show_g9_plain v : plain_value (show_g9 v).
Proof.
  assert (Hsign : forall (neg : bool) s, no_dash s -> plain_value ((if neg then [45] else []) ++ s)).
  { intros [] s Hs; [by apply dash_plain|by apply no_dash_plain]. }
  destruct v as [neg|neg| |neg m e]; cbn [show_g9]; [by apply Hsign|by apply Hsign|done|].
  pose proof (nine_digits_pos (Zpos m) e) as Hn. destruct (nine_digits (Zpos m) e) as [n x]. cbn [fst] in Hn.
  pose proof (dec_digits_ge 9 n (Hn ltac:(lia))) as Hd. apply Hsign.
  destruct ((x <? -4) || (9 <=? x)); [|destruct (0 <=? x)].
  - apply with_fraction_no_dash; [by apply ge_no_dash, Forall_take|done].
  - rewrite <- (app_nil_r (with_fraction _ _)). apply with_fraction_no_dash; [by apply ge_no_dash, Forall_take|done].
  - rewrite <- (app_nil_r (with_fraction _ _)). by apply with_fraction_no_dash.
Qed.

(** ** Tokens and digests in hexadecimal *)

Lemma hexchars_range i : 0 <= i < 16 -> 48 <= hexchars !!! Z.to_nat i.
Proof.
  intros Hi. assert (Hall : forallb (fun k => 48 <=? hexchars !!! k) (seq 0 16) = true) by reflexivity.
  rewrite forallb_forall in Hall. specialize (Hall (Z.to_nat i)). rewrite in_seq in Hall. lia.
Qed.

Lemma hex_text_spec data :
  is_chars 32 data ->
  length (hex_text data) = 64%nat /\ hex_pairs (hex_text data) = Some data /\ Forall (fun c => 48 <= c) (hex_text data).
Proof.
  intros [Hl Hb]. unfold hex_text, procutil_hex_encode. rewrite Hl. change (65 <? _) with false. cbv iota.
  pose proof (hex_pairs_encode data Hb) as Hp.
  set (f := fun b : Z => [hexchars !!! Z.to_nat (Z.shiftr b 4); hexchars !!! Z.to_nat (Z.land b 15)]) in *.
  assert (Hge : Forall (fun c => 48 <= c) (concat (f <$> data)) /\ length (concat (f <$> data)) = (2 * length data)%nat).
  { clear -Hb. induction Hb as [|b data Hb _ [IH1 IH2]]; [done|]. rewrite fmap_cons, concat_cons, length_app, IH2.
    destruct (nibbles b Hb) as (H1 & H2 & _). split; [|cbn; lia]. apply Forall_app. split; [|done].
    repeat constructor; by apply hexchars_range. }
  destruct Hge as [Hge Hlen]. cbn [fmap option_fmap option_map default from_option].
  assert (Hnz : Forall (fun c => c <> 0) (concat (f <$> data))) by (eapply Forall_impl; [exact Hge|]; cbn; lia).
  rewrite (c_str_app_zero _ [] Hnz). cbn [Datatypes.id]. split_and!; [by rewrite Hlen, Hl|done|done].
Qed.

Lemma token_of_hex data : is_chars 32 data -> token_of (hex_text data) = Some data.
Proof.
  intros H. destruct (hex_text_spec data H) as (Hl & Hp & _). unfold token_of, procutil_hex_decode.
  by rewrite Hl, Hp.
Qed.

Lemma hex_prefix_pairs hex data : hex_pairs hex = Some data -> hex_prefix hex = data.
Proof.
  revert data. remember (length hex) as n eqn:En. revert hex En. induction n as [n IH] using lt_wf_ind.
  intros [|h [|l hex]] En data; [by intros [= <-]|by intros [= <-]|]. cbn [hex_pairs hex_prefix].
  destruct (_ || _); [done|]. intros (d & Hd & ->)%fmap_Some. f_equal.
  apply (IH (length hex)); [cbn in En; lia|done|done].
Qed.

Lemma digest_of_hex data : is_chars 32 data -> digest_of (Some (hex_text data)) = data.
Proof.
  intros H. destruct (hex_text_spec data H) as (Hl & Hp & _). unfold digest_of. rewrite Hl. cbn [Nat.eqb].
  rewrite (hex_prefix_pairs _ _ Hp). destruct H as [Hd _]. unfold pad. rewrite Hd. apply app_nil_r.
Qed.

Lemma hex_text_plain data : is_chars 32 data -> plain_value (hex_text data).
Proof. intros H. apply no_dash_plain, ge_no_dash, hex_text_spec, H. Qed.

(** ** The children of a start that succeeds *)

(** A running child with its command line. *)
Definition child_of (name exe_path : list Z) (argv : list (list Z)) (is_worker : bool) (c : child_proc) : Prop :=
  cp_name c = take 63 (c_str name) /\ cp_exe_path c = take 511 (c_str exe_path) /\ cp_argv c = argv /\
  is_running c = true /\ cp_is_worker c = is_worker /\ cp_restart_count c = 0 /\ cp_restart_suspended c = false.

Section start.
Context (ub : f64 -> Z) (env : start_env).

Lemma start_child_ok cs name exe argv is_worker cs' :
  (length argv < SUPERVISOR_MAX_ARGV)%nat ->
  start_child env cs name exe argv is_worker = Ok cs' ->
  exists c, cs' = cs ++ [c] /\ child_of name exe argv is_worker c.
Proof.
  intros Hl. unfold start_child, add_child. destruct (SUPERVISOR_MAX_CHILDREN <=? length cs)%nat; [done|].
  rewrite last_snoc. unfold spawn_child. destruct (se_spawn env (length cs)) as [[proc now]|]; [|done].
  intros [= <-]. eexists. split; [reflexivity|]. unfold child_of, with_count, with_proc, is_running, set_argv.
  cbn [cp_name cp_exe_path cp_argv cp_proc cp_is_worker cp_restart_count cp_restart_suspended].
  rewrite (take_ge argv) by (unfold SUPERVISOR_MAX_ARGV in *; lia). by split_and!.
Qed.

(** The worker child of one provider on one side: a Python host is given its script
    first and the core library last. *)
Definition worker_child (lc : launch_ctx) (letter : list Z) (pr : provider_ref) (c : child_proc) : Prop :=
  exists path exe before extra, manifest_path_of lc pr = Some path /\
    child_of (worker_name_of pr letter) exe (exe :: before ++
      option_args (worker_opts path (lc_token_hex lc) (lc_runtime_dir lc) (worker_name_of pr letter)
                     (worker_seed_of pr letter) (lc_journal_port lc) ++ extra)) true c /\
    (before, extra) = (if provider_manifest_language ub env path =? OBICALL_LANG_PYTHON
                       then ([python_script_path env (lc_bin_dir lc)],
                             [(ascii_bytes "--core-lib"%string, core_lib_path env (lc_bin_dir lc))])
                       else ([], [])).

Lemma start_worker_ok lc letter cs pr cs' :
  start_worker ub env lc letter cs pr = Ok cs' -> exists c, cs' = cs ++ [c] /\ worker_child lc letter pr c.
Proof.
  unfold start_worker, or_give_up, worker_child. destruct (manifest_path_of lc pr) as [path|] eqn:Ep; [|done]. cbn [rbind].
  set (opts := worker_opts _ _ _ _ _ _). cbv zeta. destruct (_ =? OBICALL_LANG_PYTHON) eqn:El.
  - destruct (resolve_python_exe env 600) as [exe|]; [|done]. cbn [rbind]. intros H.
    apply start_child_ok in H as (c & -> & Hc); [|unfold SUPERVISOR_MAX_ARGV; cbn; lia].
    exists c. split; [done|]. exists path, exe, [python_script_path env (lc_bin_dir lc)], [(ascii_bytes "--core-lib"%string, core_lib_path env (lc_bin_dir lc))]. rewrite El. split; [done|]. by split; [exact Hc|].
  - intros H. apply start_child_ok in H as (c & -> & Hc); [|unfold SUPERVISOR_MAX_ARGV; cbn; lia].
    exists c. split; [done|]. eexists path, _, [], []. rewrite El, (app_nil_r (worker_opts _ _ _ _ _ _)). split; [done|]. by split; [exact Hc|].
Qed.

Lemma start_workers_ok lc letter prs cs cs' :
  start_workers ub env lc letter prs cs = Ok cs' ->
  exists ws, cs' = cs ++ ws /\ Forall2 (worker_child lc letter) prs ws.
Proof.
  revert cs. induction prs as [|pr prs IH]; intros cs; cbn [start_workers].
  - intros [= <-]. exists []. rewrite app_nil_r. by split; [|constructor].
  - intros (cs1 & H1 & H2)%rbind_ok. apply start_worker_ok in H1 as (c & -> & Hc).
    apply IH in H2 as (ws & -> & Hws). exists (c :: ws). rewrite <- app_assoc. by split; [|constructor].
Qed.

Definition broker_argv (lc : launch_ctx) (letter : list Z) : list (list Z) :=
  option_args (broker_opts (lc_cfg lc) letter (lc_runtime_dir lc) (lc_token_hex lc) (lc_digest_hex lc)
                 (lc_journal_port lc) (lc_gate_port lc)) ++ broker_flags (lc_cfg lc).
Definition broker_child (lc : launch_ctx) (letter : list Z) (c : child_proc) : Prop :=
  exists exe, child_of (ascii_bytes "broker_"%string ++ letter) exe (exe :: broker_argv lc letter) false c.

Lemma start_side_ok lc letter cs cs' :
  start_side ub env lc letter cs = Ok cs' ->
  exists b ws, cs' = cs ++ b :: ws /\ broker_child lc letter b /\ Forall2 (worker_child lc letter) (pc_providers (lc_cfg lc)) ws.
Proof.
  unfold start_side. intros (cs1 & H1 & H2)%rbind_ok. apply start_child_ok in H1 as (b & -> & Hb).
  2:{ unfold SUPERVISOR_MAX_ARGV, broker_flags. destruct (negb _); cbn; lia. }
  apply start_workers_ok in H2 as (ws & -> & Hws). exists b, ws. rewrite <- app_assoc.
  split; [done|]. split; [by eexists|done].
Qed.

(** All the children, in the order of their starts. *)
Record started (cfg : pipeline_config) (runtime_dir bin_dir token : list Z) (sv : supervisor) : Prop := {
  sd_cfg : sv_cfg sv = cfg;
  sd_token : sv_run_token sv = token;
  sd_ports : se_port env (ascii_bytes "journal"%string) = Some (sv_journal_port sv) /\
    se_port env (ascii_bytes "gate"%string) = Some (sv_gate_port sv);
  sd_children :
    let lc := LaunchCtx cfg runtime_dir bin_dir (hex_text token) (hex_text (pc_config_digest cfg))
                (sv_journal_port sv) (sv_gate_port sv) in
    exists jc gc ba wa bb wb jexe gexe,
      sv_children sv = jc :: gc :: ba :: wa ++ bb :: wb /\
      child_of (ascii_bytes "journal"%string) jexe (jexe :: option_args (journal_opts cfg runtime_dir (hex_text token)
        (snprintf 600 (runtime_dir ++ ascii_bytes "/journal.segment"%string)))) false jc /\
      child_of (ascii_bytes "gate"%string) gexe (gexe :: option_args (gate_opts cfg runtime_dir (hex_text token)
        (hex_text (pc_config_digest cfg)) (snprintf 600 (runtime_dir ++ ascii_bytes "/gate.state"%string)))) false gc /\
      broker_child lc [65] ba /\ Forall2 (worker_child lc [65]) (pc_providers cfg) wa /\
      broker_child lc [66] bb /\ Forall2 (worker_child lc [66]) (pc_providers cfg) wb
}.

Lemma supervisor_start_ok cfg config_path runtime_dir bin_dir token sv :
  supervisor_start ub env (Loaded cfg) config_path runtime_dir bin_dir token = Ok sv ->
  started (resolved_config config_path cfg) runtime_dir bin_dir token sv.
Proof.
  unfold supervisor_start. cbn [rbind]. set (cfg' := resolved_config config_path cfg). cbv zeta.
  intros (cs1 & H1 & Hr)%rbind_ok. apply start_child_ok in H1 as (jc & -> & Hj); [|unfold SUPERVISOR_MAX_ARGV; cbn; lia].
  apply rbind_ok in Hr as (jp & Hjp & Hr). unfold or_give_up in Hjp.
  destruct (se_port env (ascii_bytes "journal"%string)) as [jp'|] eqn:Ejp; [|done]. injection Hjp as ->.
  apply rbind_ok in Hr as (cs2 & H2 & Hr). apply start_child_ok in H2 as (gc & -> & Hg); [|unfold SUPERVISOR_MAX_ARGV; cbn; lia].
  apply rbind_ok in Hr as (gp & Hgp & Hr). unfold or_give_up in Hgp.
  destruct (se_port env (ascii_bytes "gate"%string)) as [gp'|] eqn:Egp; [|done]. injection Hgp as ->.
  apply rbind_ok in Hr as (cs3 & H3 & Hr). apply start_side_ok in H3 as (ba & wa & -> & Hba & Hwa).
  apply rbind_ok in Hr as (cs4 & H4 & Hr). apply start_side_ok in H4 as (bb & wb & -> & Hbb & Hwb).
  injection Hr as <-. split; [done|done|by split|]. cbn [sv_children sv_journal_port sv_gate_port].
  eexists jc, gc, ba, wa, bb, wb, _, _. split_and!; try done.
Qed.
End start.

(** ** Parsing what was composed *)

Lemma find_arg_at opts flags name i v :
  Forall plain_value opts.*2 -> take 2 name = [45; 45] -> Forall (fun f => f <> name) flags ->
  index_of opts.*1 name = Some i -> opts.*2 !! i = Some v -> find_arg (option_args opts ++ flags) name = Some v.
Proof. intros Hp Hn Hf Hi Hv. by rewrite find_arg_index, Hi. Qed.

Lemma find_arg_none opts flags name :
  Forall plain_value opts.*2 -> take 2 name = [45; 45] -> Forall (fun f => f <> name) flags ->
  index_of opts.*1 name = None -> find_arg (option_args opts ++ flags) name = None.
Proof. intros Hp Hn Hf Hi. by rewrite find_arg_index, Hi. Qed.

(** Every option of a known command line, by its place. *)
Ltac find_options Hp Hf :=
  unfold procutil_arg_str, procutil_arg_i64, procutil_arg_f64;
  repeat first
    [ erewrite (find_arg_at _ _ _ _ _ Hp); [|reflexivity|apply Hf; reflexivity|reflexivity|reflexivity]
    | erewrite (find_arg_none _ _ _ Hp); [|reflexivity|apply Hf; reflexivity|reflexivity] ];
  cbn [demand rbind default from_option snd]; repeat change (Datatypes.id ?x) with x.

(** The values of a known command line are no option names. *)
Ltac plain_values :=
  repeat (apply Forall_cons_2; [first [done|by apply hex_text_plain|apply show_i64_plain|apply show_g9_plain]|]);
  apply Forall_nil_2.

Lemma no_flags name : take 2 name = [45; 45] -> Forall (fun f => f <> name) ([] : list (list Z)).
Proof. by constructor. Qed.

Definition journal_config_of (cfg : pipeline_config) : obicall_journal_config :=
  JournalConfig (pc_journal_reorder_window cfg) (i64 (pc_journal_max_lateness_ms cfg * 1000000))
    (pc_journal_max_pending cfg) 1.

Lemma u64_of_i64 v : is_u64 v -> u64 (i64 v) = v.
Proof. mlia. Qed.

Lemma u32_is_i64 v : is_u32 v -> is_i64 v.
Proof. unfold is_u32, is_i64. lia. Qed.

Lemma journal_main_opts files cfg runtime_dir token segment f :
  wf_pipeline_config cfg -> is_chars 32 token -> plain_value runtime_dir -> plain_value (c_str (pc_pipeline_id cfg)) ->
  plain_value segment -> files segment = Some f ->
  journal_main files (option_args (journal_opts cfg runtime_dir (hex_text token) segment)) =
    Ok (journald_init (c_str (pc_pipeline_id cfg)) (journal_config_of cfg) (Some f) token).
Proof.
  intros [] Ht Hr Hpid Hseg Hf.
  assert (Hp : Forall plain_value (journal_opts cfg runtime_dir (hex_text token) segment).*2) by plain_values.
  rewrite <- (app_nil_r (option_args _)). unfold journal_main. find_options Hp no_flags.
  rewrite token_of_hex by done. cbn [demand rbind]. rewrite Hf. cbn [demand rbind]. unfold journal_config_of.
  rewrite !strtoll_show by first [done|apply i64_range|by apply u32_is_i64].
  by rewrite u64_of_i64, u32_id.
Qed.

(** The context the gate starts with, before it reads its state file. *)
Definition gate_context_of (cfg : pipeline_config) (state_file : option (list Z)) (now : Z) : gate_ctx :=
  GateCtx zero_gate_state (replicate 3 zero_view) state_file (pc_config_digest cfg) OBICALL_CHECKPOINT_SCHEMA_VERSION
    (pc_gate_max_replay_gap cfg) (i64 (pc_gate_confirm_timeout_ms cfg * 1000000)) now.

Lemma gate_main_opts files now cfg runtime_dir token state_file :
  wf_pipeline_config cfg -> is_chars 32 token -> plain_value runtime_dir -> plain_value state_file ->
  gate_main files now (option_args (gate_opts cfg runtime_dir (hex_text token) (hex_text (pc_config_digest cfg)) state_file)) =
    (let! ctx := demand (gate_restart now (gate_context_of cfg (files state_file) now)) 3 in Ok (token, ctx)).
Proof.
  intros [] Ht Hr Hs.
  assert (Hp : Forall plain_value (gate_opts cfg runtime_dir (hex_text token) (hex_text (pc_config_digest cfg)) state_file).*2)
    by plain_values.
  rewrite <- (app_nil_r (option_args _)). unfold gate_main. find_options Hp no_flags.
  rewrite token_of_hex by done. cbn [demand rbind mbind option_bind]. rewrite digest_of_hex by done. unfold gate_context_of.
  rewrite !strtoll_show by first [done|apply i64_range]. by rewrite u64_of_i64.
Qed.

(** What a broker runs with: the estimator's numbers as they come out of nine
    significant digits, and a result validity that the configuration has no part in. *)
Definition broker_config_of (cfg : pipeline_config) (broker_id : Z) : broker_config :=
  let printed x := strtod_full (show_g9 x) in
  {| bc_broker_id := broker_id;
     bc_pipeline_id := strncpy_zeroed OBICALL_PIPELINE_ID_LEN (c_str (pc_pipeline_id cfg));
     bc_config_digest := pc_config_digest cfg;
     bc_result_validity_ns := 500000000;
     bc_sensor_fresh_window_ns := 1000000000;
     bc_sensor_names := sensor_names_of (c_str (pc_sensor_ids_csv cfg));
     bc_kf_params := KalmanParams (printed (pc_est_process_noise_position cfg)) (printed (pc_est_process_noise_velocity cfg))
       (printed (pc_est_initial_position_variance cfg)) (printed (pc_est_initial_velocity_variance cfg))
       (printed (pc_est_max_prediction_gap_s cfg));
     bc_dgt := init_default_dgt_table;
     bc_dgt_hysteresis_margin := printed (pc_dgt_hysteresis_margin cfg);
     bc_dgt_enabled := negb (pc_dgt_enabled cfg =? 0) |}.

Lemma broker_flags_ne cfg name :
  take 2 name = [45; 45] -> bool_decide (name = ascii_bytes "--dgt-enabled"%string) = false ->
  Forall (fun f => f <> name) (broker_flags cfg).
Proof.
  intros _ Hn%bool_decide_eq_false. unfold broker_flags. destruct (negb _); [|constructor].
  constructor; [congruence|constructor].
Qed.

Lemma broker_main_opts cfg letter runtime_dir token jport gport :
  wf_pipeline_config cfg -> is_chars 32 token -> plain_value runtime_dir -> plain_value (c_str (pc_pipeline_id cfg)) ->
  plain_value (c_str (pc_sensor_ids_csv cfg)) -> letter = [65] \/ letter = [66] -> is_u16 jport -> is_u16 gport ->
  broker_main (option_args (broker_opts cfg letter runtime_dir (hex_text token) (hex_text (pc_config_digest cfg)) jport gport)
               ++ broker_flags cfg) =
    Ok (BrokerStart token jport gport
          (broker_config_of cfg (if bool_decide (letter = [66]) then OBICALL_BROKER_B else OBICALL_BROKER_A))).
Proof.
  intros [] Ht Hr Hpid Hcsv Hl Hj Hg.
  assert (Hpl : plain_value letter) by (by destruct Hl as [-> | ->]).
  assert (Hp : Forall plain_value (broker_opts cfg letter runtime_dir (hex_text token) (hex_text (pc_config_digest cfg)) jport gport).*2)
    by plain_values.
  assert (Hf : forall name, take 2 name = [45; 45] -> bool_decide (name = ascii_bytes "--dgt-enabled"%string) = false ->
    Forall (fun f => f <> name) (broker_flags cfg)) by (intros; by apply broker_flags_ne).
  unfold broker_main. rewrite arg_flag_options by done. find_options Hp Hf.
  rewrite token_of_hex by done. cbn [demand rbind]. rewrite digest_of_hex by done.
  assert (H16 : forall v, is_u16 v -> is_i64 v) by (unfold is_u16, is_i64; lia).
  rewrite !strtoll_show by by apply H16. rewrite !u16_id by done.
  unfold broker_config_of, broker_flags, procutil_arg_flag. by destruct (negb (pc_dgt_enabled cfg =? 0)).
Qed.

Lemma resolved_config_wf path cfg : wf_pipeline_config cfg -> wf_pipeline_config (resolved_config path cfg).
Proof. by intros []. Qed.

Lemma plain_app v x w : x <> 45 -> plain_value v -> plain_value (v ++ x :: w).
Proof. unfold plain_value. destruct v as [|a [|b r]]; cbn; [by intros ? _ [= ->]|by intros ? _ [= _ ->]|done]. Qed.

Lemma snprintf_plain v n : plain_value v -> plain_value (snprintf (S (S (S n))) v).
Proof.
  unfold plain_value, snprintf. replace (S (S (S n)) - 1)%nat with (S (S n)) by lia. by destruct v as [|a [|b r]].
Qed.

Lemma core_lib_plain env bin_dir : plain_value bin_dir -> plain_value (core_lib_path env bin_dir).
Proof.
  intros Hb. unfold core_lib_path.
  pose proof (snprintf_plain _ 697 (plain_app bin_dir 47 (se_core_lib_name env) ltac:(done) Hb)) as H1.
  pose proof (snprintf_plain _ 697 (plain_app bin_dir 47 (se_bin_to_libdir env ++ [47] ++ se_core_lib_name env) ltac:(done) Hb)) as H2.
  by destruct (file_exists_quick env _).
Qed.

(** What a worker child was told, whichever program hosts its provider. *)
Definition configured_worker (ub : f64 -> Z) (env : start_env) (lc : launch_ctx) (letter token : list Z)
    (pr : provider_ref) (c : child_proc) : Prop :=
  let path := c_str (pc_manifests_dir (lc_cfg lc)) ++ 47 :: c_str (pr_manifest pr) in
  exists exe script args, cp_argv c = exe :: script ++ args /\ cp_is_worker c = true /\
    script = (if provider_manifest_language ub env path =? OBICALL_LANG_PYTHON
              then [python_script_path env (lc_bin_dir lc)] else []) /\
    parse_worker_options args = Ok (WorkerOptions path (lc_journal_port lc) token (lc_runtime_dir lc)
      (snprintf 96 (c_str (pr_worker_name pr) ++ 95 :: letter))
      (u64 (pr_instance_seed pr + if bool_decide (letter = [66]) then 1000000 else 0))).

Lemma parse_worker_opts path token runtime_dir name seed jport extra :
  is_chars 32 token -> plain_value path -> plain_value runtime_dir -> plain_value name -> is_u16 jport ->
  Forall plain_value extra.*2 -> Forall (fun o => o.1 = ascii_bytes "--core-lib"%string) extra ->
  parse_worker_options (option_args (worker_opts path (hex_text token) runtime_dir name (show_i64 (i64 seed)) jport ++ extra)) =
    Ok (WorkerOptions path jport token runtime_dir name (u64 seed)).
Proof.
  intros Htok Hpath Hrd Hname Hj Hext _.
  assert (Hp : Forall plain_value (worker_opts path (hex_text token) runtime_dir name (show_i64 (i64 seed)) jport ++ extra).*2).
  { rewrite fmap_app. apply Forall_app. split; [|done]. plain_values. }
  rewrite <- (app_nil_r (option_args _)). unfold parse_worker_options. find_options Hp no_flags.
  rewrite token_of_hex by done. cbn [demand rbind]. rewrite !strtoll_show by (apply i64_range || (revert Hj; unfold is_u16, is_i64; lia)).
  rewrite u16_id by done. do 2 f_equal. mlia.
Qed.

Lemma worker_child_configured ub env lc letter token pr c :
  lc_token_hex lc = hex_text token -> is_chars 32 token -> plain_value (lc_runtime_dir lc) -> plain_value (lc_bin_dir lc) ->
  plain_value (c_str (pc_manifests_dir (lc_cfg lc))) -> is_u16 (lc_journal_port lc) ->
  plain_value (c_str (pr_worker_name pr)) ->
  worker_child ub env lc letter pr c -> configured_worker ub env lc letter token pr c.
Proof.
  intros Hhex Htok Hrd Hbin Hman Hj Hname (path & exe & before & extra & Hpath & Hc & Hbe).
  unfold manifest_path_of in Hpath. destruct (1200 <=? _)%nat; [done|]. injection Hpath as <-.
  destruct Hc as (_ & _ & Hargv & _ & Hw & _). rewrite Hhex in Hargv.
  assert (Hx : Forall plain_value extra.*2 /\ Forall (fun o => o.1 = ascii_bytes "--core-lib"%string) extra).
  { destruct (_ =? OBICALL_LANG_PYTHON); injection Hbe as _ ->; [|done]. split; [|by constructor].
    constructor; [by apply core_lib_plain|constructor]. }
  destruct Hx as [Hx1 Hx2]. eexists exe, before, _. split; [exact Hargv|]. split; [done|]. split.
  { cbn [app] in Hbe. by destruct (_ =? OBICALL_LANG_PYTHON); injection Hbe as ->. }
  apply parse_worker_opts; try done.
  - by apply plain_app.
  - apply (snprintf_plain _ 93). by apply plain_app.
Qed.

Lemma configured_workers ub env lc letter token prs ws :
  lc_token_hex lc = hex_text token -> is_chars 32 token -> plain_value (lc_runtime_dir lc) -> plain_value (lc_bin_dir lc) ->
  plain_value (c_str (pc_manifests_dir (lc_cfg lc))) -> is_u16 (lc_journal_port lc) ->
  Forall (fun pr => plain_value (c_str (pr_worker_name pr))) prs ->
  Forall2 (worker_child ub env lc letter) prs ws -> Forall2 (configured_worker ub env lc letter token) prs ws.
Proof.
  intros Hhex Htok Hrd Hbin Hman Hj Hnames. induction 1 as [|pr c prs ws Hc _ IH]; [constructor|].
  apply Forall_cons in Hnames as [Hn Hnames]. constructor; [by apply worker_child_configured|by apply IH].
Qed.

(** ** Restarts *)

Lemma monitor_child_argv now env c : cp_argv (monitor_child now env c).2 = cp_argv c.
Proof.
  unfold monitor_child. destruct (cp_proc c); [|done]. destruct (_ && _); [done|].
  change (cp_restart_suspended (with_proc c None)) with (cp_restart_suspended c).
  destruct (cp_restart_suspended c); [done|].
  match goal with |- context [cp_restart_count ?x >=? _] => set (c1 := x) end.
  assert (E : cp_argv c1 = cp_argv c) by (unfold c1; by destruct (_ >? _)).
  destruct (cp_restart_count c1 >=? MAX_RESTARTS); [exact E|]. unfold spawn_child.
  destruct (ce_spawned env) as [[]|]; exact E.
Qed.

(** A child is started again with the command line of its first start: a broker or
    worker restarted after the journal keeps the port the journal had before. *)
Lemma restart_keeps_argv ticks c : cp_argv (monitor_run ticks c).2 = cp_argv c.
Proof.
  revert c. induction ticks as [|[now env] ticks IH]; intros c; cbn [monitor_run]; [done|].
  pose proof (monitor_child_argv now env c) as H. destruct (monitor_child now env c) as [actions c'].
  specialize (IH c'). destruct (monitor_run ticks c') as [rs c'']. cbn [snd] in *. congruence.
Qed.

(** ** A start that meets no obstacle *)

Section complete.
Context (ub : f64 -> Z) (env : start_env).
Hypothesis (Hspawn : forall i, se_spawn env i <> None).

Lemma start_child_total cs name exe argv is_worker :
  (length cs < SUPERVISOR_MAX_CHILDREN)%nat ->
  exists c, start_child env cs name exe argv is_worker = Ok (cs ++ [c]).
Proof.
  intros Hl. unfold start_child, add_child. rewrite (proj2 (Nat.leb_gt _ _) Hl), last_snoc. unfold spawn_child.
  destruct (se_spawn env (length cs)) as [[proc now]|] eqn:E; [by eexists|by apply Hspawn in E].
Qed.

(** Nothing about a provider stops its workers from being started. *)
Definition startable (lc : launch_ctx) (pr : provider_ref) : Prop :=
  exists path, manifest_path_of lc pr = Some path /\
    (provider_manifest_language ub env path = OBICALL_LANG_PYTHON -> resolve_python_exe env 600 <> None).

Lemma start_worker_total lc letter cs pr :
  startable lc pr -> (length cs < SUPERVISOR_MAX_CHILDREN)%nat ->
  exists c, start_worker ub env lc letter cs pr = Ok (cs ++ [c]).
Proof.
  intros (path & Hp & Hpy) Hl. unfold start_worker, or_give_up. rewrite Hp. cbn [rbind]. cbv zeta.
  destruct (Z.eqb_spec (provider_manifest_language ub env path) OBICALL_LANG_PYTHON) as [El|El].
  - destruct (resolve_python_exe env 600) as [exe|]; [|by destruct (Hpy El)]. cbn [rbind]. by apply start_child_total.
  - by apply start_child_total.
Qed.

Lemma start_workers_total lc letter prs cs :
  Forall (startable lc) prs -> (length cs + length prs <= SUPERVISOR_MAX_CHILDREN)%nat ->
  exists ws, start_workers ub env lc letter prs cs = Ok (cs ++ ws) /\ length ws = length prs.
Proof.
  intros Hprs. revert cs. induction Hprs as [|pr prs Hpr Hprs IH]; intros cs Hl; cbn [start_workers length] in *.
  - exists []. by rewrite app_nil_r.
  - destruct (start_worker_total lc letter cs pr Hpr) as (c & ->); [lia|]. cbn [rbind].
    destruct (IH (cs ++ [c])) as (ws & -> & Hw); [rewrite length_app; cbn; lia|].
    exists (c :: ws). rewrite <- app_assoc. cbn [length]. by rewrite Hw.
Qed.

Lemma start_side_total lc letter cs :
  Forall (startable lc) (pc_providers (lc_cfg lc)) ->
  (length cs + 1 + length (pc_providers (lc_cfg lc)) <= SUPERVISOR_MAX_CHILDREN)%nat ->
  exists ws, start_side ub env lc letter cs = Ok (cs ++ ws) /\ length ws = S (length (pc_providers (lc_cfg lc))).
Proof.
  intros Hprs Hl. unfold start_side. cbv zeta.
  match goal with |- context [start_child env cs ?n ?e ?a ?w] => destruct (start_child_total cs n e a w) as (b & ->) end; [lia|].
  cbn [rbind]. destruct (start_workers_total lc letter _ (cs ++ [b]) Hprs) as (ws & -> & Hw); [rewrite length_app; cbn; lia|].
  exists (b :: ws). rewrite <- app_assoc. cbn [length]. by rewrite Hw.
Qed.
End complete.

(** * What the launch promises *)

Definition segment_path (runtime_dir : list Z) : list Z := snprintf 600 (runtime_dir ++ ascii_bytes "/journal.segment"%string).
Definition state_path (runtime_dir : list Z) : list Z := snprintf 600 (runtime_dir ++ ascii_bytes "/gate.state"%string).


(** nothing but the system can stop a start: if every spawn succeeds, both servers
    report a port, each manifest's path fits and a Python interpreter is found where
    one is needed, the supervisor starts, with two servers, two brokers and two
    workers per provider, never more than twenty of its thirty-two children. *)
Theorem launch_succeeds ub junk env file cfg config_path runtime_dir bin_dir token jport gport :
  pipeline_config_load ub junk file = Loaded cfg ->
  (forall i, se_spawn env i <> None) ->
  se_port env (ascii_bytes "journal"%string) = Some jport -> se_port env (ascii_bytes "gate"%string) = Some gport ->
  Forall (startable ub env (LaunchCtx (resolved_config config_path cfg) runtime_dir bin_dir (hex_text token)
            (hex_text (pc_config_digest cfg)) jport gport)) (pc_providers cfg) ->
  exists sv, supervisor_start ub env (Loaded cfg) config_path runtime_dir bin_dir token = Ok sv /\
    length (sv_children sv) = (4 + 2 * length (pc_providers cfg))%nat /\ (length (sv_children sv) <= 20)%nat.
Proof.
  intros Hload Hspawn Hj Hg Hprs. apply pipeline_config_load_wf in Hload. destruct Hload as [_ _ _ _ _ _ _ _ Hn].
  unfold PIPELINE_MAX_PROVIDERS in Hn. unfold supervisor_start. cbn [rbind]. cbv zeta.
  match goal with |- context [start_child env [] ?n ?e ?a ?w] => destruct (start_child_total env Hspawn [] n e a w) as (jc & ->) end;
    [unfold SUPERVISOR_MAX_CHILDREN; cbn; lia|]. cbn [rbind]. unfold or_give_up. rewrite Hj. cbn [rbind].
  match goal with |- context [start_child env ?cs ?n ?e ?a ?w] => destruct (start_child_total env Hspawn cs n e a w) as (gc & ->) end;
    [unfold SUPERVISOR_MAX_CHILDREN; cbn; lia|]. cbn [rbind]. rewrite Hg. cbn [rbind].
  set (lc := LaunchCtx _ _ _ _ _ _ _).
  destruct (start_side_total ub env Hspawn lc [65] (([] ++ [jc]) ++ [gc])) as (wa & -> & Hwa); [exact Hprs| |].
  { change (pc_providers (lc_cfg lc)) with (pc_providers cfg). unfold SUPERVISOR_MAX_CHILDREN. cbn [app length]. lia. }
  change (pc_providers (lc_cfg lc)) with (pc_providers cfg) in Hwa. cbn [rbind].
  destruct (start_side_total ub env Hspawn lc [66] ((([] ++ [jc]) ++ [gc]) ++ wa)) as (wb & -> & Hwb); [exact Hprs| |].
  { change (pc_providers (lc_cfg lc)) with (pc_providers cfg). unfold SUPERVISOR_MAX_CHILDREN.
    cbn [app length]. rewrite Hwa. lia. }
  change (pc_providers (lc_cfg lc)) with (pc_providers cfg) in Hwb. cbn [rbind].
  eexists. split; [reflexivity|]. cbn [sv_children app length]. rewrite length_app, Hwa, Hwb. lia.
Qed.

(** two settings of the configuration file do nothing: whatever gate.result_validity_ms
    and gate.suspect_timeout_ms say, gate and brokers start the same; the brokers, who
    put the validity on results, are never told it and use half a second. *)
Theorem launch_ignores_validity ub junk file cfg validity_ms suspect_ms files now letter runtime_dir token state_file jport gport :
  pipeline_config_load ub junk file = Loaded cfg ->
  is_i64 validity_ms -> is_i64 suspect_ms -> is_chars 32 token -> plain_value runtime_dir ->
  plain_value (c_str (pc_pipeline_id cfg)) -> plain_value (c_str (pc_sensor_ids_csv cfg)) ->
  plain_value state_file -> letter = [65] \/ letter = [66] -> is_u16 jport -> is_u16 gport ->
  let cfg' := PipelineConfig (pc_pipeline_id cfg) (pc_manifests_dir cfg) (pc_journal_reorder_window cfg)
    (pc_journal_max_lateness_ms cfg) (pc_journal_max_pending cfg) validity_ms suspect_ms
    (pc_gate_confirm_timeout_ms cfg) (pc_gate_max_replay_gap cfg) (pc_est_process_noise_position cfg)
    (pc_est_process_noise_velocity cfg) (pc_est_initial_position_variance cfg) (pc_est_initial_velocity_variance cfg)
    (pc_est_max_prediction_gap_s cfg) (pc_dgt_enabled cfg) (pc_dgt_hysteresis_margin cfg) (pc_sensor_ids_csv cfg)
    (pc_providers cfg) (pc_config_digest cfg) in
  let gate_args c := option_args (gate_opts c runtime_dir (hex_text token) (hex_text (pc_config_digest c)) state_file) in
  let broker_args c := option_args (broker_opts c letter runtime_dir (hex_text token) (hex_text (pc_config_digest c)) jport gport)
                       ++ broker_flags c in
  gate_main files now (gate_args cfg') = gate_main files now (gate_args cfg) /\
  broker_main (broker_args cfg') = broker_main (broker_args cfg) /\
  exists b, broker_main (broker_args cfg) = Ok b /\ bc_result_validity_ns (br_config b) = 500000000.
Proof.
  intros Hload Hv Hs Htok Hrd Hpid Hcsv Hst Hl Hj Hg cfg' gate_args broker_args.
  apply pipeline_config_load_wf in Hload. assert (Hwf' : wf_pipeline_config cfg') by (by destruct Hload).
  unfold gate_args, broker_args. rewrite !gate_main_opts by done. rewrite !broker_main_opts by done.
  split; [done|]. split; [done|]. by eexists.
Qed.

(** ** Witnesses *)

(** A configuration with one provider and one sensor. *)
Definition launch_provider : list Z :=
  123 :: sample_member (ascii_bytes "manifest"%string) (quoted (ascii_bytes "sim.json"%string)) ++ [44] ++
  sample_member (ascii_bytes "worker_name"%string) (quoted (ascii_bytes "sim"%string)) ++ [125].
Definition launch_text : list Z :=
  123 :: sample_member (ascii_bytes "sensor_ids"%string) (91 :: quoted (ascii_bytes "gps"%string) ++ [93]) ++ [44] ++
  sample_member (ascii_bytes "providers"%string) (91 :: launch_provider ++ [93]) ++ [125].
Definition zero_config : pipeline_config :=
  PipelineConfig [] [] 0 0 0 0 0 0 0 f64_zero f64_zero f64_zero f64_zero f64_zero 0 f64_zero [] [] [].
Definition launch_cfg : pipeline_config :=
  match pipeline_config_load no_ub zero_block (Some launch_text) with Loaded cfg => cfg | _ => zero_config end.
Definition launch_env : start_env :=
  StartEnv (fun i => Some (Z.of_nat i, 1000)) (fun name => Some (if bool_decide (name = ascii_bytes "gate"%string) then 4002 else 4001))
    (fun _ => None) None None [] [] [].
Definition launch_dir : list Z := ascii_bytes "/run/obicall"%string.
Definition launch_started : result (list child_proc) supervisor :=
  supervisor_start no_ub launch_env (Loaded launch_cfg) (ascii_bytes "/etc/pipeline.json"%string) launch_dir
    (ascii_bytes "/usr/bin"%string) sample_token.
Definition launch_sv : supervisor :=
  match launch_started with Ok sv => sv | Err _ => SupervisorState zero_config [] 0 0 [] end.

Lemma launch_loaded : pipeline_config_load no_ub zero_block (Some launch_text) = Loaded launch_cfg.
Proof.
  unfold launch_cfg. destruct (pipeline_config_load no_ub zero_block (Some launch_text)) eqn:E; [done|exfalso..];
  assert (Hl : match pipeline_config_load no_ub zero_block (Some launch_text) with Loaded _ => true | _ => false end = true)
    by (by vm_compute); by rewrite E in Hl.
Qed.

Lemma launch_ok : launch_started = Ok launch_sv.
Proof.
  unfold launch_sv. destruct launch_started eqn:E; [done|exfalso].
  assert (Hl : match launch_started with Ok _ => true | _ => false end = true) by (by vm_compute). by rewrite E in Hl.
Qed.

Lemma sample_token_chars : is_chars 32 sample_token.
Proof. split; [done|]. apply forallb_bytes. by vm_compute. Qed.


Lemma launch_succeeds_witness :
  exists sv, launch_started = Ok sv /\ length (sv_children sv) = 6%nat.
Proof.
  destruct (launch_succeeds no_ub zero_block launch_env (Some launch_text) launch_cfg (ascii_bytes "/etc/pipeline.json"%string)
    launch_dir (ascii_bytes "/usr/bin"%string) sample_token 4001 4002) as (sv & Hsv & Hn & _).
  - exact launch_loaded.
  - done.
  - by vm_compute.
  - by vm_compute.
  - assert (Hall : Forall (fun pr => exists path, manifest_path_of
        (LaunchCtx (resolved_config (ascii_bytes "/etc/pipeline.json"%string) launch_cfg) launch_dir (ascii_bytes "/usr/bin"%string)
          (hex_text sample_token) (hex_text (pc_config_digest launch_cfg)) 4001 4002) pr = Some path) (pc_providers launch_cfg)).
    { vm_compute. apply Forall_cons_2; [by eexists|apply Forall_nil_2]. }
    eapply Forall_impl; [exact Hall|]. intros pr (path & Hp). exists path. by split.
  - exists sv. split; [exact Hsv|]. rewrite Hn. by vm_compute.
Defined.

Lemma launch_validity_witness :
  exists b, broker_main (option_args (broker_opts launch_cfg [65] launch_dir (hex_text sample_token)
              (hex_text (pc_config_digest launch_cfg)) 4001 4002) ++ broker_flags launch_cfg) = Ok b /\
    bc_result_validity_ns (br_config b) = 500000000.
Proof.
  apply (launch_ignores_validity no_ub zero_block (Some launch_text) launch_cfg 9000 9000 (fun _ => None) 0 [65] launch_dir
    sample_token (state_path launch_dir) 4001 4002).
  - exact launch_loaded.
  - done.
  - done.
  - exact sample_token_chars.
  - done.
  - by vm_compute.
  - by vm_compute.
  - by vm_compute.
  - by left.
  - done.
  - done.
Defined.

(** The supervisor's record of a child keeps 63 bytes of its name, the worker writes its
    heartbeat under the whole name: with a name of 63 the supervisor looks for a file
    that nobody writes, and takes the worker for hung. *)
Definition long_provider : provider_ref := ProviderRef (pad 512 0 [109]) (pad 64 0 (replicate 63 120)) 1.
Example long_worker_name_is_not_found :
  pid_file_path launch_dir (take 63 (c_str (worker_name_of long_provider [65]))) <>
  pid_file_path launch_dir (worker_name_of long_provider [65]).
Proof. by vm_compute. Qed.

(** Nine digits do not hold every number: 0.123456789012345 arrives as 0.123456789. *)
Example nine_digits_lose :
  bits_of_f64 0 (strtod_full (show_g9 (f64_of_bits 4593560419847042606))) <> 4593560419847042606.
Proof. by vm_compute. Qed.
