(* ===== verification/Cli.v ===== *)
(** * Cli: the commands that read (src/cli/main.c, core/status.c, core/runtime.c)

    [doctor], [validate], [status] and [replay] with the texts they print and their
    exit codes, and [json_escape].  What they read (files, directories, plugins,
    sockets) is an input.  A JSON template is written with ' where C has an escaped
    double quote.  The commands that run the processes are in [CliRun]. *)

From Stdlib Require Import (notations) Strings.String.
From Stdlib Require Import Floats.SpecFloat.
From S2P Require Import Prelude Types Samples Digest Cursor Wire WireMsg Binary64 Stdio Journal Ipc JournalDaemon.
From S2P Require Import Gate GateDaemon GateServe Dgt Estimator BrokerQueue Broker Json Manifest ManifestParse Procutil PipelineConfig.
From S2P Require Import Supervisor Worker Launch.
#[local] Delimit Scope string_scope with string.

(** ** Printing *)

Definition json_template (s : String.string) : list Z := (fun c => if c =? 39 then 34 else c) <$> ascii_bytes s.
Definition show_bool (b : bool) : list Z := if b then ascii_bytes "true"%string else ascii_bytes "false"%string.
Definition show_yes (b : bool) : list Z := if b then ascii_bytes "yes"%string else ascii_bytes "no"%string.
Definition show_ok (b : bool) : list Z := if b then ascii_bytes "ok"%string else ascii_bytes "fail"%string.

(** [printf("%.6f", v)]: the integer part has at most 309 digits.  [nan] is the
    text of a NaN. *)
Definition show_f6 (nan : list Z) (v : f64) : list Z :=
  match v with
  | S754_nan => nan
  | S754_infinity neg => (if neg then [45] else []) ++ ascii_bytes "inf"%string
  | S754_zero neg => (if neg then [45] else []) ++ ascii_bytes "0.000000"%string
  | S754_finite neg m e =>
      let n := round_half_even (Zpos m * 2 ^ Z.max e 0 * 10 ^ 6) (2 ^ Z.max (- e) 0) in
      let fp := dec_digits 6 (n mod 10 ^ 6) [] in
      (if neg then [45] else []) ++ dec_digits 310 (n / 10 ^ 6) [] ++ [46] ++ replicate (6 - length fp) 48 ++ fp
  end.

Definition broker_name (id : Z) : list Z :=
  if id =? OBICALL_BROKER_A then ascii_bytes "A"%string
  else if id =? OBICALL_BROKER_B then ascii_bytes "B"%string else ascii_bytes "none"%string.

(** [s] is a C string, its bytes without the NUL; so is the result. *)
Fixpoint json_escape_from (oi : nat) (s : list Z) (out_cap : nat) : list Z :=
  match s with
  | [] => []
  | c :: s =>
      if (oi + 2 <? out_cap)%nat then
        if (c =? 34) || (c =? 92) then 92 :: c :: json_escape_from (oi + 2) s out_cap
        else if c =? 10 then 92 :: 110 :: json_escape_from (oi + 2) s out_cap
        else if c >=? 32 then c :: json_escape_from (oi + 1) s out_cap
        else json_escape_from oi s out_cap
      else []
  end.
Definition json_escape (s : list Z) (out_cap : nat) : list Z := json_escape_from 0 s out_cap.

Definition obicall_status_string (s : status) : list Z :=
  ascii_bytes match s with
  | OBICALL_OK => "ok"
  | OBICALL_ERR_INVALID_ARGUMENT => "invalid argument"
  | OBICALL_ERR_NULL_POINTER => "null pointer"
  | OBICALL_ERR_OUT_OF_RANGE => "value out of range"
  | OBICALL_ERR_BUFFER_TOO_SMALL => "buffer too small"
  | OBICALL_ERR_NOT_FOUND => "not found"
  | OBICALL_ERR_ALREADY_EXISTS => "already exists"
  | OBICALL_ERR_UNSUPPORTED => "unsupported"
  | OBICALL_ERR_ABI_VERSION_MISMATCH => "ABI version mismatch"
  | OBICALL_ERR_ABI_STRUCT_SIZE_MISMATCH => "ABI struct size mismatch"
  | OBICALL_ERR_SYMBOL_NOT_FOUND => "symbol not found"
  | OBICALL_ERR_ARCHITECTURE_MISMATCH => "architecture mismatch"
  | OBICALL_ERR_ARTIFACT_INTEGRITY => "artifact integrity check failed"
  | OBICALL_ERR_DEPENDENCY_CYCLE => "dependency cycle"
  | OBICALL_ERR_DEPENDENCY_MISSING => "dependency missing"
  | OBICALL_ERR_CONFORMANCE_FAILED => "conformance check failed"
  | OBICALL_ERR_LOAD_FAILED => "load failed"
  | OBICALL_ERR_VALIDATION_NON_FINITE => "non-finite value"
  | OBICALL_ERR_VALIDATION_DIMENSION => "dimension mismatch"
  | OBICALL_ERR_VALIDATION_COVARIANCE => "invalid covariance"
  | OBICALL_ERR_VALIDATION_SEQUENCE => "invalid sequence"
  | OBICALL_ERR_VALIDATION_TIMING => "invalid timing"
  | OBICALL_ERR_ADMISSION_DUPLICATE => "duplicate observation"
  | OBICALL_ERR_ADMISSION_LATE => "late observation"
  | OBICALL_ERR_ADMISSION_OVERFLOW => "admission queue overflow"
  | OBICALL_ERR_WIRE_MALFORMED => "malformed wire frame"
  | OBICALL_ERR_WIRE_TOO_LARGE => "wire frame too large"
  | OBICALL_ERR_WIRE_VERSION_UNSUPPORTED => "unsupported wire version"
  | OBICALL_ERR_WIRE_CHECKSUM => "wire checksum mismatch"
  | OBICALL_ERR_IO => "I/O error"
  | OBICALL_ERR_TIMEOUT => "timeout"
  | OBICALL_ERR_AUTH => "authentication failed"
  | OBICALL_ERR_CONNECTION_CLOSED => "connection closed"
  | OBICALL_ERR_GATE_NOT_OWNER => "not the current epoch owner"
  | OBICALL_ERR_GATE_STALE_EPOCH => "stale epoch"
  | OBICALL_ERR_GATE_DUPLICATE_WINDOW => "duplicate window"
  | OBICALL_ERR_GATE_EXPIRED => "result expired"
  | OBICALL_ERR_GATE_INCOMPATIBLE => "incompatible with gate state"
  | OBICALL_ERR_GATE_NOT_READY => "not ready for promotion"
  | OBICALL_ERR_GATE_PERSISTENCE => "gate persistence failure"
  | OBICALL_ERR_PROCESS_SPAWN => "process spawn failed"
  | OBICALL_ERR_PROCESS_NOT_RUNNING => "process not running"
  | OBICALL_ERR_ALREADY_RUNNING => "already running"
  | OBICALL_ERR_DGT_NO_ELIGIBLE_ACTION => "no eligible DGT action"
  | OBICALL_ERR_DGT_INVALID_SCORE => "invalid DGT score"
  | OBICALL_ERR_INTERNAL => "internal error"
  end%string.

Definition obicall_abi_version : Z * Z := (OBICALL_ABI_VERSION_MAJOR, OBICALL_ABI_VERSION_MINOR).

(** What a command leaves behind: its standard output and error, its exit code. *)
Record outcome := Outcome { oc_out : list Z; oc_err : list Z; oc_code : Z }.

(** ** doctor *)

(** [de_open path]: [None] when the module cannot be loaded, else whether its query
    function is there, succeeds and returns both tables. *)
Record doctor_env := DoctorEnv {
  de_link : option (list Z);           (* /proc/self/exe *)
  de_leaf : list Z;
  de_bin_to_libdir : list Z;
  de_version : list Z;
  de_open : list Z -> option bool
}.

Definition doctor_candidates (env : doctor_env) (argv0 : list Z) : list (list Z) :=
  let exe_dir := procutil_own_exe_dir (de_link env) argv0 1024 in
  [snprintf 1200 (exe_dir ++ [47] ++ de_leaf env);
   snprintf 1200 (exe_dir ++ [47] ++ de_bin_to_libdir env ++ ascii_bytes "/obicall/providers/"%string ++ de_leaf env)].

Definition cmd_doctor (env : doctor_env) (argv0 : list Z) (args : list (list Z)) : outcome :=
  let as_json := procutil_arg_flag args (ascii_bytes "--json"%string) in
  let found := list_find (fun path => is_Some (de_open env path)) (doctor_candidates env argv0) in
  let provider_path := match found with Some (_, path) => path | None => [] end in
  let provider_ok := match found with Some (_, path) => default false (de_open env path) | None => false end in
  let abi := show_u64 obicall_abi_version.1 ++ [46] ++ show_u64 obicall_abi_version.2 in
  Outcome
    (if as_json then
       json_template "{'checks':["%string ++
       json_template "{'name':'core_library','status':'ok','detail':'obicall "%string ++ de_version env ++
       ascii_bytes " ABI "%string ++ abi ++ json_template "'},"%string ++
       json_template "{'name':'provider_c_sim','status':'"%string ++ show_ok provider_ok ++
       json_template "','detail':'"%string ++
       json_escape (if provider_ok then provider_path else ascii_bytes "failed to load reference provider"%string) 1300 ++
       json_template "'}"%string ++
       json_template "],'overall':'"%string ++ show_ok provider_ok ++ json_template "'}"%string ++ [10]
     else
       ascii_bytes "core_library: ok (obicall "%string ++ de_version env ++ ascii_bytes ", ABI "%string ++ abi ++
       ascii_bytes ")"%string ++ [10] ++
       ascii_bytes "provider_c_sim: "%string ++
       (if provider_ok then ascii_bytes "ok"%string else ascii_bytes "FAIL"%string) ++
       ascii_bytes " ("%string ++ provider_path ++ ascii_bytes ")"%string ++ [10] ++
       ascii_bytes "overall: "%string ++ show_ok provider_ok ++ [10])
    [] (if provider_ok then 0 else 1).

(** ** validate *)

(** [ve_detail]: what [obicall_manifest_load_dir] leaves in its detail buffer. *)
Record validate_env := ValidateEnv {
  ve_files : list Z -> option (list Z);
  ve_entries : list Z -> option (list (list Z));
  ve_detail : list Z
}.

Section validate.
Context (ub : f64 -> Z) (junk : list Z) (env : validate_env).

(** The message [pipeline_config_load] leaves in [err]. *)
Definition config_error (path : list Z) : list Z :=
  snprintf 256
    match ve_files env path with
    | None => ascii_bytes "cannot open "%string ++ path
    | Some data =>
        if Z.of_nat (length data) >? CONFIG_BUF_LEN then ascii_bytes "config file too large: "%string ++ path
        else ascii_bytes "unsupported config schema_version"%string
    end.

(** [obicall_manifest_load_dir] with the set it leaves when it fails: the failure,
    if there is one, and the set. *)
Fixpoint load_entries_set (dir_path : list Z) (names : list (list Z)) (set : manifest_set)
    : option status * manifest_set :=
  match names with
  | [] => (None, set)
  | name :: names =>
      if negb (is_manifest_entry dir_path name) then load_entries_set dir_path names set
      else
        match load_one_manifest_file ub (ve_files env (manifest_path dir_path name)) set with
        | Ok set => load_entries_set dir_path names set
        | Err st => (Some st, set)
        end
  end.
Definition load_dir_set (dir_path : list Z) : option status * manifest_set :=
  match ve_entries env dir_path with
  | None => (None, [])
  | Some names => load_entries_set dir_path names []
  end.

Record provider_check := ProviderCheck {
  ck_found : bool;
  ck_name : list Z;
  ck_resolved : bool
}.

Definition provider_path (manifests_dir : list Z) (pr : provider_ref) : list Z :=
  snprintf 1600 (manifests_dir ++ [47] ++ c_str (pr_manifest pr)).

(** The body of the loop, as far as it decides. *)
Definition check_provider (set : manifest_set) (manifests_dir : list Z) (pr : provider_ref) : provider_check :=
  match ve_files env (provider_path manifests_dir pr) with
  | None => ProviderCheck false [] false
  | Some data =>
      match obicall_manifest_parse_json ub (take (Z.to_nat MANIFEST_BUF_LEN) data) with
      | Err _ => ProviderCheck true [] false
      | Ok m => ProviderCheck true (c_str (mf_name m))
                  match obicall_manifest_resolve set [mf_name m] with Ok _ => true | Err _ => false end
      end
  end.

Definition provider_json (pr : provider_ref) (ck : provider_check) : list Z :=
  json_template "{'manifest':'"%string ++ json_escape (c_str (pr_manifest pr)) 600 ++
  json_template "','name':'"%string ++ json_escape (ck_name ck) 128 ++
  json_template "','found':"%string ++ show_bool (ck_found ck) ++
  json_template ",'dependencies_resolved':"%string ++ show_bool (ck_resolved ck) ++ json_template "}"%string.
Fixpoint providers_json (first : bool) (checks : list (provider_ref * provider_check)) : list Z :=
  match checks with
  | [] => []
  | (pr, ck) :: checks => (if first then [] else [44]) ++ provider_json pr ck ++ providers_json false checks
  end.
Fixpoint providers_text (i : Z) (checks : list (provider_ref * provider_check)) : list Z :=
  match checks with
  | [] => []
  | (pr, ck) :: checks =>
      ascii_bytes "provider["%string ++ show_u64 i ++ ascii_bytes "] "%string ++ c_str (pr_manifest pr) ++
      ascii_bytes ": found="%string ++ show_yes (ck_found ck) ++
      ascii_bytes " resolved="%string ++ show_yes (ck_resolved ck) ++ [10] ++ providers_text (i + 1) checks
  end.

Definition validate_dir (config_path : list Z) (cfg : pipeline_config) : list Z :=
  snprintf 1024 (dirname_of config_path 512 ++ [47] ++ c_str (pc_manifests_dir cfg)).

(** [None]: loading the configuration has undefined behaviour. *)
Definition cmd_validate (args : list (list Z)) : option outcome :=
  let as_json := procutil_arg_flag args (ascii_bytes "--json"%string) in
  match find_arg args (ascii_bytes "--config"%string) with
  | None => Some (Outcome [] (ascii_bytes "obicall validate: --config PATH is required"%string ++ [10]) 2)
  | Some config_path =>
      match pipeline_config_load ub junk (ve_files env config_path) with
      | Overflowed => None
      | LoadFailed =>
          let err := config_error config_path in
          Some (if as_json
                then Outcome (json_template "{'overall':'fail','error':'"%string ++ json_escape err 512 ++
                              json_template "'}"%string ++ [10]) [] 1
                else Outcome [] (ascii_bytes "validate: "%string ++ err ++ [10]) 1)
      | Loaded cfg =>
          let manifests_dir := validate_dir config_path cfg in
          let '(st, set) := load_dir_set manifests_dir in
          let dir_ok := match st with None => true | Some _ => false end in
          let checks := (fun pr => (pr, check_provider set manifests_dir pr)) <$> pc_providers cfg in
          let overall_ok := dir_ok && (0 <? length (pc_providers cfg))%nat
                            && forallb (fun c => ck_found c.2 && ck_resolved c.2) checks in
          let dir_status := if dir_ok then ascii_bytes "ok"%string else ve_detail env in
          Some (Outcome
            (if as_json then
               json_template "{'pipeline_id':'"%string ++ json_escape (c_str (pc_pipeline_id cfg)) 128 ++
               json_template "','providers':["%string ++ providers_json true checks ++
               json_template "],'manifest_dir_status':'"%string ++ json_escape dir_status 512 ++
               json_template "','overall':'"%string ++ show_ok overall_ok ++ json_template "'}"%string ++ [10]
             else
               providers_text 0 checks ++
               ascii_bytes "manifest directory: "%string ++ dir_status ++ [10] ++
               ascii_bytes "overall: "%string ++ show_ok overall_ok ++ [10])
            [] (if overall_ok then 0 else 1))
      end
  end.
End validate.

(** ** status *)

(** What the decoder leaves in its output, whether or not it succeeds. *)
Definition status_reply_fields (input : list Z) : obicall_msg_status_reply :=
  let c := rc_init input in
  let '(running, c) := rc_u32 c in
  let '(gate_epoch, c) := rc_u64 c in
  let '(owner_broker_id, c) := rc_u32 c in
  let '(last_committed_window_seq, c) := rc_u64 c in
  let '(uptime_ns, c) := rc_i64 c in
  StatusReply running gate_epoch owner_broker_id last_committed_window_seq uptime_ns.

(** What comes of asking the gate: [BadReply] carries what is in the reply after all. *)
Inductive status_answer :=
| Unreachable
| NoReply
| BadReply (partial : obicall_msg_status_reply)
| Replied (reply : obicall_msg_status_reply).

(** The exchange of [cmd_status] and [query_status]; the query's send is not checked. *)
Definition ask_status (token : list Z) (tx : list tx_event) (rx : list rx_event) : list Z * status_answer :=
  match procutil_client_connect token OBICALL_ROLE_CLI tx with
  | None => ([], Unreachable)
  | Some (hello, tx) =>
      let '(_, query, _) := osal_send_frame OBICALL_MSG_STATUS_QUERY [] tx in
      (hello ++ query,
       match osal_recv_frame 64 rx with
       | (Frame mt buf, _) =>
           if negb (mt =? OBICALL_MSG_STATUS_REPLY) then NoReply
           else match obicall_wire_decode_status_reply buf with Ok reply => Replied reply | Err _ => BadReply (status_reply_fields buf) end
       | _ => NoReply
       end)
  end.

(** [reply] is what the caller's variable holds before and after. *)
Definition query_status (conn : option (list tx_event * list rx_event)) (token : list Z)
    (reply : obicall_msg_status_reply) : bool * obicall_msg_status_reply :=
  match conn with
  | None => (false, reply)
  | Some (tx, rx) =>
      match (ask_status token tx rx).2 with
      | Replied reply => (true, reply)
      | BadReply partial => (false, partial)
      | _ => (false, reply)
      end
  end.

(** The files of the runtime directory; the scripts of the connection, [None] when
    it cannot be opened. *)
Record status_env := StatusEnv {
  st_port_files : list (option (list Z));
  st_token_file : option (list Z);
  st_conn : Z -> option (list tx_event * list rx_event)
}.

Definition status_text (as_json : bool) (reply : obicall_msg_status_reply) : list Z :=
  let epoch := show_u64 (sr_gate_epoch reply) in
  let owner := broker_name (sr_owner_broker_id reply) in
  let window := show_u64 (sr_last_committed_window_seq reply) in
  let uptime := show_i64 (Z.quot (sr_uptime_ns reply) 1000000) in
  if as_json then
    json_template "{'running':true,'gate_epoch':"%string ++ epoch ++
    json_template ",'owner_broker_id':"%string ++ show_u64 (sr_owner_broker_id reply) ++
    json_template ",'owner':'"%string ++ owner ++
    json_template "','last_committed_window_seq':"%string ++ window ++
    json_template ",'uptime_ms':"%string ++ uptime ++ json_template "}"%string ++ [10]
  else
    ascii_bytes "running: yes"%string ++ [10] ++ ascii_bytes "epoch: "%string ++ epoch ++ [10] ++
    ascii_bytes "owner: "%string ++ owner ++ [10] ++
    ascii_bytes "last_committed_window_seq: "%string ++ window ++ [10] ++
    ascii_bytes "uptime_ms: "%string ++ uptime ++ [10].

Definition not_running (as_json : bool) (why : list Z) : outcome :=
  Outcome (if as_json then json_template "{'running':false}"%string ++ [10] else why) [] 1.

Definition cmd_status (env : status_env) (args : list (list Z)) : outcome :=
  let as_json := procutil_arg_flag args (ascii_bytes "--json"%string) in
  let runtime_dir := procutil_arg_str args (ascii_bytes "--runtime-dir"%string) (ascii_bytes "./obicall-run"%string) in
  let no_instance := not_running as_json
    (ascii_bytes "not running (no instance found in "%string ++ runtime_dir ++ ascii_bytes ")"%string ++ [10]) in
  match procutil_read_port_file 500 0 (st_port_files env) with
  | None => no_instance
  | Some gate_port =>
      match procutil_read_token_file (st_token_file env) with
      | None => no_instance
      | Some token =>
          match match st_conn env gate_port with
                | None => Unreachable
                | Some (tx, rx) => (ask_status token tx rx).2
                end with
          | Unreachable =>
              not_running as_json (ascii_bytes "not running (gate unreachable on port "%string ++ show_u64 gate_port ++
                                   ascii_bytes ")"%string ++ [10])
          | NoReply => not_running as_json (ascii_bytes "not running (no reply from gate)"%string ++ [10])
          | BadReply _ => not_running as_json []
          | Replied reply => Outcome (status_text as_json reply) [] 0
          end
      end
  end.

(** ** replay *)

Definition replay_params (args : list (list Z)) : obicall_kalman_params f64 :=
  let num name dflt := procutil_arg_f64 args (ascii_bytes name) (f64_of_bits dflt) in
  KalmanParams (num "--process-noise-position"%string 4587366580439587226)
    (num "--process-noise-velocity"%string 4591870180066957722)
    (num "--initial-position-variance"%string 4621819117588971520)
    (num "--initial-velocity-variance"%string 4621819117588971520)
    (num "--max-prediction-gap-s"%string 4629137466983448576).

(** The locals of the loop; [rp_kf] is [None] until [kf_ready]. *)
Record replay_state := ReplayState {
  rp_total : Z;
  rp_admitted : Z;
  rp_rejected : Z;
  rp_final_window_seq : Z;
  rp_kf : option (obicall_kalman_state f64)
}.

Definition replay_turn (params : obicall_kalman_params f64) (s : replay_state)
    (rec : obicall_journal_record_header * obicall_observation) : replay_state :=
  let '(hdr, obs) := rec in
  let total := u64 (rp_total s + 1) in
  let window := jh_window_seq hdr in
  if negb (jh_admission_reason hdr =? admission_code OBICALL_ADMIT_OK)
  then ReplayState total (rp_admitted s) (u64 (rp_rejected s + 1)) window (rp_kf s)
  else
  let admitted := u64 (rp_admitted s + 1) in
  if negb (obs_payload_shape obs =? OBICALL_SHAPE_POSITION_2D)
  then ReplayState total admitted (rp_rejected s) window (rp_kf s)
  else
  let payload i := f64_of_bits (default 0 (obs_payload obs !! i)) in
  let cov := (fun i => f64_of_bits (default 0 (obs_covariance obs !! i))) <$> seq 0 4 in
  ReplayState total admitted (rp_rejected s) window
    (Some match rp_kf s with
          | None => obicall_kalman_init params (payload 0%nat) (payload 1%nat) (obs_sample_time_ns obs)
          | Some kf => (obicall_kalman_update_position params (obs_sample_time_ns obs)
                          (payload 0%nat) (payload 1%nat) cov kf).2
          end).

(** The loop: the locals when it ends, and the status that ended it. *)
Definition replay_file (params : obicall_kalman_params f64) (data : list Z) : replay_state * option status :=
  let '(recs, st) := replay_records (S (length data)) (CFile data 0) in
  (fold_left (replay_turn params) recs (ReplayState 0 0 0 0 None), st).

Definition replay_text (nan input : list Z) (as_json : bool) (s : replay_state) : list Z :=
  let num v := show_f6 nan v in
  if as_json then
    json_template "{'input':'"%string ++ json_escape input 600 ++
    json_template "','records_total':"%string ++ show_u64 (rp_total s) ++
    json_template ",'admitted':"%string ++ show_u64 (rp_admitted s) ++
    json_template ",'rejected':"%string ++ show_u64 (rp_rejected s) ++
    json_template ",'final_window_seq':"%string ++ show_u64 (rp_final_window_seq s) ++
    json_template ",'estimate':"%string ++
    match rp_kf s with
    | Some kf =>
        json_template "{'status':'valid','x':"%string ++ num (at1 (ks_mean kf) 0) ++
        json_template ",'y':"%string ++ num (at1 (ks_mean kf) 1) ++
        json_template ",'cov_xx':"%string ++ num (at1 (ks_covariance kf) 0) ++
        json_template ",'cov_yy':"%string ++ num (at1 (ks_covariance kf) 5) ++ json_template "}}"%string ++ [10]
    | None => json_template "{'status':'invalid'}}"%string ++ [10]
    end
  else
    ascii_bytes "records_total="%string ++ show_u64 (rp_total s) ++
    ascii_bytes " admitted="%string ++ show_u64 (rp_admitted s) ++
    ascii_bytes " rejected="%string ++ show_u64 (rp_rejected s) ++
    ascii_bytes " final_window_seq="%string ++ show_u64 (rp_final_window_seq s) ++ [10] ++
    match rp_kf s with
    | Some kf => ascii_bytes "estimate: x="%string ++ num (at1 (ks_mean kf) 0) ++
                 ascii_bytes " y="%string ++ num (at1 (ks_mean kf) 1) ++ [10]
    | None => ascii_bytes "estimate: invalid (no admitted position observations)"%string ++ [10]
    end.

Definition cmd_replay (nan : list Z) (files : list Z -> option (list Z)) (args : list (list Z)) : outcome :=
  let as_json := procutil_arg_flag args (ascii_bytes "--json"%string) in
  match find_arg args (ascii_bytes "--input"%string) with
  | None => Outcome [] (ascii_bytes "obicall replay: --input PATH is required"%string ++ [10]) 2
  | Some input =>
      match files input with
      | None => Outcome [] (ascii_bytes "obicall replay: cannot open "%string ++ input ++ [10]) 1
      | Some data =>
          let '(s, st) := replay_file (replay_params args) data in
          Outcome (replay_text nan input as_json s)
            match st with
            | Some OBICALL_ERR_NOT_FOUND | None => []
            | Some st => ascii_bytes "replay: stopping at a malformed/torn record (status="%string ++
                         obicall_status_string st ++ ascii_bytes ")"%string ++ [10]
            end 0
      end
  end.

(** * Lemmas *)

(** ** Escaping *)

Definition visible (s : list Z) : list Z := filter (fun c => c = 10 \/ 32 <= c) s.

Lemma visible_cons c s : visible (c :: s) = if bool_decide (c = 10 \/ 32 <= c) then c :: visible s else visible s.
Proof. unfold visible. rewrite filter_cons. by case_decide; case_bool_decide. Qed.

Lemma escape_cons c s : escape (c :: s) = escape_byte c ++ escape s.
Proof. done. Qed.

(** The text is the escape of what is visible, cut where the buffer ends. *)
Lemma json_escape_from_spec oi s out_cap :
  exists k, json_escape_from oi s out_cap = escape (take k (visible s)) /\
    ((oi + 2 * length s < out_cap)%nat -> take k (visible s) = visible s) /\
    ((oi < out_cap)%nat -> (oi + length (json_escape_from oi s out_cap) < out_cap)%nat).
Proof.
  revert oi. induction s as [|c s IH]; intros oi; cbn [json_escape_from length]; [exists 0%nat; split_and!; cbn; [done..|lia]|].
  destruct (Nat.ltb_spec (oi + 2) out_cap) as [Hc|]; [|exists 0%nat; split_and!; [done|lia|cbn; lia]].
  assert (Hstep : forall n out, escape_byte c = out -> length out = n -> (n <= 2)%nat -> (c = 10 \/ 32 <= c) ->
    exists k, out ++ json_escape_from (oi + n) s out_cap = escape (take k (visible (c :: s))) /\
      ((oi + 2 * S (length s) < out_cap)%nat -> take k (visible (c :: s)) = visible (c :: s)) /\
      ((oi < out_cap)%nat -> (oi + length (out ++ json_escape_from (oi + n) s out_cap) < out_cap)%nat)).
  { intros n out Ho Hn Hn2 Hv. destruct (IH (oi + n)%nat) as (k & -> & Hk & Hl). exists (S k).
    rewrite visible_cons, bool_decide_eq_true_2 by done. cbn [take]. rewrite escape_cons, Ho. split_and!; [done| |].
    - intros. by rewrite Hk by lia.
    - intros. rewrite length_app. assert (oi + n < out_cap)%nat as H' by lia. specialize (Hl H'). lia. }
  unfold escape_byte in Hstep.
  destruct (Z.eqb_spec c 34) as [->|]; [exact (Hstep 2%nat [92; 34] eq_refl eq_refl ltac:(lia) ltac:(lia))|].
  destruct (Z.eqb_spec c 92) as [->|]; [exact (Hstep 2%nat [92; 92] eq_refl eq_refl ltac:(lia) ltac:(lia))|]. cbn [orb].
  destruct (Z.eqb_spec c 10) as [->|]; [exact (Hstep 2%nat [92; 110] eq_refl eq_refl ltac:(lia) ltac:(lia))|].
  destruct (c >=? 32) eqn:E.
  - apply (Hstep 1%nat [c]); [|done|lia|lia].
    destruct (Z.eqb_spec c 9); [lia|]. destruct (Z.eqb_spec c 13); [lia|]. destruct (Z.eqb_spec c 8); [lia|].
    destruct (Z.eqb_spec c 12); [lia|done].
  - destruct (IH oi) as (k & -> & Hk & Hl). exists k. rewrite visible_cons, bool_decide_eq_false_2 by lia.
    split_and!; [done|intros; apply Hk; lia|done].
Qed.

Lemma json_escape_body s out_cap : string_body (json_escape s out_cap).
Proof. unfold json_escape. destruct (json_escape_from_spec 0 s out_cap) as (k & -> & _). apply escape_body. Qed.

(** ** Printed objects *)

Definition string_value (b : list Z) : list Z := 34 :: b ++ [34].

Fixpoint print_members (ms : list (list Z * list Z)) : list Z :=
  match ms with
  | [] => []
  | (k, v) :: ms => 34 :: k ++ 34 :: 58 :: v ++ match ms with [] => [] | _ => 44 :: print_members ms end
  end.
Fixpoint print_elements (vs : list (list Z)) : list Z :=
  match vs with
  | [] => []
  | v :: vs => v ++ match vs with [] => [] | _ => 44 :: print_elements vs end
  end.

Definition member_ok (p : list Z * list Z) : Prop := string_body p.1 /\ value_text p.2.

Lemma print_members_text ms : Forall member_ok ms -> members_text ms (print_members ms).
Proof.
  induction 1 as [|[k v] ms [Hk Hv] Hms IH]; [by apply (mt_none [])|]. cbn [print_members fst snd] in *.
  destruct ms as [|p ms]; [exact (mt_one [] k [] [] v [] eq_refl Hk eq_refl eq_refl Hv eq_refl)|].
  exact (mt_more [] k [] [] v [] _ _ eq_refl Hk eq_refl eq_refl Hv eq_refl IH).
Qed.

Lemma print_elements_text vs : Forall value_text vs -> elements_text vs (print_elements vs).
Proof.
  induction 1 as [|v vs Hv Hvs IH]; [by apply (et_none [])|]. cbn [print_elements].
  destruct vs as [|p vs]; [exact (et_one [] v [] eq_refl Hv eq_refl)|].
  exact (et_more [] v [] _ _ eq_refl Hv eq_refl IH).
Qed.

Lemma printed_object ms tl : Forall member_ok ms -> object_text ms (123 :: print_members ms ++ 125 :: tl).
Proof. intros H. exists [], (print_members ms), tl. split_and!; [done|by apply print_members_text|done]. Qed.

Lemma print_object_value ms : Forall member_ok ms -> value_text (123 :: print_members ms ++ [125]).
Proof. intros H. by apply (vt_object ms), print_members_text. Qed.

Lemma string_value_text b : string_body b -> value_text (string_value b).
Proof. apply vt_string. Qed.
Lemma escaped_value_text s out_cap : value_text (string_value (json_escape s out_cap)).
Proof. apply vt_string, json_escape_body. Qed.
Lemma show_bool_text b : value_text (show_bool b).
Proof. destruct b; constructor. Qed.

Definition plain_chars (s : list Z) : bool := forallb (fun c => negb (c =? 34) && negb (c =? 92)) s.
Lemma plain_string_body s : plain_chars s = true -> string_body s.
Proof.
  induction s as [|c s IH]; [constructor|]. cbn [plain_chars forallb]. intros [Hc Hs]%andb_true_iff.
  apply sb_char; [lia|lia|]. by apply IH.
Qed.
Lemma show_ok_text b : value_text (string_value (show_ok b)).
Proof. apply vt_string. destruct b; by apply plain_string_body. Qed.

Lemma show_u64_digits v : 0 <= v < 10 ^ 20 -> digits (show_u64 v) /\ show_u64 v <> [] /\ digits_value (show_u64 v) = v.
Proof.
  intros Hv. destruct (dec_digits_spec 20 v Hv) as (H1 & H2 & H3). unfold show_u64. split_and!; [done| |done].
  destruct H3 as (c & ds & ->); done.
Qed.
Lemma number_of_digits sgn ds : sgn = [] \/ sgn = [45] -> digits ds -> ds <> [] -> number_text (sgn ++ ds).
Proof.
  intros Hs Hd Hn. pose proof (number_intro sgn ds [] [] Hs Hd Hn fr_none ex_none) as H. by rewrite !app_nil_r in H.
Qed.
Lemma show_u64_text v : 0 <= v < 10 ^ 20 -> value_text (show_u64 v).
Proof. intros Hv. destruct (show_u64_digits v Hv) as (H1 & H2 & _). apply vt_number, (number_of_digits []); auto. Qed.
Lemma show_i64_text v : is_i64 v -> value_text (show_i64 v).
Proof.
  unfold is_i64, show_i64. intros Hv. destruct (Z.ltb_spec v 0); [|apply show_u64_text; lia].
  destruct (show_u64_digits (- v)) as (H1 & H2 & _); [lia|]. apply vt_number, (number_of_digits [45]); auto.
Qed.

(** Evaluates the literals of a text and brings it into one form. *)
Ltac text_eq :=
  repeat match goal with
  | |- context [json_template ?s] => let v := eval vm_compute in (json_template s) in change (json_template s) with v
  | |- context [ascii_bytes ?s] => let v := eval vm_compute in (ascii_bytes s) in change (ascii_bytes s) with v
  end;
  cbn [print_members print_elements string_value app]; rewrite <- ?app_assoc; cbn [app];
  repeat (rewrite <- app_assoc; cbn [app]); reflexivity.

Ltac members := repeat (apply Forall_cons; split; [split; [by apply plain_string_body|]|]); [..|by apply Forall_nil].

(** ** validate *)

Lemma load_entries_set_spec ub env dir_path names set :
  load_entries ub (ve_files env) dir_path names set =
  match load_entries_set ub env dir_path names set with (None, set) => Ok set | (Some st, _) => Err st end.
Proof.
  revert set. induction names as [|name names IH]; intros set; cbn [load_entries load_entries_set]; [done|].
  destruct (negb _); [done|]. destruct (load_one_manifest_file _ _ _); cbn [rbind]; [apply IH|done].
Qed.

Lemma load_dir_set_spec ub env dir_path :
  obicall_manifest_load_dir ub (ve_files env) dir_path (ve_entries env dir_path) =
  match load_dir_set ub env dir_path with (None, set) => Ok set | (Some st, _) => Err st end.
Proof. unfold obicall_manifest_load_dir, load_dir_set. destruct (ve_entries _ _); [apply load_entries_set_spec|done]. Qed.

(** What a provider of the configuration needs: a manifest that parses, and an order
    in which it and its dependencies can be loaded. *)
Definition provider_usable (ub : f64 -> Z) (env : validate_env) (set : manifest_set) (dir : list Z) (pr : provider_ref)
    : Prop :=
  exists data m plan, ve_files env (provider_path dir pr) = Some data /\
    obicall_manifest_parse_json ub (take (Z.to_nat MANIFEST_BUF_LEN) data) = Ok m /\
    valid_plan set [mf_name m] plan.

Lemma check_provider_spec ub env set dir pr :
  wf_set set -> let ck := check_provider ub env set dir pr in
  ck_found ck && ck_resolved ck = true <-> provider_usable ub env set dir pr.
Proof.
  intros Hwf. unfold check_provider, provider_usable. cbv zeta.
  destruct (ve_files env _) as [data|]; [|split; [done|by intros (? & ? & ? & ? & _)]].
  destruct (obicall_manifest_parse_json ub _) as [m|e] eqn:Em; [|split; [done|intros (d & ? & ? & [= <-] & ? & _); congruence]].
  cbn [ck_found ck_resolved andb]. pose proof (resolve_spec set [mf_name m] Hwf) as Hr.
  destruct (obicall_manifest_resolve set [mf_name m]) as [plan|e] eqn:E.
  - split; [|done]. intros _. by exists data, m, plan.
  - split; [done|]. intros (d & m' & plan & [= <-] & Hm & Hp). rewrite Em in Hm. injection Hm as <-.
    destruct (resolve_total _ _ _ Hwf Hp) as [plan' E']. congruence.
Qed.

Lemma providers_json_text checks :
  Forall value_text ((fun c => provider_json c.1 c.2) <$> checks) /\
  providers_json true checks = print_elements ((fun c => provider_json c.1 c.2) <$> checks).
Proof.
  assert (Hv : forall c : provider_ref * provider_check, value_text (provider_json c.1 c.2)).
  { intros [pr ck]. cbn [fst snd].
    assert (E : provider_json pr ck = 123 :: print_members
      [(ascii_bytes "manifest"%string, string_value (json_escape (c_str (pr_manifest pr)) 600));
       (ascii_bytes "name"%string, string_value (json_escape (ck_name ck) 128));
       (ascii_bytes "found"%string, show_bool (ck_found ck));
       (ascii_bytes "dependencies_resolved"%string, show_bool (ck_resolved ck))] ++ [125])
      by (unfold provider_json, string_value; text_eq).
    rewrite E. apply print_object_value. members; try apply escaped_value_text; apply show_bool_text. }
  split; [apply Forall_fmap, Forall_true; exact Hv|].
  destruct checks as [|[pr ck] checks]; [done|]. cbn [providers_json fmap list_fmap print_elements fst snd app]. f_equal.
  revert pr ck. induction checks as [|[pr' ck'] checks IH]; intros pr ck; [done|].
  cbn [providers_json fmap list_fmap print_elements fst snd app]. by rewrite (IH pr' ck').
Qed.

Definition provider_checks (ub : f64 -> Z) (env : validate_env) (dir : list Z) (cfg : pipeline_config)
    : list (provider_ref * provider_check) :=
  (fun pr => (pr, check_provider ub env (load_dir_set ub env dir).2 dir pr)) <$> pc_providers cfg.

Definition validate_members (ub : f64 -> Z) (env : validate_env) (dir : list Z) (cfg : pipeline_config) (ok : bool)
    : list (list Z * list Z) :=
  [(ascii_bytes "pipeline_id"%string, string_value (json_escape (c_str (pc_pipeline_id cfg)) 128));
   (ascii_bytes "providers"%string,
      91 :: print_elements ((fun c => provider_json c.1 c.2) <$> provider_checks ub env dir cfg) ++ [93]);
   (ascii_bytes "manifest_dir_status"%string, string_value (json_escape
      (match (load_dir_set ub env dir).1 with None => ascii_bytes "ok"%string | Some _ => ve_detail env end) 512));
   (ascii_bytes "overall"%string, string_value (show_ok ok))].

Lemma validate_loaded ub junk env args path cfg :
  find_arg args (ascii_bytes "--config"%string) = Some path ->
  pipeline_config_load ub junk (ve_files env path) = Loaded cfg ->
  let dir := validate_dir path cfg in
  let ok := match (load_dir_set ub env dir).1 with None => true | Some _ => false end
            && (0 <? length (pc_providers cfg))%nat
            && forallb (fun c => ck_found c.2 && ck_resolved c.2) (provider_checks ub env dir cfg) in
  exists out, cmd_validate ub junk env args = Some (Outcome out [] (if ok then 0 else 1)) /\
    (procutil_arg_flag args (ascii_bytes "--json"%string) = true ->
     out = 123 :: print_members (validate_members ub env dir cfg ok) ++ 125 :: [10]).
Proof.
  intros Hc Hl dir ok. unfold cmd_validate. rewrite Hc, Hl. fold dir. unfold ok, validate_members, provider_checks.
  destruct (load_dir_set ub env dir) as [st set] eqn:E. cbn [fst snd].
  set (checks := (fun pr => (pr, check_provider ub env set dir pr)) <$> pc_providers cfg).
  eexists. split; [reflexivity|]. intros ->. rewrite (proj2 (providers_json_text checks)).
  generalize (print_elements ((fun c => provider_json c.1 c.2) <$> checks)). intros ps.
  generalize (match st with None => true | Some _ => false end && (0 <? length (pc_providers cfg))%nat
    && forallb (fun c => ck_found c.2 && ck_resolved c.2) checks). intros b.
  destruct st; unfold string_value; text_eq.
Qed.

Lemma validate_members_ok ub env dir cfg ok : Forall member_ok (validate_members ub env dir cfg ok).
Proof.
  unfold validate_members. members; try apply escaped_value_text; try apply show_ok_text.
  eapply vt_array, print_elements_text, providers_json_text.
Qed.

Lemma array_text_value vs : Forall value_text vs -> array_text vs (91 :: print_elements vs ++ [93]).
Proof. intros H. exists [], (print_elements vs), []. split_and!; [done|by apply print_elements_text|done]. Qed.

Lemma string_value_content b : content (string_value b) = b.
Proof.
  unfold content, string_value. cbn [is_str head length tail]. rewrite length_app. cbn [length].
  replace (S (length b + 1) - 2)%nat with (length b) by lia. by rewrite take_app_length.
Qed.

(** C34: [obicall validate] on a configuration that loads: if the manifest directory
    does not load, it fails; if it loads to manifests with distinct names, none of which
    lists a dependency twice, it passes exactly when the configuration names a provider
    and every provider it names has a manifest that parses and can be loaded after its
    dependencies.  With --json, what it prints is an object in which a reader finds
    that verdict and one entry per provider. *)
Theorem validate_verdict ub junk env args path cfg :
  find_arg args (ascii_bytes "--config"%string) = Some path ->
  pipeline_config_load ub junk (ve_files env path) = Loaded cfg ->
  let dir := validate_dir path cfg in
  exists o, cmd_validate ub junk env args = Some o /\ (oc_code o = 0 \/ oc_code o = 1) /\
    match obicall_manifest_load_dir ub (ve_files env) dir (ve_entries env dir) with
    | Ok set => wf_set set ->
        (oc_code o = 0 <-> pc_providers cfg <> [] /\ Forall (provider_usable ub env set dir) (pc_providers cfg))
    | Err _ => oc_code o = 1
    end /\
    (procutil_arg_flag args (ascii_bytes "--json"%string) = true ->
     (exists sp, json_object_find (oc_out o) (ascii_bytes "overall"%string) = Some sp /\ sp_is_string sp = true /\
        span_bytes (oc_out o) sp = show_ok (oc_code o =? 0)) /\
     exists sp, json_object_find (oc_out o) (ascii_bytes "providers"%string) = Some sp /\
       json_array_count (span_bytes (oc_out o) sp) = Some (length (pc_providers cfg))).
Proof.
  intros Hc Hl dir. destruct (validate_loaded ub junk env args path cfg Hc Hl) as (out & E & Hj). fold dir in E, Hj.
  set (ok := _ && forallb _ _) in *. eexists. split; [exact E|]. cbn [oc_code oc_out].
  split; [destruct ok; [by left|by right]|]. split.
  - rewrite load_dir_set_spec. unfold ok, provider_checks. destruct (load_dir_set ub env dir) as [[st|] set]; [done|].
    intros Hwf. cbn [fst snd andb].
    assert (Hf : forallb (fun c => ck_found c.2 && ck_resolved c.2)
        ((fun pr => (pr, check_provider ub env set dir pr)) <$> pc_providers cfg) = true <->
        Forall (provider_usable ub env set dir) (pc_providers cfg)).
    { generalize (pc_providers cfg). intros l. induction l as [|pr l IH]; [done|].
      cbn [fmap list_fmap forallb snd]. rewrite andb_true_iff, IH, Forall_cons.
      by rewrite (check_provider_spec ub env set dir pr Hwf). }
    rewrite <- Hf. destruct (pc_providers cfg) as [|pr l]; [by split; [|intros []]|]. cbn [length Nat.ltb Nat.leb andb].
    clear. match goal with |- context [forallb ?f ?l] => generalize (forallb f l) end.
    intros []; [by split|by split; [|intros [_ [=]]]].
  - intros Hjs. rewrite (Hj Hjs). set (ms := validate_members ub env dir cfg ok).
    pose proof (printed_object ms [10] (validate_members_ok ub env dir cfg ok)) as Ho. split.
    + pose proof (json_object_find_text ms _ (ascii_bytes "overall"%string) Ho) as Hf.
      change (first_member _ ms) with (Some (string_value (show_ok ok))) in Hf.
      destruct Hf as (sp & Hf & [Hs Hb _]). exists sp. split; [done|]. split; [done|].
      rewrite Hb, string_value_content. by destruct ok.
    + pose proof (json_object_find_text ms _ (ascii_bytes "providers"%string) Ho) as Hf.
      set (vs := (fun c => provider_json c.1 c.2) <$> provider_checks ub env dir cfg).
      change (first_member _ ms) with (Some (91 :: print_elements vs ++ [93])) in Hf.
      destruct Hf as (sp & Hf & [_ Hb _]). exists sp. split; [done|]. rewrite Hb.
      change (content (91 :: print_elements vs ++ [93])) with (91 :: print_elements vs ++ [93]).
      destruct (json_array_text vs _ (array_text_value vs (proj1 (providers_json_text _)))) as [-> _].
      unfold vs, provider_checks. by rewrite !length_fmap.
Qed.

(** strings survive the printing: the reader finds the string of an object printed
    with [json_escape] and decodes it to what is visible of the original (newlines
    and everything from the space on; other control characters are dropped), all of
    it when the buffer has twice the room, a prefix otherwise, never beyond the
    buffer. *)
Theorem json_escape_reads_back ms js key s out_cap room :
  object_text ms js -> first_member key ms = Some (string_value (json_escape s out_cap)) ->
  exists sp k, json_object_find js key = Some sp /\ sp_is_string sp = true /\
    let shown := take k (visible s) in
    json_decode_string (span_bytes js sp) room =
      (if bool_decide (length shown < room)%nat then (shown ++ [0], true) else (take room shown, false)) /\
    ((2 * length s < out_cap)%nat -> shown = visible s) /\
    ((0 < out_cap)%nat -> (length (json_escape s out_cap) < out_cap)%nat).
Proof.
  intros Ho Hm. pose proof (json_object_find_text ms js key Ho) as H. rewrite Hm in H.
  destruct H as (sp & Hf & [Hs Hb _]). destruct (json_escape_from_spec 0 s out_cap) as (k & E & Hk & Hl).
  exists sp, k. split; [done|]. split; [done|]. cbv zeta. rewrite Hb, string_value_content. unfold json_escape in *.
  split; [|split].
  - rewrite E. apply decode_escape.
  - intros. apply Hk. lia.
  - intros H0. specialize (Hl H0). lia.
Qed.

(** ** status *)

Lemma ask_status_replied token tx hello tx1 rx reply rest :
  procutil_client_connect token OBICALL_ROLE_CLI tx = Some (hello, tx1) ->
  wf_status_reply reply -> rx_chunks rx ->
  rx_stream rx = frame_bytes OBICALL_MSG_STATUS_REPLY (status_reply_wire reply) ++ rest ->
  (ask_status token tx rx).2 = Replied reply.
Proof.
  intros Hc Hr Hrx Hst. unfold ask_status. rewrite Hc.
  destruct (osal_send_frame _ _ _) as [[ok query] tx2]. cbn [snd].
  destruct (recv_frame_chunks 64 _ _ rx rest (status_reply_sendable _ Hr) Hrx Hst) as (rx' & -> & _).
  rewrite Z.eqb_refl. cbn [negb]. by rewrite <- (app_nil_r (status_reply_wire reply)), dec_wire.
Qed.

Lemma read_token_written token :
  is_chars OBICALL_RUN_TOKEN_LEN token -> procutil_read_token_file (Some (procutil_write_token_file token)) = Some token.
Proof.
  intros Ht. change (procutil_write_token_file token) with (hex_text token).
  destruct (hex_text_spec token Ht) as (Hl & Hp & _). unfold procutil_read_token_file. cbv zeta.
  rewrite take_ge by lia. rewrite Hl. cbn [Nat.eqb]. unfold procutil_hex_decode. by rewrite Hl, Hp.
Qed.

Definition status_members (reply : obicall_msg_status_reply) : list (list Z * list Z) :=
  [(ascii_bytes "running"%string, show_bool true);
   (ascii_bytes "gate_epoch"%string, show_u64 (sr_gate_epoch reply));
   (ascii_bytes "owner_broker_id"%string, show_u64 (sr_owner_broker_id reply));
   (ascii_bytes "owner"%string, string_value (broker_name (sr_owner_broker_id reply)));
   (ascii_bytes "last_committed_window_seq"%string, show_u64 (sr_last_committed_window_seq reply));
   (ascii_bytes "uptime_ms"%string, show_i64 (Z.quot (sr_uptime_ns reply) 1000000))].

Lemma status_text_json reply :
  status_text true reply = 123 :: print_members (status_members reply) ++ 125 :: [10].
Proof. unfold status_text, status_members, string_value, show_bool. text_eq. Qed.

Lemma status_members_ok reply : wf_status_reply reply -> Forall member_ok (status_members reply).
Proof.
  intros [_ He Ho Hw Hu]. unfold is_u64, is_u32, is_i64 in *. unfold status_members. members.
  - constructor.
  - apply show_u64_text. lia.
  - apply show_u64_text. lia.
  - apply string_value_text, plain_string_body. unfold broker_name. by repeat case_match.
  - apply show_u64_text. lia.
  - apply show_i64_text. clear -Hu. unfold is_i64. pose proof (Z.quot_rem' (sr_uptime_ns reply) 1000000) as H.
    pose proof (Z.rem_bound_abs (sr_uptime_ns reply) 1000000 ltac:(lia)). lia.
Qed.

(** A number among the members of a printed object is found and reads as itself. *)
Lemma printed_number ms tl key v :
  Forall member_ok ms -> 0 <= v < 10 ^ 20 -> first_member key ms = Some (show_u64 v) ->
  let js := 123 :: print_members ms ++ 125 :: tl in
  exists sp, json_object_find js key = Some sp /\ digits_value (span_bytes js sp) = v.
Proof.
  intros Hms Hv Hk js. pose proof (json_object_find_text ms js key (printed_object ms tl Hms)) as H. rewrite Hk in H.
  destruct H as (sp & Hf & [_ Hb _]). exists sp. split; [done|]. rewrite Hb.
  destruct (show_u64_spec v Hv) as (c & ds & E & Hc & _ & Hd). unfold content, is_str. rewrite E.
  rewrite bool_decide_eq_false_2; [by rewrite <- E|]. intros [= ->]. done.
Qed.

(** A socket that takes the whole of a frame. *)
Definition takes (msg_type : Z) (payload : list Z) (tx : list tx_event) : Prop :=
  (osal_send_frame msg_type payload tx).1.1 = true.

Lemma takes_sent msg_type payload tx :
  takes msg_type payload tx -> exists tx', osal_send_frame msg_type payload tx = (true, frame_bytes msg_type payload, tx').
Proof.
  unfold takes. destruct (osal_send_frame msg_type payload tx) as [[ok out] tx'] eqn:E. cbn [fst]. intros ->.
  apply send_frame_spec in E as [_ H]. destruct (H eq_refl) as [-> _]. by exists tx'.
Qed.

Lemma ask_status_sends token tx rx hello tx1 :
  procutil_client_connect token OBICALL_ROLE_CLI tx = Some (hello, tx1) -> takes OBICALL_MSG_STATUS_QUERY [] tx1 ->
  (ask_status token tx rx).1 = hello ++ frame_bytes OBICALL_MSG_STATUS_QUERY [].
Proof. intros Hc (tx2 & E)%takes_sent. unfold ask_status. by rewrite Hc, E. Qed.

(** The gate's end of the exchange: the handshake, the query, and the connection is over. *)
Lemma gate_answers_query junk token tx hello tx1 s tx_gate env1 env2 ctx0 ctx :
  is_chars OBICALL_RUN_TOKEN_LEN token -> procutil_client_connect token OBICALL_ROLE_CLI tx = Some (hello, tx1) ->
  rx_chunks s -> rx_stream s = hello ++ frame_bytes OBICALL_MSG_STATUS_QUERY [] -> gate_inv (gc_state ctx) ->
  takes OBICALL_MSG_STATUS_REPLY (status_reply_wire (status_reply (tn_now env2) ctx)) tx_gate ->
  let '(ctx1, c1) := connection_turn junk token env1 ctx0 (GateConn PhHello s tx_gate []) in
  let '(ctx2, c2) := connection_turn junk token env2 ctx c1 in
  ctx1 = ctx0 /\ ctx2 = ctx /\ gn_phase c2 = PhClosed /\
  gn_out c2 = frame_bytes OBICALL_MSG_STATUS_REPLY (status_reply_wire (status_reply (tn_now env2) ctx)).
Proof.
  intros Htok Hc Hs Hss Hi (tx' & Etx)%takes_sent. pose proof (status_reply_wf (tn_now env2) ctx Hi) as Hwf.
  destruct (hello_handshake token token OBICALL_ROLE_CLI tx hello tx1 s _ Htok ltac:(done) Hc Hs Hss) as (s' & E & Hs' & Hss').
  assert (Hq : sendable 4096 OBICALL_MSG_STATUS_QUERY []) by done.
  destruct (recv_frame_chunks 4096 _ _ s' [] Hq Hs') as (s2 & E2 & _); [by rewrite app_nil_r|].
  assert (Henc : obicall_wire_encode_status_reply (status_reply (tn_now env2) ctx) 64 =
    Ok (status_reply_wire (status_reply (tn_now env2) ctx))).
  { rewrite enc_spec by done. by rewrite (proj2 (Z.leb_le _ _)) by (apply status_reply_sendable; done). }
  unfold connection_turn. cbn [gn_phase gn_rx gn_tx gn_out]. rewrite E. destruct (decide (token = token)); [|done].
  cbn [gn_phase gn_rx gn_tx gn_out]. rewrite E2. unfold serve_message, handle_status_query, send_reply.
  change (OBICALL_MSG_STATUS_QUERY =? OBICALL_MSG_HEARTBEAT) with false.
  change (OBICALL_MSG_STATUS_QUERY =? OBICALL_MSG_RESULT_PUBLISH) with false. rewrite Z.eqb_refl. cbv iota.
  rewrite Henc, Etx. by split_and!.
Qed.

(** C35: [obicall status] tells the truth about the gate.  Let the running gate's port
    and token files be there, the connection and both sockets take what is sent on
    them, and every byte arrive, in whatever chunks.  Then what the command sent takes
    the gate through its handshake and to its answer without a change of its state, the
    connection is closed, the command exits with 0, and with --json it prints the
    epoch, owner and last committed window of the gate as it answered. *)
Theorem status_reports_gate junk env args port n more token tx tx1 hello rx s tx_gate env1 env2 ctx0 ctx :
  st_port_files env = replicate n None ++ Some (port_file_text port) :: more -> is_u16 port -> 20 * Z.of_nat n < 520 ->
  st_token_file env = Some (procutil_write_token_file token) -> is_chars OBICALL_RUN_TOKEN_LEN token ->
  st_conn env port = Some (tx, rx) -> procutil_client_connect token OBICALL_ROLE_CLI tx = Some (hello, tx1) ->
  takes OBICALL_MSG_STATUS_QUERY [] tx1 -> gate_inv (gc_state ctx) ->
  takes OBICALL_MSG_STATUS_REPLY (status_reply_wire (status_reply (tn_now env2) ctx)) tx_gate ->
  rx_chunks s -> rx_stream s = (ask_status token tx rx).1 ->
  let '(ctx1, c1) := connection_turn junk token env1 ctx0 (GateConn PhHello s tx_gate []) in
  let '(ctx2, c2) := connection_turn junk token env2 ctx c1 in
  rx_chunks rx -> rx_stream rx = gn_out c2 ->
  let o := cmd_status env args in
  ctx1 = ctx0 /\ ctx2 = ctx /\ gn_phase c2 = PhClosed /\ oc_code o = 0 /\
  (procutil_arg_flag args (ascii_bytes "--json"%string) = true ->
   let says key v := exists sp, json_object_find (oc_out o) (ascii_bytes key) = Some sp /\
                       digits_value (span_bytes (oc_out o) sp) = v in
   says "gate_epoch"%string (gs_epoch (gc_state ctx)) /\
   says "owner_broker_id"%string (gs_owner_broker_id (gc_state ctx)) /\
   says "last_committed_window_seq"%string (committed_high_water (gc_state ctx))).
Proof.
  intros Hpf Hport Hn Htf Htok Hconn Hc Hq Hi Hg Hs Hss. rewrite (ask_status_sends token tx rx hello tx1 Hc Hq) in Hss.
  pose proof (gate_answers_query junk token tx hello tx1 s tx_gate env1 env2 ctx0 ctx Htok Hc Hs Hss Hi Hg) as Ha.
  destruct (connection_turn junk token env1 ctx0 _) as [ctx1 c1]. destruct (connection_turn junk token env2 ctx c1) as [ctx2 c2].
  destruct Ha as (-> & -> & Hcl & Hout). intros Hrx Hst o. split; [done|]. split; [done|]. split; [done|].
  pose proof (status_reply_wf (tn_now env2) ctx Hi) as Hwf. rewrite Hout in Hst.
  assert (Ho : o = Outcome (status_text (procutil_arg_flag args (ascii_bytes "--json"%string)) (status_reply (tn_now env2) ctx)) [] 0).
  { unfold o, cmd_status. rewrite Hpf, port_file_roundtrip by (done || lia). rewrite Htf, read_token_written, Hconn by done.
    by rewrite (ask_status_replied token tx hello tx1 rx _ [] Hc Hwf) by (done || by rewrite app_nil_r). }
  rewrite Ho. cbn [oc_code oc_out]. split; [done|].
  intros ->. rewrite status_text_json. cbv zeta.
  pose proof (status_members_ok _ Hwf) as Hm. destruct (Hwf) as [_ He How Hw _].
  unfold is_u64, is_u32 in *. cbn [status_reply sr_gate_epoch sr_owner_broker_id sr_last_committed_window_seq] in He, How, Hw.
  split; [|split]; apply printed_number; try done; try reflexivity; lia.
Qed.

(** ** replay *)

(** A record that was read lies behind the old position and inside the file. *)
Lemma read_record_progress f rec f' :
  obicall_journal_read_record f = (Ok rec, f') ->
  f_data f' = f_data f /\ (f_pos f < f_pos f' <= length (f_data f))%nat.
Proof.
  unfold obicall_journal_read_record, fread. cbn [f_pos f_data].
  set (hb := take OBICALL_JOURNAL_RECORD_HEADER_LEN (drop (f_pos f) (f_data f))).
  destruct (_ && _); [done|]. destruct (Nat.eqb_spec (length hb) OBICALL_JOURNAL_RECORD_HEADER_LEN) as [Hl|]; [|done].
  cbn [negb]. destruct (obicall_journal_decode_record_header hb) as [hdr|]; [|done].
  destruct (negb (jh_magic hdr =? _)); [done|]. destruct (_ || _); [done|].
  set (ob := take (Z.to_nat (jh_observation_len hdr)) _).
  destruct (negb (Z.of_nat (length ob) =? _)); [done|]. destruct (negb (obicall_crc32 ob =? _)); [done|].
  destruct (obicall_wire_decode_observation ob); [|done]. intros [= <- <-]. cbn [f_data f_pos]. split; [done|].
  assert (H1 : (length hb <= length (f_data f) - f_pos f)%nat) by (unfold hb; rewrite length_take, length_drop; lia).
  assert (H2 : (length ob <= length (f_data f) - (f_pos f + length hb))%nat)
    by (unfold ob; rewrite length_take, length_drop; lia).
  unfold OBICALL_JOURNAL_RECORD_HEADER_LEN in Hl. lia.
Qed.

(** The loop ends by itself. *)
Lemma replay_records_ends fuel f :
  (length (f_data f) - f_pos f < fuel)%nat -> (replay_records fuel f).2 <> None.
Proof.
  revert f. induction fuel as [|fuel IH]; intros f Hf; [lia|]. cbn [replay_records].
  destruct (obicall_journal_read_record f) as [[rec|st] f'] eqn:E; [|done].
  apply read_record_progress in E as [Hd Hp]. specialize (IH f').
  destruct (replay_records fuel f') as [recs st]. cbn [snd] in *. apply IH. rewrite Hd. lia.
Qed.

(** One window, as the replay and as a broker see it. *)
Definition is_position (r : segment_record) : Prop :=
  sr_reason r = OBICALL_ADMIT_OK /\ obs_payload_shape (sr_obs r) = OBICALL_SHAPE_POSITION_2D.

Definition broker_sees (cfg : broker_config) (r : segment_record) : Prop :=
  is_position r -> is_Some (sensor_index (bc_sensor_names cfg) (obs_sensor_id (sr_obs r))).

Record same_filter (s : replay_state) (st : broker_state) : Prop := {
  sf_kf : rp_kf s = if bs_kf_ready st then Some (bs_kf st) else None;
  sf_window : rp_final_window_seq s = bs_last_processed_window_seq st
}.

Lemma known_configured cfg id : is_Some (sensor_index (bc_sensor_names cfg) id) -> configured cfg id.
Proof.
  unfold sensor_index. intros [i Hi]. destruct (list_find _ _) as [[j nm]|] eqn:E; [|done].
  apply list_find_Some in E as (Hl & Heq & _). exists nm. split; [by eapply list_elem_of_lookup_2|done].
Qed.

Lemma turn_same_filter cfg junk nan now r s st :
  bc_dgt_enabled cfg = false -> Z.of_nat (length (bc_sensor_names cfg)) <= 8 -> broker_sees cfg r ->
  same_filter s st ->
  same_filter (replay_turn (bc_kf_params cfg) s (decoded_record r))
    (process_entry cfg junk nan now (received (entry_of r)) st).2.
Proof.
  intros Hd Hl Hsee [Hk Hw]. rewrite process_entry_eq. cbv zeta. rewrite select_all by done.
  set (st1 := with_sensors _ _). destruct (estimate _ _ _ _) as [[used kf] ready] eqn:Ee. cbn [snd].
  change (bs_kf_ready st) with (bs_kf_ready st1) in Hk. change (bs_kf st) with (bs_kf st1) in Hk.
  assert (Hkf : rp_kf (replay_turn (bc_kf_params cfg) s (decoded_record r)) = if ready then Some kf else None).
  2:{ split; [exact Hkf|]. unfold replay_turn, decoded_record. by repeat case_match. }
  revert Ee. unfold estimate, replay_turn, decoded_record. cbv zeta.
  cbn [received entry_of qe_admitted qe_obs re_admission_reason re_obs jh_admission_reason record_header].
  change (obs_payload_shape (canon_observation (sr_obs r))) with (obs_payload_shape (sr_obs r)).
  change (obs_sensor_id (canon_observation (sr_obs r))) with (obs_sensor_id (sr_obs r)).
  destruct (Z.eqb_spec (admission_code (sr_reason r)) (admission_code OBICALL_ADMIT_OK)) as [Ha|Ha]; cbn [negb Z.eqb andb].
  2:{ by intros [= <- <- <-]. }
  destruct (Z.eqb_spec (obs_payload_shape (sr_obs r)) OBICALL_SHAPE_POSITION_2D) as [Hs|Hs]; cbn [negb].
  2:{ rewrite andb_false_r. by intros [= <- <- <-]. }
  assert (Hp : is_position r) by (split; [by destruct (sr_reason r)|done]).
  rewrite (proj2 (Z.eqb_neq _ _) (all_sensors_bit cfg _ Hl (known_configured _ _ (Hsee Hp)))). cbn [negb andb rp_kf]. rewrite Hk.
  destruct (bs_kf_ready st1); cbn [negb].
  - destruct (obicall_kalman_update_position _ _ _ _ _ _) as [u kf']. by intros [= <- <- <-].
  - by intros [= <- <- <-].
Qed.

Lemma fold_same_filter cfg junk nan hist rs s st :
  bc_dgt_enabled cfg = false -> Z.of_nat (length (bc_sensor_names cfg)) <= 8 -> Forall (broker_sees cfg) rs ->
  hist.*2 = (fun r => received (entry_of r)) <$> rs -> same_filter s st ->
  same_filter (fold_left (replay_turn (bc_kf_params cfg)) (decoded_record <$> rs) s)
    (process_all cfg junk nan hist st).2.
Proof.
  intros Hd Hl Hsee. revert hist s st. induction Hsee as [|r rs Hr _ IH]; intros [|[now e] hist] s st; try done.
  cbn [fmap list_fmap snd fold_left process_all]. intros [= -> Hh] Hsf.
  pose proof (turn_same_filter cfg junk nan now r s st Hd Hl Hr Hsf) as H1.
  destruct (process_entry _ _ _ _ _ _) as [x st1]. cbn [snd] in H1. specialize (IH hist _ _ Hh H1).
  by destruct (process_all cfg junk nan hist st1).
Qed.

(** The counters of the replay. *)
Definition admitted_count (rs : list segment_record) : Z :=
  Z.of_nat (length (filter (fun r => sr_reason r = OBICALL_ADMIT_OK) rs)).

Lemma fold_counts params rs s :
  rp_total s + Z.of_nat (length rs) < 18446744073709551616 -> 0 <= rp_admitted s -> 0 <= rp_rejected s ->
  rp_total s = rp_admitted s + rp_rejected s ->
  let s' := fold_left (replay_turn params) (decoded_record <$> rs) s in
  rp_total s' = rp_total s + Z.of_nat (length rs) /\ rp_admitted s' = rp_admitted s + admitted_count rs /\
  rp_total s' = rp_admitted s' + rp_rejected s'.
Proof.
  revert s. induction rs as [|r rs IH]; intros s Ht Ha Hj Hs; [unfold admitted_count; cbn; lia|].
  cbn [fmap list_fmap fold_left]. cbv zeta.
  assert (H1 : rp_total (replay_turn params s (decoded_record r)) = rp_total s + 1 /\
    rp_admitted (replay_turn params s (decoded_record r)) =
      rp_admitted s + (if decide (sr_reason r = OBICALL_ADMIT_OK) then 1 else 0) /\
    rp_rejected (replay_turn params s (decoded_record r)) =
      rp_rejected s + (if decide (sr_reason r = OBICALL_ADMIT_OK) then 0 else 1)).
  { cbn [length] in Ht. unfold replay_turn, decoded_record. cbv zeta. cbn [record_header jh_admission_reason].
    destruct (decide (sr_reason r = OBICALL_ADMIT_OK)) as [->|Hn].
    - rewrite Z.eqb_refl. cbn [negb]. case_match; cbn [rp_total rp_admitted rp_rejected]; rewrite !u64_id; unfold is_u64; lia.
    - replace (admission_code (sr_reason r) =? _) with false by (by destruct (sr_reason r)). cbn [negb].
      cbn [rp_total rp_admitted rp_rejected]. rewrite !u64_id; unfold is_u64; lia. }
  destruct H1 as (E1 & E2 & E3). set (s1 := replay_turn params s (decoded_record r)) in *. clearbody s1.
  cbn [length] in *. unfold admitted_count in *. rewrite filter_cons.
  destruct (IH s1) as (H1 & H2 & H3); try (case_decide; lia). cbv zeta in *.
  split; [lia|]. split; [|done]. rewrite H2, E2. case_decide; cbn [length]; lia.
Qed.

(** C31: replaying a journal reproduces the brokers: for a journal started on an empty
    segment to which every append so far reported success (the journal sends a window on
    even if its append failed, so otherwise brokers may have what the segment lacks),
    whatever reached it, [obicall replay] reads the segment to its clean end, counts
    every window and every admission, and ends with the very filter state and window of
    a broker with the same parameters that processed the same windows, at any times,
    when the decision table is off and the sensors admitted are among the configured
    ones, of which there are at most eight. *)
Theorem replay_reproduces_broker pipeline_id jcfg pos token y f args cfg junk nan hist :
  journald_reach (journald_init pipeline_id jcfg (Some (CFile [] pos)) token) y -> log_fits y ->
  jd_appended y = true -> js_segment_file (jd_state y) = Some f ->
  hist.*2 = (fun r => received (entry_of r)) <$> jd_log y ->
  bc_kf_params cfg = replay_params args -> bc_dgt_enabled cfg = false ->
  Z.of_nat (length (bc_sensor_names cfg)) <= 8 -> Forall (broker_sees cfg) (jd_log y) ->
  let '(s, st) := replay_file (replay_params args) (f_data f) in
  let b := (process_all cfg junk nan hist broker_init).2 in
  st = Some OBICALL_ERR_NOT_FOUND /\
  rp_total s = Z.of_nat (length (jd_log y)) /\ rp_admitted s = admitted_count (jd_log y) /\
  rp_total s = rp_admitted s + rp_rejected s /\
  rp_final_window_seq s = bs_last_processed_window_seq b /\
  rp_kf s = if bs_kf_ready b then Some (bs_kf b) else None.
Proof.
  intros Hr Hf Ha Hs Hh Hp Hd Hl Hsee.
  pose proof (reach_inv _ _ _ (init_inv pipeline_id jcfg (Some (CFile [] pos)) token) Hr Hf) as Hinv.
  unfold replay_file. rewrite (si_segment _ _ Hinv _ Hs Ha). rewrite app_nil_l.
  assert (Hlen : (length (jd_log y) <= length (concat (record_bytes <$> jd_log y)))%nat).
  { clear. induction (jd_log y) as [|r rs IH]; [done|]. rewrite fmap_cons, concat_cons, length_app.
    unfold record_bytes at 1. rewrite length_app, length_record_header_wire.
    unfold OBICALL_JOURNAL_RECORD_HEADER_LEN. cbn [length]. lia. }
  rewrite (replay_complete (jd_log y)); [|apply (si_valid _ _ Hinv)|lia]. rewrite <- Hp.
  destruct (fold_counts (bc_kf_params cfg) (jd_log y) (ReplayState 0 0 0 0 None)) as (H1 & H2 & H3);
    [unfold log_fits in Hf; cbn [rp_total]; lia|done|done|done|].
  destruct (fold_same_filter cfg junk nan hist (jd_log y) (ReplayState 0 0 0 0 None) broker_init Hd Hl Hsee Hh)
    as [H4 H5]; [by split|]. cbn [rp_total rp_admitted] in *. by split_and!.
Qed.

(** Whatever bytes the file holds, the loop comes to an end, and by one of the
    reader's verdicts. *)
Theorem replay_terminates params data : exists st, (replay_file params data).2 = Some st.
Proof.
  unfold replay_file. pose proof (replay_records_ends (S (length data)) (CFile data 0) ltac:(cbn; lia)) as H.
  destruct (replay_records _ _) as [recs [st|]]; [by exists st|done].
Qed.

(** * Witnesses *)

(** A configuration with one provider, whose manifest depends on nothing. *)
Definition one_config : list Z :=
  json_template "{'pipeline_id':'nav','manifests_dir':'m','providers':[{'manifest':'p.manifest.json'}]}"%string.
Definition one_manifest : list Z := json_template "{'schema_version':1,'name':'p','artifact_path':'a'}"%string.
Definition one_env : validate_env :=
  ValidateEnv
    (fun path => if bool_decide (path = ascii_bytes "d/c.json"%string) then Some one_config
                 else if bool_decide (path = ascii_bytes "d/m/p.manifest.json"%string) then Some one_manifest else None)
    (fun _ => Some [ascii_bytes "p.manifest.json"%string; ascii_bytes "notes"%string]) [].
Definition validate_args : list (list Z) :=
  [ascii_bytes "validate"%string; ascii_bytes "--config"%string; ascii_bytes "d/c.json"%string; ascii_bytes "--json"%string].

Definition one_loaded : option pipeline_config :=
  Eval vm_compute in match pipeline_config_load no_ub [] (Some one_config) with Loaded cfg => Some cfg | _ => None end.

Lemma validate_witness :
  exists o, cmd_validate no_ub [] one_env validate_args = Some o /\ oc_code o = 0 /\
    exists sp, json_object_find (oc_out o) (ascii_bytes "overall"%string) = Some sp /\
      span_bytes (oc_out o) sp = show_ok true.
Proof.
  destruct one_loaded as [cfg|] eqn:Ec; [|discriminate Ec].
  assert (Hl : pipeline_config_load no_ub [] (ve_files one_env (ascii_bytes "d/c.json"%string)) = Loaded cfg).
  { injection Ec as <-. vm_compute. reflexivity. }
  destruct (validate_verdict no_ub [] one_env validate_args (ascii_bytes "d/c.json"%string) cfg eq_refl Hl)
    as (o & E & _ & _ & Hj).
  assert (Hc : oc_code o = 0).
  { transitivity (default 9 (oc_code <$> cmd_validate no_ub [] one_env validate_args)); [by rewrite E|].
    vm_compute. reflexivity. }
  exists o. split; [exact E|]. split; [exact Hc|]. destruct Hj as [(sp & H1 & _ & H2) _]; [reflexivity|].
  exists sp. split; [exact H1|]. rewrite H2, Hc. reflexivity.
Defined.

(** A path with a quote and a newline, printed with room and without. *)
Definition odd_text : list Z := [97; 34; 10; 7; 98].
Definition odd_members (out_cap : nat) : list (list Z * list Z) :=
  [(ascii_bytes "input"%string, string_value (json_escape odd_text out_cap))].
Lemma odd_members_ok out_cap : Forall member_ok (odd_members out_cap).
Proof. members. apply escaped_value_text. Qed.

Lemma json_escape_witness :
  (exists sp, json_object_find (123 :: print_members (odd_members 600) ++ [125]) (ascii_bytes "input"%string) = Some sp /\
     json_decode_string (span_bytes (123 :: print_members (odd_members 600) ++ [125]) sp) 64 = ([97; 34; 10; 98; 0], true)) /\
  json_escape odd_text 5 = [97; 92; 34].
Proof.
  split; [|reflexivity].
  destruct (json_escape_reads_back (odd_members 600) (123 :: print_members (odd_members 600) ++ [125])
    (ascii_bytes "input"%string) odd_text 600 64 (printed_object _ [] (odd_members_ok 600)) eq_refl)
    as (sp & k & Hf & _ & Hd & Hall & _).
  exists sp. split; [exact Hf|]. rewrite Hd, Hall by (apply Nat.ltb_lt; reflexivity). reflexivity.
Defined.

(** The gate of [sample_ctx] answers a byte at a time. *)
Definition status_rx : list rx_event :=
  dribble (frame_bytes OBICALL_MSG_STATUS_REPLY (status_reply_wire (handle_status_query 300 sample_ctx).1)).
Definition sample_status_env : status_env :=
  StatusEnv [None; Some (port_file_text 4242)] (Some (procutil_write_token_file sample_token))
    (fun port => if port =? 4242 then Some (eager_tx, status_rx) else None).
Definition status_args : list (list Z) := [ascii_bytes "status"%string; ascii_bytes "--json"%string].

Definition sample_hello : list Z :=
  frame_bytes OBICALL_MSG_AUTH_HELLO (auth_hello_wire (AuthHello OBICALL_WIRE_VERSION OBICALL_ROLE_CLI sample_token)).
Definition status_query_rx : list rx_event := dribble (ask_status sample_token eager_tx status_rx).1.

Lemma status_witness :
  oc_code (cmd_status sample_status_env status_args) = 0 /\
  exists sp, json_object_find (oc_out (cmd_status sample_status_env status_args)) (ascii_bytes "gate_epoch"%string) = Some sp /\
    digits_value (span_bytes (oc_out (cmd_status sample_status_env status_args)) sp) = 1.
Proof.
  destruct (dribble_chunks (frame_bytes OBICALL_MSG_STATUS_REPLY (status_reply_wire (handle_status_query 300 sample_ctx).1)))
    as [H1 H2].
  destruct (dribble_chunks (ask_status sample_token eager_tx status_rx).1) as [Q1 Q2].
  assert (Hout : gn_out (connection_turn sample_junk sample_token (GateServe.TurnEnv false sample_persist 300) sample_ctx
      (connection_turn sample_junk sample_token (GateServe.TurnEnv false sample_persist 300) sample_ctx
        (GateConn PhHello status_query_rx eager_tx [])).2).2 =
    frame_bytes OBICALL_MSG_STATUS_REPLY (status_reply_wire (handle_status_query 300 sample_ctx).1))
    by (vm_compute; reflexivity).
  pose proof (status_reports_gate sample_junk sample_status_env status_args 4242 1 [] sample_token eager_tx
    (replicate 6 (TxAccept 4096)) sample_hello status_rx status_query_rx eager_tx (GateServe.TurnEnv false sample_persist 300)
    (GateServe.TurnEnv false sample_persist 300) sample_ctx sample_ctx) as H.
  destruct (connection_turn sample_junk sample_token (GateServe.TurnEnv false sample_persist 300) sample_ctx
    (GateConn PhHello status_query_rx eager_tx [])) as [ctx1 c1]. cbn [snd] in Hout.
  destruct (connection_turn sample_junk sample_token (GateServe.TurnEnv false sample_persist 300) sample_ctx c1) as [ctx2 c2].
  cbn [snd] in Hout. destruct H as (_ & _ & _ & Hc & Hj).
  - exact eq_refl.
  - split; [discriminate|reflexivity].
  - reflexivity.
  - exact eq_refl.
  - by apply is_chars_eval.
  - exact eq_refl.
  - vm_compute. reflexivity.
  - vm_compute. reflexivity.
  - apply (sample_gate_inv OBICALL_BROKER_A). split; [discriminate|reflexivity].
  - vm_compute. reflexivity.
  - exact Q1.
  - exact Q2.
  - exact H1.
  - rewrite Hout. exact H2.
  - split; [exact Hc|]. destruct Hj as [He _]; [reflexivity|]. exact He.
Defined.

(** The journal of one submission, and a broker that knows its sensor. *)
Definition fusing_cfg : broker_config :=
  BrokerConfig OBICALL_BROKER_A (chars 32 "nav"%string) (replicate 32 2) 500000000 1000000000
    [chars 32 "gnss"%string] (replay_params []) init_default_dgt_table f64_zero false.
Definition fusing_hist : list (Z * queue_entry) :=
  (fun r => (1000, received (entry_of r))) <$> jd_log sample_j3.

Lemma replay_witness :
  let '(s, st) := replay_file (replay_params []) (f_data sample_segment) in
  let b := (process_all fusing_cfg sample_junk 0 fusing_hist broker_init).2 in
  st = Some OBICALL_ERR_NOT_FOUND /\ rp_total s = 1 /\ bs_kf_ready b = true /\ rp_kf s = Some (bs_kf b).
Proof.
  assert (Hready : bs_kf_ready (process_all fusing_cfg sample_junk 0 fusing_hist broker_init).2 = true)
    by (vm_compute; reflexivity).
  assert (Hsees : Forall (broker_sees fusing_cfg) (jd_log sample_j3)).
  { apply Forall_forall. intros d Hd. apply list_elem_of_In in Hd. revert d Hd. apply List.Forall_forall.
    vm_compute. repeat constructor. intros _. by eexists. }
  assert (Hh : fusing_hist.*2 = (fun r => received (entry_of r)) <$> jd_log sample_j3)
    by (unfold fusing_hist; by rewrite <- list_fmap_compose).
  pose proof (replay_reproduces_broker (chars 32 "nav"%string) sample_config 0 sample_token sample_j3 sample_segment []
    fusing_cfg sample_junk 0 fusing_hist sample_reach3 sample_fits3 ltac:(vm_compute; reflexivity)
    ltac:(vm_compute; reflexivity) Hh eq_refl eq_refl ltac:(discriminate) Hsees) as H.
  destruct (replay_file _ _) as [s st]. cbv zeta in *. rewrite Hready in H.
  destruct H as (H1 & H2 & _ & _ & _ & H3). split; [exact H1|]. split; [|split; [exact Hready|exact H3]].
  rewrite H2. vm_compute. reflexivity.
Defined.

(** An estimate that overflowed is printed as C prints it, and the object is no JSON
    any more. *)
Example replay_prints_infinity :
  let kf := KalmanState 1 [S754_infinity false; f64_zero; f64_zero; f64_zero] (replicate 16 f64_zero) 0 in
  let out := replay_text [] [97] true (ReplayState 1 1 0 1 (Some kf)) in
  exists sp, json_object_find out (ascii_bytes "estimate"%string) = Some sp /\
    json_object_find (span_bytes out sp) (ascii_bytes "y"%string) = None.
Proof. eexists. split; vm_compute; reflexivity. Qed.

(** The printed decimal is the nearest with six digits. *)
Example show_f6_examples :
  show_f6 [] (f64_of_bits 4587366580439587226) = ascii_bytes "0.050000"%string /\
  show_f6 [] (f64_neg (f64_of_bits 4621819117588971520)) = ascii_bytes "-10.000000"%string /\
  show_f6 [] f64_one = ascii_bytes "1.000000"%string.
Proof. vm_compute. done. Qed.
