(* ===== verification/CliRun.v ===== *)
(** * CliRun: the commands that run the processes (src/cli/main.c)

    [run] and [demo] start the supervisor, let it watch its children turn by turn and
    stop them; [main] chooses the command.  Clock readings, what the supervisor's
    ticks find and what the gate's connections deliver are inputs, one record per
    turn of a loop; a loop whose turns are used up has not ended ([None]).  Of the
    texts, those of the commands are modelled, those of the supervisor are not. *)

From Stdlib Require Import (notations) Strings.String.
From S2P Require Import Prelude Types Samples Digest Cursor Wire WireMsg Binary64 Stdio Journal Ipc JournalDaemon.
From S2P Require Import Gate GateDaemon Dgt Estimator BrokerQueue Broker Json Manifest ManifestParse Procutil PipelineConfig.
From S2P Require Import Supervisor Worker Launch Cli.
#[local] Delimit Scope string_scope with string.

(** ** run *)

Record run_turn := RunTurn {
  rt_stop : bool;                      (* g_stop_requested *)
  rt_tick : Z;
  rt_envs : list child_env;
  rt_now : Z
}.

(** What was asked of the system and the children, when the loop has ended. *)
Fixpoint run_loop (start duration_s : Z) (turns : list run_turn) (children : list child_proc)
    : option (list proc_action * list child_proc) :=
  match turns with
  | [] => None
  | t :: turns =>
      if rt_stop t then Some ([], children)
      else
      let '(actions, children) := supervisor_monitor_tick (rt_tick t) (rt_envs t) children in
      if (duration_s >? 0) && (i64 (rt_now t - start) >=? i64 (duration_s * 1000000000)) then Some (actions, children)
      else
        match run_loop start duration_s turns children with
        | None => None
        | Some (later, children) => Some (actions ++ SleepMs 200 :: later, children)
        end
  end.

Record run_env := RunEnv {
  rn_link : option (list Z);           (* /proc/self/exe *)
  rn_junk : list Z;                    (* of the digest's block *)
  rn_start : start_env;
  rn_token : list Z;
  rn_clock : Z;
  rn_turns : list run_turn
}.

Definition run_started_text (as_json : bool) (runtime_dir : list Z) (sv : supervisor) : list Z * list Z :=
  let children := show_u64 (Z.of_nat (length (sv_children sv))) in
  if as_json then
    (json_template "{'event':'started','runtime_dir':'"%string ++ json_escape runtime_dir 600 ++
     json_template "','gate_port':"%string ++ show_u64 (sv_gate_port sv) ++
     json_template ",'journal_port':"%string ++ show_u64 (sv_journal_port sv) ++
     json_template ",'children':"%string ++ children ++ json_template "}"%string ++ [10], [])
  else ([], ascii_bytes "obicall run: "%string ++ children ++ ascii_bytes " processes started in "%string ++
            runtime_dir ++ [10]).

Definition loaded (ub : f64 -> Z) (env : run_env) (config_path : list Z) : load_outcome :=
  pipeline_config_load ub (rn_junk env) (se_files (rn_start env) config_path).

(** The outcome, the actions after the start, and the children at the end. *)
Definition cmd_run (ub : f64 -> Z) (env : run_env) (argv0 : list Z) (args : list (list Z))
    : option (outcome * list proc_action * list child_proc) :=
  let runtime_dir := procutil_arg_str args (ascii_bytes "--runtime-dir"%string) (ascii_bytes "./obicall-run"%string) in
  let duration_s := procutil_arg_i64 args (ascii_bytes "--duration-seconds"%string) 0 in
  let as_json := procutil_arg_flag args (ascii_bytes "--json"%string) in
  match find_arg args (ascii_bytes "--config"%string) with
  | None => Some (Outcome [] (ascii_bytes "obicall run: --config PATH is required"%string ++ [10]) 2, [], [])
  | Some config_path =>
      let exe_dir := procutil_own_exe_dir (rn_link env) argv0 1024 in
      match supervisor_start ub (rn_start env) (loaded ub env config_path) config_path runtime_dir exe_dir (rn_token env) with
      | Err children =>
          let '(actions, children) := supervisor_stop_all children in
          Some (Outcome [] (ascii_bytes "obicall run: startup failed"%string ++ [10]) 1, actions, children)
      | Ok sv =>
          match run_loop (rn_clock env) duration_s (rn_turns env) (sv_children sv) with
          | None => None
          | Some (actions, children) =>
              let '(stops, children) := supervisor_stop_all children in
              let '(out, err) := run_started_text as_json runtime_dir sv in
              Some (Outcome (out ++ if as_json then json_template "{'event':'stopped'}"%string ++ [10] else []) err 0,
                    actions ++ stops, children)
          end
      end
  end.

(** ** demo *)

Definition connection := option (list tx_event * list rx_event).
Definition zero_reply : obicall_msg_status_reply := StatusReply 0 0 0 0 0.

(** A turn of one of the two waiting loops. *)
Record demo_turn := DemoTurn {
  dt_now : Z;
  dt_tick : Z;
  dt_envs : list child_env;
  dt_conn : connection
}.

(** [while (osal_monotonic_ns() < deadline)]: whether a reply was [good], the last
    reply, the actions and the children. *)
Fixpoint demo_wait (good : obicall_msg_status_reply -> bool) (deadline sleep_ms : Z) (token : list Z)
    (turns : list demo_turn) (reply : obicall_msg_status_reply) (children : list child_proc)
    : option (bool * obicall_msg_status_reply * list proc_action * list child_proc) :=
  match turns with
  | [] => None
  | t :: turns =>
      if dt_now t >=? deadline then Some (false, reply, [], children)
      else
      let '(actions, children) := supervisor_monitor_tick (dt_tick t) (dt_envs t) children in
      let '(ok, reply) := query_status (dt_conn t) token reply in
      if ok && good reply then Some (true, reply, actions, children)
      else
        match demo_wait good deadline sleep_ms token turns reply children with
        | None => None
        | Some (found, reply, later, children) =>
            Some (found, reply, actions ++ SleepMs sleep_ms :: later, children)
        end
  end.

(** The delayed result of epoch 1. *)
Definition demo_result (pipeline_id : list Z) (now : Z) : obicall_result :=
  Result sizeof_result OBICALL_RESULT_SCHEMA_VERSION (strncpy_zeroed OBICALL_PIPELINE_ID_LEN pipeline_id)
    18446744073709551615 OBICALL_BROKER_A 1 OBICALL_RESULT_VALID 0 0 (replicate 6 0) 0 (replicate 36 0)
    (replicate 32 0) (replicate 32 0) now (i64 (now + 500000000)) 0 (replicate 8 (replicate 32 0)) 0.

(** The bytes put on the connection, and [stale_rejected]. *)
Definition demo_probe (conn : connection) (token : list Z) (result : obicall_result) : list Z * bool :=
  match conn with
  | None => ([], false)
  | Some (tx, rx) =>
      match procutil_client_connect token OBICALL_ROLE_BROKER tx with
      | None => ([], false)
      | Some (hello, tx) =>
          match obicall_wire_encode_result result 1024 with
          | Err _ => (hello, false)
          | Ok buf =>
              let '(ok, out, _) := osal_send_frame OBICALL_MSG_RESULT_PUBLISH buf tx in
              (hello ++ out,
               ok && match (osal_recv_frame 64 rx).1 with
                     | Frame mt ackbuf =>
                         (mt =? OBICALL_MSG_RESULT_ACK) &&
                         match obicall_wire_decode_result_ack ackbuf with
                         | Ok ack => (ra_accepted ack =? 0)
                                     && (ra_reject_status ack =? status_code OBICALL_ERR_GATE_STALE_EPOCH)
                         | Err _ => false
                         end
                     | _ => false
                     end)
          end
      end
  end.

Record demo_env := DemoEnv {
  de_run : run_env;                    (* its clock and turns are not used *)
  de_pid : Z;
  de_boot_clock : Z;
  de_boot : list demo_turn;
  de_kill_clock : Z;
  de_promote_clock : Z;
  de_promote : list demo_turn;
  de_promoted_clock : Z;
  de_resume_clock : Z;
  de_probe_clock : Z;
  de_probe : connection;
  de_last : connection;
  de_gone_clock : Z;
  de_gone : connection
}.

Record demo_report := DemoReport {
  dr_bootstrapped : bool;
  dr_initial_epoch : Z;
  dr_promoted : bool;
  dr_reply : obicall_msg_status_reply;
  dr_latency_ms : Z;
  dr_stale_rejected : bool;
  dr_consumer_expiry_ok : bool
}.
Definition dr_overall (r : demo_report) : bool := dr_bootstrapped r && dr_promoted r && dr_stale_rejected r.

Definition demo_text (as_json : bool) (r : demo_report) : list Z :=
  let owner := broker_name (sr_owner_broker_id (dr_reply r)) in
  let epoch := show_u64 (sr_gate_epoch (dr_reply r)) in
  let overall := if dr_overall r then ascii_bytes "pass"%string else ascii_bytes "fail"%string in
  if as_json then
    json_template "{'scenario':'broker-failover','bootstrapped_as_a':"%string ++ show_bool (dr_bootstrapped r) ++
    json_template ",'initial_epoch':"%string ++ show_u64 (dr_initial_epoch r) ++
    json_template ",'promotion_detected':"%string ++ show_bool (dr_promoted r) ++
    json_template ",'new_owner':'"%string ++ owner ++
    json_template "','new_epoch':"%string ++ epoch ++
    json_template ",'promotion_latency_ms':"%string ++ show_i64 (dr_latency_ms r) ++
    json_template ",'stale_old_epoch_result_rejected':"%string ++ show_bool (dr_stale_rejected r) ++
    json_template ",'gate_death_consumer_expiry_demonstrated':"%string ++ show_bool (dr_consumer_expiry_ok r) ++
    json_template ",'overall':'"%string ++ overall ++ json_template "'}"%string ++ [10]
  else
    ascii_bytes "bootstrapped_as_A: "%string ++ show_yes (dr_bootstrapped r) ++ [10] ++
    ascii_bytes "promotion_detected: "%string ++ show_yes (dr_promoted r) ++
    ascii_bytes " (new owner="%string ++ owner ++ ascii_bytes " epoch="%string ++ epoch ++
    ascii_bytes ", latency="%string ++ show_i64 (dr_latency_ms r) ++ ascii_bytes "ms)"%string ++ [10] ++
    ascii_bytes "stale_old_epoch_result_rejected: "%string ++ show_yes (dr_stale_rejected r) ++ [10] ++
    ascii_bytes "gate_death_consumer_expiry_demonstrated: "%string ++ show_yes (dr_consumer_expiry_ok r) ++ [10] ++
    ascii_bytes "overall: "%string ++ overall ++ [10].

(** [supervisor_kill_child_and_suspend] where the caller ignores what it returns. *)
Definition kill_and_suspend (name : list Z) (children : list child_proc) : list proc_action * list child_proc :=
  default ([], children) (supervisor_kill_child_and_suspend name children).

Definition owned_by_a (reply : obicall_msg_status_reply) : bool := sr_owner_broker_id reply =? OBICALL_BROKER_A.
Definition promoted_past (epoch : Z) (reply : obicall_msg_status_reply) : bool :=
  (sr_owner_broker_id reply =? OBICALL_BROKER_B) && (sr_gate_epoch reply >? epoch).

(** From the started supervisor on: the report, the actions and the children. *)
Definition demo_scenario (env : demo_env) (sv : supervisor)
    : option (demo_report * list proc_action * list child_proc) :=
  let token := sv_run_token sv in
  match demo_wait owned_by_a (i64 (de_boot_clock env + 8000000000)) 150 token (de_boot env) zero_reply (sv_children sv) with
  | None => None
  | Some (bootstrapped, reply, boot, children) =>
      let initial_epoch := sr_gate_epoch reply in
      let '(kill, children) := if bootstrapped then kill_and_suspend (ascii_bytes "broker_A"%string) children
                               else ([], children) in
      match demo_wait (promoted_past initial_epoch) (i64 (de_promote_clock env + 10000000000)) 100 token
              (de_promote env) zero_reply children with
      | None => None
      | Some (promoted, reply2, wait, children) =>
          let latency_ms := Z.quot (i64 (de_promoted_clock env - de_kill_clock env)) 1000000 in
          let children := supervisor_resume_child (de_resume_clock env) (ascii_bytes "broker_A"%string) children in
          let stale_rejected :=
            (demo_probe (de_probe env) token (demo_result (c_str (pc_pipeline_id (sv_cfg sv))) (de_probe_clock env))).2 in
          let '(have_last, last) := query_status (de_last env) token zero_reply in
          let '(kill_gate, children) := kill_and_suspend (ascii_bytes "gate"%string) children in
          let '(gate_reachable, _) := query_status (de_gone env) token last in
          let '(stops, children) := supervisor_stop_all children in
          Some (DemoReport bootstrapped initial_epoch promoted reply2 latency_ms stale_rejected
                  (have_last && negb gate_reachable && (de_gone_clock env >=? 0)),
                boot ++ kill ++ wait ++ kill_gate ++ SleepMs 700 :: stops, children)
      end
  end.

Definition cmd_demo (ub : f64 -> Z) (env : demo_env) (argv0 : list Z) (args : list (list Z))
    : option (outcome * list proc_action * list child_proc) :=
  let as_json := procutil_arg_flag args (ascii_bytes "--json"%string) in
  let scenario := procutil_arg_str args (ascii_bytes "--scenario"%string) (ascii_bytes "broker-failover"%string) in
  let config_path := procutil_arg_str args (ascii_bytes "--config"%string)
                       (ascii_bytes "examples/position-fusion.json"%string) in
  let runtime_dir := snprintf 128 (ascii_bytes "./obicall-demo-run-"%string ++ show_i64 (de_pid env)) in
  if negb (bool_decide (scenario = ascii_bytes "broker-failover"%string)) then
    Some (Outcome [] (ascii_bytes "obicall demo: unknown scenario '"%string ++ scenario ++
                      ascii_bytes "' (only 'broker-failover' is implemented)"%string ++ [10]) 2, [], [])
  else
  let rn := de_run env in
  let exe_dir := procutil_own_exe_dir (rn_link rn) argv0 1024 in
  match supervisor_start ub (rn_start rn) (loaded ub rn config_path) config_path runtime_dir exe_dir (rn_token rn) with
  | Err children =>
      let '(actions, children) := supervisor_stop_all children in
      Some (Outcome [] (ascii_bytes "obicall demo: startup failed"%string ++ [10]) 1, actions, children)
  | Ok sv =>
      match demo_scenario env sv with
      | None => None
      | Some (report, actions, children) =>
          Some (Outcome (demo_text as_json report) [] (if dr_overall report then 0 else 1), actions, children)
      end
  end.

(** ** main *)

Inductive command := CmdDoctor | CmdValidate | CmdRun | CmdStatus | CmdReplay | CmdDemo.
(** The command to run, or what is printed, to standard output or error, and the exit code. *)
Inductive dispatch :=
| Command (c : command)
| Printed (o : outcome).

Definition usage_text : list Z :=
  ascii_bytes "usage: obicall <command> [options]"%string ++ [10] ++
  ascii_bytes "commands:"%string ++ [10] ++
  ascii_bytes "  doctor --json"%string ++ [10] ++
  ascii_bytes "  validate --config PATH [--json]"%string ++ [10] ++
  ascii_bytes "  run --config PATH [--runtime-dir DIR] [--duration-seconds N] [--json]"%string ++ [10] ++
  ascii_bytes "  status [--runtime-dir DIR] [--json]"%string ++ [10] ++
  ascii_bytes "  replay --input PATH [--json]"%string ++ [10] ++
  ascii_bytes "  demo --scenario broker-failover [--config PATH] [--json]"%string ++ [10] ++
  ascii_bytes "  help | --help | -h"%string ++ [10].

Definition command_named (cmd : list Z) : option command :=
  if bool_decide (cmd = ascii_bytes "doctor"%string) then Some CmdDoctor
  else if bool_decide (cmd = ascii_bytes "validate"%string) then Some CmdValidate
  else if bool_decide (cmd = ascii_bytes "run"%string) then Some CmdRun
  else if bool_decide (cmd = ascii_bytes "status"%string) then Some CmdStatus
  else if bool_decide (cmd = ascii_bytes "replay"%string) then Some CmdReplay
  else if bool_decide (cmd = ascii_bytes "demo"%string) then Some CmdDemo
  else None.

(** [args] is [argv[1..]]. *)
Definition cli_main (args : list (list Z)) : dispatch :=
  match args with
  | [] => Printed (Outcome [] usage_text 2)
  | cmd :: _ =>
      if bool_decide (cmd = ascii_bytes "--help"%string) || bool_decide (cmd = ascii_bytes "-h"%string)
         || bool_decide (cmd = ascii_bytes "help"%string)
      then Printed (Outcome usage_text [] 0)
      else match command_named cmd with
           | Some c => Command c
           | None => Printed (Outcome [] (ascii_bytes "obicall: unknown command '"%string ++ cmd ++
                                          ascii_bytes "'"%string ++ [10] ++ usage_text) 2)
           end
  end.

(** * Lemmas *)

(** ** Process handles are conserved *)

(** The handles held, closed by a list of actions, and obtained by a tick. *)
Definition handles (children : list child_proc) : list Z := children ≫= (fun c => option_list (cp_proc c)).
Definition closes (actions : list proc_action) : list Z :=
  omap (fun a => match a with Close proc => Some proc | _ => None end) actions.
Definition opened_child (now : Z) (env : child_env) (c : child_proc) : list Z :=
  if existsb is_spawn (monitor_child now env c).1 then option_list (fst <$> ce_spawned env) else [].
Definition opened_tick (now : Z) (envs : list child_env) (children : list child_proc) : list Z :=
  concat (zip_with (opened_child now) envs children).

Lemma closes_app a b : closes (a ++ b) = closes a ++ closes b.
Proof. apply omap_app. Qed.
Lemma handles_cons c children : handles (c :: children) = option_list (cp_proc c) ++ handles children.
Proof. done. Qed.
Lemma handles_app a b : handles (a ++ b) = handles a ++ handles b.
Proof. apply bind_app. Qed.

Lemma monitor_child_handles now env c :
  option_list (cp_proc c) ++ opened_child now env c =
  closes (monitor_child now env c).1 ++ option_list (cp_proc (monitor_child now env c).2).
Proof.
  unfold opened_child, monitor_child. destruct (cp_proc c) as [proc|] eqn:Ep; [|cbn [fst snd existsb]; by rewrite Ep].
  destruct (ce_alive env && negb (is_hung now env c)); [cbn [fst snd existsb]; by rewrite Ep|].
  set (reap := if is_hung now env c then _ else _).
  assert (Hr : closes reap = [proc] /\ existsb is_spawn reap = false) by (unfold reap; by destruct (is_hung now env c)).
  clearbody reap. destruct Hr as [Hr1 Hr2].
  destruct (cp_restart_suspended _); [cbn [fst snd]; by rewrite Hr1, Hr2|].
  destruct (_ >=? MAX_RESTARTS); [cbn [fst snd]; rewrite Hr1, Hr2; by destruct (_ >? RESTART_WINDOW_NS)|].
  unfold spawn_child. destruct (ce_spawned env) as [[p t]|]; cbn [fst snd]; rewrite closes_app, Hr1, existsb_app, Hr2;
    [done|by destruct (_ >? RESTART_WINDOW_NS)].
Qed.

Lemma tick_handles now envs children :
  length envs = length children ->
  let r := supervisor_monitor_tick now envs children in
  handles children ++ opened_tick now envs children ≡ₚ closes r.1 ++ handles r.2.
Proof.
  unfold opened_tick, supervisor_monitor_tick. cbv zeta. cbn [fst snd].
  revert children. induction envs as [|env envs IH]; intros [|c children] Hl; try done.
  cbn [zip_with fmap list_fmap concat]. rewrite closes_app, !handles_cons.
  pose proof (monitor_child_handles now env c) as Hc. injection Hl as Hl. specialize (IH children Hl).
  transitivity ((option_list (cp_proc c) ++ opened_child now env c) ++
    handles children ++ concat (zip_with (opened_child now) envs children)); [solve_Permutation|].
  rewrite Hc, IH. solve_Permutation.
Qed.

(** Some ticks in a row: the handles obtained, those closed, and the children. *)
Fixpoint watch (ticks : list (Z * list child_env)) (children : list child_proc)
    : list Z * list Z * list child_proc :=
  match ticks with
  | [] => ([], [], children)
  | (now, envs) :: ticks =>
      let opened := opened_tick now envs children in
      let '(actions, children) := supervisor_monitor_tick now envs children in
      let '(opened', closed', children) := watch ticks children in
      (opened ++ opened', closes actions ++ closed', children)
  end.

Definition answers (n : nat) (ticks : list (Z * list child_env)) : Prop := Forall (fun t => length t.2 = n) ticks.

Lemma tick_length now envs children :
  length envs = length children -> length (supervisor_monitor_tick now envs children).2 = length children.
Proof. intros H. unfold supervisor_monitor_tick. cbn [snd]. rewrite length_fmap, length_zip_with. lia. Qed.

Lemma watch_handles ticks children :
  answers (length children) ticks ->
  let '(opened, closed, children') := watch ticks children in
  handles children ++ opened ≡ₚ closed ++ handles children' /\ length children' = length children.
Proof.
  revert children. induction ticks as [|[now envs] ticks IH]; intros children Ha; cbn [watch].
  { split; [by rewrite app_nil_r|done]. }
  apply Forall_cons in Ha as [Hl Ha]. cbn [snd] in Hl. pose proof (tick_handles now envs children Hl) as Ht.
  pose proof (tick_length now envs children Hl) as Hn. cbv zeta in Ht.
  destruct (supervisor_monitor_tick now envs children) as [actions children1]. cbn [fst snd] in *.
  rewrite <- Hn in Ha. specialize (IH children1 Ha). destruct (watch ticks children1) as [[o c] children2].
  destruct IH as [IH Hn']. split; [|lia].
  transitivity ((handles children ++ opened_tick now envs children) ++ o); [solve_Permutation|].
  rewrite Ht. transitivity (closes actions ++ handles children1 ++ o); [solve_Permutation|]. rewrite IH. solve_Permutation.
Qed.

(** Stopping closes what is held. *)
Lemma stop_all_handles children :
  let r := supervisor_stop_all children in
  closes r.1 = handles children /\ Forall (fun c => cp_proc c = None) r.2 /\
  forall proc, proc ∈ handles children -> Terminate proc ∈ r.1 /\ Kill proc ∈ r.1 /\ Wait proc 2000 ∈ r.1.
Proof.
  unfold supervisor_stop_all. cbv zeta. cbn [fst snd].
  assert (H1 : closes (children ≫= (fun c => Terminate <$> option_list (cp_proc c))) = []).
  { induction children as [|c children IH]; [done|]. rewrite bind_cons, closes_app, IH. by destruct (cp_proc c). }
  assert (H2 : closes (concat (fst <$> (stop_child <$> children))) = handles children).
  { clear H1. induction children as [|c children IH]; [done|]. cbn [fmap list_fmap concat].
    rewrite closes_app, handles_cons. f_equal; [unfold stop_child; by destruct (cp_proc c)|exact IH]. }
  split; [by rewrite !closes_app, H1, H2|]. clear H1 H2. split.
  - apply Forall_fmap, Forall_fmap, Forall_true. by intros c.
  - intros proc (c & Hp & Hc)%list_elem_of_bind. destruct (cp_proc c) as [p|] eqn:Ep; [|by apply not_elem_of_nil in Hp].
    apply list_elem_of_singleton in Hp as ->. split.
    + apply elem_of_app. left. apply list_elem_of_bind. exists c. rewrite Ep. split; [by apply list_elem_of_singleton|done].
    + assert (Hs : forall a, a ∈ (stop_child c).1 -> a ∈ concat (fst <$> (stop_child <$> children))).
      { intros a Ha. apply list_elem_of_In, in_concat. exists (stop_child c).1.
        split; apply list_elem_of_In; [by do 2 apply list_elem_of_fmap_2|done]. }
      split; (apply elem_of_app; right; apply elem_of_app; right; apply Hs; unfold stop_child; rewrite Ep; cbn [fst]; rewrite !elem_of_cons; auto).
Qed.

(** ** What the loops do to the children *)

Definition run_ticks (turns : list run_turn) : list (Z * list child_env) := (fun t => (rt_tick t, rt_envs t)) <$> turns.
Definition demo_ticks (turns : list demo_turn) : list (Z * list child_env) := (fun t => (dt_tick t, dt_envs t)) <$> turns.

Lemma run_loop_watch start duration_s turns children actions children' :
  run_loop start duration_s turns children = Some (actions, children') ->
  exists n, (watch (run_ticks (take n turns)) children).1.2 = closes actions /\
            (watch (run_ticks (take n turns)) children).2 = children'.
Proof.
  revert children actions. induction turns as [|t turns IH]; intros children actions; cbn [run_loop]; [done|].
  destruct (rt_stop t); [intros [= <- <-]; by exists 0%nat|].
  destruct (supervisor_monitor_tick (rt_tick t) (rt_envs t) children) as [acts children1] eqn:E.
  destruct (_ && _).
  - intros [= <- <-]. exists 1%nat. cbn [take run_ticks fmap list_fmap watch]. rewrite E. cbn [fst snd].
    split; [apply app_nil_r|done].
  - destruct (run_loop start duration_s turns children1) as [[later children2]|] eqn:El; [|done].
    intros [= <- <-]. destruct (IH children1 later El) as (n & H1 & H2). exists (S n).
    cbn [take run_ticks fmap list_fmap watch]. rewrite E. fold (run_ticks (take n turns)).
    destruct (watch _ children1) as [[o c] ch]. cbn [fst snd] in *. rewrite closes_app. cbn [closes omap list_omap].
    by rewrite H1.
Qed.

Lemma demo_wait_watch good deadline sleep_ms token turns reply children found reply' actions children' :
  demo_wait good deadline sleep_ms token turns reply children = Some (found, reply', actions, children') ->
  exists n, (watch (demo_ticks (take n turns)) children).1.2 = closes actions /\
            (watch (demo_ticks (take n turns)) children).2 = children'.
Proof.
  revert reply children actions. induction turns as [|t turns IH]; intros reply children actions; cbn [demo_wait]; [done|].
  destruct (_ >=? deadline); [intros [= <- <- <- <-]; by exists 0%nat|].
  destruct (supervisor_monitor_tick (dt_tick t) (dt_envs t) children) as [acts children1] eqn:E.
  destruct (query_status (dt_conn t) token reply) as [ok reply1].
  destruct (_ && _).
  - intros [= <- <- <- <-]. exists 1%nat. cbn [take demo_ticks fmap list_fmap watch]. rewrite E. cbn [fst snd].
    split; [apply app_nil_r|done].
  - destruct (demo_wait good deadline sleep_ms token turns reply1 children1) as [[[[f r] later] children2]|] eqn:El; [|done].
    intros [= <- <- <- <-]. destruct (IH reply1 children1 later El) as (n & H1 & H2). exists (S n).
    cbn [take demo_ticks fmap list_fmap watch]. rewrite E. fold (demo_ticks (take n turns)).
    destruct (watch _ children1) as [[o c] ch]. cbn [fst snd] in *. rewrite closes_app. cbn [closes omap list_omap].
    by rewrite H1.
Qed.

(** Suspending and resuming leave the processes alone. *)
Lemma handles_insert children i c c' :
  children !! i = Some c -> cp_proc c' = cp_proc c -> handles (<[i := c']> children) = handles children.
Proof.
  intros Hi Hc. rewrite (insert_take_drop _ _ _ (lookup_lt_Some _ _ _ Hi)).
  rewrite <- (take_drop_middle children i c Hi) at 3. by rewrite !handles_app, !handles_cons, Hc.
Qed.

Lemma kill_and_suspend_handles name children :
  let r := kill_and_suspend name children in
  closes r.1 = [] /\ handles r.2 = handles children /\ length r.2 = length children.
Proof.
  unfold kill_and_suspend, supervisor_kill_child_and_suspend. cbv zeta.
  destruct (list_find _ children) as [[i c]|] eqn:E; [|done]. apply list_find_Some in E as (Hi & _).
  cbn [default from_option fst snd]. split; [by destruct (cp_proc c)|]. split; [by apply (handles_insert _ _ c)|].
  apply length_insert.
Qed.

(** Resuming starts no process: what is not running is brought back neither by it nor,
    having no process, by the ticks that follow. *)
Lemma resume_handles now name children : handles (supervisor_resume_child now name children) = handles children.
Proof.
  unfold supervisor_resume_child. destruct (list_find _ children) as [[i c]|] eqn:E; [|done].
  apply list_find_Some in E as (Hi & _). by apply (handles_insert _ _ c).
Qed.

(** What is there when the start has ended, one way or the other. *)
Definition started_children (r : result (list child_proc) supervisor) : list child_proc :=
  match r with Ok sv => sv_children sv | Err children => children end.

(** C32: [obicall run] leaves no process behind: when it returns, whether the start
    failed or the loop ended, every process handle it ever held, those of the start
    and those of all restarts, has been closed exactly once, no child is left, and
    whatever was still running was asked to terminate, killed and waited for. *)
Theorem run_closes_every_process ub env argv0 args config_path o actions children :
  find_arg args (ascii_bytes "--config"%string) = Some config_path ->
  cmd_run ub env argv0 args = Some (o, actions, children) ->
  let started := started_children (supervisor_start ub (rn_start env) (loaded ub env config_path) config_path
    (procutil_arg_str args (ascii_bytes "--runtime-dir"%string) (ascii_bytes "./obicall-run"%string))
    (procutil_own_exe_dir (rn_link env) argv0 1024) (rn_token env)) in
  answers (length started) (run_ticks (rn_turns env)) ->
  Forall (fun c => cp_proc c = None) children /\
  exists n, let '(restarted, _, held) := watch (run_ticks (take n (rn_turns env))) started in
    closes actions ≡ₚ handles started ++ restarted /\
    forall proc, proc ∈ handles held ->
      Terminate proc ∈ actions /\ Kill proc ∈ actions /\ Wait proc 2000 ∈ actions.
Proof.
  intros Hc Hr started Hans. unfold cmd_run in Hr. rewrite Hc in Hr. unfold started in *. clear started.
  destruct (supervisor_start _ _ _ _ _ _ _) as [sv|ch] eqn:Es; cbn [started_children] in *.
  - destruct (run_loop _ _ _ _) as [[acts ch]|] eqn:El; [|done].
    apply run_loop_watch in El as (n & H1 & H2).
    assert (Hn : answers (length (sv_children sv)) (run_ticks (take n (rn_turns env)))).
    { unfold answers, run_ticks in *. rewrite fmap_take. by apply Forall_take. }
    pose proof (watch_handles _ _ Hn) as Hw.
    destruct (stop_all_handles ch) as (Hs1 & Hs2 & Hs3). destruct (supervisor_stop_all ch) as [stops ch'].
    destruct (run_started_text _ _ _) as [out err]. injection Hr as <- <- <-. cbn [fst snd] in *.
    split; [done|]. exists n. destruct (watch _ _) as [[opened closed] held]. cbn [fst snd] in *. subst closed held.
    destruct Hw as [Hw _]. rewrite closes_app, Hs1. split; [by rewrite Hw|].
    intros proc Hp. rewrite !elem_of_app. destruct (Hs3 proc Hp) as (? & ? & ?). auto.
  - destruct (stop_all_handles ch) as (Hs1 & Hs2 & Hs3). destruct (supervisor_stop_all ch) as [stops ch'].
    injection Hr as <- <- <-. cbn [fst snd] in *. split; [done|]. exists 0%nat. cbn [take run_ticks fmap list_fmap watch].
    split; [by rewrite Hs1, app_nil_r|exact Hs3].
Qed.

(** The same of [obicall demo], whose scenario kills and resumes children on the way. *)
Theorem demo_closes_every_process env sv report actions children :
  demo_scenario env sv = Some (report, actions, children) ->
  answers (length (sv_children sv)) (demo_ticks (de_boot env)) ->
  answers (length (sv_children sv)) (demo_ticks (de_promote env)) ->
  Forall (fun c => cp_proc c = None) children /\
  exists n m held1, let '(restarted1, _, held) := watch (demo_ticks (take n (de_boot env))) (sv_children sv) in
    let '(restarted2, _, _) := watch (demo_ticks (take m (de_promote env))) held1 in
    handles held1 = handles held /\ closes actions ≡ₚ handles (sv_children sv) ++ restarted1 ++ restarted2.
Proof.
  intros Hd Ha1 Ha2. unfold demo_scenario in Hd.
  destruct (demo_wait owned_by_a _ _ _ _ _ _) as [[[[b reply] boot] ch1]|] eqn:E1; [|done].
  apply demo_wait_watch in E1 as (n & H1 & H2).
  assert (Hn : answers (length (sv_children sv)) (demo_ticks (take n (de_boot env)))).
  { unfold answers, demo_ticks in *. rewrite fmap_take. by apply Forall_take. }
  pose proof (watch_handles _ _ Hn) as Hw1.
  set (k := if b then kill_and_suspend (ascii_bytes "broker_A"%string) ch1 else ([], ch1)) in Hd.
  assert (Hk : closes k.1 = [] /\ handles k.2 = handles ch1 /\ length k.2 = length ch1).
  { unfold k. destruct b; [apply kill_and_suspend_handles|done]. }
  clearbody k. destruct k as [kill ch2]. cbn [fst snd] in Hk. destruct Hk as (Hk1 & Hk2 & Hk3).
  destruct (demo_wait (promoted_past _) _ _ _ _ _ _) as [[[[p reply2] wait] ch3]|] eqn:E2; [|done].
  apply demo_wait_watch in E2 as (m & H3 & H4).
  destruct (watch (demo_ticks (take n _)) _) as [[o1 c1] held] eqn:Ew1. cbn [fst snd] in *. subst c1 held.
  destruct Hw1 as [Hw1 Hl1].
  assert (Hm : answers (length ch2) (demo_ticks (take m (de_promote env)))).
  { rewrite Hk3, Hl1. unfold answers, demo_ticks in *. rewrite fmap_take. by apply Forall_take. }
  pose proof (watch_handles _ _ Hm) as Hw2.
  destruct (query_status (de_last env) _ _) as [have_last last].
  pose proof (kill_and_suspend_handles (ascii_bytes "gate"%string)
    (supervisor_resume_child (de_resume_clock env) (ascii_bytes "broker_A"%string) ch3)) as (Hg1 & Hg2 & _).
  destruct (kill_and_suspend _ _) as [kill_gate ch4]. destruct (query_status (de_gone env) _ _) as [reachable ?].
  destruct (stop_all_handles ch4) as (Hs1 & Hs2 & _). destruct (supervisor_stop_all ch4) as [stops ch5].
  injection Hd as <- <- <-. cbn [fst snd] in *. split; [done|]. exists n, m, ch2. rewrite Ew1.
  destruct (watch _ ch2) as [[o2 c2] held2]. cbn [fst snd] in *. subst c2 held2. destruct Hw2 as [Hw2 _].
  split; [done|]. rewrite !closes_app. cbn [closes omap list_omap].
  fold (closes stops). rewrite Hk1, Hg1, Hs1, Hg2, resume_handles, app_nil_l.
  transitivity (closes boot ++ closes wait ++ handles ch3); [done|]. rewrite <- Hw2, Hk2.
  transitivity ((handles (sv_children sv) ++ o1) ++ o2); [rewrite Hw1|]; solve_Permutation.
Qed.

(** ** The delayed result *)

Lemma demo_result_valid pipeline_id now : bytes pipeline_id -> is_i64 now -> valid_result (demo_result pipeline_id now).
Proof.
  intros Hb Hn. split; [|done..]. split; cbn [demo_result res_struct_size res_schema_version res_pipeline_id res_window_seq
    res_broker_id res_epoch res_status res_payload_shape res_payload_count res_payload res_covariance_count res_covariance
    res_input_digest res_config_digest res_timestamp_ns res_valid_until_ns res_source_count res_sources res_dgt_action_id];
    try done; try apply is_chars_zero; try (by apply Forall_replicate); try apply i64_range.
  - apply strncpy_zeroed_chars; [unfold OBICALL_PIPELINE_ID_LEN; lia|done].
  - apply Forall_replicate, is_chars_zero.
Qed.

Lemma demo_result_canon pipeline_id now : canon_result (demo_result pipeline_id now) = demo_result pipeline_id now.
Proof. done. Qed.

(** What the gate makes of it. *)
Lemma demo_result_decided junk s pipeline_id now gnow o s' i :
  gate_inv s -> bytes pipeline_id -> is_i64 now -> gnow < i64 (now + 500000000) ->
  let id := strncpy_zeroed OBICALL_PIPELINE_ID_LEN pipeline_id in
  (In id (gp_pipeline_id <$> active s) \/ gs_pipeline_count s < 8) ->
  gs_owner_broker_id s = OBICALL_BROKER_A \/ gs_owner_broker_id s = OBICALL_BROKER_B -> 1 <= gs_epoch s ->
  obicall_gate_decide_publish junk s (demo_result pipeline_id now) gnow = (o, s', i) ->
  if bool_decide (1 < gs_epoch s) then o = OBICALL_GATE_REJECT_STALE_EPOCH
  else if bool_decide (gs_owner_broker_id s = OBICALL_BROKER_A)
       then o = OBICALL_GATE_COMMIT \/ o = OBICALL_GATE_REJECT_DUPLICATE_WINDOW
       else o = OBICALL_GATE_SHADOW_RECORDED.
Proof.
  intros Hi Hb Hn Hexp id Hslot Hown Hep. unfold obicall_gate_decide_publish.
  change (res_struct_size (demo_result pipeline_id now)) with sizeof_result.
  change (res_schema_version (demo_result pipeline_id now)) with OBICALL_RESULT_SCHEMA_VERSION.
  rewrite !Z.eqb_refl. cbn [negb orb].
  change (res_valid_until_ns (demo_result pipeline_id now)) with (i64 (now + 500000000)).
  replace (i64 (now + 500000000) <=? gnow) with false by (clear -Hexp; lia).
  change (res_pipeline_id (demo_result pipeline_id now)) with id.
  assert (Hid : is_chars OBICALL_PIPELINE_ID_LEN id)
    by (apply strncpy_zeroed_chars; [unfold OBICALL_PIPELINE_ID_LEN; lia|done]).
  destruct (gate_slot s id) as [[pidx s1]|] eqn:Eslot.
  2:{ apply gate_slot_None in Eslot as [Hn1 Hn2]. destruct Hslot as [Hin|]; [|lia]. by apply list_elem_of_In in Hin. }
  destruct (gate_slot_Some s id pidx s1 Hi Hid Eslot) as (_ & _ & He & Ho & _). cbv zeta.
  change (res_broker_id (demo_result pipeline_id now)) with OBICALL_BROKER_A.
  change (res_epoch (demo_result pipeline_id now)) with 1. rewrite Ho, He.
  assert (Hne : (gs_owner_broker_id s =? OBICALL_BROKER_NONE) = false) by (destruct Hown as [-> | ->]; done).
  rewrite Hne. destruct Hown as [E|E]; rewrite E.
  - rewrite Z.eqb_refl. cbn [negb]. destruct (Z.eqb_spec 1 (gs_epoch s)) as [He1|He1]; cbn [negb].
    + rewrite bool_decide_eq_false_2 by lia. rewrite bool_decide_eq_true_2 by done.
      destruct (_ && _); intros [= <- <- <-]; [by right|by left].
    + intros [= <- <- <-]. by rewrite bool_decide_eq_true_2 by lia.
  - cbn [Z.eqb OBICALL_BROKER_A OBICALL_BROKER_B Pos.eqb negb].
    destruct (Z.ltb_spec 1 (gs_epoch s)); intros [= <- <- <-].
    + by rewrite bool_decide_eq_true_2 by lia.
    + rewrite bool_decide_eq_false_2 by lia. done.
Qed.

Lemma demo_result_refused junk s pipeline_id now gnow o s' i :
  let id := strncpy_zeroed OBICALL_PIPELINE_ID_LEN pipeline_id in
  obicall_gate_decide_publish junk s (demo_result pipeline_id now) gnow = (o, s', i) ->
  ~ (gnow < i64 (now + 500000000) /\ (id ∈ gp_pipeline_id <$> active s \/ gs_pipeline_count s < 8)) ->
  o = OBICALL_GATE_REJECT_EXPIRED \/ o = OBICALL_GATE_REJECT_NO_CAPACITY.
Proof.
  intros id Ed Hno. unfold obicall_gate_decide_publish in Ed.
  change (res_struct_size (demo_result pipeline_id now)) with sizeof_result in Ed.
  change (res_schema_version (demo_result pipeline_id now)) with OBICALL_RESULT_SCHEMA_VERSION in Ed.
  rewrite !Z.eqb_refl in Ed. cbn [negb orb] in Ed.
  change (res_valid_until_ns (demo_result pipeline_id now)) with (i64 (now + 500000000)) in Ed.
  destruct (Z.leb_spec (i64 (now + 500000000)) gnow) as [|Hlt]; [injection Ed as <- _ _; by left|].
  change (res_pipeline_id (demo_result pipeline_id now)) with id in Ed.
  destruct (gate_slot s id) as [p|] eqn:Eslot; [|injection Ed as <- _ _; by right].
  destruct Hno. split; [done|]. destruct (gate_slot_room s id ltac:(by exists p)) as [?|?]; [left; by apply list_elem_of_In|by right].
Qed.

Lemma ack_arrives conn_tx conn_rx token hello tx1 out tx2 result ack rest :
  procutil_client_connect token OBICALL_ROLE_BROKER conn_tx = Some (hello, tx1) ->
  obicall_wire_encode_result result 1024 = Ok (result_wire result) ->
  osal_send_frame OBICALL_MSG_RESULT_PUBLISH (result_wire result) tx1 = (true, out, tx2) ->
  wf_result_ack ack -> rx_chunks conn_rx ->
  rx_stream conn_rx = frame_bytes OBICALL_MSG_RESULT_ACK (result_ack_wire ack) ++ rest ->
  (demo_probe (Some (conn_tx, conn_rx)) token result).2 =
  (ra_accepted ack =? 0) && (ra_reject_status ack =? status_code OBICALL_ERR_GATE_STALE_EPOCH).
Proof.
  intros Hc He Hs Hack Hrx Hst. unfold demo_probe. rewrite Hc, He, Hs. cbn [snd andb].
  destruct (recv_frame_chunks 64 _ _ conn_rx rest (result_ack_sendable _ Hack) Hrx Hst) as (rx' & -> & _).
  cbn [fst]. rewrite Z.eqb_refl, <- (app_nil_r (result_ack_wire ack)), dec_wire by done. done.
Qed.

Lemma encode_demo_result pipeline_id now :
  bytes pipeline_id -> is_i64 now ->
  obicall_wire_encode_result (demo_result pipeline_id now) 1024 = Ok (result_wire (demo_result pipeline_id now)).
Proof.
  intros Hb Hn. pose proof (demo_result_valid pipeline_id now Hb Hn) as Hv.
  pose proof (result_wire_length _ Hv) as Hl. rewrite enc_spec by done.
  replace (_ <=? 1024) with true by (clear -Hl; lia). done.
Qed.

(** What the gate answers the probe and keeps, whatever it decides. *)
Lemma demo_answer junk gnow ctx pipeline_id now ack ctx' o s' i :
  let r := demo_result pipeline_id now in
  gate_inv (gc_state ctx) -> bytes pipeline_id -> is_i64 now ->
  handle_result_publish junk disk_ok gnow (result_wire r) ctx = (Some ack, ctx') ->
  obicall_gate_decide_publish junk (gc_state ctx) r gnow = (o, s', i) ->
  gc_state ctx' = s' /\ ra_accepted ack = (if bool_decide (o = OBICALL_GATE_COMMIT) then 1 else 0) /\
  ra_reject_status ack = status_code (ack_status o true) /\ wf_result_ack ack.
Proof.
  intros r Hi Hb Hn Hgate Ed. pose proof (demo_result_valid pipeline_id now Hb Hn) as Hv. fold r in Hv.
  unfold handle_result_publish in Hgate. rewrite decode_result_wire in Hgate by done.
  unfold r in Hgate. rewrite demo_result_canon in Hgate. fold r in Hgate. rewrite Ed in Hgate.
  pose proof (pr_inv _ _ _ _ _ (publish_spec _ _ _ _ _ _ _ Hi (vr_wf _ Hv) Ed)) as Hi'.
  assert (Hpersist : exists c, gc_state c = s' /\
    (match o with OBICALL_GATE_COMMIT => persist_locked disk_ok (with_state ctx s') | _ => (true, with_state ctx s') end) = (true, c)).
  { destruct o; try (by exists (with_state ctx s')). destruct (persist_locked disk_ok (with_state ctx s')) as [ok c] eqn:Ep.
    pose proof (persist_disk_ok (with_state ctx s') Hi') as Hok. rewrite Ep in Hok. cbn [fst] in Hok. subst ok.
    exists c. split; [|done]. pose proof (persist_locked_state disk_ok (with_state ctx s')) as Hps. by rewrite Ep in Hps. }
  destruct Hpersist as (c & Hcs & Ep). rewrite Ep in Hgate. injection Hgate as <- <-. rewrite andb_true_r.
  split; [done|]. split; [reflexivity|]. split; [reflexivity|].
  split; cbn [ra_pipeline_id ra_window_seq ra_accepted ra_reject_status]; [|done|by destruct (bool_decide _)|].
  - apply strncpy_zeroed_chars; [unfold OBICALL_PIPELINE_ID_LEN; lia|].
    apply (proj2 (strncpy_zeroed_chars OBICALL_PIPELINE_ID_LEN pipeline_id ltac:(unfold OBICALL_PIPELINE_ID_LEN; lia) Hb)).
  - by destruct o.
Qed.

(** C33: the demo's check of the old epoch is a true one.  Asked to publish the delayed
    result of epoch 1, a gate with an owner whose file operations succeed answers so that
    [stale_rejected] is set exactly when its epoch has moved on, the 500 ms of the result
    have not run out at the gate, and the gate knows the pipeline or has a free slot for
    it (an expired result is refused as expired and one without a slot for want of room,
    whatever the epoch).  A gate that has moved on commits nothing.  But a gate still in
    epoch 1 under broker A that takes the result is poisoned by the check: no result of
    that pipeline is ever committable again. *)
Theorem demo_probe_verdict junk gnow ctx token tx hello tx1 out tx2 rx rest pipeline_id now ack ctx' :
  let r := demo_result pipeline_id now in
  let id := strncpy_zeroed OBICALL_PIPELINE_ID_LEN pipeline_id in
  let taken := gnow < i64 (now + 500000000) /\
    (id ∈ gp_pipeline_id <$> active (gc_state ctx) \/ gs_pipeline_count (gc_state ctx) < 8) in
  gate_inv (gc_state ctx) -> bytes pipeline_id -> is_i64 now ->
  gs_owner_broker_id (gc_state ctx) = OBICALL_BROKER_A \/ gs_owner_broker_id (gc_state ctx) = OBICALL_BROKER_B ->
  1 <= gs_epoch (gc_state ctx) ->
  handle_result_publish junk disk_ok gnow (result_wire r) ctx = (Some ack, ctx') ->
  procutil_client_connect token OBICALL_ROLE_BROKER tx = Some (hello, tx1) ->
  osal_send_frame OBICALL_MSG_RESULT_PUBLISH (result_wire r) tx1 = (true, out, tx2) ->
  rx_chunks rx -> rx_stream rx = frame_bytes OBICALL_MSG_RESULT_ACK (result_ack_wire ack) ++ rest ->
  ((demo_probe (Some (tx, rx)) token r).2 = true <-> 1 < gs_epoch (gc_state ctx) /\ taken) /\
  (1 < gs_epoch (gc_state ctx) -> forall id', committed (gc_state ctx') id' = committed (gc_state ctx) id') /\
  (gs_epoch (gc_state ctx) = 1 -> gs_owner_broker_id (gc_state ctx) = OBICALL_BROKER_A -> taken ->
   forall r' gnow', wf_result r' -> res_pipeline_id r' = id -> ~ committable (gc_state ctx') r' gnow').
Proof.
  intros r id taken Hi Hb Hn Hown Hep Hgate Hc Hs Hrx Hst.
  pose proof (demo_result_valid pipeline_id now Hb Hn) as Hv. fold r in Hv.
  destruct (obicall_gate_decide_publish junk (gc_state ctx) (demo_result pipeline_id now) gnow) as [[o s'] i] eqn:Ed.
  assert (Ho : taken -> if bool_decide (1 < gs_epoch (gc_state ctx)) then o = OBICALL_GATE_REJECT_STALE_EPOCH
      else if bool_decide (gs_owner_broker_id (gc_state ctx) = OBICALL_BROKER_A)
           then o = OBICALL_GATE_COMMIT \/ o = OBICALL_GATE_REJECT_DUPLICATE_WINDOW else o = OBICALL_GATE_SHADOW_RECORDED).
  { intros [Hexp Hslot]. rewrite list_elem_of_In in Hslot. exact (demo_result_decided _ _ _ _ _ _ _ _ Hi Hb Hn Hexp Hslot Hown Hep Ed). }
  pose proof (demo_result_refused _ _ _ _ _ _ _ _ Ed) as Href. fold id taken in Href.
  pose proof (publish_spec _ _ _ _ _ _ _ Hi (vr_wf _ Hv) Ed) as [Hi' _ _ Hcommit Hcom].
  destruct (demo_answer _ _ _ _ _ _ _ _ _ _ Hi Hb Hn Hgate Ed) as (-> & Hacc & Hrej & Hwf).
  rewrite (ack_arrives tx rx token hello tx1 out tx2 r ack rest Hc (encode_demo_result _ _ Hb Hn) Hs Hwf Hrx Hst).
  rewrite Hacc, Hrej. split; [|split].
  - destruct (decide taken) as [Ht|Ht].
    + specialize (Ho Ht). destruct (decide (1 < gs_epoch (gc_state ctx))) as [He|He].
      * rewrite bool_decide_eq_true_2 in Ho by done. subst o. by split.
      * rewrite bool_decide_eq_false_2 in Ho by done. split; [|by intros []].
        destruct (bool_decide (gs_owner_broker_id (gc_state ctx) = OBICALL_BROKER_A)); [by destruct Ho as [-> | ->]|by subst o].
    + split; [|by intros []]. by destruct (Href Ht) as [-> | ->].
  - intros H1 id'. rewrite Hcom. apply decide_False. intros [-> _]. destruct (decide taken) as [Ht|Ht]; [|by destruct (Href Ht)].
    specialize (Ho Ht). by rewrite bool_decide_eq_true_2 in Ho.
  - intros H1 HA Ht r' gnow' Hwr Hid Hcm. specialize (Ho Ht). destruct Ht as [Hexp Hslot]. rewrite list_elem_of_In in Hslot. rewrite bool_decide_eq_false_2 in Ho by lia.
    rewrite bool_decide_eq_true_2 in Ho by done.
    assert (Hhigh : exists w, committed s' id = Some w /\ 18446744073709551615 <= w).
    { destruct Ho as [-> | ->]; rewrite Hcom; [exists 18446744073709551615; by rewrite decide_True|].
      rewrite decide_False by (by intros []).
      assert (Hno : ~ forall w, committed (gc_state ctx) id = Some w -> w < 18446744073709551615).
      { intros Hw. enough (Hcm' : committable (gc_state ctx) (demo_result pipeline_id now) gnow)
          by discriminate (proj2 Hcommit Hcm').
        split; try done; by rewrite HA. }
      destruct (committed (gc_state ctx) id) as [w|]; [|by destruct Hno]. exists w. split; [done|].
      apply Z.le_ngt. intros Hlt. apply Hno. by intros w' [= <-]. }
    destruct Hhigh as (w & Hw & Hge). rewrite <- Hid in Hw. pose proof (cm_window _ _ _ Hcm _ Hw) as Hlt.
    pose proof (wfr_window_seq _ Hwr) as Hu. unfold is_u64 in Hu. clear -Hge Hlt Hu. lia.
Qed.

(** ** What a passed demo has seen *)

Lemma demo_wait_found good deadline sleep_ms token turns reply children reply' actions children' :
  demo_wait good deadline sleep_ms token turns reply children = Some (true, reply', actions, children') ->
  good reply' = true /\ exists t before, t ∈ turns /\ query_status (dt_conn t) token before = (true, reply').
Proof.
  revert reply children actions. induction turns as [|t turns IH]; intros reply children actions; cbn [demo_wait]; [done|].
  destruct (_ >=? deadline); [done|].
  destruct (supervisor_monitor_tick (dt_tick t) (dt_envs t) children) as [acts children1].
  destruct (query_status (dt_conn t) token reply) as [ok reply1] eqn:Eq.
  destruct (ok && good reply1) eqn:Eg.
  - intros [= <- <- <-]. apply andb_true_iff in Eg as [-> Eg]. split; [done|]. exists t, reply. split; [by left|done].
  - destruct (demo_wait good deadline sleep_ms token turns reply1 children1) as [[[[f r] later] children2]|] eqn:El; [|done].
    intros [= -> <- <- <-]. destruct (IH _ _ _ El) as (Hg & t' & before & Ht & Hq).
    split; [done|]. exists t', before. split; [by right|done].
Qed.

(** The demo passes only if a gate reply named A the owner, a later one named B the
    owner of a later epoch, and the delayed result was answered as stale. *)
Theorem demo_pass_is_a_failover env sv report actions children :
  demo_scenario env sv = Some (report, actions, children) -> dr_overall report = true ->
  exists r1 r2 t1 t2 before1 before2,
    t1 ∈ de_boot env /\ query_status (dt_conn t1) (sv_run_token sv) before1 = (true, r1) /\
    sr_owner_broker_id r1 = OBICALL_BROKER_A /\
    t2 ∈ de_promote env /\ query_status (dt_conn t2) (sv_run_token sv) before2 = (true, r2) /\
    sr_owner_broker_id r2 = OBICALL_BROKER_B /\ sr_gate_epoch r1 < sr_gate_epoch r2 /\
    (demo_probe (de_probe env) (sv_run_token sv)
       (demo_result (c_str (pc_pipeline_id (sv_cfg sv))) (de_probe_clock env))).2 = true.
Proof.
  unfold demo_scenario. intros Hd Ho.
  destruct (demo_wait owned_by_a _ _ _ _ _ _) as [[[[b r1] boot] ch1]|] eqn:E1; [|done].
  destruct (if b then _ else _) as [kill ch2].
  destruct (demo_wait (promoted_past _) _ _ _ _ _ _) as [[[[p r2] wait] ch3]|] eqn:E2; [|done].
  destruct (query_status (de_last env) _ _) as [have_last last]. destruct (kill_and_suspend _ _) as [kg ch4].
  destruct (query_status (de_gone env) _ _) as [reachable ?]. destruct (supervisor_stop_all ch4) as [stops ch5].
  injection Hd as <- _ _. unfold dr_overall in Ho. cbn [dr_bootstrapped dr_promoted dr_stale_rejected] in Ho.
  apply andb_true_iff in Ho as [[-> ->]%andb_true_iff Hst].
  apply demo_wait_found in E1 as (H1 & t1 & q1 & Ht1 & Hq1). apply demo_wait_found in E2 as (H2 & t2 & q2 & Ht2 & Hq2).
  exists r1, r2, t1, t2, q1, q2. unfold owned_by_a in H1. unfold promoted_past in H2. split_and!; try done; lia.
Qed.

(** [main] runs a command for exactly six names. *)
Lemma cli_main_spec args :
  match cli_main args with
  | Command c => exists cmd rest, args = cmd :: rest /\ command_named cmd = Some c
  | Printed o => (oc_code o = 0 <-> oc_out o <> []) /\ (oc_code o = 0 \/ oc_code o = 2)
  end.
Proof.
  unfold cli_main. destruct args as [|cmd rest]; [by split; [split|right]|].
  destruct (_ || _ || _); [by split; [split|left]|].
  destruct (command_named cmd) eqn:E; [by exists cmd, rest|]. by split; [split|right].
Qed.

(** * Witnesses *)

Definition alive_env : child_env := ChildEnv true 0 0 None.
Definition dead_env : child_env := ChildEnv false 0 0 (Some (77, 500)).

(** Six processes run; the gate dies and is restarted; then the user stops it all. *)
Definition run_files (path : list Z) : option (list Z) :=
  if bool_decide (path = ascii_bytes "/etc/pipeline.json"%string) then Some launch_text else None.
Definition sample_run_env : run_env :=
  RunEnv None zero_block
    (StartEnv (se_spawn launch_env) (se_port launch_env) run_files None None [] [] []) sample_token 0
    [RunTurn false 1000 (replicate 6 alive_env) 0;
     RunTurn false 2000 (<[1%nat := dead_env]> (replicate 6 alive_env)) 0;
     RunTurn true 0 (replicate 6 alive_env) 0].
Definition sample_run_args : list (list Z) :=
  [ascii_bytes "run"%string; ascii_bytes "--config"%string; ascii_bytes "/etc/pipeline.json"%string].
Definition sample_run : option (outcome * list proc_action * list child_proc) :=
  cmd_run no_ub sample_run_env (ascii_bytes "/usr/bin/obicall"%string) sample_run_args.
Definition closed_handles : list Z :=
  match sample_run with Some (_, actions, _) => closes actions | None => [] end.

(** The gate's first process, 1, and the one that replaced it, 77, are both closed. *)
Lemma run_witness :
  closed_handles = [1; 0; 77; 2; 3; 4; 5] /\
  match sample_run with Some (o, _, children) => oc_code o = 0 /\ Forall (fun c => cp_proc c = None) children | None => False end.
Proof.
  split; [vm_compute; reflexivity|].
  assert (Hr : match sample_run with Some (o, _, _) => oc_code o | None => 9 end = 0) by (vm_compute; reflexivity).
  assert (Ha : answers 6 (run_ticks (rn_turns sample_run_env))).
  { apply Forall_forall. intros t Ht. apply list_elem_of_In in Ht. revert t Ht. apply List.Forall_forall.
    vm_compute. repeat constructor. }
  assert (Hc : find_arg sample_run_args (ascii_bytes "--config"%string) = Some (ascii_bytes "/etc/pipeline.json"%string))
    by (vm_compute; reflexivity).
  pose proof (fun o actions children => run_closes_every_process no_ub sample_run_env (ascii_bytes "/usr/bin/obicall"%string)
    sample_run_args (ascii_bytes "/etc/pipeline.json"%string) o actions children Hc) as Hthm.
  unfold sample_run in *. destruct (cmd_run _ _ _ _) as [[[o actions] children]|]; [|discriminate Hr].
  split; [exact Hr|]. refine (proj1 (Hthm o actions children eq_refl _)).
  match goal with |- answers ?n _ => replace n with 6%nat by (vm_compute; reflexivity) end. exact Ha.
Defined.

(** The gate of [sample_ctx], in epoch 1 under broker A, takes the delayed result. *)
Definition probe_id : list Z := ascii_bytes "nav"%string.
#[local] Notation probe_answer :=
  (handle_result_publish sample_junk disk_ok 300 (result_wire (demo_result probe_id 1000)) sample_ctx).
#[local] Notation probe_ack := (default (ResultAck [] 0 0 0) probe_answer.1).
#[local] Notation probe_rx := (dribble (frame_bytes OBICALL_MSG_RESULT_ACK (result_ack_wire probe_ack))).

Lemma some_pair {A B} (dflt : A) (x : option A * B) :
  match x.1 with Some _ => true | None => false end = true -> x = (Some (default dflt x.1), x.2).
Proof. by destruct x as [[a|] b]. Qed.

Lemma demo_probe_witness :
  ~ (demo_probe (Some (eager_tx, probe_rx)) sample_token (demo_result probe_id 1000)).2 = true /\
  forall r' gnow', wf_result r' -> res_pipeline_id r' = strncpy_zeroed OBICALL_PIPELINE_ID_LEN probe_id ->
    ~ committable (gc_state probe_answer.2) r' gnow'.
Proof.
  destruct (dribble_chunks (frame_bytes OBICALL_MSG_RESULT_ACK (result_ack_wire probe_ack))) as [H1 H2].
  rewrite <- (app_nil_r (frame_bytes _ _)) in H2.
  assert (Hs : match probe_answer.1 with Some _ => true | None => false end = true) by (vm_compute; reflexivity).
  apply (some_pair (ResultAck [] 0 0 0)) in Hs.
  destruct (demo_probe_verdict sample_junk 300 sample_ctx sample_token eager_tx
    (frame_bytes OBICALL_MSG_AUTH_HELLO (auth_hello_wire (AuthHello OBICALL_WIRE_VERSION OBICALL_ROLE_BROKER sample_token)))
    (replicate 6 (TxAccept 4096))
    (frame_bytes OBICALL_MSG_RESULT_PUBLISH (result_wire (demo_result probe_id 1000))) (replicate 4 (TxAccept 4096))
    probe_rx [] probe_id 1000 probe_ack probe_answer.2) as (Hv & _ & Hp).
  - apply (sample_gate_inv OBICALL_BROKER_A). split; [discriminate|reflexivity].
  - apply forallb_bytes. reflexivity.
  - split; [discriminate|reflexivity].
  - left. reflexivity.
  - discriminate.
  - exact Hs.
  - vm_compute. reflexivity.
  - vm_compute. reflexivity.
  - exact H1.
  - exact H2.
  - split; [intros [He _]%Hv; discriminate He|]. apply Hp; [reflexivity|reflexivity|]. split; [reflexivity|right; reflexivity].
Defined.
