(* ===== verification/Osal.v ===== *)
(** * Osal: processes, files and clocks (src/osal/osal_process.c, osal_dynload.c, osal_file.c,
    osal_clock.c, osal_thread.c, the POSIX parts)

    The handle of a child process from its start to its end, with what the system answers
    as inputs; the handle of a loaded module; the directories [osal_mkdir_p] asks for; the
    directory synchronised after a rename; the arithmetic on times.  Threads are in
    [Threads]. *)

From S2P Require Import Prelude Types Procutil Supervisor.

(** ** osal_process.c *)

Record osal_process := OsalProcess {
  op_pid : Z;
  op_reaped : bool;
  op_exit_code : Z
}.

Definition osal_process_spawned (pid : Z) : osal_process := OsalProcess pid false (-1).

(** <sys/wait.h> *)
Definition WTERMSIG (status : Z) : Z := Z.land status 127.
Definition WIFEXITED (status : Z) : bool := WTERMSIG status =? 0.
Definition WEXITSTATUS (status : Z) : Z := Z.land (Z.shiftr status 8) 255.

Definition exit_code_of (status : Z) : Z :=
  if WIFEXITED status then WEXITSTATUS status else 256 + WTERMSIG status.

(** [polled]: the status [waitpid] reports, [None] when it does not return the pid. *)
Definition reap (polled : option Z) (p : osal_process) : bool * osal_process :=
  match polled with
  | Some status => (true, OsalProcess (op_pid p) true (exit_code_of status))
  | None => (false, p)
  end.
Definition reap_nonblocking (polled : option Z) (p : osal_process) : bool * osal_process :=
  if op_reaped p then (true, p) else reap polled p.

Definition osal_process_is_alive (polled : option Z) (p : osal_process) : bool * osal_process :=
  let '(gone, p) := reap_nonblocking polled p in (negb gone, p).

(** The polling loop; [polls k] is what the poll of its k-th turn reports. *)
Fixpoint wait_loop (fuel : nat) (polls : nat -> option Z) (k : nat) (timeout_ms waited_ms : Z) (p : osal_process)
    : option (bool * osal_process) :=
  match fuel with
  | O => None
  | S fuel =>
      if waited_ms <=? timeout_ms then
        let '(gone, p) := reap_nonblocking (polls k) p in
        if gone then Some (true, p) else wait_loop fuel polls (S k) timeout_ms (waited_ms + 10) p
      else Some (false, p)
  end.

(** The C return value and [*out_exit_code] where it is set; [blocking] is what
    [waitpid] reports without a timeout. *)
Definition osal_process_wait (blocking : option Z) (polls : nat -> option Z) (timeout_ms : Z) (p : osal_process)
    : option (Z * option Z * osal_process) :=
  if timeout_ms <? 0 then
    let '(gone, p) := reap_nonblocking blocking p in
    Some (if gone then (1, Some (op_exit_code p), p) else (-1, None, p))
  else
    match wait_loop (S (S (Z.to_nat (timeout_ms / 10)))) polls 0 timeout_ms 0 p with
    | None => None
    | Some (true, p) => Some (1, Some (op_exit_code p), p)
    | Some (false, p) => Some (0, None, p)
    end.

(** The answers of [fork] in the parent and of [malloc]: the handle, [None] when the call
    returns -1, and the child that runs. *)
Definition osal_process_spawn (fork : option Z) (malloc : bool) : option osal_process * option Z :=
  match fork with
  | None => (None, None)
  | Some pid => (if malloc then Some (osal_process_spawned pid) else None, Some pid)
  end.

(** What the child does: [execve] does not return unless it fails. *)
Definition child_exit_code (execve_fails : bool) : option Z := if execve_fails then Some 127 else None.

(** Freeing a handle: the child it leaves behind unreaped, if it does. *)
Definition osal_process_close (polled : option Z) (p : osal_process) : option Z :=
  if op_reaped p then None else match polled with Some _ => None | None => Some (op_pid p) end.

(** ** osal_dynload.c *)

(** What [dlopen] and [malloc] answer: the module handed out, the handle closed again. *)
Definition osal_dynload_open (dlopen : option Z) (malloc : bool) : option Z * option Z :=
  match dlopen with
  | None => (None, None)
  | Some h => if malloc then (Some h, None) else (None, Some h)
  end.

(** ** osal_file.c *)

(** The prefixes of a path a loop over its indices cuts off, in order. *)
Definition prefixes (cut : list Z -> nat -> bool) (path : list Z) (n : nat) : list (list Z) :=
  omap (fun i => if cut path i then Some (take i path) else None) (seq 1 n).

(** The paths given to [mkdir], in order, [None] when the call refuses. *)
Definition mkdir_calls (path : list Z) : list (list Z) :=
  prefixes (fun path i => bool_decide (path !! i = Some 47)) path (length path - 1) ++ [path].
Definition osal_mkdir_p (path : list Z) : option (list (list Z)) :=
  if (length path =? 0)%nat || (1024 <=? length path)%nat then None else Some (mkdir_calls path).

(** The index of the last separator. *)
Fixpoint last_such (sep : Z -> bool) (path : list Z) : option nat :=
  match path with
  | [] => None
  | c :: path =>
      match last_such sep path with
      | Some i => Some (S i)
      | None => if sep c then Some O else None
      end
  end.
Definition is_slash (c : Z) : bool := c =? 47.
Definition last_slash : list Z -> option nat := last_such is_slash.

(** The directory that is synchronised once the rename has succeeded. *)
Definition synced_directory (final_path : list Z) : option (list Z) :=
  let dir := take 1023 final_path in
  (fun i => take i dir) <$> last_slash dir.

(** [None]: the file is not there. *)
Definition osal_file_mtime_ns (st_mtime : option Z) : Z :=
  match st_mtime with None => -1 | Some s => i64 (s * 1000000000) end.

(** ** osal_clock.c, osal_thread.c *)

(** <time.h> *)
Record timespec := Timespec { tv_sec : Z; tv_nsec : Z }.
Definition timespec_ok (ts : timespec) : Prop := 0 <= tv_sec ts /\ 0 <= tv_nsec ts < 1000000000.

Definition osal_monotonic_ns (ts : timespec) : Z := i64 (i64 (tv_sec ts * 1000000000) + tv_nsec ts).
(** The request [osal_sleep_ms] hands to [nanosleep]. *)
Definition osal_sleep_ms (ms : Z) : timespec := Timespec (Z.quot ms 1000) (Z.rem ms 1000 * 1000000).

(** * Lemmas *)

(** The clock keeps the order of the readings, for 292 years after the boot. *)
Lemma monotonic_ns_order ts ts' :
  timespec_ok ts -> timespec_ok ts' -> tv_sec ts < 9223372036 -> tv_sec ts' < 9223372036 ->
  osal_monotonic_ns ts < osal_monotonic_ns ts'
  <-> tv_sec ts < tv_sec ts' \/ (tv_sec ts = tv_sec ts' /\ tv_nsec ts < tv_nsec ts').
Proof.
  intros [? ?] [? ?] ? ?. unfold osal_monotonic_ns.
  rewrite !(i64_id (tv_sec _ * _)), !i64_id by (unfold is_i64; lia). lia.
Qed.
(** A request for a sleep is well formed and asks for the milliseconds given. *)
Lemma sleep_request_exact ms :
  0 <= ms -> timespec_ok (osal_sleep_ms ms)
  /\ tv_sec (osal_sleep_ms ms) * 1000000000 + tv_nsec (osal_sleep_ms ms) = ms * 1000000.
Proof.
  intros Hm. unfold timespec_ok, osal_sleep_ms. cbn [tv_sec tv_nsec].
  pose proof (Z.quot_rem' ms 1000). pose proof (Z.rem_bound_pos ms 1000 Hm ltac:(lia)).
  pose proof (Z.quot_pos ms 1000 Hm ltac:(lia)). lia.
Qed.

Lemma reap_nonblocking_once polled polled' p p' :
  reap_nonblocking polled p = (true, p') -> op_reaped p' = true /\ reap_nonblocking polled' p' = (true, p').
Proof.
  unfold reap_nonblocking, reap. destruct (op_reaped p) eqn:Er.
  - intros [= <-]. by rewrite Er.
  - destruct polled; [|done]. by intros [= <-].
Qed.

(** The first poll that reports the child, among those the timeout leaves room for. *)
Definition first_report (polls : nat -> option Z) (k n : nat) (status : Z) : Prop :=
  exists j, (k <= j < k + n)%nat /\ polls j = Some status /\ forall i, (k <= i < j)%nat -> polls i = None.

Lemma wait_loop_spec fuel polls k timeout_ms waited_ms p :
  op_reaped p = false -> 0 <= waited_ms ->
  let n := Z.to_nat ((timeout_ms - waited_ms + 10) / 10) in (n < fuel)%nat -> waited_ms <= timeout_ms + 10 ->
  match wait_loop fuel polls k timeout_ms waited_ms p with
  | Some (true, p') => exists status, first_report polls k n status /\ p' = OsalProcess (op_pid p) true (exit_code_of status)
  | Some (false, p') => p' = p /\ forall i, (k <= i < k + n)%nat -> polls i = None
  | None => False
  end.
Proof.
  intros Hr. revert k waited_ms. induction fuel as [|fuel IH]; intros k w Hw n Hn Hle; [lia|]. cbn [wait_loop].
  destruct (Z.leb_spec w timeout_ms).
  - assert (Hn' : n = S (Z.to_nat ((timeout_ms - (w + 10) + 10) / 10))).
    { unfold n. replace (timeout_ms - w + 10) with (timeout_ms - (w + 10) + 10 + 1 * 10) by lia.
      rewrite Z.div_add by lia. rewrite Z2Nat.inj_add; [|apply Z.div_pos; lia|lia]. lia. }
    unfold reap_nonblocking, reap. rewrite Hr. destruct (polls k) as [status|] eqn:Ep.
    + exists status. split; [|done]. exists k. split; [lia|]. split; [done|]. intros; lia.
    + specialize (IH (S k) (w + 10) ltac:(lia)). cbv zeta in IH. specialize (IH ltac:(lia) ltac:(lia)).
      destruct (wait_loop _ _ _ _ _ _) as [[[] p']|]; [| |done].
      * destruct IH as (status & (j & Hj & Hs & Hb) & ->). exists status. split; [|done]. exists j. split; [lia|].
        split; [done|]. intros i Hi. destruct (decide (i = k)) as [->|]; [done|]. apply Hb. lia.
      * destruct IH as [-> Hb]. split; [done|]. intros i Hi. destruct (decide (i = k)) as [->|]; [done|]. apply Hb. lia.
  - split; [done|]. intros i Hi. exfalso. assert (n = 0%nat); [|lia].
    unfold n. rewrite Z.div_small by lia. done.
Qed.

(** * What the layer promises *)

(** Waiting ends, after one poll per ten milliseconds of the timeout and one more; it
    returns the exit code of the child exactly when one of these polls reports it, the
    first report counting, and a child that has been reaped is answered for without
    asking the system again, with the same code. *)
Theorem process_wait_spec blocking polls timeout_ms p :
  0 <= timeout_ms -> op_reaped p = false ->
  let n := S (Z.to_nat (timeout_ms / 10)) in
  exists r code p', osal_process_wait blocking polls timeout_ms p = Some (r, code, p') /\
    ((exists status, first_report polls 0 n status /\ r = 1 /\ code = Some (exit_code_of status) /\
        forall blocking' polls' timeout', 0 <= timeout' ->
          osal_process_wait blocking' polls' timeout' p' = Some (1, code, p')) \/
     ((forall i, (i < n)%nat -> polls i = None) /\ r = 0 /\ code = None /\ p' = p)).
Proof.
  intros Ht Hr n. unfold osal_process_wait at 1. replace (timeout_ms <? 0) with false by lia.
  assert (Hn : Z.to_nat ((timeout_ms - 0 + 10) / 10) = n).
  { unfold n. replace (timeout_ms - 0 + 10) with (timeout_ms + 1 * 10) by lia. rewrite Z.div_add by lia.
    rewrite Z2Nat.inj_add; [|apply Z.div_pos; lia|lia]. lia. }
  pose proof (wait_loop_spec (S n) polls 0 timeout_ms 0 p Hr ltac:(lia)) as H. cbv zeta in H. rewrite Hn in H.
  specialize (H ltac:(lia) ltac:(lia)). fold n. destruct (wait_loop (S n) _ _ _ _ _) as [[[] p']|]; [| |done].
  - destruct H as (status & Hf & ->). eexists _, _, _. split; [reflexivity|]. left. exists status.
    split; [done|]. split; [done|]. split; [done|]. intros b ps t Hp. unfold osal_process_wait.
    replace (t <? 0) with false by lia. cbn [wait_loop]. replace (0 <=? t) with true by lia. done.
  - destruct H as [-> Hb]. eexists _, _, _. split; [reflexivity|]. right. split; [|done]. intros i Hi. apply Hb. lia.
Qed.

(** Exit codes and signals are told apart. *)
Lemma exit_code_of_exit code : 0 <= code < 256 -> exit_code_of (Z.shiftl code 8) = code.
Proof.
  intros Hc. assert (E : forallb (fun c => exit_code_of (Z.shiftl (Z.of_nat c) 8) =? Z.of_nat c) (seq 0 256) = true)
    by (vm_compute; reflexivity).
  rewrite forallb_forall in E. specialize (E (Z.to_nat code)). rewrite in_seq in E. specialize (E ltac:(lia)).
  rewrite Z2Nat.id in E by lia. lia.
Qed.
Lemma exit_code_of_signal signal : 1 <= signal < 127 -> exit_code_of signal = 256 + signal.
Proof.
  intros Hs. assert (E : forallb (fun c => exit_code_of (Z.of_nat c) =? 256 + Z.of_nat c) (seq 1 126) = true)
    by (vm_compute; reflexivity).
  rewrite forallb_forall in E. specialize (E (Z.to_nat signal)). rewrite in_seq in E. specialize (E ltac:(lia)).
  rewrite Z2Nat.id in E by lia. lia.
Qed.

(** The supervisor signals only processes that have not been reaped, whose pid is
    therefore still theirs: what a tick kills it has just found alive, and a process it
    still holds afterwards is not a reaped one.  [osal_process_is_alive] reaps. *)
Theorem monitor_signals_only_unreaped now polled p env c proc :
  cp_proc c = Some proc -> op_reaped p = false ->
  let '(alive, p') := osal_process_is_alive polled p in
  ce_alive env = alive ->
  let '(actions, c') := monitor_child now env c in
  (Kill proc ∈ actions -> op_reaped p' = false) /\
  (~ Close proc ∈ actions -> cp_proc c' = Some proc /\ op_reaped p' = false).
Proof.
  intros Hp Hr. unfold osal_process_is_alive, reap_nonblocking, reap. rewrite Hr.
  destruct polled as [status|]; cbn [negb].
  - intros Ha. unfold monitor_child. rewrite Hp.
    assert (Hh : is_hung now env c = false) by (unfold is_hung; by rewrite Ha). rewrite Hh, Ha. cbn [andb].
    assert (Hk : forall later, Kill proc ∈ [Wait proc 500; Close proc] ++ later -> Kill proc ∈ later).
    { intros later [H|H]%elem_of_app; [|done]. rewrite !elem_of_cons, elem_of_nil in H. by destruct H as [?|[?|[]]]. }
    assert (Hc : Close proc ∈ [Wait proc 500; Close proc]) by (rewrite !elem_of_cons; auto).
    destruct (cp_restart_suspended _); [split; [intros H%(Hk [])|by intros []]; by apply not_elem_of_nil in H|].
    destruct (_ >=? MAX_RESTARTS); [split; [intros H%(Hk [])|by intros []]; by apply not_elem_of_nil in H|].
    unfold spawn_child. destruct (ce_spawned env) as [[q t]|]; cbv zeta; split.
    1, 3: intros H%Hk; by apply list_elem_of_singleton in H.
    all: intros []; apply elem_of_app; by left.
  - intros Ha. destruct (monitor_child now env c) as [actions c'] eqn:E. split; [done|]. intros Hn. split; [|done].
    revert E. unfold monitor_child. rewrite Hp, Ha. cbn [andb].
    destruct (is_hung now env c); cbn [negb]; [|by intros [= <- <-]].
    assert (Hc : forall later, Close proc ∈ [Kill proc; Wait proc 2000; Close proc] ++ later)
      by (intros; apply elem_of_app; left; rewrite !elem_of_cons; auto).
    destruct (cp_restart_suspended _); [intros [= <- <-]; destruct Hn; apply (Hc [])|].
    destruct (_ >=? MAX_RESTARTS); [intros [= <- <-]; destruct Hn; apply (Hc [])|].
    unfold spawn_child. destruct (ce_spawned env) as [[q t]|]; intros [= <- <-]; destruct Hn; apply Hc.
Qed.

(** A child runs without a handle exactly when the handle could not be allocated. *)
Theorem spawn_loses_child fork malloc pid :
  osal_process_spawn fork malloc = (None, Some pid) <-> fork = Some pid /\ malloc = false.
Proof. destruct fork as [p|], malloc; cbn; split; intros H; simplify_eq; try done; by destruct H; simplify_eq. Qed.

(** Waiting for a child before its handle is freed leaves nothing behind; freeing the
    handle of one that still runs does. *)
Theorem close_after_wait blocking polls timeout_ms p r code p' polled :
  osal_process_wait blocking polls timeout_ms p = Some (r, code, p') ->
  r = 1 -> osal_process_close polled p' = None.
Proof.
  intros H ->. unfold osal_process_close.
  assert (Hr : op_reaped p' = true); [|by rewrite Hr].
  revert H. unfold osal_process_wait. destruct (timeout_ms <? 0).
  - destruct (reap_nonblocking blocking p) as [[] p1] eqn:E; intros H; simplify_eq.
    by apply (reap_nonblocking_once _ None) in E as [? _].
  - destruct (wait_loop _ _ _ _ _ _) as [[[] p1]|] eqn:E; intros H; simplify_eq.
    revert E. generalize (S (S (Z.to_nat (timeout_ms / 10)))) 0%nat 0 p. intros fuel.
    induction fuel as [|fuel IH]; intros k waited q; cbn [wait_loop]; [done|]. destruct (waited <=? timeout_ms); [|done].
    destruct (reap_nonblocking (polls k) q) as [[] q1] eqn:Eq; [|apply IH]. intros [= <-].
    by apply (reap_nonblocking_once _ None) in Eq as [? _].
Qed.

(** An opened module is handed out or closed again. *)
Theorem dynload_accounted dlopen malloc :
  option_list dlopen = option_list (osal_dynload_open dlopen malloc).1 ++ option_list (osal_dynload_open dlopen malloc).2.
Proof. by destruct dlopen, malloc. Qed.

(** ** Directories *)

Lemma last_such_Some sep p i : last_such sep p = Some i -> (i < length p)%nat /\ exists c, p !! i = Some c /\ sep c = true.
Proof.
  revert i. induction p as [|c p IH]; intros i; [done|]. cbn [last_such].
  destruct (last_such sep p) as [j|].
  - intros [= <-]. destruct (IH j eq_refl). cbn. split; [lia|done].
  - destruct (sep c) eqn:E; [|done]. intros [= <-]. cbn. split; [lia|by exists c].
Qed.

Section filesystem.
(** What the calls do to the file system, as far as it matters: nothing disappears, and
    a directory can be made when the one that contains it is there.  A separator at
    which the loop does not cut ends something that is always there. *)
Context {FS : Type} (mkdir : FS -> list Z -> FS) (is_dir : FS -> list Z -> Prop).
Context (sep : Z -> bool) (cut : list Z -> nat -> bool).
Hypothesis (mkdir_keeps : forall fs p q, is_dir fs q -> is_dir (mkdir fs p) q).
Hypothesis (mkdir_makes : forall fs p,
  match last_such sep p with None | Some O => True | Some i => is_dir fs (take i p) end -> is_dir (mkdir fs p) p).
Hypothesis (uncut_there : forall fs path i c,
  (1 <= i)%nat -> path !! i = Some c -> sep c = true -> cut path i = false -> is_dir fs (take i path)).

Lemma mkdir_keeps_all calls fs q : is_dir fs q -> is_dir (fold_left mkdir calls fs) q.
Proof. revert fs. induction calls as [|p calls IH]; intros fs Hq; [done|]. cbn. by apply IH, mkdir_keeps. Qed.

Lemma prefixes_made path n fs i c :
  (1 <= i <= n)%nat -> path !! i = Some c -> sep c = true ->
  is_dir (fold_left mkdir (prefixes cut path n) fs) (take i path).
Proof.
  revert fs i c. induction n as [|n IH]; intros fs i c Hi Hc Hsep; [lia|].
  unfold prefixes. rewrite seq_S, omap_app, fold_left_app. change (omap _ (seq 1 n)) with (prefixes cut path n).
  destruct (decide (i = S n)) as [->|]; [|apply mkdir_keeps_all, (IH _ _ c); [lia|done|done]].
  cbn [omap list_omap Nat.add]. destruct (cut path (S n)) eqn:Ecut; [|by apply (uncut_there _ _ _ c); [lia|..]].
  cbn [fold_left]. apply mkdir_makes. destruct (last_such sep (take (S n) path)) as [[|j]|] eqn:El; [done| |done].
  apply last_such_Some in El as [Hl (c' & Hj & Hc')]. rewrite length_take in Hl. rewrite lookup_take_lt in Hj by lia.
  rewrite take_take, Nat.min_l by lia. apply (IH _ _ c'); [lia|done|done].
Qed.

(** Making the prefixes and then the path leaves a directory there, whatever was there
    before, with all the directories above it. *)
Lemma prefixes_make path fs :
  is_dir (fold_left mkdir (prefixes cut path (length path - 1) ++ [path]) fs) path.
Proof.
  rewrite fold_left_app. cbn [fold_left]. apply mkdir_makes.
  destruct (last_such sep path) as [[|i]|] eqn:El; [done| |done]. apply last_such_Some in El as [Hi (c & Hc & Hsep)].
  apply (prefixes_made _ _ _ _ c); [lia|done|done].
Qed.
End filesystem.

(** Every path that is not refused is a directory afterwards. *)
Theorem mkdir_p_makes {FS : Type} (mkdir : FS -> list Z -> FS) (is_dir : FS -> list Z -> Prop) path fs calls :
  (forall fs p q, is_dir fs q -> is_dir (mkdir fs p) q) ->
  (forall fs p, match last_slash p with None | Some O => True | Some i => is_dir fs (take i p) end -> is_dir (mkdir fs p) p) ->
  osal_mkdir_p path = Some calls -> is_dir (fold_left mkdir calls fs) path.
Proof.
  intros Hkeeps Hmakes. unfold osal_mkdir_p. destruct (_ || _); [done|]. intros [= <-].
  apply (prefixes_make mkdir is_dir is_slash); [done|done|]. intros fs' p i c _ Hc Hs Hb.
  apply Z.eqb_eq in Hs as ->. by rewrite bool_decide_eq_true_2 in Hb.
Qed.

(** A rename of a file named without a directory is not made durable. *)
Example bare_name_is_not_synced : synced_directory [115; 116] = None.
Proof. done. Qed.
