(* ===== verification/Sockets.v ===== *)
(** * Sockets: opening connections (src/osal/osal_ipc.c)

    Listening, accepting and connecting, with the answers of the system as inputs: which
    calls are made on which descriptor, what is returned, and that no descriptor is lost.
    What is sent and received over a connection is in [Ipc]. *)

From S2P Require Import Prelude.

(** ** Waiting *)

Record timeval := Timeval { tv_sec : Z; tv_usec : Z }.
Definition make_timeval (timeout_ms : Z) : timeval :=
  Timeval (Z.quot timeout_ms 1000) (Z.rem timeout_ms 1000 * 1000).

(** The timeout given to [select], [None] to wait without one. *)
Definition select_timeout (timeout_ms : Z) : option timeval :=
  if timeout_ms <? 0 then None else Some (make_timeval timeout_ms).

(** ** Calls on a descriptor *)

Definition INADDR_LOOPBACK : Z := 2130706433.   (* 127.0.0.1 *)

Inductive sock_call :=
| Bind (fd addr port : Z)
| Listen (fd backlog : Z)
| Connect (fd addr port : Z)
| SetNonblocking (fd : Z) (nonblocking : bool)
| Select (fd : Z) (timeout : option timeval)
| CloseSock (fd : Z).

(** What comes of opening: the C return value, the socket handed out, the calls. *)
Record opened := Opened { op_return : Z; op_socket : option Z; op_calls : list sock_call }.

(** The answers of [socket], [bind], [getsockname] (the port), [listen] and [malloc]. *)
Record listen_env := ListenEnv {
  le_socket : option Z;
  le_bind : bool;
  le_getsockname : option Z;
  le_listen : bool;
  le_malloc : bool
}.

(** With the port that is in [*inout_port] afterwards. *)
Definition osal_listen_loopback (env : listen_env) (port : Z) : opened * Z :=
  match le_socket env with
  | None => (Opened (-1) None [], port)
  | Some fd =>
      let bind := Bind fd INADDR_LOOPBACK port in
      if negb (le_bind env) then (Opened (-1) None [bind; CloseSock fd], port)
      else
      match le_getsockname env with
      | None => (Opened (-1) None [bind; CloseSock fd], port)
      | Some port =>
          if negb (le_listen env) then (Opened (-1) None [bind; Listen fd 16; CloseSock fd], port)
          else if negb (le_malloc env) then (Opened (-1) None [bind; Listen fd 16; CloseSock fd], port)
          else (Opened 0 (Some fd) [bind; Listen fd 16], port)
      end
  end.

(** The answers of [select], [accept] and [malloc]. *)
Record accept_env := AcceptEnv {
  ae_select : Z;
  ae_accept : option Z;
  ae_malloc : bool
}.

Definition osal_accept (env : accept_env) (listener timeout_ms : Z) : opened :=
  let wait := Select listener (select_timeout timeout_ms) in
  if ae_select env =? 0 then Opened 0 None [wait]
  else if ae_select env <? 0 then Opened (-1) None [wait]
  else
  match ae_accept env with
  | None => Opened (-1) None [wait]
  | Some fd =>
      if negb (ae_malloc env) then Opened (-1) None [wait; CloseSock fd] else Opened 1 (Some fd) [wait]
  end.

(** [connect] succeeds at once, goes on in the background, or fails. *)
Inductive connect_answer := ConnectDone | ConnectPending | ConnectFailed.

(** [ce_error]: SO_ERROR after the wait. *)
Record connect_env := ConnectEnv {
  ce_socket : option Z;
  ce_connect : connect_answer;
  ce_select : Z;
  ce_error : Z;
  ce_malloc : bool
}.

Definition osal_connect_loopback (env : connect_env) (port timeout_ms : Z) : opened :=
  match ce_socket env with
  | None => Opened (-1) None []
  | Some fd =>
      let start := [SetNonblocking fd true; Connect fd INADDR_LOOPBACK port] in
      let finish calls :=
        if negb (ce_malloc env) then Opened (-1) None (calls ++ [SetNonblocking fd false; CloseSock fd])
        else Opened 0 (Some fd) (calls ++ [SetNonblocking fd false]) in
      match ce_connect env with
      | ConnectDone => finish start
      | ConnectFailed => Opened (-1) None (start ++ [CloseSock fd])
      | ConnectPending =>
          let waited := start ++ [Select fd (select_timeout timeout_ms)] in
          if ce_select env <=? 0 then Opened (-1) None (waited ++ [CloseSock fd])
          else if negb (ce_error env =? 0) then Opened (-1) None (waited ++ [CloseSock fd])
          else finish waited
      end
  end.

(** * What the layer promises *)

(** The timeout of a wait is well formed and the one asked for. *)
Lemma make_timeval_exact ms :
  0 <= ms -> 0 <= tv_usec (make_timeval ms) < 1000000 /\
  tv_sec (make_timeval ms) * 1000000 + tv_usec (make_timeval ms) = ms * 1000.
Proof.
  intros Hm. unfold make_timeval. cbn [tv_sec tv_usec].
  pose proof (Z.quot_rem' ms 1000). pose proof (Z.rem_bound_pos ms 1000 Hm ltac:(lia)). lia.
Qed.

(** The descriptors a list of calls closes, and whether it stays on this machine. *)
Definition closed_socks (calls : list sock_call) : list Z :=
  omap (fun c => match c with CloseSock fd => Some fd | _ => None end) calls.
Definition is_loopback (c : sock_call) : Prop :=
  match c with Bind _ addr _ | Connect _ addr _ => addr = INADDR_LOOPBACK | _ => True end.

(** Every descriptor the system hands out is either closed, once, or in the socket
    returned, and there is a socket exactly when the return value says so; nothing is
    bound or connected to but the loopback address. *)
Definition accounted (success : Z) (obtained : option Z) (o : opened) : Prop :=
  option_list obtained = closed_socks (op_calls o) ++ option_list (op_socket o) /\
  (op_return o = success <-> is_Some (op_socket o)) /\ Forall is_loopback (op_calls o).

(** What [accept] answers is a descriptor only when it was called. *)
Definition accepted (env : accept_env) : option Z := if 0 <? ae_select env then ae_accept env else None.

Ltac solve_accounted :=
  split; [reflexivity|split; [split; [discriminate || by eexists|by intros [? ?] || done]|repeat constructor]].

Theorem sockets_accounted lenv port aenv listener cenv timeout_ms :
  accounted 0 (le_socket lenv) (osal_listen_loopback lenv port).1 /\
  accounted 1 (accepted aenv) (osal_accept aenv listener timeout_ms) /\
  accounted 0 (ce_socket cenv) (osal_connect_loopback cenv port timeout_ms).
Proof.
  split_and!.
  - destruct lenv as [[fd|] [] [p|] [] []]; solve_accounted.
  - destruct aenv as [s a m]. unfold accepted, osal_accept. cbn [ae_select ae_accept ae_malloc].
    destruct (Z.ltb_spec 0 s), (Z.eqb_spec s 0), (Z.ltb_spec s 0); try lia; try solve_accounted.
    destruct a as [fd|], m; solve_accounted.
  - destruct cenv as [[fd|] [] s e m]; unfold osal_connect_loopback; cbn [ce_socket ce_connect ce_select ce_error ce_malloc].
    all: try solve_accounted; try (destruct m; solve_accounted).
    destruct (s <=? 0); [solve_accounted|]. destruct (e =? 0); cbn [negb]; [destruct m; solve_accounted|solve_accounted].
Qed.

(** A connection that is handed out blocks again. *)
Lemma connection_blocks env port timeout_ms fd :
  op_socket (osal_connect_loopback env port timeout_ms) = Some fd ->
  last (op_calls (osal_connect_loopback env port timeout_ms)) = Some (SetNonblocking fd false).
Proof.
  unfold osal_connect_loopback. destruct (ce_socket env) as [fd'|]; [|done]. cbv zeta.
  intros H. repeat case_match; simplify_eq/=; done.
Qed.
