(* ===== verification/Windows.v ===== *)
(** * Windows: command lines, environment blocks and file times
    (the Windows branches of src/osal/osal_process.c, osal_file.c and osal_clock.c)

    A child gets its arguments as one string, which its run-time library splits again:
    the string [build_command_line] makes, against the documented rules for splitting.
    Then the environment block, the directories made, the conversion of file times and
    the exit code of a process. *)

From Stdlib Require Import (notations) Strings.String.
From S2P Require Import Prelude Types Osal.

(** ** osal_process.c *)

(** One character more at [out + pos]; what is written so far is the list. *)
Definition put_char (cap : Z) (out : list Z) (c : Z) : option (list Z) :=
  if cap <=? Z.of_nat (length out) + 1 then None else Some (out ++ [c]).
Fixpoint put_chars (cap : Z) (out : list Z) (s : list Z) : option (list Z) :=
  match s with
  | [] => Some out
  | c :: s => match put_char cap out c with None => None | Some out => put_chars cap out s end
  end.

Definition put_arg (cap : Z) (out : list Z) (arg : list Z) : option (list Z) :=
  match put_char cap out 34 with
  | None => None
  | Some out =>
      match put_chars cap out arg with
      | None => None
      | Some out => put_char cap out 34
      end
  end.

(** The loop over argv from index [i]. *)
Fixpoint put_args (cap : Z) (i : nat) (out : list Z) (argv : list (list Z)) : option (list Z) :=
  match argv with
  | [] => Some out
  | arg :: argv =>
      match (if (0 <? i)%nat then put_char cap out 32 else Some out) with
      | None => None
      | Some out =>
          match put_arg cap out arg with
          | None => None
          | Some out => put_args cap (S i) out argv
          end
      end
  end.

(** The bytes left in [out], [None] when the call returns 0. *)
Definition build_command_line (cap : Z) (argv : list (list Z)) : option (list Z) :=
  match put_args cap 0 [] argv with
  | None => None
  | Some out => if cap <=? Z.of_nat (length out) then None else Some (out ++ [0])
  end.

Definition CMDLINE_CAP : Z := 8192.

(** The block that is allocated, [None] when [envp] is NULL or there is no memory. *)
Definition build_env_block (malloc : bool) (envp : option (list (list Z))) : option (list Z) :=
  match envp with
  | None => None
  | Some envp => if malloc then Some (concat (map (fun e => e ++ [0]) envp) ++ [0]) else None
  end.

Definition STILL_ACTIVE : Z := 259.
(** [code]: what [GetExitCodeProcess] answers. *)
Definition win_process_is_alive (code : option Z) : bool :=
  match code with None => false | Some code => code =? STILL_ACTIVE end.

Inductive wait_answer := WAIT_OBJECT_0 | WAIT_TIMEOUT | WAIT_FAILED.
(** The milliseconds [WaitForSingleObject] is given, [None] for INFINITE. *)
Definition wait_milliseconds (timeout_ms : Z) : option Z := if timeout_ms <? 0 then None else Some timeout_ms.
(** The C return value and [*out_exit_code]; [code] stays 0 if it cannot be asked. *)
Definition win_process_wait (r : wait_answer) (code : option Z) : Z * option Z :=
  match r with
  | WAIT_TIMEOUT => (0, None)
  | WAIT_FAILED => (-1, None)
  | WAIT_OBJECT_0 => (1, Some (i32 (default 0 code)))
  end.

(** ** osal_file.c, osal_clock.c *)

Definition is_separator (c : Z) : bool := (c =? 92) || (c =? 47).
(** The loop makes a directory of every prefix but the bare drive. *)
Definition win_cut (path : list Z) (i : nat) : bool :=
  match path !! i with
  | Some c => is_separator c && (negb (bool_decide (path !! 1%nat = Some 58)) || (2 <? i)%nat)
  | None => false
  end.
Definition win_mkdir_calls (path : list Z) : list (list Z) := prefixes win_cut path (length path - 1) ++ [path].
Definition win_mkdir_p (path : list Z) : option (list (list Z)) :=
  if (length path =? 0)%nat || (1024 <=? length path)%nat then None else Some (win_mkdir_calls path).

(** A FILETIME counts 100 ns from the year 1601. *)
Record filetime := Filetime { dwLowDateTime : Z; dwHighDateTime : Z }.
Definition quad_part (ft : filetime) : Z := Z.lor (Z.shiftl (dwHighDateTime ft) 32) (dwLowDateTime ft).
Definition epoch_diff_100ns : Z := 116444736000000000.

(** [None]: the path does not convert or the attributes cannot be read. *)
Definition win_file_mtime_ns (ftLastWriteTime : option filetime) : Z :=
  match ftLastWriteTime with
  | None => -1
  | Some ft =>
      if quad_part ft <? epoch_diff_100ns then 0
      else i64 (u64 (u64 (quad_part ft - epoch_diff_100ns) * 100))
  end.
Definition win_realtime_ns (ft : filetime) : Z :=
  let hundred_ns := u64 (quad_part ft - epoch_diff_100ns) in i64 (u64 (hundred_ns * 100)).

(** * Splitting a command line

    The documented rules of the C run-time library.  Arguments are separated by blanks
    outside quotes.  The first is the program's name, in which a backslash is an
    ordinary character.  In the others [2n] backslashes before a quote are [n] of them
    and the quote opens or closes; [2n + 1] are [n] and a quote; two quotes inside
    quotes are one; any other backslash is itself. *)

Definition is_blank (c : Z) : bool := (c =? 32) || (c =? 9).
Definition emit (cur : option (list Z)) : list (list Z) := match cur with Some a => [a] | None => [] end.
Definition grow (cur : option (list Z)) (s : list Z) : option (list Z) := Some (default [] cur ++ s).
Definition backslashes (bs : nat) : list Z := replicate bs 92.

(** [bs] backslashes were just read; [cur] is the argument begun, if one is. *)
Fixpoint split_args (inq : bool) (bs : nat) (cur : option (list Z)) (l : list Z) : list (list Z) :=
  match l with
  | [] => emit (if (bs =? 0)%nat then cur else grow cur (backslashes bs))
  | c :: l' =>
      if c =? 92 then split_args inq (S bs) cur l'
      else if c =? 34 then
        if Nat.odd bs then split_args inq 0 (grow cur (backslashes (bs / 2) ++ [34])) l'
        else
        match l' with
        | c' :: l'' =>
            if inq && (c' =? 34) then split_args true 0 (grow cur (backslashes (bs / 2) ++ [34])) l''
            else split_args (negb inq) 0 (grow cur (backslashes (bs / 2))) l'
        | [] => emit (grow cur (backslashes (bs / 2)))
        end
      else
        let cur := if (bs =? 0)%nat then cur else grow cur (backslashes bs) in
        if is_blank c && negb inq then emit cur ++ split_args false 0 None l'
        else split_args inq 0 (grow cur [c]) l'
  end.

(** The program's name, and what follows it. *)
Fixpoint split_program (inq : bool) (name : list Z) (l : list Z) : list Z * list Z :=
  match l with
  | [] => (name, [])
  | c :: l =>
      if c =? 34 then split_program (negb inq) name l
      else if is_blank c && negb inq then (name, l)
      else split_program inq (name ++ [c]) l
  end.

(** The line is a C string. *)
Definition split_command_line (l : list Z) : list (list Z) :=
  let '(name, rest) := split_program false [] (c_str l) in name :: split_args false 0 None rest.

(** * Theorems *)

(** ** The command line *)

Definition quoted (arg : list Z) : list Z := 34 :: arg ++ [34].
Definition later_args (args : list (list Z)) : list Z := concat (map (fun arg => 32 :: quoted arg) args).
Definition command_line (argv : list (list Z)) : list Z :=
  match argv with [] => [] | arg :: args => quoted arg ++ later_args args end.

Section bounded.
Context (cap : Z).

(** [r] is [out] with [s] behind it, or nothing because the buffer ends before that. *)
Definition appends (out s : list Z) (r : option (list Z)) : Prop :=
  r = if Z.of_nat (length out + length s) <? cap then Some (out ++ s) else None.

Lemma put_char_appends out c : appends out [c] (put_char cap out c).
Proof.
  unfold appends, put_char. cbn [length].
  destruct (Z.leb_spec cap (Z.of_nat (length out) + 1)), (Z.ltb_spec (Z.of_nat (length out + 1)) cap); done || lia.
Qed.

(** Appending in two steps is appending both. *)
Lemma appends_bind out s s' r f :
  appends out s r -> (forall out', Z.of_nat (length out') < cap -> appends out' s' (f out')) ->
  appends out (s ++ s') (match r with None => None | Some out' => f out' end).
Proof.
  unfold appends. intros -> Hf. rewrite length_app.
  destruct (Z.ltb_spec (Z.of_nat (length out + length s)) cap) as [H|H].
  - rewrite Hf by (rewrite length_app; lia). rewrite length_app, Nat.add_assoc. by rewrite app_assoc.
  - by destruct (Z.ltb_spec (Z.of_nat (length out + (length s + length s'))) cap); [lia|].
Qed.

Lemma appends_nil out : Z.of_nat (length out) < cap -> appends out [] (Some out).
Proof. intros H. unfold appends. rewrite Nat.add_0_r, app_nil_r. by rewrite (proj2 (Z.ltb_lt _ _) H). Qed.

Lemma put_chars_appends out s : Z.of_nat (length out) < cap -> appends out s (put_chars cap out s).
Proof.
  revert out. induction s as [|c s IH]; intros out Hout; [by apply appends_nil|].
  apply (appends_bind out [c] s); [apply put_char_appends|exact IH].
Qed.

Lemma put_arg_appends out arg : appends out (quoted arg) (put_arg cap out arg).
Proof.
  apply (appends_bind out [34] (arg ++ [34])); [apply put_char_appends|]. intros out' H'.
  apply appends_bind; [by apply put_chars_appends|]. intros. apply put_char_appends.
Qed.

Lemma put_args_later i out argv :
  Z.of_nat (length out) < cap -> appends out (later_args argv) (put_args cap (S i) out argv).
Proof.
  revert i out. induction argv as [|arg argv IH]; intros i out Hout; [by apply appends_nil|].
  cbn [put_args Nat.ltb Nat.leb]. change (later_args (arg :: argv)) with ([32] ++ (quoted arg ++ later_args argv)).
  apply appends_bind; [apply put_char_appends|]. intros out' H'.
  apply appends_bind; [apply put_arg_appends|]. intros. by apply IH.
Qed.
End bounded.

(** The line is built exactly when it fits with its terminator, and then it is every
    argument in quotes. *)
Theorem build_command_line_spec cap argv :
  0 < cap ->
  build_command_line cap argv =
  if Z.of_nat (length (command_line argv)) <? cap then Some (command_line argv ++ [0]) else None.
Proof.
  intros Hcap. assert (H : appends cap [] (command_line argv) (put_args cap 0 [] argv)).
  { destruct argv as [|arg argv]; [by apply appends_nil|]. cbn [put_args Nat.ltb Nat.leb].
    apply appends_bind; [apply put_arg_appends|]. intros. by apply put_args_later. }
  unfold build_command_line. rewrite H. cbn [length app]. rewrite Nat.add_0_l.
  destruct (Z.ltb_spec (Z.of_nat (length (command_line argv))) cap); [|done].
  by destruct (Z.leb_spec cap (Z.of_nat (length (command_line argv)))); [lia|].
Qed.

(** ** Reading it back *)

Definition no_quote (s : list Z) : Prop := Forall (fun c => c <> 34) s.

Lemma backslashes_S bs s : backslashes (S bs) ++ s = backslashes bs ++ 92 :: s.
Proof. unfold backslashes. by rewrite replicate_S_end, <- app_assoc. Qed.

Lemma grow_grow cur s s' : grow (grow cur s) s' = grow cur (s ++ s').
Proof. unfold grow. cbn. by rewrite app_assoc. Qed.

(** Inside quotes, text without a quote is taken as it is, the backslashes at its end
    held back. *)
Lemma split_quoted_text s bs a l :
  no_quote s -> exists bs' a', split_args true bs (Some a) (s ++ l) = split_args true bs' (Some a') l
  /\ a' ++ backslashes bs' = a ++ backslashes bs ++ s
  /\ (bs' = O <-> last (backslashes bs ++ s) <> Some 92).
Proof.
  revert bs a. induction s as [|c s IH]; intros bs a Hs.
  - exists bs, a. rewrite app_nil_r. split_and!; [done|done|]. destruct bs; [done|].
    unfold backslashes. rewrite replicate_S_end, last_snoc. split; [done|intros H; by destruct (H eq_refl)].
  - apply Forall_cons in Hs as [Hc Hs]. cbn [app split_args]. destruct (Z.eqb_spec c 92) as [->|H92].
    + destruct (IH (S bs) a Hs) as (bs' & a' & -> & Ha & Hl). exists bs', a'.
      rewrite backslashes_S in Ha, Hl. done.
    + rewrite (proj2 (Z.eqb_neq c 34) Hc), andb_false_r.
      destruct (IH O (a ++ backslashes bs ++ [c]) Hs) as (bs' & a' & E & Ha & Hl). exists bs', a'. split_and!.
      * rewrite <- E. f_equal. destruct bs; [done|]. exact (grow_grow (Some a) _ _).
      * rewrite Ha. cbn [backslashes replicate app]. by rewrite <- !app_assoc.
      * rewrite Hl. cbn [backslashes replicate app]. rewrite last_app, last_cons.
        destruct (last s); [done|]. split; [intros _; congruence|done].
Qed.

(** An argument that has begun only grows. *)
Lemma split_grows n l inq bs a :
  (length l <= n)%nat -> exists x r, split_args inq bs (Some a) l = (a ++ x) :: r.
Proof.
  revert l inq bs a. induction n as [|n IH]; intros l inq bs a Hl.
  all: destruct l as [|c l]; [|cbn in Hl; try lia].
  1, 2: cbn [split_args]; destruct (bs =? 0)%nat; [exists [], []; by rewrite app_nil_r|by eexists _, []].
  assert (Hmore : forall inq bs s l', (length l' <= n)%nat -> exists x r, split_args inq bs (grow (Some a) s) l' = (a ++ x) :: r).
  { intros inq' bs' s l' Hl'. destruct (IH l' inq' bs' (a ++ s) Hl') as (x & r & E). rewrite <- app_assoc in E. by eexists _, _. }
  cbn [split_args]. destruct (c =? 92); [apply IH; lia|]. destruct (c =? 34).
  - destruct (Nat.odd bs); [apply Hmore; lia|]. destruct l as [|c' l]; [by eexists _, []|].
    cbn in Hl. destruct (inq && (c' =? 34)); apply Hmore; cbn; lia.
  - destruct (is_blank c && negb inq).
    + destruct (bs =? 0)%nat; [exists [], (split_args false 0 None l); by rewrite app_nil_r|by eexists _, _].
    + destruct (bs =? 0)%nat; [apply Hmore; lia|]. rewrite grow_grow. apply Hmore. lia.
Qed.

Lemma split_closing_even bs a l :
  Nat.odd bs = false -> head l <> Some 34 ->
  split_args true bs (Some a) (34 :: l) = split_args false 0 (Some (a ++ backslashes (bs / 2))) l.
Proof.
  intros Hbs Hl. cbn [split_args Z.eqb Pos.eqb]. rewrite Hbs. destruct l as [|c l]; [done|].
  destruct (Z.eqb_spec c 34) as [->|]; [by destruct Hl|done].
Qed.
Lemma split_closing_odd bs a l :
  Nat.odd bs = true -> split_args true bs (Some a) (34 :: l) = split_args true 0 (Some (a ++ backslashes (bs / 2) ++ [34])) l.
Proof. intros Hbs. cbn [split_args Z.eqb Pos.eqb]. by rewrite Hbs. Qed.

Lemma head_later args : head (later_args args) <> Some 34.
Proof. by destruct args. Qed.
(** What follows an argument ends it. *)
Lemma split_later a args :
  split_args false 0 (Some a) (later_args args) = a :: split_args false 0 None (drop 1 (later_args args)).
Proof. by destruct args. Qed.
Lemma split_opening arg l :
  split_args false 0 None (quoted arg ++ l) = split_args true 0 (Some []) (arg ++ 34 :: l).
Proof. unfold quoted. cbn [app]. rewrite <- app_assoc. cbn [app]. by destruct arg. Qed.

(** The arguments after the program's name come back exactly when none of them ends in a
    backslash. *)
Lemma split_args_back args :
  Forall no_quote args ->
  split_args false 0 None (drop 1 (later_args args)) = args <-> Forall (fun arg => last arg <> Some 92) args.
Proof.
  induction args as [|arg args IH]; intros Hq; [done|]. apply Forall_cons in Hq as [Hq Hqs].
  change (drop 1 (later_args (arg :: args))) with (quoted arg ++ later_args args).
  rewrite split_opening, Forall_cons.
  destruct (split_quoted_text arg 0 [] (34 :: later_args args) Hq) as (bs & a & -> & Ha & Hl).
  change (backslashes 0 ++ arg) with arg in Ha, Hl. cbn [app] in Ha. rewrite <- Hl. destruct (Nat.odd bs) eqn:Hbs.
  - rewrite split_closing_odd by done. split; [|intros [-> _]; done]. intros E. exfalso.
    destruct (split_grows _ (later_args args) true 0 (a ++ backslashes (bs / 2) ++ [34]) (le_n _)) as (x & r & E').
    rewrite E' in E. injection E as E _. unfold no_quote in Hq. rewrite <- E, !Forall_app, Forall_singleton in Hq. tauto.
  - rewrite split_closing_even by (done || apply head_later). rewrite split_later.
    destruct (Nat.eq_dec bs O) as [->|Hnz].
    + cbn in Ha. rewrite app_nil_r in Ha. cbn. rewrite app_nil_r, Ha. rewrite <- (IH Hqs).
      split; [by intros [= ->]|by intros [_ ->]].
    + split; [|tauto]. intros E. exfalso. injection E as E _. rewrite <- Ha in E. apply app_inv_head in E.
      apply (f_equal length) in E. unfold backslashes in E. rewrite !length_replicate in E.
      change ((bs / 2)%nat = bs) in E. pose proof (Nat.div_lt bs 2 ltac:(lia) ltac:(lia)). lia.
Qed.

Lemma split_program_quoted name s l : no_quote s -> split_program true name (s ++ 34 :: l) = split_program false (name ++ s) l.
Proof.
  revert name. induction s as [|c s IH]; intros name Hs; [by rewrite app_nil_r|]. apply Forall_cons in Hs as [Hc Hs].
  cbn [app split_program]. rewrite (proj2 (Z.eqb_neq c 34) Hc), andb_false_r, IH by done. by rewrite <- app_assoc.
Qed.

(** A child is given the arguments its parent meant exactly when none of them ends in a
    backslash; that they hold no quote is not enough. *)
Theorem command_line_survives cap prog args line :
  0 < cap -> Forall (Forall (fun c => c <> 0)) (prog :: args) -> Forall no_quote (prog :: args) ->
  build_command_line cap (prog :: args) = Some line ->
  split_command_line line = prog :: args <-> Forall (fun arg => last arg <> Some 92) args.
Proof.
  intros Hcap Hz [Hq Hqs]%Forall_cons. rewrite build_command_line_spec by done.
  destruct (_ <? cap); [|done]. intros E. assert (line = command_line (prog :: args) ++ [0]) as -> by congruence. clear E.
  unfold split_command_line. rewrite c_str_app_zero.
  2:{ apply Forall_cons in Hz as [Hz Hzs]. cbn. apply Forall_cons. split; [done|]. rewrite <- app_assoc, Forall_app. split; [done|].
      apply Forall_cons. split; [done|]. apply Forall_concat, Forall_map. eapply Forall_impl; [exact Hzs|].
      intros arg Harg. repeat (apply Forall_cons; split; [done|]). by rewrite Forall_app, Forall_singleton. }
  cbn [command_line]. unfold quoted. cbn [app split_program Z.eqb Pos.eqb negb]. rewrite <- app_assoc. cbn [app].
  rewrite split_program_quoted by done. rewrite <- (split_args_back args) by done.
  assert (E : split_program false ([] ++ prog) (later_args args) = (prog, drop 1 (later_args args))) by (by destruct args).
  rewrite E. split; [by intros [= ->]|by intros ->].
Qed.

(** [--runtime-dir r\ --token t], as a user may write the directory: the token is gone. *)
Example trailing_backslash_swallows_the_token :
  let argv := map ascii_bytes ["worker"%string; "--runtime-dir"%string; "r\"%string; "--token"%string; "t"%string] in
  match build_command_line CMDLINE_CAP argv with
  | Some line => split_command_line line
  | None => []
  end = map ascii_bytes ["worker"%string; "--runtime-dir"%string] ++ [ascii_bytes "r"%string ++ [34] ++ ascii_bytes " --token t"%string].
Proof. reflexivity. Qed.

(** ** The environment *)

(** How a block is read: strings, up to an empty one. *)
Fixpoint read_env (cur : list Z) (l : list Z) : list (list Z) :=
  match l with
  | [] => []
  | c :: l =>
      if c =? 0 then match cur with [] => [] | _ => cur :: read_env [] l end
      else read_env (cur ++ [c]) l
  end.

Lemma read_env_string cur s l :
  Forall (fun c => c <> 0) s -> cur ++ s <> [] -> read_env cur (s ++ 0 :: l) = (cur ++ s) :: read_env [] l.
Proof.
  revert cur. induction s as [|c s IH]; intros cur Hs Hne; cbn.
  - rewrite app_nil_r in *. by destruct cur.
  - apply Forall_cons in Hs as [Hc Hs]. rewrite (proj2 (Z.eqb_neq c 0) Hc), IH, <- app_assoc; [done|done|].
    rewrite <- app_assoc. cbn. by intros ?%app_eq_nil%proj2.
Qed.

(** The block holds the environment, whatever lies behind it in memory. *)
Theorem env_block_reads_back envp block junk :
  Forall (fun e => e <> [] /\ Forall (fun c => c <> 0) e) envp ->
  build_env_block true (Some envp) = Some block -> read_env [] (block ++ junk) = envp.
Proof.
  intros He. cbn. intros [= <-]. rewrite <- app_assoc. induction He as [|e envp [Hne Hz] _ IH]; [done|].
  cbn [map concat]. rewrite <- !app_assoc. cbn [app]. rewrite read_env_string by done. cbn [app]. by f_equal.
Qed.

(** ** Directories *)

Theorem win_mkdir_p_makes {FS : Type} (mkdir : FS -> list Z -> FS) (is_dir : FS -> list Z -> Prop) path fs calls :
  (forall fs p q, is_dir fs q -> is_dir (mkdir fs p) q) ->
  (forall fs p, match last_such is_separator p with None | Some O => True | Some i => is_dir fs (take i p) end ->
     is_dir (mkdir fs p) p) ->
  (forall fs drive, is_dir fs [drive; 58]) ->
  win_mkdir_p path = Some calls -> is_dir (fold_left mkdir calls fs) path.
Proof.
  intros Hkeeps Hmakes Hdrive. unfold win_mkdir_p. destruct (_ || _); [done|]. intros [= <-].
  apply (prefixes_make mkdir is_dir is_separator); [done|done|]. intros fs' p i c Hi Hc Hs.
  unfold win_cut. rewrite Hc, Hs. cbn [andb]. intros [Hcolon Hle]%orb_false_iff.
  apply negb_false_iff, bool_decide_eq_true in Hcolon. apply Nat.ltb_ge in Hle.
  destruct (decide (i = 1%nat)) as [->|]; [by simplify_eq|]. assert (i = 2%nat) as -> by lia.
  destruct p as [|d [|d' p]]; [done|done|]. cbn in Hcolon. injection Hcolon as ->. apply Hdrive.
Qed.

(** ** Times *)

Definition filetime_ok (ft : filetime) : Prop := is_u32 (dwLowDateTime ft) /\ is_u32 (dwHighDateTime ft).

Lemma quad_part_value ft : filetime_ok ft -> quad_part ft = dwHighDateTime ft * 4294967296 + dwLowDateTime ft.
Proof.
  intros [Hl Hh]. unfold quad_part. rewrite <- Z.lxor_lor, <- Z.add_nocarry_lxor.
  1: by rewrite Z.shiftl_mul_pow2.
  all: apply Z.bits_inj'; intros n Hn; rewrite Z.land_spec, Z.bits_0; destruct (Z_lt_le_dec n 32).
  1, 3: by rewrite Z.shiftl_spec_low.
  all: rewrite <- (Z.mod_small (dwLowDateTime ft) (2 ^ 32)), Z.mod_pow2_bits_high by (done || lia); apply andb_false_r.
Qed.

(** Until the year 2262 the time of a file and the clock are the nanoseconds since 1970,
    and so they compare; a time before 1970 counts as 1970. *)
Theorem file_times_exact ft :
  filetime_ok ft -> quad_part ft < epoch_diff_100ns + 92233720368547758 ->
  win_file_mtime_ns (Some ft) = Z.max 0 ((quad_part ft - epoch_diff_100ns) * 100) /\
  (epoch_diff_100ns <= quad_part ft -> win_realtime_ns ft = (quad_part ft - epoch_diff_100ns) * 100).
Proof.
  intros Hok Hq. assert (H : epoch_diff_100ns <= quad_part ft ->
    i64 (u64 (u64 (quad_part ft - epoch_diff_100ns) * 100)) = (quad_part ft - epoch_diff_100ns) * 100).
  { intros Hle. rewrite i64_u64, u64_id; [done|unfold is_u64; lia|].
    rewrite u64_id by (unfold is_u64; lia). unfold is_i64. lia. }
  split; [|exact H]. unfold win_file_mtime_ns. destruct (Z.ltb_spec (quad_part ft) epoch_diff_100ns); [lia|].
  rewrite H by done. lia.
Qed.

(** ** Processes *)

(** A process that has ended is found out, unless it ended with the code that says it has
    not. *)
Lemma win_process_alive_until_exit code :
  win_process_is_alive (Some code) = false <-> code <> STILL_ACTIVE.
Proof. cbn. apply Z.eqb_neq. Qed.
